(* ===== verification/_CoqProject ===== *)
-Q . S2P
Prelude.v
Opcodes.v
Header.v
Frame.v
Payload.v
Connection.v
SenderKeys.v
SenderKeyStore.v
ForwardSecrecy.v
MlsState.v
Storage.v
Sequencer.v
Registry.v
Validator.v
MlsGroup.v
MiniMls.v
RoomManager.v
ServerDriver.v
Server.v
Diagnostics.v
Client.v
Model.v
ModelTheory.v
Conformance.v
Scenario.v
SimServer.v
Tasks.v
Lifecycle.v
EndToEnd.v
WireSafety.v
Invitation.v
Transport.v
TestsProto.v
TestsGroup.v
TestsServer.v
TestsClient.v
TestsHarness.v
TestsTransport.v
TestsProperties.v
TestsChaos.v
FuzzProto.v
FuzzServer.v
FuzzCrypto.v
