(* ===== verification/Prelude.v ===== *)
(** * Lockframe: a verification development

    Lockframe is an end-to-end encrypted group messenger: a Rust workspace with a
    wire protocol ([lockframe-proto]), a session layer and MLS groups
    ([lockframe-core]), sender-key cryptography ([lockframe-crypto]), a client
    ([lockframe-client]) and a server ([lockframe-server]), with a test harness
    ([lockframe-harness]) and fuzz targets ([fuzz/fuzz_targets]).  This library
    translates their logic into executable definitions, keeping names, branches
    and error values, and proves what makes each part correct; where the code does
    not do what it is meant to do, a theorem states what it does.

    ** The system and its model

    Clients and server exchange frames over streams.  The server reads frames
    from a stream, drives one connection state machine per session, and hands
    room frames to a room manager, which validates them against the room's group
    state, has the sequencer give them a log index, and returns actions to store
    and broadcast them.  The client keeps, per room, an MLS group and a store of
    sender keys derived from the group's epoch secret.

    - [Prelude.v]: results with errors and panics ([outcome]), a state-and-error
      monad ([M]) for [&mut self] methods, machine integers, byte strings, number
      formatting, list lemmas, tactics, and the calculus of methods that respect a
      preorder between states ([respects]).
    - [Opcodes.v]: [opcodes.rs], [flags.rs].  [Header.v]: [header.rs],
      [errors.rs].  [Frame.v]: [frame.rs].  [Payload.v]: [payloads/].
    - [Connection.v]: [connection.rs], [error.rs] and the trait of [env.rs], as
      the class [Environment] with its documented guarantees.
    - [SenderKeys.v]: [sender_keys/] (derivation, ratchet, encryption).
      [SenderKeyStore.v]: [sender_key_store.rs].  [ForwardSecrecy.v]: what the
      state of a ratchet tells of the keys it has given out.
    - [MlsState.v], [Validator.v], [MlsGroup.v]: [mls/state.rs],
      [mls/validator.rs], [mls/error.rs], [mls/group.rs], [mls/provider.rs].
      [MiniMls.v]: a small group protocol for tests and witnesses.
    - [Storage.v]: the storage trait as the class [Storage], its contract as the
      class [StorageOk], and the two implementations [memory.rs] and [chaotic.rs]
      as instances of both.
    - [Sequencer.v], [Registry.v], [RoomManager.v], [ServerDriver.v]:
      [sequencer.rs], [registry.rs], [room_manager.rs], [driver.rs] with
      [server_error.rs].  [Server.v]: the stream and action handling of [lib.rs],
      [executor.rs].  [Tasks.v]: the tasks of [lib.rs] that take turns at the lock
      of the driver, as a step relation over all schedules.
      [Lifecycle.v]: [handle_connection] in these schedules, from the entry in the
      table to the report of the close.  [Diagnostics.v]: the [Debug] output and the
      sources of errors.
    - [Client.v]: [client.rs], [event.rs], [error.rs].
    - [Model.v], [ModelTheory.v]: the harness's reference model ([model/]) and its
      theory, with a membership relation as abstract specification.
      [Conformance.v]: the wrapper of [tests/model_based_test.rs] that runs real
      clients beside the model.
    - [Scenario.v]: the scenarios of the harness ([scenario/]).  [SimServer.v]:
      [sim_env.rs] and [sim_server.rs].
    - [EndToEnd.v]: clients and server composed: a frame from a stream through room
      manager, storage and broadcast to the receiving clients, the handshake over a
      stream, and catch-up against the log.  [Invitation.v]: the frames with which a
      client adds members, on the same way.  [WireSafety.v]: what the server writes and
      stores over all schedules.
    - [Transport.v]: the outermost layer: [transport.rs] of server and core,
      [main.rs], [system_env.rs], [mls/provider.rs], the accept loop of [lib.rs],
      and [sim_transport.rs], over the operating system, QUIC
      and the simulator's sockets as parameters.
    - [TestsProto.v], [TestsGroup.v], [TestsServer.v], [TestsClient.v],
      [TestsHarness.v], [TestsTransport.v]: the unit tests in the source files, with
      every assertion, run on the model.  [TestsProperties.v], [TestsChaos.v]: the
      property and chaos tests of [tests/] as theorems over the values they draw.
    - [FuzzProto.v], [FuzzServer.v], [FuzzCrypto.v]: the nine fuzz targets, each a
      module of its own, as functions from the decoded input to a run with all
      assertions; a failed assertion is [Panic].

    In each file a [Module] holds a component: its [struct] is a [Record], its
    [enum]s are [Inductive] types, and each method is one definition.  A method
    that takes [&mut self] is a function in the monad [M] over the component's
    record; a call on a field is [m_zoom], [?] is the monad's bind, a conversion
    of errors is [m_map_err].  Integers are [Z] with wrap-around written out
    where the code's arithmetic is unchecked; the release profile wraps on
    overflow and aborts on panic.  Instants are [Z] nanoseconds.

    ** Other crates

    What the code calls but does not define is a parameter, given as a class:
    the CBOR codec ([Cbor], [PayloadCodec]), hash and cipher primitives
    ([Primitives]), Ed25519 ([Ed25519]), the MLS protocol ([OpenMls]), the operating
    system ([OperatingSystem]), QUIC with TLS ([Quinn]), the simulator's sockets
    ([Turmoil]) and its generator ([Rng]).  The laws that theorems
    need are separate classes and state documented behaviour ([CborOk],
    [PrimitivesOk], [OpenMlsOk], [EnvironmentOk], [ClientCodecOk]); [OpenMlsOk] says
    where it goes beyond the documentation, for calls that fail.
    That a library call does not abort the process is a hypothesis too, kept in
    classes of its own ([ProcessTotal], [RoomTotal], [ReceiveTotal],
    [SessionCodecTotal], and [Sized] for key lengths).  Each has a
    concrete instance ([ToyCodec], [ToyPrimitives], [ToyEnv], [ToyMls],
    [ToyClient], [MiniMls], [SizedPrimitives]), and every numbered theorem with
    hypotheses has a witness that runs it on such an instance.

    ** What is proved

    - Wire format: frames and payloads round-trip, the decoder accepts only what
      the encoder writes, every error names the first failing check, the signed
      bytes determine exactly the fields they are meant to protect, and a stream
      is cut into exactly the frames that were sent.
    - Sessions: the state machine follows its diagram, the handshake completes.
    - Sender keys: [advance_to] against an iterated hash chain, delivery of any
      selection of messages in order, refusal of replay, distinct nonces; from the
      memory of stores exactly the keys that are still to come can be computed,
      unless two of the calls made have the same hash ([forward_secrecy]).
    - Diagnostics: [Debug] output shows of tokens and challenges their lengths and of
      signatures nothing, and counts sessions instead of listing them; an error shows
      the error it was made from.
    - Storage and ordering: the memory and the fault injection around it answer any
      sequence of calls as the calls before imply ([storage_answers_from_history]);
      over any [StorageOk] store the sequencer implements an abstract log, and its
      indices are never reused under any storage faults; catch-up returns exactly the
      requested range.
    - Registry and driver: the two indexes agree, each registry operation refines
      an operation on one relation, connections are the registered sessions, a
      closed session leaves nothing behind.
    - Rooms and groups: frames leave the room manager only after the documented
      checks, of members and signatures where a group state is stored; the state that a
      group exports accepts exactly the frames that the group vouches for
      ([exported_state_vouches]); epochs of rooms never decrease; rooms are never lost.
    - Client: an invariant over all events, authenticity and single delivery of
      messages, the exact effect of a tick, and termination of the mutual
      recursion between frames and sync responses.
    - Tasks: under every schedule logs only grow, stay numbered without gap and
      never overtake their counter ([schedule_log_safe]); a room whose counter has
      passed its log stays so for ever ([wedged_for_good]); a connection goes from the
      table through the driver to its close, can always get there, and is neither
      written to nor known afterwards ([connection_lifecycle]); whatever is written
      to a connection is one well-formed frame ([written_frames_decode]).
    - End to end: an accepted message is the next entry of its room's log, reaches
      every other connected subscriber and is delivered by each client that can
      verify and decrypt it ([message_end_to_end]); subscribers are sent the log in
      order ([subscriber_sees_log]); catching up leaves a client where receiving the
      log would have ([catch_up_is_replay]); a connection that says hello is
      authenticated on both sides ([connection_authenticates]).
    - Transport: what configuration the endpoint is bound with
      ([bind_configuration]), and that the accept loop does not end.
    - Reference model: its verdicts are those of a membership relation, deliveries
      are exact, received messages are a part of the log, epochs agree and the
      queue is bounded as documented; real clients conform to it for creations,
      messages and departures ([client_matches_model]).
    - Harness: the outcome of every scenario, and that the simulated server, which
      executes actions before it takes the next frame, loses none.
    - Unit tests: all those translated pass.  The connection's hold for every codec
      and time, the validator's for every signature scheme and all keys, the
      ratchet's, unless they compare keys, for every keyed hash, the properties of
      header and frame for all inputs; the others are run on concrete instances of
      the libraries.  The tests of the simulated transport pass under every schedule
      of their two tasks; one of them relies on reads that are not cut short.
    - Property and chaos tests: hold for all values in the ranges of their
      strategies and beyond; key comparisons up to a collision, which is exhibited.
      The checks of the sequencer's chaos tests look at a log that stays empty.
    - Fuzz targets: no input violates an assertion of the boundary, connection,
      sequencer and storage targets; the CBOR target crashes exactly where the CBOR
      library does; the signature target passes exactly if the one signature that its
      input presents does not verify ([signature_target_exact]); the sender key target
      fails only on a collision, which the theorem exhibits; the room
      manager and pipeline targets never store a frame, so that their checks on
      storage are vacuous.
    - Deviations: client frames are signed over other bytes than are verified, so
      that an honest message closes a room with stored group state
      ([honest_message_closes_room]) and is refused by its readers in one without
      ([sent_message_unreadable]); a room without stored group state takes messages
      in anyone's name ([fresh_room_accepts_anyone]); invitations lose their payload
      on the wire ([invitation_lost]); frames are persisted twice; one sync request
      can stop the server ([sync_request_panics]); the idle timeout does not
      detect a silent peer; group frames cannot be sequenced as built; room frames
      need no handshake; forged messages spend generations; opcodes that do not
      match the MLS message reset or strand sender keys; two tasks that execute
      their actions in the other order lose a frame and the room
      ([race_loses_frame]); the model's queue survives its room
      ([recreated_room_delivers_stale]) and a second creation splits epochs;
      invitations and removals of the conformance wrapper do not reach the client.

    ** Bounds

    The loops that are not structural carry fuel.  [advance_while] has 1002 steps; the code refuses to
    skip more than 1000 generations, and [advance_to_spec] shows that the bound is
    never met.  [read_frames] has one more than the number of bytes; each frame
    takes at least 128.  [handle_frame] has a recursion depth of one more than the
    payload length; a nested frame is at least 128 bytes shorter than the payload
    that holds it, and [frame_handling_terminates] shows that a larger depth makes
    no difference.  [fmt_hex] has the 32 digits of a [u128].  [accept_rounds] of
    [Transport.v] counts rounds of a loop without exit; its theorems are about every
    number of rounds.  [explore] of [TestsTransport.v] searches schedules up to a
    depth at which both tasks have ended, and is proved sound.  [pages] of
    [TestsChaos.v] has one more than the number of frames, since a page that is not
    the last adds one; running out is a failed test, and the test passes.

    ** What is not modelled

    Every component of the workspace has its model; what is left are other crates:
    QUIC and TLS, the MLS protocol, the cryptographic primitives, CBOR, the async
    runtime and the simulator, which are parameters.  The [Debug] output of the room
    manager, which lists hash maps in no given order, and [tracing] output other than
    the log actions are left out, and so are the stack that a recursion takes and the
    failure of a write to a connection, which the code ignores.  The integration tests in [tests/] that are single
    concrete runs are not translated; the theorems on the components cover them.
    Test generators ([proptest], [arbitrary]) are replaced by quantification over
    their values. *)

From Stdlib Require Import ZArith Lia.
From Stdlib.Strings Require Import Byte.
From stdpp Require Export base numbers list gmap strings pretty fin_maps option.

#[global] Open Scope Z_scope.

(** ** Results of fallible code

    [Ok]/[Err] are Rust's [Result]; [Panic] is a run that aborts (a failed
    [expect], an out-of-range slice): the release profile sets
    [panic = "abort"]. *)
Inductive outcome (E A : Type) : Type :=
| Ok (a : A)
| Err (e : E)
| Panic.
Arguments Ok {E A} a.
Arguments Err {E A} e.
Arguments Panic {E A}.

#[global] Instance outcome_eq_dec `{EqDecision E, EqDecision A} : EqDecision (outcome E A).
Proof. solve_decision. Defined.

#[global] Instance outcome_ret {E} : MRet (outcome E) := λ A a, Ok a.
#[global] Instance outcome_bind {E} : MBind (outcome E) :=
  λ A B f r, match r with Ok a => f a | Err e => Err e | Panic => Panic end.
#[global] Instance outcome_fmap {E} : FMap (outcome E) :=
  λ A B f r, match r with Ok a => Ok (f a) | Err e => Err e | Panic => Panic end.

(** [Result::map_err]. *)
Definition map_err {E E' A} (f : E → E') (r : outcome E A) : outcome E' A :=
  match r with Ok a => Ok a | Err e => Err (f e) | Panic => Panic end.

Lemma map_err_total {E E' A} (f : E → E') (x : outcome E A) : x ≠ Panic → map_err f x ≠ Panic.
Proof. by destruct x. Qed.

(** [Option::ok_or]. *)
Definition ok_or {E A} (o : option A) (e : E) : outcome E A :=
  match o with Some a => Ok a | None => Err e end.

Definition is_ok {E A} (r : outcome E A) : bool :=
  match r with Ok _ => true | _ => false end.
Definition is_err {E A} (r : outcome E A) : bool :=
  match r with Err _ => true | _ => false end.

(** ** Methods on [&mut self]

    A method that takes [&mut self] and returns [Result<A, E>] is a function
    from the old state to the result and the new state.  A mutation made before
    an early [return Err(..)] or [?] stays in the state, as it does in Rust. *)
Definition M (S E A : Type) : Type := S → outcome E A * S.

#[global] Instance M_ret {S E} : MRet (M S E) := λ A a s, (Ok a, s).
#[global] Instance M_bind {S E} : MBind (M S E) :=
  λ A B f m s,
    match m s with
    | (Ok a, s') => f a s'
    | (Err e, s') => (Err e, s')
    | (Panic, s') => (Panic, s')
    end.

Definition m_get {S E} : M S E S := λ s, (Ok s, s).
Definition m_modify {S E} (f : S → S) : M S E unit := λ s, (Ok tt, f s).
Definition m_err {S E A} (e : E) : M S E A := λ s, (Err e, s).
(** Lifts a result that does not touch the state (the [?] on a pure call). *)
Definition m_lift {S E A} (r : outcome E A) : M S E A := λ s, (r, s).
(** [.map_err(f)?] on a method call. *)
Definition m_map_err {S E E' A} (f : E → E') (m : M S E A) : M S E' A :=
  λ s, let '(r, s') := m s in (map_err f r, s').
(** A method of a field of the state. *)
Definition m_zoom {S T E A} (get : S → T) (put : T → S → S) (m : M T E A) : M S E A :=
  λ s, let '(r, t) := m (get s) in (r, put t s).
(** Runs a method and hands its result on as a value, so that the caller may
    inspect an error instead of propagating it. *)
Definition m_try {S E E' A} (m : M S E A) : M S E' (outcome E A) :=
  λ s, match m s with
       | (Panic, s') => (Panic, s')
       | (r, s') => (Ok r, s')
       end.

(** Executes a method on every element of a list, left to right, collecting the
    outputs (a [for] loop that extends a vector). *)
Fixpoint m_concat_map {S E A B} (f : A → M S E (list B)) (l : list A) : M S E (list B) :=
  match l with
  | [] => mret []
  | x :: l => ys ← f x; zs ← m_concat_map f l; mret (ys ++ zs)
  end.

(** Executes a method on every element, left to right, for its effect. *)
Fixpoint m_iter {S E A} (f : A → M S E unit) (l : list A) : M S E unit :=
  match l with
  | [] => mret tt
  | x :: l => f x ;; m_iter f l
  end.

(** ** Machine integers

    A [w]-bit unsigned integer is a [Z] in [0, 2^w).  The moduli are literals so
    that [lia] and [vm_compute] see constants. *)
Abbreviation U8_MOD := 256.
Abbreviation U16_MOD := 65536.
Abbreviation U32_MOD := 4294967296.
Abbreviation U64_MOD := 18446744073709551616.
Abbreviation U128_MOD := 340282366920938463463374607431768211456.
Abbreviation U32_MAX := 4294967295.
Abbreviation U64_MAX := 18446744073709551615.

Declare Scope lockframe_scope.
Delimit Scope lockframe_scope with lf.
#[global] Open Scope lockframe_scope.
(** Unchecked [u64]/[usize] addition as the release profile compiles it. *)
Notation "a ⊕64 b" := ((a + b) mod U64_MOD) (at level 50, left associativity) : lockframe_scope.
(** [z as u32]. *)
Definition as_u32 (z : Z) : Z := z mod U32_MOD.

(** [u64::saturating_sub], [u64::saturating_add], [u64::checked_add]. *)
Definition saturating_sub (a b : Z) : Z := Z.max 0 (a - b).
Definition saturating_add_u64 (a b : Z) : Z := Z.min U64_MAX (a + b).
Definition checked_add_u64 (a b : Z) : option Z :=
  if a + b <? U64_MOD then Some (a + b) else None.

(** Lengths of slices and vectors, as [usize]/[u64] values. *)
Definition zlen {A} (l : list A) : Z := Z.of_nat (length l).

(** ** Bytes and byte orders *)
Abbreviation byte := Byte.byte.
Abbreviation bytes := (list Byte.byte).

#[global] Instance byte_eq_dec : EqDecision byte := Byte.byte_eq_dec.

Definition byte_to_Z (b : byte) : Z := Z.of_N (Byte.to_N b).
Definition byte_of_Z (z : Z) : byte :=
  match Byte.of_N (Z.to_N (z mod U8_MOD)) with Some b => b | None => x00 end.

(** [uN::to_le_bytes] / [uN::from_le_bytes] on [n] bytes. *)
Fixpoint to_le_bytes (n : nat) (z : Z) : bytes :=
  match n with
  | O => []
  | S n => byte_of_Z z :: to_le_bytes n (z / U8_MOD)
  end.
Fixpoint from_le_bytes (bs : bytes) : Z :=
  match bs with
  | [] => 0
  | b :: bs => byte_to_Z b + U8_MOD * from_le_bytes bs
  end.

(** [uN::to_be_bytes] / [uN::from_be_bytes]. *)
Definition to_be_bytes (n : nat) (z : Z) : bytes := reverse (to_le_bytes n z).
Definition from_be_bytes (bs : bytes) : Z := from_le_bytes (reverse bs).

#[global] Arguments to_be_bytes : simpl never.
#[global] Arguments from_be_bytes : simpl never.
#[global] Arguments byte_of_Z : simpl never.

(** [bytes[a..b]] of a slice known to be long enough. *)
Definition slice {A} (a b : nat) (l : list A) : list A := take (b - a) (drop a l).

(** A byte string literal [b"..."]. *)
Definition bytes_of_string (s : string) : bytes := String.list_byte_of_string s.

(** ** Text produced by [format!] *)
Definition hex_digit (d : Z) : Ascii.ascii :=
  Ascii.ascii_of_N (Z.to_N (if d <? 10 then 48 + d else 87 + d)).
Definition char_0 : Ascii.ascii := Ascii.ascii_of_N 48.
Definition char_dot : Ascii.ascii := Ascii.ascii_of_N 46.
Definition char_quote : Ascii.ascii := Ascii.ascii_of_N 34.
(** A string between double quotes, as in an escaped literal. *)
Definition quote (s : string) : string := String char_quote (s +:+ String char_quote "").
Fixpoint hex_go (fuel : nat) (z : Z) (acc : string) : string :=
  match fuel with
  | O => acc
  | S fuel =>
      let acc := String (hex_digit (z mod 16)) acc in
      if z / 16 =? 0 then acc else hex_go fuel (z / 16) acc
  end.
(** [{:x}]; 32 digits are enough for every value up to [u128]. *)
Definition fmt_hex (z : Z) : string := hex_go 32 z "".
Fixpoint zeros (n : nat) : string := match n with O => "" | S n => String char_0 (zeros n) end.
(** [{:0wx}]. *)
Definition fmt_hex_pad (w : nat) (z : Z) : string :=
  let s := fmt_hex z in (zeros (w - String.length s) +:+ s).
(** [{:#0wx}]: the width counts the [0x] prefix. *)
Definition fmt_hex_alt (w : nat) (z : Z) : string := ("0x" +:+ fmt_hex_pad (w - 2) z).
(** [{}] of an integer. *)
Definition fmt_int (z : Z) : string := pretty z.

Fixpoint trim_zeros_rev (l : list Ascii.ascii) : list Ascii.ascii :=
  match l with
  | c :: l' => if Ascii.eqb c char_0 then trim_zeros_rev l' else l
  | [] => []
  end.
(** The fractional digits of [frac] out of [10^w], without trailing zeros. *)
Definition fmt_frac (w : nat) (frac : Z) : string :=
  let s := pretty frac in
  let digits := String.list_ascii_of_string (zeros (w - String.length s) +:+ s) in
  match trim_zeros_rev (reverse digits) with
  | [] => ""
  | ds => String char_dot (String.string_of_list_ascii (reverse ds))
  end.
(** [{:?}] of a [Duration] of [ns] nanoseconds. *)
Definition fmt_duration (ns : Z) : string :=
  (if 1000000000 <=? ns then
    pretty (ns / 1000000000) +:+ fmt_frac 9 (ns mod 1000000000) +:+ "s"
  else if 1000000 <=? ns then
    pretty (ns / 1000000) +:+ fmt_frac 6 (ns mod 1000000) +:+ "ms"
  else if 1000 <=? ns then
    pretty (ns / 1000) +:+ fmt_frac 3 (ns mod 1000) +:+ "µs"
  else pretty ns +:+ "ns").

(** ** Time: [Instant]s and [Duration]s in nanoseconds *)
Definition from_secs (s : Z) : Z := s * 1000000000.
(** [Instant - Instant]: saturates at zero. *)
Definition elapsed_since (now earlier : Z) : Z := Z.max 0 (now - earlier).

(** ** Shared lemmas *)
Create HintDb lockframe.
Create Rewrite HintDb lockframe.

Section bytes_lemmas.
Implicit Types (b : byte) (bs : bytes) (z : Z) (n : nat).

Lemma byte_to_Z_range b : 0 ≤ byte_to_Z b < U8_MOD.
Proof. unfold byte_to_Z. pose proof (Byte.to_N_bounded b). lia. Qed.

Lemma byte_of_to_Z b : byte_of_Z (byte_to_Z b) = b.
Proof.
  unfold byte_of_Z. rewrite Z.mod_small by apply byte_to_Z_range.
  unfold byte_to_Z. by rewrite N2Z.id, Byte.of_to_N.
Qed.

Lemma byte_to_of_Z z : byte_to_Z (byte_of_Z z) = z mod U8_MOD.
Proof.
  unfold byte_of_Z, byte_to_Z.
  pose proof (Z.mod_pos_bound z U8_MOD ltac:(lia)) as Hb.
  destruct (Byte.of_N _) as [b|] eqn:E.
  - apply Byte.to_of_N in E. rewrite E. lia.
  - apply Byte.of_N_None_iff in E. lia.
Qed.

#[global] Instance byte_to_Z_inj : Inj (=) (=) byte_to_Z.
Proof. intros b1 b2 H. by rewrite <-(byte_of_to_Z b1), <-(byte_of_to_Z b2), H. Qed.

Lemma length_to_le_bytes n z : length (to_le_bytes n z) = n.
Proof. revert z; induction n as [|n IH]; intros z; cbn; auto. Qed.

Lemma length_to_be_bytes n z : length (to_be_bytes n z) = n.
Proof. unfold to_be_bytes. by rewrite length_reverse, length_to_le_bytes. Qed.

Lemma from_le_bytes_range bs : 0 ≤ from_le_bytes bs < U8_MOD ^ Z.of_nat (length bs).
Proof.
  induction bs as [|b bs IH]; cbn -[Z.of_nat]; [lia|].
  pose proof (byte_to_Z_range b).
  rewrite Nat2Z.inj_succ, Z.pow_succ_r by lia. lia.
Qed.

Lemma from_to_le_bytes n z : from_le_bytes (to_le_bytes n z) = z mod U8_MOD ^ Z.of_nat n.
Proof.
  revert z; induction n as [|n IH]; intros z; cbn -[Z.of_nat Z.modulo].
  { by rewrite Z.mod_1_r. }
  rewrite IH, byte_to_of_Z, Nat2Z.inj_succ, Z.pow_succ_r by lia.
  assert (0 < U8_MOD ^ Z.of_nat n) by (apply Z.pow_pos_nonneg; lia).
  rewrite Z.rem_mul_r by lia. lia.
Qed.

Lemma to_from_le_bytes bs : to_le_bytes (length bs) (from_le_bytes bs) = bs.
Proof.
  induction bs as [|b bs IH]; [done|]. cbn [length from_le_bytes to_le_bytes].
  pose proof (byte_to_Z_range b).
  rewrite (Z.mul_comm U8_MOD), Z.div_add, Z.div_small, Z.add_0_l, IH by lia.
  f_equal. apply (inj byte_to_Z). rewrite byte_to_of_Z, Z.mod_add by lia.
  by apply Z.mod_small.
Qed.

Lemma from_be_bytes_range bs : 0 ≤ from_be_bytes bs < U8_MOD ^ Z.of_nat (length bs).
Proof. unfold from_be_bytes. rewrite <-(length_reverse bs). apply from_le_bytes_range. Qed.

Lemma from_to_be_bytes n z :
  0 ≤ z < U8_MOD ^ Z.of_nat n → from_be_bytes (to_be_bytes n z) = z.
Proof.
  intros. unfold from_be_bytes, to_be_bytes.
  rewrite reverse_involutive, from_to_le_bytes. by apply Z.mod_small.
Qed.

Lemma from_to_be_bytes_mod n z :
  from_be_bytes (to_be_bytes n z) = z mod U8_MOD ^ Z.of_nat n.
Proof. unfold from_be_bytes, to_be_bytes. by rewrite reverse_involutive, from_to_le_bytes. Qed.

Lemma to_from_be_bytes n bs : length bs = n → to_be_bytes n (from_be_bytes bs) = bs.
Proof.
  intros <-. unfold from_be_bytes, to_be_bytes.
  rewrite <-(length_reverse bs), to_from_le_bytes. apply reverse_involutive.
Qed.

Lemma from_be_bytes_inj bs1 bs2 :
  length bs1 = length bs2 → from_be_bytes bs1 = from_be_bytes bs2 → bs1 = bs2.
Proof.
  intros Hl He. rewrite <-(to_from_be_bytes (length bs1) bs1) by done.
  rewrite He. by apply to_from_be_bytes.
Qed.

Lemma to_be_bytes_inj n z1 z2 :
  0 ≤ z1 < U8_MOD ^ Z.of_nat n → 0 ≤ z2 < U8_MOD ^ Z.of_nat n →
  to_be_bytes n z1 = to_be_bytes n z2 → z1 = z2.
Proof.
  intros H1 H2 He. apply (f_equal from_be_bytes) in He.
  by rewrite !from_to_be_bytes in He.
Qed.
End bytes_lemmas.

#[export] Hint Resolve byte_to_Z_range from_be_bytes_range : lockframe.
#[export] Hint Rewrite length_to_be_bytes length_to_le_bytes : lockframe.

Section list_lemmas.
Context {A : Type}.
Implicit Types (l k : list A).

Lemma length_slice (a b : nat) l :
  (a ≤ b ≤ length l)%nat → length (slice a b l) = (b - a)%nat.
Proof. intros. unfold slice. rewrite length_take, length_drop. lia. Qed.

Lemma slice_skip (a b : nat) l k :
  (length l ≤ a)%nat → slice a b (l ++ k) = slice (a - length l) (b - length l) k.
Proof.
  intros. unfold slice. rewrite drop_app_ge by done. f_equal. lia.
Qed.

Lemma slice_here (b : nat) l k : length l = b → slice 0 b (l ++ k) = l.
Proof. intros <-. unfold slice. rewrite drop_0, Nat.sub_0_r. apply take_app_length. Qed.

Lemma slice_glue (a b c : nat) l :
  (a ≤ b ≤ c)%nat → slice a b l ++ slice b c l = slice a c l.
Proof.
  intros. unfold slice.
  replace (drop b l) with (drop (b - a) (drop a l)) by (rewrite drop_drop; f_equal; lia).
  rewrite take_take_drop. f_equal. lia.
Qed.

Lemma slice_from_0 (n : nat) l : slice 0 n l = take n l.
Proof. unfold slice. by rewrite drop_0, Nat.sub_0_r. Qed.

Lemma slice_one (i : nat) l d : (i < length l)%nat → slice i (S i) l = [nth i l d].
Proof.
  intros Hi. unfold slice. replace (S i - i)%nat with 1%nat by lia.
  revert i Hi; induction l as [|x l IH]; intros [|i] Hi; cbn in *; try lia; [done|].
  apply IH. lia.
Qed.

Lemma zlen_nonneg l : 0 ≤ zlen l.
Proof. unfold zlen. lia. Qed.

Lemma zlen_app l k : zlen (l ++ k) = zlen l + zlen k.
Proof. unfold zlen. rewrite length_app. lia. Qed.

Lemma zlen_cons (x : A) l : zlen (x :: l) = 1 + zlen l.
Proof. unfold zlen. cbn. lia. Qed.

Lemma take_app_exact n l k : length l = n → take n (l ++ k) = l.
Proof. intros <-. apply take_app_length. Qed.

Lemma drop_app_exact n l k : length l = n → drop n (l ++ k) = k.
Proof. intros <-. apply drop_app_length. Qed.

Lemma app_inj_length l1 l2 k1 k2 :
  length l1 = length l2 → l1 ++ k1 = l2 ++ k2 → l1 = l2 ∧ k1 = k2.
Proof. intros. by apply app_inj_1. Qed.
End list_lemmas.
#[export] Hint Resolve zlen_nonneg : lockframe.

(** ** Tactics *)

(** Unfolds the monadic plumbing of a method. *)
Ltac munfold :=
  cbv [mbind M_bind mret M_ret outcome_bind outcome_ret fmap outcome_fmap
       m_get m_modify m_err m_lift m_map_err m_zoom m_try map_err ok_or] in *.
(** Unfolds, then follows every branch of the code in hypotheses and goal. *)
Ltac mcases :=
  repeat (munfold; cbn in *; first [progress simplify_eq/= | case_match]).
(** Boolean comparisons of the code as propositions. *)
Ltac bool_to_prop :=
  repeat match goal with
  | H : (_ && _) = true |- _ => apply andb_true_iff in H as [??]
  | H : (_ || _) = false |- _ => apply orb_false_iff in H as [??]
  | H : negb _ = true |- _ => apply negb_true_iff in H
  | H : negb _ = false |- _ => apply negb_false_iff in H
  | H : (_ =? _) = true |- _ => apply Z.eqb_eq in H
  | H : (_ =? _) = false |- _ => apply Z.eqb_neq in H
  | H : (_ <? _) = true |- _ => apply Z.ltb_lt in H
  | H : (_ <? _) = false |- _ => apply Z.ltb_ge in H
  | H : (_ <=? _) = true |- _ => apply Z.leb_le in H
  | H : (_ <=? _) = false |- _ => apply Z.leb_gt in H
  | H : bool_decide _ = true |- _ => apply bool_decide_eq_true in H
  | H : bool_decide _ = false |- _ => apply bool_decide_eq_false in H
  end.

(** ** Methods that respect a relation

    A preorder between the states before and after a method (an invariant is kept,
    a counter does not fall) passes through the monad. *)
Section respects.
Context {S : Type} (R : S → S → Prop).
Definition respects {E A} (m : M S E A) : Prop := ∀ s, R s (snd (m s)).

Context `{!PreOrder R} {E : Type}.
Lemma respects_ret {A} (a : A) : respects (E := E) (mret a).
Proof. intros s. reflexivity. Qed.
Lemma respects_lift {A} (r : outcome E A) : respects (m_lift r).
Proof. intros s. reflexivity. Qed.
Lemma respects_err {A} (e : E) : respects (A := A) (m_err e).
Proof. intros s. reflexivity. Qed.
Lemma respects_get : respects (E := E) m_get.
Proof. intros s. reflexivity. Qed.
Lemma respects_bind {A B} (m : M S E A) (f : A → M S E B) :
  respects m → (∀ a, respects (f a)) → respects (m ≫= f).
Proof.
  intros Hm Hf s. specialize (Hm s). munfold. destruct (m s) as [[a|e|] s']; cbn in *; [|done..].
  etransitivity; [exact Hm|apply Hf].
Qed.
Lemma respects_bind_lift {A B} (r : outcome E A) (f : A → M S E B) :
  (∀ a, r = Ok a → respects (f a)) → respects (m_lift r ≫= f).
Proof. intros Hf s. munfold. destruct r as [a|e|]; [by apply Hf|reflexivity..]. Qed.
Lemma respects_try {E' A} (m : M S E A) : respects m → respects (m_try (E' := E') m).
Proof. intros Hm s. specialize (Hm s). unfold m_try. by destruct (m s) as [[] s']. Qed.
Lemma respects_concat_map {A B} (f : A → M S E (list B)) l :
  (∀ a, a ∈ l → respects (f a)) → respects (m_concat_map f l).
Proof.
  induction l as [|a l IH]; intros Hf; cbn; [apply respects_ret|].
  apply respects_bind; [apply Hf; set_solver|]. intros ys.
  apply respects_bind; [apply IH; set_solver|]. intros zs. apply respects_ret.
Qed.
End respects.
Create HintDb respects.
#[export] Hint Resolve respects_ret respects_lift respects_err respects_get respects_bind respects_try
  respects_concat_map : respects.
#[export] Hint Extern 0 (PreOrder _) => typeclasses eauto : respects.

(** Runs a closed call that succeeds, naming its result and final state; only the
    verdict is computed. *)
Tactic Notation "run_ok" constr(call) "as" ident(a) ident(s) ident(E) :=
  let Hok := fresh in
  assert (is_ok (fst call) = true) as Hok by (vm_compute; reflexivity);
  destruct call as [[a|?|] s] eqn:E; [clear Hok|discriminate Hok|discriminate Hok].
