(* ===== verification/Opcodes.v ===== *)
(** * Operation codes and frame flags

    [lockframe-proto/src/opcodes.rs] and [flags.rs]: the operation codes with
    their 16-bit discriminants, the partial inverse, and the flag byte. *)

From S2P Require Import Prelude.

Module Opcode.

(** [enum Opcode]. *)
Inductive Opcode : Type :=
| Hello | HelloReply | Goodbye | Ping | Pong | SyncRequest | SyncResponse | Error
| KeyPackage | Proposal | Commit | Welcome | GroupInfo | PSKProposal | ReInit | ExternalCommit
| AppMessage | AppReceipt | AppReaction | AppEdit | AppDelete | Typing | Presence
| Redact | Ban | Unban | Kick | Mute | Pin | Report
| FedAppend | FedSync | FedAck | FedNack | FedQuery
| CASPut | CASGet | CASDelete | CASProof.

#[global] Instance Opcode_eq_dec : EqDecision Opcode.
Proof. solve_decision. Defined.

(** [Opcode::to_u16]: the declared discriminant. *)
Definition to_u16 (o : Opcode) : Z :=
  match o with
  | Hello => 0x0001 | HelloReply => 0x0002 | Goodbye => 0x0003 | Ping => 0x0004
  | Pong => 0x0005 | SyncRequest => 0x0006 | SyncResponse => 0x0007 | Error => 0x00FF
  | KeyPackage => 0x1000 | Proposal => 0x1001 | Commit => 0x1002 | Welcome => 0x1003
  | GroupInfo => 0x1004 | PSKProposal => 0x1005 | ReInit => 0x1006 | ExternalCommit => 0x1007
  | AppMessage => 0x2000 | AppReceipt => 0x2001 | AppReaction => 0x2002 | AppEdit => 0x2003
  | AppDelete => 0x2004 | Typing => 0x2005 | Presence => 0x2006
  | Redact => 0x3000 | Ban => 0x3001 | Unban => 0x3002 | Kick => 0x3003
  | Mute => 0x3004 | Pin => 0x3005 | Report => 0x3006
  | FedAppend => 0x4000 | FedSync => 0x4001 | FedAck => 0x4002 | FedNack => 0x4003
  | FedQuery => 0x4004
  | CASPut => 0x5000 | CASGet => 0x5001 | CASDelete => 0x5002 | CASProof => 0x5003
  end.

(** [Opcode::from_u16]. *)
Definition from_u16 (value : Z) : option Opcode :=
  match value with
  | 0x0001 => Some Hello | 0x0002 => Some HelloReply | 0x0003 => Some Goodbye
  | 0x0004 => Some Ping | 0x0005 => Some Pong | 0x0006 => Some SyncRequest
  | 0x0007 => Some SyncResponse | 0x00FF => Some Error
  | 0x1000 => Some KeyPackage | 0x1001 => Some Proposal | 0x1002 => Some Commit
  | 0x1003 => Some Welcome | 0x1004 => Some GroupInfo | 0x1005 => Some PSKProposal
  | 0x1006 => Some ReInit | 0x1007 => Some ExternalCommit
  | 0x2000 => Some AppMessage | 0x2001 => Some AppReceipt | 0x2002 => Some AppReaction
  | 0x2003 => Some AppEdit | 0x2004 => Some AppDelete | 0x2005 => Some Typing
  | 0x2006 => Some Presence
  | 0x3000 => Some Redact | 0x3001 => Some Ban | 0x3002 => Some Unban
  | 0x3003 => Some Kick | 0x3004 => Some Mute | 0x3005 => Some Pin | 0x3006 => Some Report
  | 0x4000 => Some FedAppend | 0x4001 => Some FedSync | 0x4002 => Some FedAck
  | 0x4003 => Some FedNack | 0x4004 => Some FedQuery
  | 0x5000 => Some CASPut | 0x5001 => Some CASGet | 0x5002 => Some CASDelete
  | 0x5003 => Some CASProof
  | _ => None
  end.

Lemma from_to_u16 o : from_u16 (to_u16 o) = Some o.
Proof. by destruct o. Qed.

Lemma to_u16_range o : 0 < to_u16 o < U16_MOD.
Proof. destruct o; cbn; lia. Qed.

Lemma from_u16_Some v o : from_u16 v = Some o → to_u16 o = v.
Proof.
  intros H. unfold from_u16 in H. repeat case_match; by simplify_eq/=.
Qed.

#[global] Instance to_u16_inj : Inj (=) (=) to_u16.
Proof. intros o1 o2 H. apply (f_equal from_u16) in H. rewrite !from_to_u16 in H. by simplify_eq. Qed.

(** [from_u16] inverts [to_u16] exactly: a 16-bit value parses to an opcode
    if and only if it is that opcode's discriminant, so no two opcodes share a
    value and an unknown value is always rejected. *)
Theorem from_u16_exact v o : from_u16 v = Some o ↔ to_u16 o = v.
Proof. split; [apply from_u16_Some|]. intros <-. apply from_to_u16. Qed.

End Opcode.
Abbreviation Opcode := Opcode.Opcode.
#[export] Hint Rewrite Opcode.from_to_u16 : lockframe.
#[export] Hint Resolve Opcode.to_u16_range : lockframe.

Module FrameFlags.
(** The [u8] bit set of [flags.rs]; every byte is a value ([from_bits_retain]). *)
Record FrameFlags : Type := { bits : byte }.

Definition COMPRESSED : FrameFlags := {| bits := byte_of_Z 0x01 |}.
Definition FRAGMENTED : FrameFlags := {| bits := byte_of_Z 0x02 |}.
Definition PRIORITY : FrameFlags := {| bits := byte_of_Z 0x04 |}.
Definition FEDERATED : FrameFlags := {| bits := byte_of_Z 0x08 |}.
Definition EXTERNAL : FrameFlags := {| bits := byte_of_Z 0x10 |}.
Definition EPHEMERAL : FrameFlags := {| bits := byte_of_Z 0x20 |}.
Definition REDACTABLE : FrameFlags := {| bits := byte_of_Z 0x40 |}.
Definition RESERVED : FrameFlags := {| bits := byte_of_Z 0x80 |}.

(** [FrameFlags::from_byte], [to_byte] and [default]. *)
Definition from_byte (b : byte) : FrameFlags := {| bits := b |}.
Definition to_byte (f : FrameFlags) : byte := bits f.
Definition default : FrameFlags := {| bits := Byte.x00 |}.
End FrameFlags.
Abbreviation FrameFlags := FrameFlags.FrameFlags.
