(* ===== verification/Header.v ===== *)
(** * Frame headers

    [lockframe-proto/src/errors.rs] and [header.rs]: the protocol errors, the
    fixed 128-byte big-endian header, its parser, serializer, accessors and
    setters. *)

From S2P Require Import Prelude Opcodes.

(** [enum ProtocolError]. *)
Inductive ProtocolError : Type :=
| FrameTooShort (expected actual : Z)
| InvalidMagic
| UnsupportedVersion (version : Z)
| PayloadTooLarge (size max : Z)
| FrameTruncated (expected actual : Z)
| CborEncode (msg : string)
| CborDecode (msg : string)
| InvalidOpcode (opcode : Z)
| PayloadSizeMismatch (header actual : Z)
| InvalidFlags (flags : Z).

#[global] Instance ProtocolError_eq_dec : EqDecision ProtocolError.
Proof. solve_decision. Defined.

(** The [Display] text of a [ProtocolError] ([thiserror] attributes). *)
Definition protocol_error_to_string (e : ProtocolError) : string :=
  match e with
  | FrameTooShort expected actual =>
      "frame too short: expected at least " +:+ fmt_int expected +:+ " bytes, got "
        +:+ fmt_int actual
  | InvalidMagic => "invalid magic number: expected 0x4C4F4652 (" +:+ quote "LOFR" +:+ ")"
  | UnsupportedVersion v => "unsupported protocol version: " +:+ fmt_int v
  | PayloadTooLarge size max =>
      "payload too large: " +:+ fmt_int size +:+ " bytes exceeds maximum " +:+ fmt_int max
  | FrameTruncated expected actual =>
      "frame truncated: header claims " +:+ fmt_int expected +:+ " payload bytes, but only "
        +:+ fmt_int actual +:+ " available"
  | CborEncode m => "failed to encode CBOR: " +:+ m
  | CborDecode m => "failed to decode CBOR: " +:+ m
  | InvalidOpcode o => "invalid opcode: " +:+ fmt_hex_alt 6 o
  | PayloadSizeMismatch header actual =>
      "payload size mismatch: header says " +:+ fmt_int header +:+ " bytes, actual "
        +:+ fmt_int actual
  | InvalidFlags f => "invalid flags: " +:+ fmt_hex_alt 4 f
  end.

Module FrameHeader.

(** [struct FrameHeader] ([repr(C, packed)]): the fields in layout order, each
    multi-byte field as its raw big-endian bytes. *)
Record FrameHeader : Type := {
  h_magic : bytes;
  h_version : byte;
  h_flags : byte;
  h_opcode : bytes;
  h_request_id : bytes;
  h_payload_size : bytes;
  h_room_id : bytes;
  h_sender_id : bytes;
  h_context_id : bytes;
  h_hlc_timestamp : bytes;
  h_epoch : bytes;
  h_signature : bytes;
}.

#[global] Instance FrameHeader_eq_dec : EqDecision FrameHeader.
Proof. solve_decision. Defined.

(** The array lengths of the struct's field types. *)
Record wf (h : FrameHeader) : Prop := {
  wf_magic : length (h_magic h) = 4%nat;
  wf_opcode : length (h_opcode h) = 2%nat;
  wf_request_id : length (h_request_id h) = 4%nat;
  wf_payload_size : length (h_payload_size h) = 4%nat;
  wf_room_id : length (h_room_id h) = 16%nat;
  wf_sender_id : length (h_sender_id h) = 8%nat;
  wf_context_id : length (h_context_id h) = 8%nat;
  wf_hlc_timestamp : length (h_hlc_timestamp h) = 8%nat;
  wf_epoch : length (h_epoch h) = 8%nat;
  wf_signature : length (h_signature h) = 64%nat;
}.

(** [FrameHeader::SIZE], [MAGIC], [VERSION], [MAX_PAYLOAD_SIZE]. *)
Definition SIZE : Z := 128.
Definition MAGIC : Z := 0x4C4F4652.
Definition VERSION : Z := 0x01.
Definition MAX_PAYLOAD_SIZE : Z := 16 * 1024 * 1024.

Definition byte_at (i : nat) (bs : bytes) : byte := nth i bs Byte.x00.

(** The reinterpretation of the first 128 bytes as the packed struct
    ([ref_from_prefix] on a long enough slice). *)
Definition layout (bs : bytes) : FrameHeader :=
  {| h_magic := slice 0 4 bs;
     h_version := byte_at 4 bs;
     h_flags := byte_at 5 bs;
     h_opcode := slice 6 8 bs;
     h_request_id := slice 8 12 bs;
     h_payload_size := slice 12 16 bs;
     h_room_id := slice 16 32 bs;
     h_sender_id := slice 32 40 bs;
     h_context_id := slice 40 48 bs;
     h_hlc_timestamp := slice 48 56 bs;
     h_epoch := slice 56 64 bs;
     h_signature := slice 64 128 bs |}.

(** [FrameHeader::from_bytes]. *)
Definition from_bytes (bs : bytes) : outcome ProtocolError FrameHeader :=
  if zlen bs <? SIZE then Err (FrameTooShort SIZE (zlen bs))
  else
    let header := layout bs in
    if negb (from_be_bytes (h_magic header) =? MAGIC) then Err InvalidMagic
    else if negb (byte_to_Z (h_version header) =? VERSION) then
      Err (UnsupportedVersion (byte_to_Z (h_version header)))
    else
      let payload_size := from_be_bytes (h_payload_size header) in
      if MAX_PAYLOAD_SIZE <? payload_size then
        Err (PayloadTooLarge payload_size MAX_PAYLOAD_SIZE)
      else Ok header.

(** [FrameHeader::to_bytes]. *)
Definition to_bytes (h : FrameHeader) : bytes :=
  h_magic h ++ [h_version h] ++ [h_flags h] ++ h_opcode h ++ h_request_id h
  ++ h_payload_size h ++ h_room_id h ++ h_sender_id h ++ h_context_id h
  ++ h_hlc_timestamp h ++ h_epoch h ++ h_signature h.

(** [dst[off..off+src.len()].copy_from_slice(src)]. *)
Definition copy_at (off : nat) (src dst : bytes) : bytes :=
  take off dst ++ src ++ drop (off + length src) dst.

(** The array built by [FrameHeader::new] before it is parsed. *)
Definition new_bytes (opcode : Opcode) : bytes :=
  let bs := replicate 128 Byte.x00 in
  let bs := copy_at 0 (to_be_bytes 4 MAGIC) bs in
  let bs := copy_at 4 [byte_of_Z VERSION] bs in
  copy_at 6 (to_be_bytes 2 (Opcode.to_u16 opcode)) bs.

(** [FrameHeader::new].  The [unreachable!] branch is the raw layout; the lemma
    [new_from_bytes] shows it is never taken. *)
Definition new (opcode : Opcode) : FrameHeader :=
  match from_bytes (new_bytes opcode) with
  | Ok h => h
  | _ => layout (new_bytes opcode)
  end.

(** Accessors. *)
Definition magic (h : FrameHeader) : Z := from_be_bytes (h_magic h).
Definition version (h : FrameHeader) : Z := byte_to_Z (h_version h).
Definition flags (h : FrameHeader) : FrameFlags := FrameFlags.from_byte (h_flags h).
Definition opcode (h : FrameHeader) : Z := from_be_bytes (h_opcode h).
Definition opcode_enum (h : FrameHeader) : option Opcode := Opcode.from_u16 (opcode h).
Definition request_id (h : FrameHeader) : Z := from_be_bytes (h_request_id h).
Definition room_id (h : FrameHeader) : Z := from_be_bytes (h_room_id h).
Definition room_id_bytes (h : FrameHeader) : bytes := h_room_id h.
Definition sender_id (h : FrameHeader) : Z := from_be_bytes (h_sender_id h).
Definition log_index (h : FrameHeader) : Z := from_be_bytes (h_context_id h).
Definition recipient_id (h : FrameHeader) : Z := from_be_bytes (h_context_id h).
Definition hlc_timestamp (h : FrameHeader) : Z := from_be_bytes (h_hlc_timestamp h).
Definition epoch (h : FrameHeader) : Z := from_be_bytes (h_epoch h).
Definition payload_size (h : FrameHeader) : Z := from_be_bytes (h_payload_size h).
Definition signature (h : FrameHeader) : bytes := h_signature h.

(** [signing_data]: bytes 0-39 and 48-63 of the serialized header. *)
Definition signing_data (h : FrameHeader) : bytes :=
  let bs := to_bytes h in slice 0 40 bs ++ slice 48 64 bs.

(** Update room UUID: [set_room_id]. *)
Definition set_room_id (room_id : Z) (h : FrameHeader) : FrameHeader :=
  {| h_magic := h_magic h; h_version := h_version h; h_flags := h_flags h;
     h_opcode := h_opcode h; h_request_id := h_request_id h; h_payload_size := h_payload_size h;
     h_room_id := to_be_bytes 16 room_id; h_sender_id := h_sender_id h; h_context_id := h_context_id h;
     h_hlc_timestamp := h_hlc_timestamp h; h_epoch := h_epoch h; h_signature := h_signature h |}.

(** [set_log_index] (its [debug_assert] excludes Welcome frames). *)
Definition set_log_index (log_index : Z) (h : FrameHeader) : FrameHeader :=
  {| h_magic := h_magic h; h_version := h_version h; h_flags := h_flags h;
     h_opcode := h_opcode h; h_request_id := h_request_id h; h_payload_size := h_payload_size h;
     h_room_id := h_room_id h; h_sender_id := h_sender_id h; h_context_id := to_be_bytes 8 log_index;
     h_hlc_timestamp := h_hlc_timestamp h; h_epoch := h_epoch h; h_signature := h_signature h |}.

(** [set_recipient_id]: the same eight bytes, for Welcome frames. *)
Definition set_recipient_id (recipient_id : Z) (h : FrameHeader) : FrameHeader :=
  {| h_magic := h_magic h; h_version := h_version h; h_flags := h_flags h;
     h_opcode := h_opcode h; h_request_id := h_request_id h; h_payload_size := h_payload_size h;
     h_room_id := h_room_id h; h_sender_id := h_sender_id h; h_context_id := to_be_bytes 8 recipient_id;
     h_hlc_timestamp := h_hlc_timestamp h; h_epoch := h_epoch h; h_signature := h_signature h |}.

(** [set_sender_id]. *)
Definition set_sender_id (sender_id : Z) (h : FrameHeader) : FrameHeader :=
  {| h_magic := h_magic h; h_version := h_version h; h_flags := h_flags h;
     h_opcode := h_opcode h; h_request_id := h_request_id h; h_payload_size := h_payload_size h;
     h_room_id := h_room_id h; h_sender_id := to_be_bytes 8 sender_id; h_context_id := h_context_id h;
     h_hlc_timestamp := h_hlc_timestamp h; h_epoch := h_epoch h; h_signature := h_signature h |}.

(** [set_epoch]. *)
Definition set_epoch (epoch : Z) (h : FrameHeader) : FrameHeader :=
  {| h_magic := h_magic h; h_version := h_version h; h_flags := h_flags h;
     h_opcode := h_opcode h; h_request_id := h_request_id h; h_payload_size := h_payload_size h;
     h_room_id := h_room_id h; h_sender_id := h_sender_id h; h_context_id := h_context_id h;
     h_hlc_timestamp := h_hlc_timestamp h; h_epoch := to_be_bytes 8 epoch; h_signature := h_signature h |}.

(** [set_signature]: the argument is a [[u8; 64]]. *)
Definition set_signature (signature : bytes) (h : FrameHeader) : FrameHeader :=
  {| h_magic := h_magic h; h_version := h_version h; h_flags := h_flags h;
     h_opcode := h_opcode h; h_request_id := h_request_id h; h_payload_size := h_payload_size h;
     h_room_id := h_room_id h; h_sender_id := h_sender_id h; h_context_id := h_context_id h;
     h_hlc_timestamp := h_hlc_timestamp h; h_epoch := h_epoch h; h_signature := signature |}.

(** [set_request_id]. *)
Definition set_request_id (request_id : Z) (h : FrameHeader) : FrameHeader :=
  {| h_magic := h_magic h; h_version := h_version h; h_flags := h_flags h;
     h_opcode := h_opcode h; h_request_id := to_be_bytes 4 request_id; h_payload_size := h_payload_size h;
     h_room_id := h_room_id h; h_sender_id := h_sender_id h; h_context_id := h_context_id h;
     h_hlc_timestamp := h_hlc_timestamp h; h_epoch := h_epoch h; h_signature := h_signature h |}.

(** [set_flags]. *)
Definition set_flags (flags : FrameFlags) (h : FrameHeader) : FrameHeader :=
  {| h_magic := h_magic h; h_version := h_version h; h_flags := FrameFlags.to_byte flags;
     h_opcode := h_opcode h; h_request_id := h_request_id h; h_payload_size := h_payload_size h;
     h_room_id := h_room_id h; h_sender_id := h_sender_id h; h_context_id := h_context_id h;
     h_hlc_timestamp := h_hlc_timestamp h; h_epoch := h_epoch h; h_signature := h_signature h |}.

(** [set_hlc_timestamp]. *)
Definition set_hlc_timestamp (timestamp : Z) (h : FrameHeader) : FrameHeader :=
  {| h_magic := h_magic h; h_version := h_version h; h_flags := h_flags h;
     h_opcode := h_opcode h; h_request_id := h_request_id h; h_payload_size := h_payload_size h;
     h_room_id := h_room_id h; h_sender_id := h_sender_id h; h_context_id := h_context_id h;
     h_hlc_timestamp := to_be_bytes 8 timestamp; h_epoch := h_epoch h; h_signature := h_signature h |}.

(** [header.opcode = ..to_be_bytes()] ([pub(crate)] field). *)
Definition set_opcode (opcode : Z) (h : FrameHeader) : FrameHeader :=
  {| h_magic := h_magic h; h_version := h_version h; h_flags := h_flags h;
     h_opcode := to_be_bytes 2 opcode; h_request_id := h_request_id h; h_payload_size := h_payload_size h;
     h_room_id := h_room_id h; h_sender_id := h_sender_id h; h_context_id := h_context_id h;
     h_hlc_timestamp := h_hlc_timestamp h; h_epoch := h_epoch h; h_signature := h_signature h |}.

(** [header.payload_size = ..to_be_bytes()] ([pub(crate)] field). *)
Definition set_payload_size (size : Z) (h : FrameHeader) : FrameHeader :=
  {| h_magic := h_magic h; h_version := h_version h; h_flags := h_flags h;
     h_opcode := h_opcode h; h_request_id := h_request_id h; h_payload_size := to_be_bytes 4 size;
     h_room_id := h_room_id h; h_sender_id := h_sender_id h; h_context_id := h_context_id h;
     h_hlc_timestamp := h_hlc_timestamp h; h_epoch := h_epoch h; h_signature := h_signature h |}.

(** [PartialEq]: the serialized bytes are compared. *)
Definition eqb (h1 h2 : FrameHeader) : bool := bool_decide (to_bytes h1 = to_bytes h2).

(** ** Lemmas *)

(** The checks of [from_bytes] on a header already laid out. *)
Definition valid (h : FrameHeader) : Prop :=
  magic h = MAGIC ∧ version h = VERSION ∧ payload_size h ≤ MAX_PAYLOAD_SIZE.

Lemma layout_wf bs : (128 ≤ length bs)%nat → wf (layout bs).
Proof. intros. split; cbn [h_magic h_opcode h_request_id h_payload_size h_room_id h_sender_id
  h_context_id h_hlc_timestamp h_epoch h_signature layout]; rewrite length_slice by lia; lia. Qed.

Lemma length_to_bytes h : wf h → length (to_bytes h) = 128%nat.
Proof. intros []. unfold to_bytes. rewrite !length_app. cbn. lia. Qed.

Lemma zlen_to_bytes h : wf h → zlen (to_bytes h) = SIZE.
Proof. intros. unfold zlen. by rewrite length_to_bytes. Qed.

(** Skips the fields before the one a slice selects, then takes it. *)
#[local] Ltac pick_field :=
  repeat (rewrite slice_skip by (cbn; lia)); cbn [length];
  repeat match goal with H : length _ = _ |- _ => rewrite H end; cbn [Nat.sub];
  by apply slice_here.

Lemma layout_to_bytes h rest : wf h → layout (to_bytes h ++ rest) = h.
Proof.
  intros [Hm Ho Hr Hp Hroom Hs Hc Hh He Hsig].
  destruct h as [m v f o r p room s c hl e sig].
  unfold layout, to_bytes; cbn [h_magic h_version h_flags h_opcode h_request_id h_payload_size
    h_room_id h_sender_id h_context_id h_hlc_timestamp h_epoch h_signature] in *.
  assert (Hnth : ∀ (i : nat) (d : byte) (l k : bytes),
    length l = 4%nat → nth (4 + i) (l ++ k) d = nth i k d).
  { intros i d l k Hl. rewrite app_nth2 by lia. f_equal. lia. }
  rewrite <-!app_assoc. f_equal;
    [..|by apply (Hnth 0%nat)|by apply (Hnth 1%nat)| | | | | | | | |]; pick_field.
Qed.

Lemma to_bytes_layout bs : (128 ≤ length bs)%nat → to_bytes (layout bs) = take 128 bs.
Proof.
  intros. unfold to_bytes, layout, byte_at; cbn [h_magic h_version h_flags h_opcode h_request_id
    h_payload_size h_room_id h_sender_id h_context_id h_hlc_timestamp h_epoch h_signature].
  rewrite <-!slice_one by lia. rewrite !slice_glue by lia. apply slice_from_0.
Qed.

Lemma from_bytes_Ok bs h :
  from_bytes bs = Ok h ↔ (128 ≤ length bs)%nat ∧ h = layout bs ∧ valid h.
Proof.
  unfold from_bytes, valid, magic, version, payload_size, zlen, SIZE.
  split.
  - intros H. repeat case_match; simplify_eq; bool_to_prop. repeat split; auto; lia.
  - intros (Hl & -> & Hm & Hv & Hp).
    rewrite Hm, Hv, !Z.eqb_refl. cbn [negb].
    rewrite (proj2 (Z.ltb_ge _ _)) by lia. rewrite (proj2 (Z.ltb_ge _ _)) by lia. done.
Qed.

Lemma from_bytes_to_bytes h rest :
  wf h → valid h → from_bytes (to_bytes h ++ rest) = Ok h.
Proof.
  intros Hwf Hv. apply from_bytes_Ok. rewrite length_app, length_to_bytes, layout_to_bytes by done.
  split_and!; auto; lia.
Qed.

Lemma new_from_bytes o : from_bytes (new_bytes o) = Ok (new o).
Proof. unfold new. by destruct o. Qed.

Lemma new_valid o : valid (new o).
Proof. by eapply from_bytes_Ok, new_from_bytes. Qed.

Lemma new_wf o : wf (new o).
Proof. pose proof (new_from_bytes o) as H. apply from_bytes_Ok in H as (? & -> & ?). by apply layout_wf. Qed.

Lemma new_opcode_enum o : opcode_enum (new o) = Some o.
Proof. by destruct o. Qed.

Lemma new_zero o :
  room_id (new o) = 0 ∧ sender_id (new o) = 0 ∧ epoch (new o) = 0 ∧ payload_size (new o) = 0
  ∧ log_index (new o) = 0 ∧ hlc_timestamp (new o) = 0 ∧ request_id (new o) = 0.
Proof. by destruct o. Qed.

Lemma set_room_id_wf x h : wf h → wf (set_room_id x h).
Proof. intros []. by split; cbn; rewrite ?length_to_be_bytes. Qed.
Lemma set_log_index_wf x h : wf h → wf (set_log_index x h).
Proof. intros []. by split; cbn; rewrite ?length_to_be_bytes. Qed.
Lemma set_recipient_id_wf x h : wf h → wf (set_recipient_id x h).
Proof. intros []. by split; cbn; rewrite ?length_to_be_bytes. Qed.
Lemma set_sender_id_wf x h : wf h → wf (set_sender_id x h).
Proof. intros []. by split; cbn; rewrite ?length_to_be_bytes. Qed.
Lemma set_epoch_wf x h : wf h → wf (set_epoch x h).
Proof. intros []. by split; cbn; rewrite ?length_to_be_bytes. Qed.
Lemma set_request_id_wf x h : wf h → wf (set_request_id x h).
Proof. intros []. by split; cbn; rewrite ?length_to_be_bytes. Qed.
Lemma set_hlc_timestamp_wf x h : wf h → wf (set_hlc_timestamp x h).
Proof. intros []. by split; cbn; rewrite ?length_to_be_bytes. Qed.
Lemma set_opcode_wf x h : wf h → wf (set_opcode x h).
Proof. intros []. by split; cbn; rewrite ?length_to_be_bytes. Qed.
Lemma set_payload_size_wf x h : wf h → wf (set_payload_size x h).
Proof. intros []. by split; cbn; rewrite ?length_to_be_bytes. Qed.
Lemma set_flags_wf x h : wf h → wf (set_flags x h).
Proof. intros []. by split. Qed.
Lemma set_signature_wf x h : length x = 64%nat → wf h → wf (set_signature x h).
Proof. intros ? []. by split. Qed.

(** The signed bytes, field by field. *)
Lemma signing_data_fields h :
  wf h →
  signing_data h =
    h_magic h ++ [h_version h] ++ [h_flags h] ++ h_opcode h ++ h_request_id h
    ++ h_payload_size h ++ h_room_id h ++ h_sender_id h ++ h_hlc_timestamp h ++ h_epoch h.
Proof.
  intros [Hm Ho Hr Hp Hroom Hs Hc Hh He Hsig].
  destruct h as [m v f o r p room s c hl e sig].
  unfold signing_data, to_bytes; cbn [h_magic h_version h_flags h_opcode h_request_id
    h_payload_size h_room_id h_sender_id h_context_id h_hlc_timestamp h_epoch h_signature] in *.
  rewrite (slice_from_0 40).
  replace (m ++ [v] ++ [f] ++ o ++ r ++ p ++ room ++ s ++ c ++ hl ++ e ++ sig)
    with ((m ++ [v] ++ [f] ++ o ++ r ++ p ++ room ++ s) ++ c ++ (hl ++ e) ++ sig)
    by (rewrite <-!app_assoc; done).
  rewrite take_app_exact by (rewrite !length_app; cbn; lia).
  rewrite slice_skip by (rewrite !length_app; cbn; lia).
  rewrite slice_skip by (rewrite !length_app; cbn; lia).
  replace (slice _ _ _) with (hl ++ e).
  { rewrite <-!app_assoc. done. }
  rewrite !length_app, Hm, Ho, Hr, Hp, Hroom, Hs, Hc; cbn [length Nat.add Nat.sub].
  symmetry. apply slice_here. rewrite length_app. lia.
Qed.

Lemma length_signing_data h : wf h → length (signing_data h) = 56%nat.
Proof. intros Hwf. rewrite signing_data_fields by done. destruct Hwf. rewrite !length_app. cbn. lia. Qed.

(** Everything a signature covers: all fields but [context_id] and [signature]. *)
Record same_signed_fields (h1 h2 : FrameHeader) : Prop := {
  ssf_magic : h_magic h1 = h_magic h2;
  ssf_version : h_version h1 = h_version h2;
  ssf_flags : h_flags h1 = h_flags h2;
  ssf_opcode : h_opcode h1 = h_opcode h2;
  ssf_request_id : h_request_id h1 = h_request_id h2;
  ssf_payload_size : h_payload_size h1 = h_payload_size h2;
  ssf_room_id : h_room_id h1 = h_room_id h2;
  ssf_sender_id : h_sender_id h1 = h_sender_id h2;
  ssf_hlc_timestamp : h_hlc_timestamp h1 = h_hlc_timestamp h2;
  ssf_epoch : h_epoch h1 = h_epoch h2;
}.

Lemma signing_data_same h1 h2 :
  wf h1 → wf h2 → same_signed_fields h1 h2 → signing_data h1 = signing_data h2.
Proof.
  intros ?? []. rewrite !signing_data_fields by done. congruence.
Qed.

Lemma signing_data_inj h1 h2 :
  wf h1 → wf h2 → signing_data h1 = signing_data h2 → same_signed_fields h1 h2.
Proof.
  intros W1 W2 H. rewrite !signing_data_fields in H by done. destruct W1, W2.
  repeat match type of H with
  | _ ++ _ = _ ++ _ => apply app_inj_length in H as [? H]; [|cbn; congruence]
  end.
  split; congruence.
Qed.


(** C28: two well-formed headers have the same signed bytes exactly when they
    agree on every field other than [context_id] and [signature]: nothing the
    signature is meant to protect can be changed without changing the signed
    bytes, and the sequencer's assignment of [context_id] never changes them. *)
Theorem signing_data_binds h1 h2 :
  wf h1 → wf h2 → (signing_data h1 = signing_data h2 ↔ same_signed_fields h1 h2).
Proof. intros. split; eauto using signing_data_inj, signing_data_same. Qed.

Lemma signing_data_binds_witness :
  let h1 := new Opcode.AppMessage in
  let h2 := set_log_index 7 h1 in
  h1 ≠ h2 ∧ signing_data h1 = signing_data h2.
Proof.
  split; [by vm_compute|].
  apply (signing_data_binds (new Opcode.AppMessage) (set_log_index 7 (new Opcode.AppMessage))).
  - apply new_wf.
  - apply set_log_index_wf, new_wf.
  - by split.
Defined.

Lemma set_log_index_signing_data i h : wf h → signing_data (set_log_index i h) = signing_data h.
Proof. intros. apply signing_data_same; [by apply set_log_index_wf|done|by split]. Qed.

Lemma set_signature_signing_data sig h :
  length sig = 64%nat → wf h → signing_data (set_signature sig h) = signing_data h.
Proof. intros. apply signing_data_same; [by apply set_signature_wf|done|by split]. Qed.

(** Every setter stores its value so that the matching accessor reads it
    back, for every value of the field's width, and leaves the header
    well-formed and valid. *)
Theorem setters_roundtrip h u128 u64 u32 f :
  wf h → valid h → 0 ≤ u128 < U128_MOD → 0 ≤ u64 < U64_MOD → 0 ≤ u32 < U32_MOD →
  room_id (set_room_id u128 h) = u128
  ∧ log_index (set_log_index u64 h) = u64
  ∧ recipient_id (set_recipient_id u64 h) = u64
  ∧ sender_id (set_sender_id u64 h) = u64
  ∧ epoch (set_epoch u64 h) = u64
  ∧ hlc_timestamp (set_hlc_timestamp u64 h) = u64
  ∧ request_id (set_request_id u32 h) = u32
  ∧ flags (set_flags f h) = f
  ∧ (let h' := set_flags f (set_request_id u32 (set_hlc_timestamp u64 (set_epoch u64
       (set_sender_id u64 (set_log_index u64 (set_room_id u128 h)))))) in wf h' ∧ valid h').
Proof.
  intros Hwf Hv H128 H64 H32.
  unfold room_id, log_index, recipient_id, sender_id, epoch, hlc_timestamp, request_id; cbn.
  rewrite !from_to_be_bytes by (cbn; lia). split_and!; try done; [by destruct f|].
  apply set_flags_wf, set_request_id_wf, set_hlc_timestamp_wf, set_epoch_wf, set_sender_id_wf,
    set_log_index_wf, set_room_id_wf, Hwf.
Qed.

Lemma setters_roundtrip_witness :
  room_id (set_room_id 5 (new Opcode.Commit)) = 5.
Proof.
  apply (setters_roundtrip (new Opcode.Commit) 5 6 7 FrameFlags.PRIORITY);
    [apply new_wf|apply new_valid|lia..].
Defined.
End FrameHeader.
Abbreviation FrameHeader := FrameHeader.FrameHeader.

#[export] Hint Resolve FrameHeader.new_wf FrameHeader.new_valid FrameHeader.layout_wf
  FrameHeader.set_room_id_wf FrameHeader.set_log_index_wf FrameHeader.set_recipient_id_wf
  FrameHeader.set_sender_id_wf FrameHeader.set_epoch_wf FrameHeader.set_request_id_wf
  FrameHeader.set_hlc_timestamp_wf FrameHeader.set_opcode_wf FrameHeader.set_payload_size_wf
  FrameHeader.set_flags_wf FrameHeader.set_signature_wf : lockframe.
#[export] Hint Rewrite FrameHeader.new_opcode_enum : lockframe.
