(* ===== verification/Frame.v ===== *)
(** * Frames

    [lockframe-proto/src/frame.rs]: a header with its raw payload bytes, and the
    wire encoding [header (128 bytes) ++ payload]. *)

From S2P Require Import Prelude Opcodes Header.

Module Frame.

(** [struct Frame]. *)
Record Frame : Type := { header : FrameHeader; payload : bytes }.

#[global] Instance Frame_eq_dec : EqDecision Frame.
Proof. solve_decision. Defined.

(** [Frame::new]: the payload size field is overwritten with the length. *)
Definition new (header : FrameHeader) (payload : bytes) : Frame :=
  {| header := FrameHeader.set_payload_size (as_u32 (zlen payload)) header;
     payload := payload |}.

(** [Frame::encode] appends to the destination buffer. *)
Definition encode (f : Frame) : M bytes ProtocolError unit := λ dst,
  if FrameHeader.MAX_PAYLOAD_SIZE <? zlen (payload f) then
    (Err (PayloadTooLarge (zlen (payload f)) FrameHeader.MAX_PAYLOAD_SIZE), dst)
  else
    (Ok tt, (dst ++ FrameHeader.to_bytes (header f)) ++ payload f).

(** The [debug_assert_eq!] at the head of [encode] (debug builds only). *)
Definition encode_debug_assert (f : Frame) : bool :=
  zlen (payload f) =? FrameHeader.payload_size (header f).

(** [Frame::decode]. *)
Definition decode (bs : bytes) : outcome ProtocolError Frame :=
  header ← FrameHeader.from_bytes bs;
  let payload_size := FrameHeader.payload_size header in
  match checked_add_u64 FrameHeader.SIZE payload_size with
  | None => Err (PayloadTooLarge payload_size FrameHeader.MAX_PAYLOAD_SIZE)
  | Some total_size =>
      if zlen bs <? total_size then
        Err (FrameTruncated payload_size (saturating_sub (zlen bs) FrameHeader.SIZE))
      else
        Ok {| header := header;
              payload := slice (Z.to_nat FrameHeader.SIZE) (Z.to_nat total_size) bs |}
  end.

(** ** Lemmas *)

(** The invariant documented on [Frame]: the size field is the payload length
    and within the limit, under a valid header. *)
Record wf (f : Frame) : Prop := {
  wf_header : FrameHeader.wf (header f);
  wf_valid : FrameHeader.valid (header f);
  wf_size : FrameHeader.payload_size (header f) = zlen (payload f);
}.

Lemma wf_bound f : wf f → zlen (payload f) ≤ FrameHeader.MAX_PAYLOAD_SIZE.
Proof. intros [? (?&?&?) <-]. done. Qed.

Lemma new_payload_size h p :
  zlen p < U32_MOD → FrameHeader.payload_size (header (new h p)) = zlen p.
Proof.
  intros. unfold new, FrameHeader.payload_size, as_u32; cbn -[Z.modulo].
  pose proof (zlen_nonneg p).
  rewrite Z.mod_small, from_to_be_bytes by (cbn; lia). done.
Qed.

Lemma frame_new_wf h p :
  FrameHeader.wf h → FrameHeader.magic h = FrameHeader.MAGIC →
  FrameHeader.version h = FrameHeader.VERSION →
  zlen p ≤ FrameHeader.MAX_PAYLOAD_SIZE → wf (new h p).
Proof.
  intros Hwf Hm Hv Hp.
  assert (zlen p < U32_MOD) by (cbv [FrameHeader.MAX_PAYLOAD_SIZE] in Hp; lia).
  split; [by apply FrameHeader.set_payload_size_wf| |by apply new_payload_size].
  split_and!; [done..|]. by rewrite new_payload_size.
Qed.

Lemma encode_Ok f dst :
  zlen (payload f) ≤ FrameHeader.MAX_PAYLOAD_SIZE →
  encode f dst = (Ok tt, dst ++ FrameHeader.to_bytes (header f) ++ payload f).
Proof. intros. unfold encode. rewrite (proj2 (Z.ltb_ge _ _)) by done. by rewrite app_assoc. Qed.

Lemma decode_app f rest :
  wf f → decode (FrameHeader.to_bytes (header f) ++ payload f ++ rest) = Ok f.
Proof.
  intros Hf. pose proof (wf_bound _ Hf) as Hb. destruct Hf as [Hwf Hv Hs].
  unfold decode. rewrite FrameHeader.from_bytes_to_bytes by done. munfold.
  unfold checked_add_u64, FrameHeader.SIZE. rewrite Hs.
  pose proof (zlen_nonneg rest). pose proof (zlen_nonneg (payload f)).
  cbv [FrameHeader.MAX_PAYLOAD_SIZE] in Hb.
  rewrite (proj2 (Z.ltb_lt _ _)) by lia.
  rewrite !zlen_app, FrameHeader.zlen_to_bytes, (proj2 (Z.ltb_ge _ _)) by (done || (cbv [FrameHeader.SIZE]; lia)).
  destruct f as [h p]; cbn [header payload] in *. do 2 f_equal.
  rewrite slice_skip by (rewrite FrameHeader.length_to_bytes by done; lia).
  rewrite FrameHeader.length_to_bytes by done.
  replace (Z.to_nat (128 + zlen p) - 128)%nat with (length p) by (unfold zlen; lia).
  by apply slice_here.
Qed.

Lemma decode_total bs : decode bs ≠ Panic.
Proof.
  unfold decode, FrameHeader.from_bytes. munfold. repeat (case_match; simplify_eq/=); try done.
Qed.

Lemma decode_Ok bs f :
  decode bs = Ok f →
  wf f ∧ ∃ rest, bs = FrameHeader.to_bytes (header f) ++ payload f ++ rest.
Proof.
  unfold decode. munfold. intros H. case_match eqn:E; simplify_eq.
  apply FrameHeader.from_bytes_Ok in E as (Hl & -> & Hv).
  pose proof Hv as (_&_&Hmax). set (h := FrameHeader.layout bs) in *.
  unfold checked_add_u64, FrameHeader.SIZE, saturating_sub in H.
  repeat case_match; simplify_eq. bool_to_prop.
  pose proof (from_be_bytes_range (FrameHeader.h_payload_size h)) as [Hge _].
  fold (FrameHeader.payload_size h) in Hge. unfold zlen in *.
  set (n := FrameHeader.payload_size h) in *.
  split; [split|]; cbn [header payload].
  - by apply FrameHeader.layout_wf.
  - done.
  - unfold zlen. rewrite length_slice by lia. lia.
  - exists (drop (128 + Z.to_nat n) bs).
    unfold h. rewrite FrameHeader.to_bytes_layout by done.
    change (Z.to_nat 128) with 128%nat.
    replace (Z.to_nat (128 + n)) with (128 + Z.to_nat n)%nat by lia.
    rewrite app_assoc, <-slice_from_0, slice_glue, slice_from_0 by lia.
    symmetry. apply take_drop.
Qed.

(** ** Properties *)

(** A small frame used by the witnesses. *)
Definition sample : Frame :=
  new (FrameHeader.set_room_id 9 (FrameHeader.new Opcode.AppMessage)) [Byte.x01; Byte.xff].

Lemma sample_wf : wf sample.
Proof. apply frame_new_wf; [auto with lockframe|by vm_compute..]. Qed.

(** C8: wire round trip.  A frame that satisfies the documented invariant is
    encoded, after whatever the buffer already holds, as its 128 header bytes
    and its payload; decoding those bytes, followed by any trailing data, gives
    the frame back. *)
Theorem encode_decode_roundtrip f dst :
  wf f →
  ∃ wire, encode f dst = (Ok tt, dst ++ wire)
    ∧ zlen wire = FrameHeader.SIZE + zlen (payload f)
    ∧ ∀ rest, decode (wire ++ rest) = Ok f.
Proof.
  intros Hf. exists (FrameHeader.to_bytes (header f) ++ payload f).
  split_and!; [by apply encode_Ok, wf_bound|..].
  - rewrite zlen_app, FrameHeader.zlen_to_bytes by apply Hf. done.
  - intros rest. rewrite <-app_assoc. by apply decode_app.
Qed.

Lemma encode_decode_roundtrip_witness :
  ∃ wire, encode sample [] = (Ok tt, wire) ∧ decode wire = Ok sample.
Proof.
  destruct (encode_decode_roundtrip sample [] sample_wf) as (wire & He & _ & Hd).
  exists wire. split; [exact He|]. rewrite <-(app_nil_r wire). apply Hd.
Defined.

(** C29: the decoder accepts only what the encoder writes: a decoded frame
    satisfies the invariant (valid magic and version, size field equal to the
    payload length and at most 16 MB) and encoding it gives back exactly the
    consumed prefix of the input. *)
Theorem decode_sound bs f :
  decode bs = Ok f →
  wf f ∧ encode f [] = (Ok tt, take (128 + length (payload f)) bs).
Proof.
  intros H. apply decode_Ok in H as [Hf [rest Hr]]. split; [done|].
  rewrite encode_Ok by by apply wf_bound. rewrite app_nil_l. f_equal.
  rewrite Hr, app_assoc. symmetry. apply take_app_exact.
  rewrite length_app, FrameHeader.length_to_bytes by apply Hf. done.
Qed.

Lemma decode_sound_witness :
  let bs := FrameHeader.to_bytes (header sample) ++ payload sample ++ [Byte.x2a] in
  wf sample ∧ encode sample [] = (Ok tt, take 130 bs).
Proof. apply (decode_sound _ sample). vm_compute. reflexivity. Defined.

(** The decoder never panics, and each error names the first check that
    fails, in the order length, magic, version, size limit, truncation, with
    the values the check compared. *)
Theorem decode_errors bs :
  match decode bs with
  | Ok f => wf f
  | Err (FrameTooShort expected actual) =>
      expected = 128 ∧ actual = zlen bs ∧ zlen bs < 128
  | Err InvalidMagic =>
      128 ≤ zlen bs ∧ FrameHeader.magic (FrameHeader.layout bs) ≠ FrameHeader.MAGIC
  | Err (UnsupportedVersion v) =>
      128 ≤ zlen bs ∧ FrameHeader.magic (FrameHeader.layout bs) = FrameHeader.MAGIC
      ∧ v = FrameHeader.version (FrameHeader.layout bs) ∧ v ≠ 1
  | Err (PayloadTooLarge size max) =>
      128 ≤ zlen bs ∧ size = FrameHeader.payload_size (FrameHeader.layout bs)
      ∧ max = 16777216 ∧ max < size
  | Err (FrameTruncated expected actual) =>
      FrameHeader.valid (FrameHeader.layout bs)
      ∧ expected = FrameHeader.payload_size (FrameHeader.layout bs)
      ∧ actual = zlen bs - 128 ∧ 0 ≤ actual < expected
  | Err _ => False
  | Panic => False
  end.
Proof.
  destruct (decode bs) as [f|e|] eqn:E; [by apply decode_Ok in E as [? _]|..];
    revert E; unfold decode, FrameHeader.from_bytes, checked_add_u64, saturating_sub,
      FrameHeader.valid, FrameHeader.magic, FrameHeader.version, FrameHeader.payload_size,
      FrameHeader.SIZE; munfold; intros; repeat case_match; simplify_eq; bool_to_prop;
    try lia; cbv [FrameHeader.MAX_PAYLOAD_SIZE FrameHeader.VERSION] in *; split_and!; auto; lia.
Qed.

End Frame.
Abbreviation Frame := Frame.Frame.

#[export] Hint Resolve Frame.wf_header Frame.wf_valid : lockframe.
