(* ===== verification/Payload.v ===== *)
(** * Payloads

    [lockframe-proto/src/payloads/]: the payload structures, the [Payload] enum,
    its opcode-directed encoding and the conversions from and to frames.

    The CBOR text itself is produced by the [ciborium] crate from [serde]
    derives; it is a parameter of the model (class [Cbor]), with the round trip
    that the crate documents as a law (class [CborOk]). *)

From S2P Require Import Prelude Opcodes Header Frame.

(** ** Payload structures *)
Module session.
(** [struct Hello]. *)
Record Hello : Type := {
  hello_version : Z; hello_capabilities : list string; hello_auth_token : option bytes }.
(** [struct HelloReply]. *)
Record HelloReply : Type := {
  reply_session_id : Z; reply_capabilities : list string; reply_challenge : option bytes }.
(** [struct Goodbye]. *)
Record Goodbye : Type := { goodbye_reason : string }.
(** [struct SyncRequest]. *)
Record SyncRequest : Type := { sync_from_log_index : Z; sync_limit : Z }.
(** [struct SyncResponse]. *)
Record SyncResponse : Type := {
  sync_frames : list bytes; sync_has_more : bool; sync_server_epoch : Z }.
(** [default_limit]: the [serde] default of [SyncRequest::limit]. *)
Definition default_limit : Z := 100.
End session.

Module mls.
(** [struct KeyPackageData]. *)
Record KeyPackageData : Type := { key_package_bytes : bytes }.
(** [enum ProposalType]. *)
Inductive ProposalType : Type :=
| Add | Remove | Update | PSK | ReInit | ExternalInit | GroupContextExtensions.
(** [struct ProposalData]. *)
Record ProposalData : Type := { proposal_bytes : bytes; proposal_type : ProposalType }.
(** [struct CommitData]. *)
Record CommitData : Type := {
  commit_bytes : bytes; new_epoch : Z; tree_hash : bytes; is_external : bool }.
(** [struct WelcomeData]. *)
Record WelcomeData : Type := { welcome_bytes : bytes; welcome_epoch : Z }.
End mls.

Module app.
(** [struct PushKey]. *)
Record PushKey : Type := { recipient_id : Z; encrypted_key : bytes }.
(** [struct EncryptedMessage] (the wire form). *)
Record EncryptedMessage : Type := {
  msg_epoch : Z; msg_sender_index : Z; msg_generation : Z; msg_nonce : bytes;
  msg_ciphertext : bytes; msg_push_keys : option (list PushKey) }.
(** [enum ReceiptType]. *)
Inductive ReceiptType : Type := Delivered | Read.
(** [struct Receipt]. *)
Record Receipt : Type := {
  receipt_message_log_index : Z; receipt_kind : ReceiptType; receipt_timestamp : Z }.
(** [struct Reaction]. *)
Record Reaction : Type := {
  reaction_message_log_index : Z; reaction_content : string; reaction_add : bool }.
End app.

Module moderation.
(** [struct Redact]. *)
Record Redact : Type := {
  redact_message_log_index : Z; redact_reason : string; redact_moderator_id : Z }.
(** [struct Ban]. *)
Record Ban : Type := {
  ban_user_id : Z; ban_reason : string; ban_duration_secs : option Z; ban_moderator_id : Z }.
(** [struct Kick]. *)
Record Kick : Type := { kick_user_id : Z; kick_reason : string; kick_moderator_id : Z }.
End moderation.

Module ErrorPayload.
(** [struct ErrorPayload]. *)
Record ErrorPayload : Type := { code : Z; message : string; retry_after : option Z }.
Definition FRAME_REJECTED : Z := 0x0001.
Definition ROOM_NOT_FOUND : Z := 0x0002.
Definition STORAGE_ERROR : Z := 0x0003.
Definition INVALID_PAYLOAD : Z := 0x0004.
Definition MLS_ERROR : Z := 0x0005.
Definition SEQUENCER_ERROR : Z := 0x0006.

Definition frame_rejected (reason : string) : ErrorPayload :=
  {| code := FRAME_REJECTED; message := reason; retry_after := None |}.
Definition room_not_found (room_id : Z) : ErrorPayload :=
  {| code := ROOM_NOT_FOUND; message := "room not found: " +:+ fmt_hex_pad 32 room_id;
     retry_after := None |}.
Definition storage_error (msg : string) : ErrorPayload :=
  {| code := STORAGE_ERROR; message := msg; retry_after := None |}.
Definition invalid_payload (msg : string) : ErrorPayload :=
  {| code := INVALID_PAYLOAD; message := msg; retry_after := None |}.
Definition mls_error (msg : string) : ErrorPayload :=
  {| code := MLS_ERROR; message := msg; retry_after := None |}.
Definition sequencer_error (msg : string) : ErrorPayload :=
  {| code := SEQUENCER_ERROR; message := msg; retry_after := None |}.
End ErrorPayload.
Abbreviation ErrorPayload := ErrorPayload.ErrorPayload.

(** ** The CBOR codec (external) *)

(** [ciborium::ser::into_writer] into a fresh buffer and
    [ciborium::de::from_reader], with errors as their [to_string] text. *)
Class Cbor (A : Type) : Type := {
  cbor_ser : A → outcome string bytes;
  cbor_de : bytes → outcome string A;
}.
(** What the crate documents: decoding an encoded value gives the value. *)
Class CborOk (A : Type) `{Cbor A} : Prop :=
  cbor_roundtrip : ∀ (a : A) bs, cbor_ser a = Ok bs → cbor_de bs = Ok a.

Class PayloadCodec : Type := {
  #[global] cbor_Hello :: Cbor session.Hello;
  #[global] cbor_HelloReply :: Cbor session.HelloReply;
  #[global] cbor_Goodbye :: Cbor session.Goodbye;
  #[global] cbor_SyncRequest :: Cbor session.SyncRequest;
  #[global] cbor_SyncResponse :: Cbor session.SyncResponse;
  #[global] cbor_KeyPackageData :: Cbor mls.KeyPackageData;
  #[global] cbor_ProposalData :: Cbor mls.ProposalData;
  #[global] cbor_CommitData :: Cbor mls.CommitData;
  #[global] cbor_WelcomeData :: Cbor mls.WelcomeData;
  #[global] cbor_EncryptedMessage :: Cbor app.EncryptedMessage;
  #[global] cbor_Receipt :: Cbor app.Receipt;
  #[global] cbor_Reaction :: Cbor app.Reaction;
  #[global] cbor_Redact :: Cbor moderation.Redact;
  #[global] cbor_Ban :: Cbor moderation.Ban;
  #[global] cbor_Kick :: Cbor moderation.Kick;
  #[global] cbor_ErrorPayload :: Cbor ErrorPayload;
}.

Class PayloadCodecOk `{PayloadCodec} : Prop := {
  #[global] cbor_ok_Hello :: CborOk session.Hello;
  #[global] cbor_ok_HelloReply :: CborOk session.HelloReply;
  #[global] cbor_ok_Goodbye :: CborOk session.Goodbye;
  #[global] cbor_ok_SyncRequest :: CborOk session.SyncRequest;
  #[global] cbor_ok_SyncResponse :: CborOk session.SyncResponse;
  #[global] cbor_ok_KeyPackageData :: CborOk mls.KeyPackageData;
  #[global] cbor_ok_ProposalData :: CborOk mls.ProposalData;
  #[global] cbor_ok_CommitData :: CborOk mls.CommitData;
  #[global] cbor_ok_WelcomeData :: CborOk mls.WelcomeData;
  #[global] cbor_ok_EncryptedMessage :: CborOk app.EncryptedMessage;
  #[global] cbor_ok_Receipt :: CborOk app.Receipt;
  #[global] cbor_ok_Reaction :: CborOk app.Reaction;
  #[global] cbor_ok_Redact :: CborOk moderation.Redact;
  #[global] cbor_ok_Ban :: CborOk moderation.Ban;
  #[global] cbor_ok_Kick :: CborOk moderation.Kick;
  #[global] cbor_ok_ErrorPayload :: CborOk ErrorPayload;
}.

Module Payload.

(** [enum Payload]. *)
Inductive Payload : Type :=
| Hello (inner : session.Hello)
| HelloReply (inner : session.HelloReply)
| Goodbye (inner : session.Goodbye)
| Ping
| Pong
| SyncRequest (inner : session.SyncRequest)
| SyncResponse (inner : session.SyncResponse)
| KeyPackage (inner : mls.KeyPackageData)
| Proposal (inner : mls.ProposalData)
| Commit (inner : mls.CommitData)
| Welcome (inner : mls.WelcomeData)
| AppMessage (inner : app.EncryptedMessage)
| AppReceipt (inner : app.Receipt)
| AppReaction (inner : app.Reaction)
| Redact (inner : moderation.Redact)
| Ban (inner : moderation.Ban)
| Kick (inner : moderation.Kick)
| Error (inner : ErrorPayload).

(** [Payload::opcode]. *)
Definition opcode (p : Payload) : Opcode :=
  match p with
  | Hello _ => Opcode.Hello
  | HelloReply _ => Opcode.HelloReply
  | Goodbye _ => Opcode.Goodbye
  | Ping => Opcode.Ping
  | Pong => Opcode.Pong
  | SyncRequest _ => Opcode.SyncRequest
  | SyncResponse _ => Opcode.SyncResponse
  | KeyPackage _ => Opcode.KeyPackage
  | Proposal _ => Opcode.Proposal
  | Commit _ => Opcode.Commit
  | Welcome _ => Opcode.Welcome
  | AppMessage _ => Opcode.AppMessage
  | AppReceipt _ => Opcode.AppReceipt
  | AppReaction _ => Opcode.AppReaction
  | Redact _ => Opcode.Redact
  | Ban _ => Opcode.Ban
  | Kick _ => Opcode.Kick
  | Error _ => Opcode.Error
  end.

Section codec.
Context `{PayloadCodec}.

(** The bytes [Payload::encode] writes for the inner value. *)
Definition encode_inner (p : Payload) : outcome string bytes :=
  match p with
  | Hello i => cbor_ser i
  | HelloReply i => cbor_ser i
  | Goodbye i => cbor_ser i
  | Ping | Pong => Ok []
  | SyncRequest i => cbor_ser i
  | SyncResponse i => cbor_ser i
  | KeyPackage i => cbor_ser i
  | Proposal i => cbor_ser i
  | Commit i => cbor_ser i
  | Welcome i => cbor_ser i
  | AppMessage i => cbor_ser i
  | AppReceipt i => cbor_ser i
  | AppReaction i => cbor_ser i
  | Redact i => cbor_ser i
  | Ban i => cbor_ser i
  | Kick i => cbor_ser i
  | Error i => cbor_ser i
  end.

(** [Payload::encode], appending to the destination.  (A failing serializer may
    leave a partial write behind; every caller drops the buffer then.) *)
Definition encode (p : Payload) : M bytes ProtocolError unit := λ dst,
  match map_err CborEncode (encode_inner p) with
  | Ok bs => (Ok tt, dst ++ bs)
  | Err e => (Err e, dst)
  | Panic => (Panic, dst)
  end.

(** [ciborium::de::from_reader(bytes).map_err(|e| CborDecode(e.to_string()))?]
    under a variant of the enum. *)
Definition decode_inner {A} `{Cbor A} (k : A → Payload) (bs : bytes) : outcome ProtocolError Payload :=
  a ← map_err CborDecode (cbor_de bs); Ok (k a).

(** [Payload::decode]. *)
Definition decode (opcode : Opcode) (bs : bytes) : outcome ProtocolError Payload :=
  if FrameHeader.MAX_PAYLOAD_SIZE <? zlen bs then
    Err (PayloadTooLarge (zlen bs) FrameHeader.MAX_PAYLOAD_SIZE)
  else
    match opcode with
    | Opcode.Hello => decode_inner Hello bs
    | Opcode.HelloReply => decode_inner HelloReply bs
    | Opcode.Goodbye => decode_inner Goodbye bs
    | Opcode.Ping => Ok Ping
    | Opcode.Pong => Ok Pong
    | Opcode.SyncRequest => decode_inner SyncRequest bs
    | Opcode.SyncResponse => decode_inner SyncResponse bs
    | Opcode.KeyPackage => decode_inner KeyPackage bs
    | Opcode.Proposal => decode_inner Proposal bs
    | Opcode.Commit => decode_inner Commit bs
    | Opcode.Welcome => decode_inner Welcome bs
    | Opcode.AppMessage => decode_inner AppMessage bs
    | Opcode.AppReceipt => decode_inner AppReceipt bs
    | Opcode.AppReaction => decode_inner AppReaction bs
    | Opcode.Redact => decode_inner Redact bs
    | Opcode.Ban => decode_inner Ban bs
    | Opcode.Kick => decode_inner Kick bs
    | Opcode.Error => decode_inner Error bs
    | _ => Err (CborDecode ("Unsupported opcode: " +:+ fmt_hex_alt 6 (Opcode.to_u16 opcode)))
    end.

(** [Payload::into_frame]. *)
Definition into_frame (p : Payload) (header : FrameHeader) : outcome ProtocolError Frame :=
  match encode p [] with
  | (Ok _, buf) =>
      Ok (Frame.new (FrameHeader.set_opcode (Opcode.to_u16 (opcode p)) header) buf)
  | (Err e, _) => Err e
  | (Panic, _) => Panic
  end.

(** [Payload::from_frame]. *)
Definition from_frame (frame : Frame) : outcome ProtocolError Payload :=
  match FrameHeader.opcode_enum (Frame.header frame) with
  | None => Err (CborDecode ("Invalid opcode: " +:+
                             fmt_hex_alt 6 (FrameHeader.opcode (Frame.header frame))))
  | Some opcode => decode opcode (Frame.payload frame)
  end.

(** ** Lemmas *)

Lemma into_frame_Ok p h f :
  into_frame p h = Ok f ↔
  ∃ bs, encode_inner p = Ok bs
        ∧ f = Frame.new (FrameHeader.set_opcode (Opcode.to_u16 (opcode p)) h) bs.
Proof.
  unfold into_frame, encode. split.
  - intros Hf. mcases; eauto.
  - intros (bs & E & ->). by rewrite E.
Qed.

Lemma set_opcode_enum o h : FrameHeader.opcode_enum (FrameHeader.set_opcode (Opcode.to_u16 o) h) = Some o.
Proof.
  unfold FrameHeader.opcode_enum, FrameHeader.opcode; cbn.
  rewrite from_to_be_bytes by (pose proof (Opcode.to_u16_range o); cbn; lia).
  apply Opcode.from_to_u16.
Qed.

Lemma into_frame_opcode p h f :
  into_frame p h = Ok f → FrameHeader.opcode_enum (Frame.header f) = Some (opcode p).
Proof. intros (bs & _ & ->)%into_frame_Ok. exact (set_opcode_enum (opcode p) h). Qed.

Lemma into_frame_wf p h f :
  into_frame p h = Ok f → FrameHeader.wf h → FrameHeader.magic h = FrameHeader.MAGIC →
  FrameHeader.version h = FrameHeader.VERSION →
  zlen (Frame.payload f) ≤ FrameHeader.MAX_PAYLOAD_SIZE → Frame.wf f.
Proof.
  intros (bs & _ & ->)%into_frame_Ok ????. by apply Frame.frame_new_wf; auto with lockframe.
Qed.

Lemma decode_inner_Ok {A} `{Cbor A} (k : A → Payload) bs p :
  decode_inner k bs = Ok p → ∃ a, p = k a.
Proof. unfold decode_inner. intros. mcases; eauto. Qed.

Lemma decode_opcode o bs p : decode o bs = Ok p → opcode p = o.
Proof.
  unfold decode. intros Hd. case_match; [done|].
  destruct o; simplify_eq; try done; by apply decode_inner_Ok in Hd as [a ->].
Qed.

Lemma decode_encode_inner `{!PayloadCodecOk} p bs :
  encode_inner p = Ok bs → zlen bs ≤ FrameHeader.MAX_PAYLOAD_SIZE → decode (opcode p) bs = Ok p.
Proof.
  intros He Hb. unfold decode. rewrite (proj2 (Z.ltb_ge _ _)) by done.
  destruct p; cbn in *; try done; unfold decode_inner; by rewrite (cbor_roundtrip _ _ He).
Qed.

Lemma from_into_frame `{!PayloadCodecOk} p h f :
  into_frame p h = Ok f → zlen (Frame.payload f) ≤ FrameHeader.MAX_PAYLOAD_SIZE →
  from_frame f = Ok p.
Proof.
  intros Hf Hb. unfold from_frame. rewrite (into_frame_opcode _ _ _ Hf).
  apply into_frame_Ok in Hf as (bs & He & ->). by apply decode_encode_inner.
Qed.

(** The path of a payload to the peer: frame, wire bytes, frame, payload. *)
Lemma wire `{!PayloadCodecOk} p h f :
  FrameHeader.wf h → FrameHeader.valid h →
  into_frame p h = Ok f → zlen (Frame.payload f) ≤ FrameHeader.MAX_PAYLOAD_SIZE →
  ∃ wire, Frame.encode f [] = (Ok tt, wire)
    ∧ Frame.decode wire = Ok f
    ∧ FrameHeader.opcode_enum (Frame.header f) = Some (opcode p)
    ∧ from_frame f = Ok p.
Proof.
  intros Hwf (Hm & Hv & _) Hf Hb.
  pose proof (into_frame_wf _ _ _ Hf Hwf Hm Hv Hb) as Hfw.
  exists (FrameHeader.to_bytes (Frame.header f) ++ Frame.payload f).
  split_and!.
  - by rewrite Frame.encode_Ok by by apply Frame.wf_bound.
  - rewrite <-(app_nil_r (Frame.payload f)). by apply Frame.decode_app.
  - by eapply into_frame_opcode.
  - by eapply from_into_frame.
Qed.

(** ** Properties *)

(** C30: a payload survives the whole path to the peer.  Whatever valid header it
    is put under, if it serializes to at most 16 MB then the frame encodes, the
    peer's decoder accepts the bytes, and the peer reads the same payload under
    the opcode of its variant. *)
Theorem payload_wire_roundtrip `{!PayloadCodecOk} p h f :
  FrameHeader.wf h → FrameHeader.valid h →
  into_frame p h = Ok f → zlen (Frame.payload f) ≤ FrameHeader.MAX_PAYLOAD_SIZE →
  ∃ wire, Frame.encode f [] = (Ok tt, wire)
    ∧ Frame.decode wire = Ok f
    ∧ FrameHeader.opcode_enum (Frame.header f) = Some (opcode p)
    ∧ from_frame f = Ok p.
Proof. apply wire. Qed.

(** The payload variant is decided by the opcode alone: whatever the codec
    does, a frame that parses yields the variant of its header's opcode, so an
    opcode and a payload can never be mismatched, and a frame whose opcode is
    unknown or has no payload type is rejected. *)
Theorem from_frame_opcode_directed f p :
  from_frame f = Ok p → FrameHeader.opcode_enum (Frame.header f) = Some (opcode p).
Proof.
  unfold from_frame. intros Hf. destruct (FrameHeader.opcode_enum _) as [o|]; [|done].
  by rewrite (decode_opcode _ _ _ Hf).
Qed.

End codec.
End Payload.
Abbreviation Payload := Payload.Payload.

(** ** A concrete codec

    A self-contained codec for the witnesses: every value is numbered by its
    [Countable] instance and written as the bits of that number. *)
Module ToyCodec.
Fixpoint pos_bytes (p : positive) : bytes :=
  match p with
  | xH => []
  | xO p => Byte.x00 :: pos_bytes p
  | xI p => Byte.x01 :: pos_bytes p
  end.
Fixpoint bytes_pos (bs : bytes) : positive :=
  match bs with
  | [] => xH
  | Byte.x00 :: bs => xO (bytes_pos bs)
  | _ :: bs => xI (bytes_pos bs)
  end.
Lemma bytes_pos_bytes p : bytes_pos (pos_bytes p) = p.
Proof. induction p; cbn; congruence. Qed.

#[global] Instance toy_cbor `{Countable A} : Cbor A := {
  cbor_ser a := Ok (pos_bytes (encode a));
  cbor_de bs := match decode (bytes_pos bs) with Some a => Ok a | None => Err "toy" end;
}.
#[global] Instance toy_cbor_ok `{Countable A} : CborOk A.
Proof. intros a bs [= <-]. cbn. by rewrite bytes_pos_bytes, decode_encode. Qed.

#[global] Instance byte_countable : Countable byte.
Proof.
  refine (inj_countable Byte.to_N Byte.of_N _). intros b. apply Byte.of_to_N.
Defined.

Import session mls app moderation ErrorPayload.
#[global] Instance ProposalType_eq : EqDecision ProposalType.
Proof. solve_decision. Defined.
#[global] Instance ReceiptType_eq : EqDecision ReceiptType.
Proof. solve_decision. Defined.
#[global] Instance ProposalType_countable : Countable ProposalType.
Proof.
  refine (inj_countable'
    (λ t, match t with Add => 0 | Remove => 1 | Update => 2 | PSK => 3 | ReInit => 4
                     | ExternalInit => 5 | GroupContextExtensions => 6 end)
    (λ n, match n with 0 => Add | 1 => Remove | 2 => Update | 3 => PSK | 4 => ReInit
                     | 5 => ExternalInit | _ => GroupContextExtensions end) _).
  by intros [].
Defined.
#[global] Instance ReceiptType_countable : Countable ReceiptType.
Proof.
  refine (inj_countable' (λ t, match t with Delivered => false | Read => true end)
    (λ b : bool, if b then Read else Delivered) _).
  by intros [].
Defined.
#[global] Instance Hello_eq : EqDecision Hello.
Proof. solve_decision. Defined.
#[global] Instance Hello_countable : Countable Hello.
Proof.
  refine (inj_countable' (λ t, (hello_version t, hello_capabilities t, hello_auth_token t)) (λ '(x0, x1, x2), Build_Hello x0 x1 x2) _).
  by intros [].
Defined.
#[global] Instance HelloReply_eq : EqDecision HelloReply.
Proof. solve_decision. Defined.
#[global] Instance HelloReply_countable : Countable HelloReply.
Proof.
  refine (inj_countable' (λ t, (reply_session_id t, reply_capabilities t, reply_challenge t)) (λ '(x0, x1, x2), Build_HelloReply x0 x1 x2) _).
  by intros [].
Defined.
#[global] Instance Goodbye_eq : EqDecision Goodbye.
Proof. solve_decision. Defined.
#[global] Instance Goodbye_countable : Countable Goodbye.
Proof.
  refine (inj_countable' (λ t, (goodbye_reason t)) (λ x0, Build_Goodbye x0) _).
  by intros [].
Defined.
#[global] Instance SyncRequest_eq : EqDecision SyncRequest.
Proof. solve_decision. Defined.
#[global] Instance SyncRequest_countable : Countable SyncRequest.
Proof.
  refine (inj_countable' (λ t, (sync_from_log_index t, sync_limit t)) (λ '(x0, x1), Build_SyncRequest x0 x1) _).
  by intros [].
Defined.
#[global] Instance SyncResponse_eq : EqDecision SyncResponse.
Proof. solve_decision. Defined.
#[global] Instance SyncResponse_countable : Countable SyncResponse.
Proof.
  refine (inj_countable' (λ t, (sync_frames t, sync_has_more t, sync_server_epoch t)) (λ '(x0, x1, x2), Build_SyncResponse x0 x1 x2) _).
  by intros [].
Defined.
#[global] Instance KeyPackageData_eq : EqDecision KeyPackageData.
Proof. solve_decision. Defined.
#[global] Instance KeyPackageData_countable : Countable KeyPackageData.
Proof.
  refine (inj_countable' (λ t, (key_package_bytes t)) (λ x0, Build_KeyPackageData x0) _).
  by intros [].
Defined.
#[global] Instance ProposalData_eq : EqDecision ProposalData.
Proof. solve_decision. Defined.
#[global] Instance ProposalData_countable : Countable ProposalData.
Proof.
  refine (inj_countable' (λ t, (proposal_bytes t, proposal_type t)) (λ '(x0, x1), Build_ProposalData x0 x1) _).
  by intros [].
Defined.
#[global] Instance CommitData_eq : EqDecision CommitData.
Proof. solve_decision. Defined.
#[global] Instance CommitData_countable : Countable CommitData.
Proof.
  refine (inj_countable' (λ t, (commit_bytes t, new_epoch t, tree_hash t, is_external t)) (λ '(x0, x1, x2, x3), Build_CommitData x0 x1 x2 x3) _).
  by intros [].
Defined.
#[global] Instance WelcomeData_eq : EqDecision WelcomeData.
Proof. solve_decision. Defined.
#[global] Instance WelcomeData_countable : Countable WelcomeData.
Proof.
  refine (inj_countable' (λ t, (welcome_bytes t, welcome_epoch t)) (λ '(x0, x1), Build_WelcomeData x0 x1) _).
  by intros [].
Defined.
#[global] Instance PushKey_eq : EqDecision PushKey.
Proof. solve_decision. Defined.
#[global] Instance PushKey_countable : Countable PushKey.
Proof.
  refine (inj_countable' (λ t, (recipient_id t, encrypted_key t)) (λ '(x0, x1), Build_PushKey x0 x1) _).
  by intros [].
Defined.
#[global] Instance EncryptedMessage_eq : EqDecision EncryptedMessage.
Proof. solve_decision. Defined.
#[global] Instance EncryptedMessage_countable : Countable EncryptedMessage.
Proof.
  refine (inj_countable' (λ t, (msg_epoch t, msg_sender_index t, msg_generation t, msg_nonce t, msg_ciphertext t, msg_push_keys t)) (λ '(x0, x1, x2, x3, x4, x5), Build_EncryptedMessage x0 x1 x2 x3 x4 x5) _).
  by intros [].
Defined.
#[global] Instance Receipt_eq : EqDecision Receipt.
Proof. solve_decision. Defined.
#[global] Instance Receipt_countable : Countable Receipt.
Proof.
  refine (inj_countable' (λ t, (receipt_message_log_index t, receipt_kind t, receipt_timestamp t)) (λ '(x0, x1, x2), Build_Receipt x0 x1 x2) _).
  by intros [].
Defined.
#[global] Instance Reaction_eq : EqDecision Reaction.
Proof. solve_decision. Defined.
#[global] Instance Reaction_countable : Countable Reaction.
Proof.
  refine (inj_countable' (λ t, (reaction_message_log_index t, reaction_content t, reaction_add t)) (λ '(x0, x1, x2), Build_Reaction x0 x1 x2) _).
  by intros [].
Defined.
#[global] Instance Redact_eq : EqDecision Redact.
Proof. solve_decision. Defined.
#[global] Instance Redact_countable : Countable Redact.
Proof.
  refine (inj_countable' (λ t, (redact_message_log_index t, redact_reason t, redact_moderator_id t)) (λ '(x0, x1, x2), Build_Redact x0 x1 x2) _).
  by intros [].
Defined.
#[global] Instance Ban_eq : EqDecision Ban.
Proof. solve_decision. Defined.
#[global] Instance Ban_countable : Countable Ban.
Proof.
  refine (inj_countable' (λ t, (ban_user_id t, ban_reason t, ban_duration_secs t, ban_moderator_id t)) (λ '(x0, x1, x2, x3), Build_Ban x0 x1 x2 x3) _).
  by intros [].
Defined.
#[global] Instance Kick_eq : EqDecision Kick.
Proof. solve_decision. Defined.
#[global] Instance Kick_countable : Countable Kick.
Proof.
  refine (inj_countable' (λ t, (kick_user_id t, kick_reason t, kick_moderator_id t)) (λ '(x0, x1, x2), Build_Kick x0 x1 x2) _).
  by intros [].
Defined.
#[global] Instance ErrorPayload_eq : EqDecision ErrorPayload.
Proof. solve_decision. Defined.
#[global] Instance ErrorPayload_countable : Countable ErrorPayload.
Proof.
  refine (inj_countable' (λ t, (code t, message t, retry_after t)) (λ '(x0, x1, x2), Build_ErrorPayload x0 x1 x2) _).
  by intros [].
Defined.

Definition codec : PayloadCodec := ltac:(constructor; apply _).
Definition codec_ok : PayloadCodecOk (H := codec) := ltac:(constructor; apply toy_cbor_ok).
End ToyCodec.

Lemma payload_wire_roundtrip_witness :
  ∃ f, Payload.into_frame (H := ToyCodec.codec)
         (Payload.Goodbye {| session.goodbye_reason := "bye" |}) (FrameHeader.new Opcode.Ping) = Ok f
       ∧ Payload.from_frame (H := ToyCodec.codec) f
         = Ok (Payload.Goodbye {| session.goodbye_reason := "bye" |}).
Proof.
  eexists. split; [vm_compute; reflexivity|].
  pose proof (@Payload.payload_wire_roundtrip ToyCodec.codec ToyCodec.codec_ok
    (Payload.Goodbye {| session.goodbye_reason := "bye" |}) (FrameHeader.new Opcode.Ping)) as T.
  destruct (T _ (FrameHeader.new_wf _) (FrameHeader.new_valid _) eq_refl
    ltac:(by vm_compute)) as (wire & _ & _ & _ & Hf).
  exact Hf.
Defined.

Lemma from_frame_opcode_directed_witness :
  FrameHeader.opcode_enum (FrameHeader.new Opcode.Ping)
  = Some (Payload.opcode Payload.Ping).
Proof.
  apply (@Payload.from_frame_opcode_directed ToyCodec.codec
           {| Frame.header := FrameHeader.new Opcode.Ping; Frame.payload := [] |}).
  vm_compute. reflexivity.
Defined.
