(* ===== verification/Connection.v ===== *)
(** * The session layer

    [lockframe-core/src/env.rs], [error.rs] and [connection.rs]: the environment
    interface, the connection errors, and the connection state machine with its
    handshake, heartbeats, timeouts and graceful shutdown. *)

From S2P Require Import Prelude Opcodes Header Frame Payload.

(** ** The environment

    [trait Environment].  Its methods take [&self] but read a clock and draw from
    a generator, so each one also moves the environment's own state.  [sleep] is
    used by driver tasks only. *)
Module Environment.
Class Environment (T : Type) : Type := {
  now : T → Z * T;
  random_bytes : nat → T → bytes * T;
}.

(** The trait's documented guarantees: [now] never goes backwards, whatever is
    drawn in between, and [random_bytes] fills the buffer it is given. *)
Class EnvironmentOk (T : Type) `{Environment T} : Type := {
  clock : T → Z;
  now_reads : ∀ e, fst (now e) = clock e;
  now_monotone : ∀ e, clock e ≤ clock (snd (now e));
  random_keeps_clock : ∀ n e, clock e ≤ clock (snd (random_bytes n e));
  random_length : ∀ n e, length (fst (random_bytes n e)) = n;
}.

Section defaults.
Context {T : Type} `{Environment T}.
(** [Environment::random_u64]. *)
Definition random_u64 (e : T) : Z * T :=
  let '(bs, e) := random_bytes 8 e in (from_be_bytes bs, e).
(** [Environment::random_u128]. *)
Definition random_u128 (e : T) : Z * T :=
  let '(bs, e) := random_bytes 16 e in (from_be_bytes bs, e).
End defaults.
End Environment.
Abbreviation Environment := Environment.Environment.

(** A concrete environment for the witnesses: a clock that advances by one at
    every reading and a counter as the source of bytes. *)
Module ToyEnv.
Definition T : Type := Z * Z.
#[global] Instance env : Environment T := {
  now '(t, s) := (t, (t + 1, s));
  random_bytes n '(t, s) := (to_be_bytes n s, (t, s + 1));
}.
#[global, program] Instance env_ok : Environment.EnvironmentOk T := {| Environment.clock := fst |}.
Next Obligation. by intros []. Qed.
Next Obligation. intros []. cbn. lia. Qed.
Next Obligation. intros ? []. cbn. lia. Qed.
Next Obligation. intros ? []. apply length_to_be_bytes. Qed.
End ToyEnv.

Module ConnectionState.
(** [enum ConnectionState]. *)
Inductive ConnectionState : Type := Init | Pending | Authenticated | Closed.
#[global] Instance ConnectionState_eq_dec : EqDecision ConnectionState.
Proof. solve_decision. Defined.
(** [{:?}]. *)
Definition debug (s : ConnectionState) : string :=
  match s with
  | Init => "Init" | Pending => "Pending" | Authenticated => "Authenticated" | Closed => "Closed"
  end.
End ConnectionState.
Abbreviation ConnectionState := ConnectionState.ConnectionState.

Module ConnectionError.
(** [enum ConnectionError]. *)
Inductive ConnectionError : Type :=
| InvalidState (state : ConnectionState) (operation : string)
| UnexpectedFrame (state : ConnectionState) (opcode : Z)
| HandshakeTimeout (elapsed : Z)
| IdleTimeout (elapsed : Z)
| UnsupportedVersion (version : Z)
| InvalidPayload (expected : string) (opcode : Z)
| Protocol (msg : string)
| Transport (msg : string).

(** The [Display] text. *)
Definition to_string (e : ConnectionError) : string :=
  match e with
  | InvalidState state operation =>
      "invalid state transition: cannot " +:+ operation +:+ " from "
        +:+ ConnectionState.debug state
  | UnexpectedFrame state opcode =>
      "unexpected frame: received opcode " +:+ fmt_hex_alt 6 opcode +:+ " in state "
        +:+ ConnectionState.debug state
  | HandshakeTimeout elapsed => "handshake timeout after " +:+ fmt_duration elapsed
  | IdleTimeout elapsed => "idle timeout after " +:+ fmt_duration elapsed
  | UnsupportedVersion v => "unsupported protocol version: " +:+ fmt_int v
  | InvalidPayload expected opcode =>
      "invalid payload: expected " +:+ expected +:+ " for opcode " +:+ fmt_hex_alt 6 opcode
  | Protocol m => "protocol error: " +:+ m
  | Transport m => "transport error: " +:+ m
  end.

(** [ConnectionError::is_transient]. *)
Definition is_transient (e : ConnectionError) : bool :=
  match e with HandshakeTimeout _ | IdleTimeout _ => true | _ => false end.

(** The [io::ErrorKind]s the conversion uses. *)
Inductive ErrorKind : Type := TimedOut | InvalidData | Other.
(** [From<ConnectionError> for io::Error]: the kind and the text. *)
Definition into_io_error (e : ConnectionError) : ErrorKind * string :=
  (match e with
   | HandshakeTimeout _ | IdleTimeout _ => TimedOut
   | InvalidState _ _ | UnexpectedFrame _ _ | UnsupportedVersion _ | InvalidPayload _ _ =>
       InvalidData
   | Protocol _ => InvalidData
   | Transport _ => Other
   end, to_string e).

(** [From<ProtocolError> for ConnectionError]. *)
Definition from_protocol (e : ProtocolError) : ConnectionError :=
  Protocol (protocol_error_to_string e).
(** [From<io::Error> for ConnectionError], from the error's text. *)
Definition from_io (text : string) : ConnectionError := Transport text.
End ConnectionError.
Abbreviation ConnectionError := ConnectionError.ConnectionError.

Module Connection.
Import ConnectionState.

(** [enum ConnectionAction]. *)
Inductive ConnectionAction : Type :=
| SendFrame (frame : Frame)
| Close (reason : string).

(** [struct ConnectionConfig]; durations in nanoseconds. *)
Record ConnectionConfig : Type := {
  c_handshake_timeout : Z; idle_timeout : Z; heartbeat_interval : Z }.

Definition DEFAULT_HANDSHAKE_TIMEOUT : Z := from_secs 30.
Definition DEFAULT_IDLE_TIMEOUT : Z := from_secs 60.
Definition DEFAULT_HEARTBEAT_INTERVAL : Z := from_secs 20.

(** [ConnectionConfig::default]. *)
Definition default_config : ConnectionConfig :=
  {| c_handshake_timeout := DEFAULT_HANDSHAKE_TIMEOUT;
     idle_timeout := DEFAULT_IDLE_TIMEOUT;
     heartbeat_interval := DEFAULT_HEARTBEAT_INTERVAL |}.

(** [struct Connection]. *)
Record Connection : Type := {
  state : ConnectionState;
  config : ConnectionConfig;
  last_activity : Z;
  last_heartbeat : option Z;
  session_id : option Z;
}.

(** Assignments to the fields. *)
Definition with_state (s : ConnectionState) (c : Connection) : Connection :=
  {| state := s; config := config c; last_activity := last_activity c;
     last_heartbeat := last_heartbeat c; session_id := session_id c |}.
Definition with_last_activity (t : Z) (c : Connection) : Connection :=
  {| state := state c; config := config c; last_activity := t;
     last_heartbeat := last_heartbeat c; session_id := session_id c |}.
Definition with_last_heartbeat (t : option Z) (c : Connection) : Connection :=
  {| state := state c; config := config c; last_activity := last_activity c;
     last_heartbeat := t; session_id := session_id c |}.
Definition with_session_id (s : option Z) (c : Connection) : Connection :=
  {| state := state c; config := config c; last_activity := last_activity c;
     last_heartbeat := last_heartbeat c; session_id := s |}.

(** [Connection::new]. *)
Definition new (now : Z) (config : ConnectionConfig) : Connection :=
  {| state := Init; config := config; last_activity := now; last_heartbeat := None;
     session_id := None |}.

(** [Connection::handshake_timeout]. *)
Definition handshake_timeout (c : Connection) : Z := c_handshake_timeout (config c).

(** [Connection::set_session_id]. *)
Definition set_session_id (sid : Z) (c : Connection) : Connection := with_session_id (Some sid) c.

(** [Connection::close]. *)
Definition close (c : Connection) : Connection := with_state Closed c.

(** [Connection::update_activity]. *)
Definition update_activity (now : Z) (c : Connection) : Connection := with_last_activity now c.

(** [Connection::check_timeout]. *)
Definition check_timeout (now : Z) (c : Connection) : option Z :=
  let elapsed := elapsed_since now (last_activity c) in
  match state c with
  | Pending => if c_handshake_timeout (config c) <? elapsed then Some elapsed else None
  | Authenticated => if idle_timeout (config c) <? elapsed then Some elapsed else None
  | _ => None
  end.

(** The test [should_send] of [tick]. *)
Definition heartbeat_due (now : Z) (c : Connection) : bool :=
  match last_heartbeat c with
  | None => true
  | Some last => heartbeat_interval (config c) <=? elapsed_since now last
  end.

(** [Connection::tick]. *)
Definition tick (now : Z) (c : Connection) : list ConnectionAction * Connection :=
  match check_timeout now c with
  | Some elapsed =>
      let reason :=
        match state c with
        | Pending => "handshake timeout after " +:+ fmt_duration elapsed
        | Authenticated => "idle timeout after " +:+ fmt_duration elapsed
        | _ => "timeout"
        end in
      ([Close reason], close c)
  | None =>
      if bool_decide (state c = Authenticated) then
        if heartbeat_due now c then
          ([SendFrame (Frame.new (FrameHeader.new Opcode.Ping) [])],
           with_last_activity now (with_last_heartbeat (Some now) c))
        else ([], c)
      else ([], c)
  end.

Section methods.
Context `{PayloadCodec}.
Abbreviation Conn := (M Connection ConnectionError).

(** [payload.into_frame(header)?] and [Payload::from_frame(frame)?]. *)
Definition into_frame_ (p : Payload) (h : FrameHeader) : Conn Frame :=
  m_lift (map_err ConnectionError.from_protocol (Payload.into_frame p h)).
Definition from_frame_ (f : Frame) : Conn Payload :=
  m_lift (map_err ConnectionError.from_protocol (Payload.from_frame f)).

Definition the_hello : Payload :=
  Payload.Hello {| session.hello_version := 1; session.hello_capabilities := [];
                   session.hello_auth_token := None |}.
Definition hello_reply (sid : Z) : Payload :=
  Payload.HelloReply {| session.reply_session_id := sid; session.reply_capabilities := [];
                        session.reply_challenge := None |}.

(** [Connection::send_hello]. *)
Definition send_hello (now : Z) : Conn (list ConnectionAction) :=
  c ← m_get;
  if negb (bool_decide (state c = Init)) then
    m_err (ConnectionError.InvalidState (state c) "send_hello")
  else
    m_modify (with_state Pending);;
    m_modify (with_last_activity now);;
    frame ← into_frame_ the_hello (FrameHeader.new Opcode.Hello);
    mret [SendFrame frame].

(** [Connection::handle_hello]; the draw from the environment happens only when
    the two checks pass. *)
Definition handle_hello {T} `{Environment T} (hello : session.Hello) (now : Z) :
    M (Connection * T) ConnectionError (list ConnectionAction) :=
  s ← m_get;
  let '(c, env) := s in
  if negb (bool_decide (state c = Init)) then
    m_err (ConnectionError.InvalidState (state c) "handle_hello")
  else if negb (session.hello_version hello =? 1) then
    m_err (ConnectionError.UnsupportedVersion (session.hello_version hello))
  else
    let '(sid, env) := Environment.random_u64 env in
    m_modify (λ '(c, _), (with_session_id (Some sid) c, env));;
    m_zoom fst (λ c '(_, e), (c, e)) (
      m_modify (with_state Authenticated);;
      m_modify (with_last_activity now);;
      frame ← into_frame_ (hello_reply sid) (FrameHeader.new Opcode.HelloReply);
      mret [SendFrame frame]).

(** [Connection::handle_frame]. *)
Definition handle_frame (frame : Frame) (now : Z) : Conn (list ConnectionAction) :=
  m_modify (with_last_activity now);;
  c ← m_get;
  match FrameHeader.opcode_enum (Frame.header frame) with
  | None =>
      m_err (ConnectionError.UnexpectedFrame (state c) (FrameHeader.opcode (Frame.header frame)))
  | Some opcode =>
      match state c, opcode with
      | Init, Opcode.Hello =>
          payload ← from_frame_ frame;
          match payload with
          | Payload.Hello hello =>
              if negb (session.hello_version hello =? 1) then
                m_err (ConnectionError.UnsupportedVersion (session.hello_version hello))
              else
                match session_id c with
                | None =>
                    m_err (ConnectionError.Protocol
                             "server must set session_id before handling Hello")
                | Some sid =>
                    m_modify (with_state Authenticated);;
                    reply ← into_frame_ (hello_reply sid) (FrameHeader.new Opcode.HelloReply);
                    mret [SendFrame reply]
                end
          | _ => m_err (ConnectionError.InvalidPayload "Hello" (Opcode.to_u16 Opcode.Hello))
          end
      | Pending, Opcode.HelloReply =>
          payload ← from_frame_ frame;
          match payload with
          | Payload.HelloReply reply =>
              m_modify (with_state Authenticated);;
              m_modify (with_session_id (Some (session.reply_session_id reply)));;
              mret []
          | _ =>
              m_err (ConnectionError.InvalidPayload "HelloReply" (Opcode.to_u16 Opcode.HelloReply))
          end
      | Authenticated, Opcode.Ping =>
          mret [SendFrame (Frame.new (FrameHeader.new Opcode.Pong) [])]
      | Authenticated, Opcode.Pong => mret []
      | Init, Opcode.Goodbye | Pending, Opcode.Goodbye | Authenticated, Opcode.Goodbye =>
          payload ← from_frame_ frame;
          match payload with
          | Payload.Goodbye goodbye =>
              m_modify (with_state Closed);;
              reply ← into_frame_ (Payload.Goodbye {| session.goodbye_reason := "ack" |})
                        (FrameHeader.new Opcode.Goodbye);
              mret [SendFrame reply;
                    Close ("peer goodbye: " +:+ session.goodbye_reason goodbye)]
          | _ => m_err (ConnectionError.InvalidPayload "Goodbye" (Opcode.to_u16 Opcode.Goodbye))
          end
      | _, Opcode.Error =>
          m_modify (with_state Closed);;
          mret [Close "peer error"]
      | state, opcode =>
          m_err (ConnectionError.UnexpectedFrame state (Opcode.to_u16 opcode))
      end
  end.
End methods.

(** ** The state machine

    One step of a connection: any public operation, whatever it returns.  The
    state an operation leaves behind when it fails is a step too. *)
Section machine.
Context `{PayloadCodec} {T : Type} `{Environment T}.

Inductive step : Connection → Connection → Prop :=
| step_set_session_id sid c : step c (set_session_id sid c)
| step_send_hello now c : step c (snd (send_hello now c))
| step_handle_hello hello now env c : step c (fst (snd (handle_hello hello now (c, env))))
| step_handle_frame frame now c : step c (snd (handle_frame frame now c))
| step_update_activity now c : step c (update_activity now c)
| step_tick now c : step c (snd (tick now c))
| step_close c : step c (close c).

(** The arrows of the diagram at the head of [connection.rs]. *)
Inductive transition : ConnectionState → ConnectionState → Prop :=
| t_stay s : transition s s
| t_hello_sent : transition Init Pending
| t_hello_received : transition Init Authenticated
| t_reply_received : transition Pending Authenticated
| t_closed s : transition s Closed.

Definition reachable (c : Connection) : Prop :=
  ∃ now config, rtc step (new now config) c.

Ltac ops :=
  cbv [send_hello handle_hello handle_frame tick check_timeout close update_activity
       set_session_id with_state with_last_activity with_session_id with_last_heartbeat
       into_frame_ from_frame_] in *.
#[local] Hint Constructors transition : core.

Lemma handle_frame_cases frame now c :
  let c' := snd (handle_frame frame now c) in
  config c' = config c ∧ last_activity c' = now ∧ last_heartbeat c' = last_heartbeat c
  ∧ transition (state c) (state c')
  ∧ ((state c' = state c ∧ session_id c' = session_id c)
     ∨ (state c' = Authenticated ∧ is_Some (session_id c'))
     ∨ state c' = Closed).
Proof.
  destruct c as [st cf la lh si]. ops. munfold. cbn.
  repeat case_match; simplify_eq/=; split_and!; auto; right; left; eauto.
Qed.

Lemma step_session c c' :
  step c c' →
  (state c = Authenticated → is_Some (session_id c)) →
  (state c' = Authenticated → is_Some (session_id c')).
Proof.
  destruct 1 as [sid c|now c|hello now env c|frame now c|now c|now c|c]; intros IH.
  4: { pose proof (handle_frame_cases frame now c) as (_&_&_&_&[[-> ->]|[[_ ?]| ->]]); auto; congruence. }
  all: destruct c as [st cf la lh si]; ops; munfold; cbn in *; repeat case_match; simplify_eq/=;
    eauto; try done.
Qed.

Lemma step_transition c c' : step c c' → transition (state c) (state c').
Proof.
  destruct 1 as [sid c|now c|hello now env c|frame now c|now c|now c|c].
  4: { apply handle_frame_cases. }
  all: destruct c as [st cf la lh si]; ops; munfold; cbn; repeat case_match; simplify_eq/=; auto.
  all: bool_to_prop; subst; auto.
Qed.

Lemma step_config c c' : step c c' → config c' = config c.
Proof.
  destruct 1 as [sid c|now c|hello now env c|frame now c|now c|now c|c].
  4: { apply handle_frame_cases. }
  all: destruct c as [st cf la lh si]; ops; munfold; cbn; repeat case_match; simplify_eq/=; auto.
Qed.

Lemma reachable_session c : reachable c → state c = Authenticated → is_Some (session_id c).
Proof.
  intros (now & cf & Hr). remember (new now cf) as c0 eqn:E.
  assert (state c0 = Authenticated → is_Some (session_id c0)) as H0 by (by subst).
  clear E. induction Hr; eauto using step_session.
Qed.

Lemma closed_final c c' : rtc step c c' → state c = Closed → state c' = Closed.
Proof.
  induction 1 as [|c c' c'' Hs _ IH]; [done|]. intros Hc. apply IH.
  apply step_transition in Hs. rewrite Hc in Hs. by inversion Hs.
Qed.

(** ** Properties *)

(** C16: whatever sequence of operations is run on a connection, succeeding or
    failing, each one follows an arrow of the documented state diagram, a
    closed connection stays closed for ever, and a connection is authenticated
    only with a session id assigned. *)
Theorem state_machine_safe c :
  reachable c →
  (∀ c', step c c' → transition (state c) (state c') ∧ config c' = config c)
  ∧ (state c = Authenticated → is_Some (session_id c))
  ∧ (state c = Closed → ∀ c', rtc step c c' → state c' = Closed).
Proof.
  intros Hr. split_and!.
  - intros c' Hs. split; [by apply step_transition|by apply step_config].
  - by apply reachable_session.
  - intros Hc c' Hs. by eapply closed_final.
Qed.

End machine.

(** *** Ticks *)

(** The ticks of a connection on which nothing else happens. *)
Fixpoint ticks (times : list Z) (c : Connection) : list ConnectionAction * Connection :=
  match times with
  | [] => ([], c)
  | t :: times =>
      let '(acts, c) := tick t c in
      let '(acts', c) := ticks times c in (acts ++ acts', c)
  end.

(** Tick times that never go back and are at most [d] apart, from [prev] on. *)
Fixpoint paced (d prev : Z) (times : list Z) : Prop :=
  match times with
  | [] => True
  | t :: times => prev ≤ t ≤ prev + d ∧ paced d t times
  end.

Lemma check_timeout_None now c lim :
  state c = Authenticated → now - last_activity c ≤ lim → lim ≤ idle_timeout (config c) →
  0 ≤ lim → check_timeout now c = None.
Proof.
  intros Hs ???. unfold check_timeout, elapsed_since. rewrite Hs.
  rewrite (proj2 (Z.ltb_ge _ _)) by lia. done.
Qed.

(** What a tick does while the connection is authenticated and in time. *)
Lemma tick_alive now c :
  state c = Authenticated → check_timeout now c = None →
  tick now c =
    if heartbeat_due now c then
      ([SendFrame (Frame.new (FrameHeader.new Opcode.Ping) [])],
       with_last_activity now (with_last_heartbeat (Some now) c))
    else ([], c).
Proof. intros Hs Ht. unfold tick. rewrite Ht, bool_decide_true by done. done. Qed.

(** The heartbeat clock keeps the connection alive: after a tick at [prev] the
    last heartbeat is recent, and activity is no older. *)
Definition kept_alive (prev : Z) (c : Connection) : Prop :=
  state c = Authenticated
  ∧ ∃ lh, last_heartbeat c = Some lh ∧ lh ≤ last_activity c
          ∧ elapsed_since prev lh < Z.max 1 (heartbeat_interval (config c)).

Lemma tick_kept_alive d prev t c :
  0 ≤ heartbeat_interval (config c) → 0 ≤ d →
  Z.max 1 (heartbeat_interval (config c)) + d ≤ idle_timeout (config c) →
  kept_alive prev c → prev ≤ t ≤ prev + d →
  kept_alive t (snd (tick t c)) ∧ config (snd (tick t c)) = config c
  ∧ Forall (λ a, a = SendFrame (Frame.new (FrameHeader.new Opcode.Ping) [])) (fst (tick t c)).
Proof.
  intros Hh Hd Hi (Hs & lh & Hlh & Hla & He) Ht. unfold elapsed_since in He.
  rewrite tick_alive; [|done|].
  2: { eapply (check_timeout_None _ _ (Z.max 1 (heartbeat_interval (config c)) + d)); [done|lia..]. }
  unfold heartbeat_due. rewrite Hlh. unfold elapsed_since. case_match; bool_to_prop; cbn.
  - split_and!; [|done|by repeat constructor]. split; [done|]. exists t.
    cbn. unfold elapsed_since. split_and!; [done|lia..].
  - split_and!; [|done|constructor]. split; [done|]. exists lh. unfold elapsed_since.
    split_and!; [done..|lia].
Qed.

Lemma ticks_kept_alive d prev ts c :
  0 ≤ heartbeat_interval (config c) → 0 ≤ d →
  Z.max 1 (heartbeat_interval (config c)) + d ≤ idle_timeout (config c) →
  kept_alive prev c → paced d prev ts →
  state (snd (ticks ts c)) = Authenticated
  ∧ Forall (λ a, a = SendFrame (Frame.new (FrameHeader.new Opcode.Ping) [])) (fst (ticks ts c)).
Proof.
  revert prev c; induction ts as [|t ts IH]; intros prev c Hh Hd Hi Hk Hp.
  { split; [apply Hk|constructor]. }
  destruct Hp as [Ht Hp]. cbn.
  destruct (tick_kept_alive d prev t c Hh Hd Hi Hk Ht) as (Hk' & Hc & Ha).
  destruct (tick t c) as [acts c1]; cbn in *. rewrite <-Hc in Hh, Hi.
  destruct (IH t c1 Hh Hd Hi Hk' Hp) as [Hst Hf].
  destruct (ticks ts c1) as [acts' c2]; cbn in *. split; [done|]. by apply Forall_app.
Qed.

Lemma ticks_closed ts c : state c = Closed → ticks ts c = ([], c).
Proof.
  intros Hs. induction ts as [|t ts IH]; [done|]. cbn.
  unfold tick, check_timeout. rewrite Hs, bool_decide_false by done. by rewrite IH.
Qed.

Lemma tick_pending t c :
  state c = Pending →
  tick t c = if c_handshake_timeout (config c) <? elapsed_since t (last_activity c) then
               ([Close ("handshake timeout after " +:+ fmt_duration (elapsed_since t (last_activity c)))],
                close c)
             else ([], c).
Proof.
  intros Hs. unfold tick, check_timeout. rewrite Hs, bool_decide_false by done.
  by destruct (_ <? _).
Qed.

(** A handshake that gets no answer ends.  A pending connection that
    receives nothing closes, with exactly one [Close] action, at the first tick
    later than the handshake timeout, and not before. *)
Theorem handshake_times_out ts c :
  state c = Pending →
  if existsb (λ t, c_handshake_timeout (config c) <? elapsed_since t (last_activity c)) ts
  then state (snd (ticks ts c)) = Closed ∧ ∃ reason, fst (ticks ts c) = [Close reason]
  else ticks ts c = ([], c).
Proof.
  intros Hs. induction ts as [|t ts IH]; [done|]. cbn. rewrite tick_pending by done.
  destruct (_ <? elapsed_since t _); cbn.
  - rewrite ticks_closed by done. cbn. eauto.
  - destruct (ticks ts c), (existsb _ ts); naive_solver.
Qed.

Lemma handshake_times_out_witness :
  state (snd (ticks [from_secs 10; from_secs 31]
    (with_state Pending (new 0 default_config)))) = Closed.
Proof.
  pose proof (handshake_times_out [from_secs 10; from_secs 31]
    (with_state Pending (new 0 default_config)) eq_refl) as T.
  exact (proj1 T).
Defined.

(** The idle timeout does not detect a silent peer.  [tick] counts its own
    heartbeats as activity, so an authenticated connection that never receives
    another frame stays open for ever and only sends pings, as long as ticks
    come at most [idle_timeout - heartbeat_interval] apart (40 s under the
    default configuration). *)
Theorem heartbeats_defeat_idle_timeout d t0 ts c :
  state c = Authenticated →
  1 ≤ heartbeat_interval (config c) → 0 ≤ d →
  heartbeat_interval (config c) + d ≤ idle_timeout (config c) →
  last_activity c ≤ t0 ≤ last_activity c + d → last_heartbeat c = None →
  paced d t0 ts →
  state (snd (ticks (t0 :: ts) c)) = Authenticated
  ∧ Forall (λ a, a = SendFrame (Frame.new (FrameHeader.new Opcode.Ping) [])) (fst (ticks (t0 :: ts) c)).
Proof.
  intros Hs Hh Hd Hi Ht0 Hlh Hp. cbn.
  rewrite tick_alive; [|done|by apply (check_timeout_None _ _ d); [done|lia..]].
  unfold heartbeat_due. rewrite Hlh.
  match goal with |- context [ticks ts ?c1] =>
    destruct (ticks_kept_alive d t0 ts c1) as [Hst Hf]; cbn; [lia..| |done|] end.
  { split; [done|]. exists t0. cbn. unfold elapsed_since. split_and!; [done|lia..]. }
  destruct (ticks ts _); cbn in *. split; [done|]. by constructor.
Qed.

Lemma heartbeats_defeat_idle_timeout_witness :
  state (snd (ticks (from_secs 5 :: [from_secs 30; from_secs 60; from_secs 90; from_secs 130])
    (with_state Authenticated (new 0 default_config)))) = Authenticated.
Proof.
  apply (heartbeats_defeat_idle_timeout (from_secs 40)); try done; cbn; lia.
Defined.

(** *** The handshake *)
Section handshake.
Context `{PayloadCodec} `{!PayloadCodecOk}.

Lemma send_hello_init now c frame :
  state c = Init → Payload.into_frame the_hello (FrameHeader.new Opcode.Hello) = Ok frame →
  send_hello now c = (Ok [SendFrame frame], with_last_activity now (with_state Pending c)).
Proof. intros Hs Hf. unfold send_hello, into_frame_. munfold. by rewrite Hs, Hf. Qed.

Lemma handle_frame_hello now c sid hello frame reply :
  state c = Init → session_id c = Some sid →
  FrameHeader.opcode_enum (Frame.header frame) = Some Opcode.Hello →
  Payload.from_frame frame = Ok (Payload.Hello hello) → session.hello_version hello = 1 →
  Payload.into_frame (hello_reply sid) (FrameHeader.new Opcode.HelloReply) = Ok reply →
  handle_frame frame now c
  = (Ok [SendFrame reply], with_state Authenticated (with_last_activity now c)).
Proof.
  intros Hs Hsid Ho Hp Hv Hr. unfold handle_frame, from_frame_, into_frame_. munfold.
  rewrite Ho. cbn. rewrite Hs, Hp, Hv. cbn. by rewrite Hsid, Hr.
Qed.

Lemma handle_frame_reply now c reply frame :
  state c = Pending →
  FrameHeader.opcode_enum (Frame.header frame) = Some Opcode.HelloReply →
  Payload.from_frame frame = Ok (Payload.HelloReply reply) →
  handle_frame frame now c
  = (Ok [], with_session_id (Some (session.reply_session_id reply))
              (with_state Authenticated (with_last_activity now c))).
Proof.
  intros Hs Ho Hp. unfold handle_frame, from_frame_. munfold. rewrite Ho. cbn. by rewrite Hs, Hp.
Qed.

(** The handshake succeeds end to end.  Between a fresh client and a server
    that has assigned a session id, the client's Hello is encoded, decoded by
    the server and answered; the reply is encoded, decoded by the client and
    accepted; both sides end authenticated with the same session id. *)
Theorem handshake_completes client server sid t1 t2 t3 hello reply :
  state client = Init → state server = Init → session_id server = Some sid →
  Payload.into_frame the_hello (FrameHeader.new Opcode.Hello) = Ok hello →
  Payload.into_frame (hello_reply sid) (FrameHeader.new Opcode.HelloReply) = Ok reply →
  zlen (Frame.payload hello) ≤ FrameHeader.MAX_PAYLOAD_SIZE →
  zlen (Frame.payload reply) ≤ FrameHeader.MAX_PAYLOAD_SIZE →
  ∃ client1 hello_wire server1 reply_wire client2,
    send_hello t1 client = (Ok [SendFrame hello], client1)
    ∧ Frame.encode hello [] = (Ok tt, hello_wire) ∧ Frame.decode hello_wire = Ok hello
    ∧ handle_frame hello t2 server = (Ok [SendFrame reply], server1)
    ∧ Frame.encode reply [] = (Ok tt, reply_wire) ∧ Frame.decode reply_wire = Ok reply
    ∧ handle_frame reply t3 client1 = (Ok [], client2)
    ∧ state client2 = Authenticated ∧ state server1 = Authenticated
    ∧ session_id client2 = Some sid ∧ session_id server1 = Some sid.
Proof.
  intros Hc Hs Hsid Hh Hr Hbh Hbr.
  destruct (Payload.wire _ _ _ (FrameHeader.new_wf _) (FrameHeader.new_valid _) Hh Hbh)
    as (hw & Heh & Hdh & Hoh & Hph).
  destruct (Payload.wire _ _ _ (FrameHeader.new_wf _) (FrameHeader.new_valid _) Hr Hbr)
    as (rw & Her & Hdr & Hor & Hpr).
  exists (with_last_activity t1 (with_state Pending client)), hw,
    (with_state Authenticated (with_last_activity t2 server)), rw,
    (with_session_id (Some sid) (with_state Authenticated (with_last_activity t3
       (with_last_activity t1 (with_state Pending client))))).
  split_and!; try done.
  - by apply send_hello_init.
  - by eapply handle_frame_hello.
  - apply (handle_frame_reply _ _ {| session.reply_session_id := sid;
      session.reply_capabilities := []; session.reply_challenge := None |}); done.
Qed.
End handshake.

(** *** Witnesses *)
Lemma state_machine_safe_witness :
  state (snd (tick 5 (with_state Closed (new 0 default_config)))) = Closed.
Proof.
  refine (proj2 (proj2 (@state_machine_safe ToyCodec.codec ToyEnv.T _ (with_state Closed (new 0 default_config)) _))
    eq_refl _ _); [|apply rtc_once, step_tick].
  exists 0, default_config. apply rtc_once, step_close.
Defined.

Lemma handshake_completes_witness :
  ∃ hello reply client1 server1 client2,
    send_hello (H := ToyCodec.codec) 1 (new 0 default_config) = (Ok [SendFrame hello], client1)
    ∧ handle_frame (H := ToyCodec.codec) hello 2 (set_session_id 77 (new 0 default_config))
      = (Ok [SendFrame reply], server1)
    ∧ handle_frame (H := ToyCodec.codec) reply 3 client1 = (Ok [], client2)
    ∧ session_id client2 = Some 77 ∧ session_id server1 = Some 77.
Proof.
  pose proof (@handshake_completes ToyCodec.codec ToyCodec.codec_ok (new 0 default_config)
    (set_session_id 77 (new 0 default_config)) 77 1 2 3) as T.
  destruct (T _ _ eq_refl eq_refl eq_refl eq_refl eq_refl ltac:(by vm_compute) ltac:(by vm_compute))
    as (c1 & _ & s1 & _ & c2 & H1 & _ & _ & H2 & _ & _ & H3 & _ & _ & H4 & H5).
  eexists _, _, c1, s1, c2. split_and!; [exact H1|exact H2|exact H3|exact H4|exact H5].
Defined.

End Connection.
Abbreviation Connection := Connection.Connection.
