(* ===== verification/SenderKeys.v ===== *)
(** * Sender keys

    [lockframe-crypto/src/sender_keys/]: seed derivation, the symmetric ratchet
    and message encryption.

    The primitives come from the [hmac], [hkdf] and [chacha20poly1305] crates and
    are parameters (class [Primitives]).  [drop] is what an object leaves in memory. *)

From S2P Require Import Prelude Header.

(** HMAC-SHA256 of a key and a message ([new_from_slice] accepts every key
    length), HKDF-SHA256 without salt expanded to 32 bytes (within the crate's
    limit of 255 * 32), and the AEAD: [aead_encrypt] fails only on a plaintext
    beyond the cipher's limit, [aead_decrypt] fails when the tag does not
    match. *)
Class Primitives : Type := {
  hmac_sha256 : bytes → bytes → bytes;
  hkdf_sha256 : bytes → bytes → bytes;
  aead_encrypt : bytes → bytes → bytes → option bytes;
  aead_decrypt : bytes → bytes → bytes → option bytes;
}.
(** What the AEAD documents: decryption inverts encryption. *)
Class PrimitivesOk `{Primitives} : Prop :=
  aead_roundtrip : ∀ k n p c, aead_encrypt k n p = Some c → aead_decrypt k n c = Some p.

(** Concrete primitives for the witnesses: the keyed functions concatenate their
    inputs and the cipher prefixes the plaintext with key and nonce. *)
Module ToyPrimitives.
Definition prims : Primitives := {|
  hmac_sha256 k m := k ++ m;
  hkdf_sha256 s i := s ++ i;
  aead_encrypt k n p := Some (k ++ n ++ p);
  aead_decrypt k n c :=
    if bool_decide (take (length (k ++ n)) c = k ++ n) then Some (drop (length (k ++ n)) c) else None;
|}.
Lemma prims_ok : PrimitivesOk (H := prims).
Proof.
  intros k n p c [= <-]. cbn. rewrite app_assoc, take_app_length, bool_decide_true by done.
  by rewrite drop_app_length.
Qed.
End ToyPrimitives.

Module SenderKeyError.
(** [enum SenderKeyError]. *)
Inductive SenderKeyError : Type :=
| UnknownSender (sender_index : Z)
| RatchetTooFarBehind (current requested : Z)
| DecryptionFailed (reason : string)
| EpochMismatch (expected actual : Z)
| InvalidKeyLength (expected actual : Z)
| GenerationOverflow (current : Z).

(** The [Display] text. *)
Definition to_string (e : SenderKeyError) : string :=
  match e with
  | UnknownSender i => "unknown sender: " +:+ fmt_int i
  | RatchetTooFarBehind current requested =>
      "ratchet too far behind: at generation " +:+ fmt_int current +:+ ", need "
        +:+ fmt_int requested
  | DecryptionFailed reason => "decryption failed: " +:+ reason
  | EpochMismatch expected actual =>
      "epoch mismatch: expected " +:+ fmt_int expected +:+ ", got " +:+ fmt_int actual
  | InvalidKeyLength expected actual =>
      "invalid key length: expected " +:+ fmt_int expected +:+ ", got " +:+ fmt_int actual
  | GenerationOverflow current => "ratchet generation overflow at " +:+ fmt_int current
  end.

(** [SenderKeyError::is_fatal]. *)
Definition is_fatal (e : SenderKeyError) : bool :=
  match e with
  | DecryptionFailed _ | InvalidKeyLength _ _ | GenerationOverflow _ => true
  | UnknownSender _ | RatchetTooFarBehind _ _ | EpochMismatch _ _ => false
  end.
End SenderKeyError.
Abbreviation SenderKeyError := SenderKeyError.SenderKeyError.

Section derivation.
Context `{Primitives}.

Definition SENDER_KEY_LABEL : bytes := bytes_of_string "lockframeSenderV1".

(** The [info] parameter built by [derive_sender_key_seed]. *)
Definition seed_info (epoch sender_index : Z) : bytes :=
  SENDER_KEY_LABEL ++ to_be_bytes 8 epoch ++ to_be_bytes 4 sender_index.

Definition derive_sender_key_seed (epoch_secret : bytes) (epoch sender_index : Z) : bytes :=
  hkdf_sha256 epoch_secret (seed_info epoch sender_index).

Definition derive_all_sender_seeds (epoch_secret : bytes) (epoch : Z) (member_indices : list Z) :
    list (Z * bytes) :=
  map (λ index, (index, derive_sender_key_seed epoch_secret epoch index)) member_indices.

(** Epoch and sender can be read off the [info] parameter. *)
Lemma seed_info_inj e e' i i' :
  0 ≤ e < U64_MOD → 0 ≤ e' < U64_MOD → 0 ≤ i < U32_MOD → 0 ≤ i' < U32_MOD →
  seed_info e i = seed_info e' i' → e = e' ∧ i = i'.
Proof.
  intros He He' Hi Hi' Heq. unfold seed_info in Heq. apply app_inv_head in Heq.
  apply app_inj_length in Heq as [Hq1 Hq2]; [|by rewrite !length_to_be_bytes].
  split; [apply (to_be_bytes_inj 8)|apply (to_be_bytes_inj 4)]; try done; cbn; lia.
Qed.
End derivation.

Module MessageKey.
(** [struct MessageKey]. *)
Record MessageKey : Type := { key : bytes; generation : Z }.
(** [Drop for MessageKey]. *)
Definition drop (k : MessageKey) : MessageKey := {| key := (λ _, Byte.x00) <$> key k; generation := generation k |}.
End MessageKey.
Abbreviation MessageKey := MessageKey.MessageKey.

Module SymmetricRatchet.
(** [struct SymmetricRatchet]. *)
Record SymmetricRatchet : Type := { chain_key : bytes; generation : Z }.
(** [Drop for SymmetricRatchet]. *)
Definition drop (r : SymmetricRatchet) : SymmetricRatchet :=
  {| chain_key := (λ _, Byte.x00) <$> chain_key r; generation := generation r |}.

Section ratchet.
Context `{Primitives}.

Definition CHAIN_LABEL : bytes := bytes_of_string "chain".
Definition MESSAGE_LABEL : bytes := bytes_of_string "message".
Definition MAX_SKIP : Z := 1000.

Definition new (seed : bytes) : SymmetricRatchet := {| chain_key := seed; generation := 0 |}.

Definition derive_message_key (r : SymmetricRatchet) : bytes :=
  hmac_sha256 (chain_key r) MESSAGE_LABEL.
Definition derive_next_chain_key (r : SymmetricRatchet) : bytes :=
  hmac_sha256 (chain_key r) CHAIN_LABEL.

(** [SymmetricRatchet::advance]. *)
Definition advance : M SymmetricRatchet SenderKeyError MessageKey := λ r,
  if generation r =? U32_MAX then
    (Err (SenderKeyError.GenerationOverflow (generation r)), r)
  else
    let message_key := derive_message_key r in
    let next_chain_key := derive_next_chain_key r in
    let current_gen := generation r in
    (Ok {| MessageKey.key := message_key; MessageKey.generation := current_gen |},
     {| chain_key := next_chain_key; generation := (generation r + 1) mod U32_MOD |}).

(** The loop [while self.generation <= target] of [advance_to].  The fuel bounds
    its iterations; [advance_to_spec] shows that it is never used up. *)
Fixpoint advance_while (fuel : nat) (target : Z) (message_key : option MessageKey) :
    M SymmetricRatchet SenderKeyError (option MessageKey) := λ r,
  match fuel with
  | O => (Panic, r)
  | S fuel =>
      if generation r <=? target then
        (k ← advance; advance_while fuel target (Some k)) r
      else (Ok message_key, r)
  end.

Definition advance_fuel : nat := 1002.

(** [SymmetricRatchet::advance_to]. *)
Definition advance_to (target : Z) : M SymmetricRatchet SenderKeyError MessageKey :=
  r ← m_get;
  if target <? generation r then
    m_err (SenderKeyError.RatchetTooFarBehind (generation r) target)
  else
    let skip_count := (target - generation r) mod U32_MOD in
    if MAX_SKIP <? skip_count then
      m_err (SenderKeyError.RatchetTooFarBehind (generation r) target)
    else
      message_key ← advance_while advance_fuel target None;
      r ← m_get;
      m_lift (ok_or message_key (SenderKeyError.RatchetTooFarBehind (generation r) target)).

(** ** The reference: generations as an iterated hash chain *)

(** The chain key after [n] steps from [seed]. *)
Fixpoint chain (seed : bytes) (n : nat) : bytes :=
  match n with O => seed | S n => hmac_sha256 (chain seed n) CHAIN_LABEL end.
(** The ratchet and the message key of generation [g] from [seed]. *)
Definition at_gen (seed : bytes) (g : Z) : SymmetricRatchet :=
  {| chain_key := chain seed (Z.to_nat g); generation := g |}.
Definition key_at (seed : bytes) (g : Z) : MessageKey :=
  {| MessageKey.key := hmac_sha256 (chain seed (Z.to_nat g)) MESSAGE_LABEL;
     MessageKey.generation := g |}.

Lemma advance_at seed g :
  0 ≤ g < U32_MAX → advance (at_gen seed g) = (Ok (key_at seed g), at_gen seed (g + 1)).
Proof.
  intros Hg. unfold advance, at_gen; cbn [generation].
  rewrite (proj2 (Z.eqb_neq _ _)) by lia. rewrite Z.mod_small by lia.
  unfold derive_next_chain_key. cbn [chain_key]. do 2 f_equal.
  replace (Z.to_nat (g + 1)) with (S (Z.to_nat g)) by lia. done.
Qed.

Lemma advance_at_max seed :
  advance (at_gen seed U32_MAX) = (Err (SenderKeyError.GenerationOverflow U32_MAX), at_gen seed U32_MAX).
Proof. done. Qed.

Lemma advance_while_spec seed target n fuel g k :
  target + 1 = g + Z.of_nat n → (n < fuel)%nat → 0 ≤ g → target < U32_MAX →
  advance_while fuel target k (at_gen seed g)
  = (Ok (if (n =? 0)%nat then k else Some (key_at seed target)), at_gen seed (target + 1)).
Proof.
  revert fuel g k; induction n as [|n IH]; intros [|fuel] g k Hn Hf Hg Ht; try lia; cbn.
  - replace (g <=? target) with false by (symmetry; apply Z.leb_gt; lia).
    by replace (target + 1) with g by lia.
  - replace (g <=? target) with true by (symmetry; apply Z.leb_le; lia).
    munfold. rewrite advance_at by lia. rewrite IH by lia.
    case_match eqn:E; [|done]. apply Nat.eqb_eq in E. do 4 f_equal. lia.
Qed.

Lemma advance_while_max seed n fuel g k :
  U32_MAX = g + Z.of_nat n → (n < fuel)%nat → 0 ≤ g →
  advance_while fuel U32_MAX k (at_gen seed g)
  = (Err (SenderKeyError.GenerationOverflow U32_MAX), at_gen seed U32_MAX).
Proof.
  revert fuel g k; induction n as [|n IH]; intros [|fuel] g k Hn Hf Hg; try lia; cbn -[Z.leb].
  - by replace g with U32_MAX by lia.
  - replace (g <=? U32_MAX) with true by (symmetry; apply Z.leb_le; lia).
    munfold. rewrite advance_at by lia. by rewrite IH by lia.
Qed.

(** The result and the state of [advance_to] on a ratchet at generation [g]. *)
Definition advance_to_ref (seed : bytes) (g target : Z) :
    outcome SenderKeyError MessageKey * SymmetricRatchet :=
  if (target <? g) || (g + MAX_SKIP <? target) then
    (Err (SenderKeyError.RatchetTooFarBehind g target), at_gen seed g)
  else if target =? U32_MAX then
    (Err (SenderKeyError.GenerationOverflow U32_MAX), at_gen seed U32_MAX)
  else (Ok (key_at seed target), at_gen seed (target + 1)).

Lemma advance_to_at seed g target :
  0 ≤ g ≤ U32_MAX → 0 ≤ target ≤ U32_MAX →
  advance_to target (at_gen seed g) = advance_to_ref seed g target.
Proof.
  intros Hg Ht. unfold advance_to, advance_to_ref, MAX_SKIP. munfold. cbn [generation at_gen].
  destruct (target <? g) eqn:E1; [done|]. bool_to_prop. cbn [orb].
  rewrite Z.mod_small by lia.
  destruct (1000 <? target - g) eqn:E2; bool_to_prop.
  { by rewrite (proj2 (Z.ltb_lt _ _)) by lia. }
  rewrite (proj2 (Z.ltb_ge _ _)) by lia.
  destruct (target =? U32_MAX) eqn:E3; bool_to_prop.
  - subst target. by rewrite (advance_while_max seed (Z.to_nat (U32_MAX - g)))
      by (unfold advance_fuel; lia).
  - rewrite (advance_while_spec seed target (Z.to_nat (target + 1 - g)))
      by (unfold advance_fuel; lia).
    by rewrite (proj2 (Nat.eqb_neq _ _)) by lia.
Qed.

(** C20: the whole behaviour of [advance_to].  A ratchet at generation [g] of a
    seed's hash chain, asked for a [u32] target, refuses a target behind it or
    more than 1000 ahead without moving; reports overflow for the last
    generation; and otherwise terminates with exactly the key of the target
    generation and moves past it.  The loop never runs out of its bound. *)
Theorem advance_to_spec seed g target :
  0 ≤ g ≤ U32_MAX → 0 ≤ target ≤ U32_MAX →
  advance_to target (at_gen seed g) =
    if (target <? g) || (g + 1000 <? target) then
      (Err (SenderKeyError.RatchetTooFarBehind g target), at_gen seed g)
    else if target =? U32_MAX then
      (Err (SenderKeyError.GenerationOverflow U32_MAX), at_gen seed U32_MAX)
    else (Ok (key_at seed target), at_gen seed (target + 1)).
Proof. apply advance_to_at. Qed.

End ratchet.
End SymmetricRatchet.
Abbreviation SymmetricRatchet := SymmetricRatchet.SymmetricRatchet.

Module EncryptedMessage.
(** [struct EncryptedMessage] of the crypto crate. *)
Record EncryptedMessage : Type := {
  epoch : Z; sender_index : Z; generation : Z; nonce : bytes; ciphertext : bytes }.

Definition POLY1305_TAG_SIZE : Z := 16.
(** [EncryptedMessage::plaintext_len]. *)
Definition plaintext_len (m : EncryptedMessage) : Z :=
  saturating_sub (zlen (ciphertext m)) POLY1305_TAG_SIZE.
End EncryptedMessage.
Abbreviation EncryptedMessage := EncryptedMessage.EncryptedMessage.

Module encryption.
Section encryption.
Context `{Primitives}.

Definition NONCE_RANDOM_SIZE : nat := 8.

(** [build_nonce]: four consecutive ranges of a zeroed array are overwritten. *)
Definition build_nonce (epoch sender_index generation : Z) (random_suffix : bytes) : bytes :=
  let nonce := replicate 24 Byte.x00 in
  let nonce := FrameHeader.copy_at 0 (to_be_bytes 8 epoch) nonce in
  let nonce := FrameHeader.copy_at 8 (to_be_bytes 4 sender_index) nonce in
  let nonce := FrameHeader.copy_at 12 (to_be_bytes 4 generation) nonce in
  FrameHeader.copy_at 16 random_suffix nonce.

#[global] Arguments build_nonce : simpl never.

(** [encrypt_message]; the [unreachable!] branch is [Panic]. *)
Definition encrypt_message (plaintext : bytes) (message_key : MessageKey)
    (epoch sender_index : Z) (random_suffix : bytes) : outcome SenderKeyError EncryptedMessage :=
  let nonce := build_nonce epoch sender_index (MessageKey.generation message_key) random_suffix in
  match aead_encrypt (MessageKey.key message_key) nonce plaintext with
  | Some ciphertext =>
      Ok {| EncryptedMessage.epoch := epoch;
            EncryptedMessage.sender_index := sender_index;
            EncryptedMessage.generation := MessageKey.generation message_key;
            EncryptedMessage.nonce := nonce;
            EncryptedMessage.ciphertext := ciphertext |}
  | None => Panic
  end.

(** [decrypt_message]. *)
Definition decrypt_message (encrypted : EncryptedMessage) (message_key : MessageKey) :
    outcome SenderKeyError bytes :=
  if negb (MessageKey.generation message_key =? EncryptedMessage.generation encrypted) then
    Err (SenderKeyError.DecryptionFailed
           ("generation mismatch: key is " +:+ fmt_int (MessageKey.generation message_key)
            +:+ ", message is " +:+ fmt_int (EncryptedMessage.generation encrypted)))
  else
    ok_or (aead_decrypt (MessageKey.key message_key) (EncryptedMessage.nonce encrypted)
             (EncryptedMessage.ciphertext encrypted))
          (SenderKeyError.DecryptionFailed "authentication failed").

(** ** Lemmas *)

Lemma build_nonce_eq e i g s :
  length s = NONCE_RANDOM_SIZE →
  build_nonce e i g s = to_be_bytes 8 e ++ to_be_bytes 4 i ++ to_be_bytes 4 g ++ s.
Proof.
  intros Hs. pose proof (length_to_be_bytes 8 e). pose proof (length_to_be_bytes 4 i).
  pose proof (length_to_be_bytes 4 g).
  unfold build_nonce, NONCE_RANDOM_SIZE in *.
  generalize dependent (to_be_bytes 8 e). generalize dependent (to_be_bytes 4 i).
  generalize dependent (to_be_bytes 4 g). intros bg Hg bi Hi be He.
  do 9 (destruct be as [|? be]; try discriminate).
  do 5 (destruct bi as [|? bi]; try discriminate).
  do 5 (destruct bg as [|? bg]; try discriminate).
  do 9 (destruct s as [|? s]; try discriminate). reflexivity.
Qed.

Lemma build_nonce_inj e i g s e' i' g' s' :
  length s = NONCE_RANDOM_SIZE → length s' = NONCE_RANDOM_SIZE →
  0 ≤ e < U64_MOD → 0 ≤ e' < U64_MOD → 0 ≤ i < U32_MOD → 0 ≤ i' < U32_MOD →
  0 ≤ g < U32_MOD → 0 ≤ g' < U32_MOD →
  build_nonce e i g s = build_nonce e' i' g' s' → e = e' ∧ i = i' ∧ g = g' ∧ s = s'.
Proof.
  intros Hs Hs' ?????? Hn. rewrite !build_nonce_eq in Hn by done.
  apply app_inj_length in Hn as [He Hn]; [|by rewrite !length_to_be_bytes].
  apply app_inj_length in Hn as [Hi Hn]; [|by rewrite !length_to_be_bytes].
  apply app_inj_length in Hn as [Hg Hn]; [|by rewrite !length_to_be_bytes].
  split_and!; [by apply (to_be_bytes_inj 8)|by apply (to_be_bytes_inj 4)..|done].
Qed.

Lemma encrypt_decrypt `{!PrimitivesOk} p k e i s m :
  encrypt_message p k e i s = Ok m → decrypt_message m k = Ok p.
Proof.
  unfold encrypt_message, decrypt_message. intros Hm. case_match eqn:E; simplify_eq/=.
  rewrite Z.eqb_refl. cbn [negb]. by rewrite (aead_roundtrip _ _ _ _ E).
Qed.
End encryption.
End encryption.

Lemma advance_to_spec_witness :
  SymmetricRatchet.advance_to (H := ToyPrimitives.prims) 5
    (SymmetricRatchet.at_gen (H := ToyPrimitives.prims) [Byte.x01] 2)
  = (Ok (SymmetricRatchet.key_at (H := ToyPrimitives.prims) [Byte.x01] 5),
     SymmetricRatchet.at_gen (H := ToyPrimitives.prims) [Byte.x01] 6).
Proof. apply (@SymmetricRatchet.advance_to_spec ToyPrimitives.prims [Byte.x01] 2 5); lia. Defined.
