(* ===== verification/SenderKeyStore.v ===== *)
(** * The sender key store

    [lockframe-client/src/sender_key_store.rs]: one ratchet per room member, all
    derived from the epoch secret; encryption as oneself and decryption of the
    members' messages. *)

From S2P Require Import Prelude Header SenderKeys.

Module SenderKeyStore.
Import SymmetricRatchet.

(** [struct SenderKeyStore]. *)
Record SenderKeyStore : Type := { epoch : Z; ratchets : gmap Z SymmetricRatchet }.

Section store.
Context `{Primitives}.

(** [SenderKeyStore::initialize_epoch]. *)
Definition initialize_epoch (epoch_secret : bytes) (epoch : Z) (member_indices : list Z) :
    SenderKeyStore :=
  {| epoch := epoch;
     ratchets :=
       foldl (λ ratchets sender_index,
           let seed := derive_sender_key_seed epoch_secret epoch sender_index in
           <[sender_index := SymmetricRatchet.new seed]> ratchets) ∅ member_indices |}.

(** [SenderKeyStore::member_count], [has_member], [generation]. *)
Definition member_count (s : SenderKeyStore) : Z := Z.of_nat (size (ratchets s)).
Definition has_member (sender_index : Z) (s : SenderKeyStore) : bool :=
  bool_decide (is_Some (ratchets s !! sender_index)).
Definition generation (sender_index : Z) (s : SenderKeyStore) : option Z :=
  SymmetricRatchet.generation <$> ratchets s !! sender_index.

(** [self.ratchets.get_mut(&i).ok_or(UnknownSender)?] and a call on the ratchet
    it returns, which is updated in place. *)
Definition with_ratchet {A} (sender_index : Z) (m : M SymmetricRatchet SenderKeyError A) :
    M SenderKeyStore SenderKeyError A := λ s,
  match ratchets s !! sender_index with
  | None => (Err (SenderKeyError.UnknownSender sender_index), s)
  | Some ratchet =>
      let '(res, ratchet) := m ratchet in
      (res, {| epoch := epoch s; ratchets := <[sender_index := ratchet]> (ratchets s) |})
  end.

(** [SenderKeyStore::encrypt]. *)
Definition encrypt (sender_index : Z) (plaintext random_bytes : bytes) :
    M SenderKeyStore SenderKeyError EncryptedMessage :=
  message_key ← with_ratchet sender_index advance;
  s ← m_get;
  m_lift (encryption.encrypt_message plaintext message_key (epoch s) sender_index random_bytes).

(** [SenderKeyStore::decrypt]. *)
Definition decrypt (encrypted : EncryptedMessage) : M SenderKeyStore SenderKeyError bytes :=
  s ← m_get;
  if negb (EncryptedMessage.epoch encrypted =? epoch s) then
    m_err (SenderKeyError.EpochMismatch (epoch s) (EncryptedMessage.epoch encrypted))
  else
    message_key ← with_ratchet (EncryptedMessage.sender_index encrypted)
                    (advance_to (EncryptedMessage.generation encrypted));
    m_lift (encryption.decrypt_message encrypted message_key).

(** ** The invariant: every ratchet lies on its member's chain *)
Definition seed_of (secret : bytes) (s : SenderKeyStore) (i : Z) : bytes :=
  derive_sender_key_seed secret (epoch s) i.
Definition derived (secret : bytes) (s : SenderKeyStore) : Prop :=
  ∀ i r, ratchets s !! i = Some r →
    ∃ g, 0 ≤ g ≤ U32_MAX ∧ r = at_gen (seed_of secret s i) g.
(** The store with member [i] moved to generation [g]. *)
Definition moved (secret : bytes) (i g : Z) (s : SenderKeyStore) : SenderKeyStore :=
  {| epoch := epoch s; ratchets := <[i := at_gen (seed_of secret s i) g]> (ratchets s) |}.

Lemma moved_id secret i g s :
  ratchets s !! i = Some (at_gen (seed_of secret s i) g) → moved secret i g s = s.
Proof. intros Hi. unfold moved. rewrite insert_id by done. by destruct s. Qed.

Lemma derived_moved secret i g s :
  derived secret s → 0 ≤ g ≤ U32_MAX → derived secret (moved secret i g s).
Proof.
  intros Hd Hg j r. cbn. rewrite lookup_insert_Some. intros [[<- <-]|[_ Hr]]; eauto.
Qed.

Lemma initialize_epoch_lookup secret e members i :
  ratchets (initialize_epoch secret e members) !! i
  = if bool_decide (i ∈ members) then Some (at_gen (derive_sender_key_seed secret e i) 0) else None.
Proof.
  unfold initialize_epoch; cbn [ratchets].
  induction members as [|j members IH] using rev_ind; [done|].
  rewrite foldl_app; cbn. rewrite lookup_insert. destruct (decide (j = i)) as [->|E].
  - by rewrite bool_decide_true by set_solver.
  - rewrite IH. erewrite bool_decide_ext; [done|]. rewrite elem_of_app, list_elem_of_singleton.
    naive_solver.
Qed.

Lemma initialize_epoch_derived secret e members :
  derived secret (initialize_epoch secret e members).
Proof.
  intros i r. rewrite initialize_epoch_lookup. case_bool_decide; intros; simplify_eq.
  exists 0. split; [lia|done].
Qed.

(** ** What the operations do on a store that satisfies the invariant *)

Lemma encrypt_at secret s i g p rnd :
  ratchets s !! i = Some (at_gen (seed_of secret s i) g) → 0 ≤ g < U32_MAX →
  encrypt i p rnd s
  = (encryption.encrypt_message p (key_at (seed_of secret s i) g) (epoch s) i rnd,
     moved secret i (g + 1) s).
Proof.
  intros Hr Hg. unfold encrypt, with_ratchet. munfold. rewrite Hr, advance_at by done. done.
Qed.

Lemma encrypt_at_max secret s i p rnd :
  ratchets s !! i = Some (at_gen (seed_of secret s i) U32_MAX) →
  encrypt i p rnd s = (Err (SenderKeyError.GenerationOverflow U32_MAX), s).
Proof.
  intros Hr. unfold encrypt, with_ratchet. munfold. rewrite Hr, advance_at_max.
  f_equal. by apply moved_id.
Qed.

Lemma decrypt_at secret s m g :
  let i := EncryptedMessage.sender_index m in
  let n := EncryptedMessage.generation m in
  EncryptedMessage.epoch m = epoch s →
  ratchets s !! i = Some (at_gen (seed_of secret s i) g) → 0 ≤ g ≤ U32_MAX → 0 ≤ n ≤ U32_MAX →
  decrypt m s =
    if (n <? g) || (g + MAX_SKIP <? n) then (Err (SenderKeyError.RatchetTooFarBehind g n), s)
    else if n =? U32_MAX then
      (Err (SenderKeyError.GenerationOverflow U32_MAX), moved secret i U32_MAX s)
    else (encryption.decrypt_message m (key_at (seed_of secret s i) n), moved secret i (n + 1) s).
Proof.
  intros i n He Hr Hg Hn. unfold decrypt, with_ratchet. munfold.
  rewrite He, Z.eqb_refl. cbn [negb]. fold i n.
  rewrite Hr, advance_to_at by done. unfold advance_to_ref.
  repeat case_match; simplify_eq; try done. f_equal. by apply moved_id.
Qed.

(** What a successful decryption says: the message is of the store's epoch, and
    the key of its generation opens it; *)
Lemma decrypt_Ok secret s m p s' :
  derived secret s → 0 ≤ EncryptedMessage.generation m ≤ U32_MAX → decrypt m s = (Ok p, s') →
  EncryptedMessage.epoch m = epoch s ∧ EncryptedMessage.generation m < U32_MAX
  ∧ encryption.decrypt_message m (key_at (seed_of secret s (EncryptedMessage.sender_index m))
      (EncryptedMessage.generation m)) = Ok p.
Proof.
  intros Hd Hn Hdec. destruct (decide (EncryptedMessage.epoch m = epoch s)) as [He|Hne].
  2: { unfold decrypt in Hdec. munfold. by rewrite (proj2 (Z.eqb_neq _ _) Hne) in Hdec. }
  destruct (ratchets s !! EncryptedMessage.sender_index m) as [r|] eqn:Hr.
  2: { unfold decrypt, with_ratchet in Hdec. munfold. rewrite (proj2 (Z.eqb_eq _ _) He) in Hdec.
       cbn [negb] in Hdec. by rewrite Hr in Hdec. }
  destruct (Hd _ _ Hr) as (g & Hg & ->). rewrite (decrypt_at secret _ _ g) in Hdec by done.
  repeat case_match; simplify_eq. bool_to_prop. split_and!; [done|lia|done].
Qed.
(** and a fresh epoch opens every message among its members' first thousand. *)
Lemma decrypt_fresh secret e members m :
  EncryptedMessage.epoch m = e → EncryptedMessage.sender_index m ∈ members →
  0 ≤ EncryptedMessage.generation m ≤ MAX_SKIP →
  fst (decrypt m (initialize_epoch secret e members))
  = encryption.decrypt_message m (key_at (derive_sender_key_seed secret e (EncryptedMessage.sender_index m))
      (EncryptedMessage.generation m)).
Proof.
  intros He Hin Hn. unfold MAX_SKIP in Hn. rewrite (decrypt_at secret _ _ 0); [|done| |lia|lia].
  - rewrite (proj2 (Z.ltb_ge _ _)), (proj2 (Z.ltb_ge _ _)) by (unfold MAX_SKIP; lia). cbn [orb].
    by rewrite (proj2 (Z.eqb_neq _ _)) by lia.
  - rewrite initialize_epoch_lookup, bool_decide_true by done. done.
Qed.

Lemma decrypt_fails m s :
  EncryptedMessage.epoch m ≠ epoch s ∨ ratchets s !! EncryptedMessage.sender_index m = None →
  snd (decrypt m s) = s.
Proof.
  intros Hf. unfold decrypt, with_ratchet. munfold.
  destruct (_ =? _) eqn:E; cbn [negb]; [|done]. bool_to_prop.
  destruct Hf as [?| ->]; [done|]. done.
Qed.

(** One use of the store: encrypting or decrypting a message whose generation is
    a [u32], with any outcome. *)
Inductive step : SenderKeyStore → SenderKeyStore → Prop :=
| step_encrypt i p rnd s : step s (snd (encrypt i p rnd s))
| step_decrypt m s : 0 ≤ EncryptedMessage.generation m ≤ U32_MAX → step s (snd (decrypt m s)).

(** Nothing changes but one member's generation, which only grows. *)
Definition grows (secret : bytes) (s s' : SenderKeyStore) : Prop :=
  s' = s ∨ ∃ i g g', ratchets s !! i = Some (at_gen (seed_of secret s i) g)
                     ∧ 0 ≤ g ≤ g' ∧ g' ≤ U32_MAX ∧ s' = moved secret i g' s.

Lemma step_grows secret s s' : derived secret s → step s s' → grows secret s s'.
Proof.
  intros Hd. destruct 1 as [i p rnd s|m s Hn].
  - destruct (ratchets s !! i) as [r|] eqn:Hr.
    2: { left. unfold encrypt, with_ratchet. munfold. by rewrite Hr. }
    destruct (Hd _ _ Hr) as (g & Hg & ->).
    destruct (decide (g = U32_MAX)) as [->|].
    { left. by rewrite (encrypt_at_max secret). }
    right. rewrite (encrypt_at secret _ _ g) by (done || lia). exists i, g, (g + 1).
    split_and!; (done || lia).
  - destruct (decide (EncryptedMessage.epoch m = epoch s)) as [He|]; [|left; by apply decrypt_fails; left].
    destruct (ratchets s !! EncryptedMessage.sender_index m) as [r|] eqn:Hr;
      [|left; by apply decrypt_fails; right].
    destruct (Hd _ _ Hr) as (g & Hg & ->). rewrite (decrypt_at secret _ _ g) by done.
    repeat case_match; [by left|..]; right; bool_to_prop;
      eexists _, g, _; (split_and!; [exact Hr| | | |reflexivity]); lia.
Qed.

Lemma grows_spec secret s s' :
  derived secret s → grows secret s s' →
  derived secret s' ∧ epoch s' = epoch s
  ∧ ∀ i, match generation i s, generation i s' with
         | Some g, Some g' => g ≤ g'
         | None, None => True
         | _, _ => False
         end.
Proof.
  intros Hd [->|(i & g & g' & Hr & Hg & Hg' & ->)].
  { split_and!; [done..|]. intros i. by destruct (generation i s). }
  split_and!; [apply derived_moved; [done|lia]|done|].
  intros j. unfold generation, moved; cbn. rewrite lookup_insert. case_decide; subst.
  - rewrite Hr. cbn. lia.
  - by destruct (ratchets s !! j); cbn.
Qed.

(** The generation of [i] is at least [g]. *)
Definition past (secret : bytes) (i g e : Z) (s : SenderKeyStore) : Prop :=
  derived secret s ∧ epoch s = e ∧ ∃ g', generation i s = Some g' ∧ g ≤ g'.

Lemma past_rtc secret i g e s s' : rtc step s s' → past secret i g e s → past secret i g e s'.
Proof.
  induction 1 as [|s s1 s' Hs _ IH]; [done|]. intros (Hd & He & g' & Hg & Hle). apply IH.
  pose proof (grows_spec _ _ _ Hd (step_grows _ _ _ Hd Hs)) as (Hd' & He' & Hgr).
  split_and!; [done|congruence|]. specialize (Hgr i). rewrite Hg in Hgr.
  destruct (generation i s1) as [g1|]; [|done]. exists g1. split; [done|lia].
Qed.

Lemma generation_Some secret s i g :
  derived secret s → generation i s = Some g →
  ratchets s !! i = Some (at_gen (seed_of secret s i) g) ∧ 0 ≤ g ≤ U32_MAX.
Proof.
  intros Hd Hg. unfold generation in Hg. destruct (ratchets s !! i) as [r|] eqn:Hr; [|done].
  destruct (Hd _ _ Hr) as (g' & ? & ->). cbn in Hg. simplify_eq. done.
Qed.

(** A generation that the ratchet has passed is refused. *)
Lemma past_refused secret m s :
  0 ≤ EncryptedMessage.generation m →
  past secret (EncryptedMessage.sender_index m) (EncryptedMessage.generation m + 1)
    (EncryptedMessage.epoch m) s →
  ∃ g, decrypt m s
       = (Err (SenderKeyError.RatchetTooFarBehind g (EncryptedMessage.generation m)), s).
Proof.
  intros Hn (Hd & He & g & Hg & Hle). destruct (generation_Some _ _ _ _ Hd Hg) as [Hr Hb].
  exists g. rewrite (decrypt_at secret _ _ g) by (done || lia).
  by rewrite (proj2 (Z.ltb_lt _ _)) by lia.
Qed.

(** A decryption that gets as far as the cipher leaves its generation behind. *)
Lemma decrypt_past secret m s :
  derived secret s → 0 ≤ EncryptedMessage.generation m ≤ U32_MAX →
  (∃ p, fst (decrypt m s) = Ok p) ∨ (∃ why, fst (decrypt m s) = Err (SenderKeyError.DecryptionFailed why)) →
  past secret (EncryptedMessage.sender_index m) (EncryptedMessage.generation m + 1)
    (EncryptedMessage.epoch m) (snd (decrypt m s)).
Proof.
  intros Hd Hn Hres.
  destruct (decide (EncryptedMessage.epoch m = epoch s)) as [He|Hne].
  2: { unfold decrypt in Hres. munfold. rewrite (proj2 (Z.eqb_neq _ _) Hne) in Hres.
       by destruct Hres as [[??]|[??]]. }
  destruct (ratchets s !! EncryptedMessage.sender_index m) as [r|] eqn:Hr.
  2: { unfold decrypt, with_ratchet in Hres. munfold.
       rewrite (proj2 (Z.eqb_eq _ _) He) in Hres. cbn [negb] in Hres. rewrite Hr in Hres.
       by destruct Hres as [[??]|[??]]. }
  destruct (Hd _ _ Hr) as (g & Hg & ->). rewrite (decrypt_at secret _ _ g) in * by done.
  repeat case_match; cbn in Hres; [by destruct Hres as [[??]|[??]]..|]. bool_to_prop. cbn.
  split_and!; [apply derived_moved; [done|lia]|done|].
  exists (EncryptedMessage.generation m + 1). split; [|lia].
  unfold generation, moved; cbn. by rewrite lookup_insert_eq.
Qed.

(** ** Properties *)

(** C22: replay is refused for ever.  Once a message has been decrypted, the store
    refuses it again as too far behind, and is left unchanged, no matter which
    encryptions and decryptions came in between and whether they succeeded. *)
Theorem replay_rejected secret m p s s1 s2 :
  derived secret s → 0 ≤ EncryptedMessage.generation m ≤ U32_MAX →
  decrypt m s = (Ok p, s1) → rtc step s1 s2 →
  ∃ g, decrypt m s2
       = (Err (SenderKeyError.RatchetTooFarBehind g (EncryptedMessage.generation m)), s2).
Proof.
  intros Hd Hn Hm Hs. apply (past_refused secret); [lia|]. eapply past_rtc; [done|].
  pose proof (decrypt_past secret m s Hd Hn) as Hp. rewrite Hm in Hp. apply Hp; eauto.
Qed.

(** A message that fails authentication still spends its generation.  After
    [decrypt] has refused a forged message, the genuine message of the same
    sender and generation is refused too, in every later state. *)
Theorem forgery_burns_generation secret forged m why s s1 s2 :
  derived secret s → 0 ≤ EncryptedMessage.generation forged ≤ U32_MAX →
  decrypt forged s = (Err (SenderKeyError.DecryptionFailed why), s1) →
  EncryptedMessage.sender_index m = EncryptedMessage.sender_index forged →
  EncryptedMessage.generation m = EncryptedMessage.generation forged →
  EncryptedMessage.epoch m = EncryptedMessage.epoch forged →
  rtc step s1 s2 →
  ∃ g, decrypt m s2
       = (Err (SenderKeyError.RatchetTooFarBehind g (EncryptedMessage.generation m)), s2).
Proof.
  intros Hd Hn Hf Hi Hg He Hs. apply (past_refused secret); [lia|]. rewrite Hi, Hg, He.
  eapply past_rtc; [done|]. pose proof (decrypt_past secret forged s Hd Hn) as Hp.
  rewrite Hf in Hp. apply Hp; eauto.
Qed.

(** The store's documented invariants.  Every use of a store keeps all of its
    ratchets on the hash chains of the epoch secret, keeps the epoch and the set
    of members, and never lowers a generation. *)
Theorem store_invariant secret s s' :
  derived secret s → rtc step s s' →
  derived secret s' ∧ epoch s' = epoch s
  ∧ ∀ i, match generation i s, generation i s' with
         | Some g, Some g' => g ≤ g'
         | None, None => True
         | _, _ => False
         end.
Proof.
  intros Hd Hs. revert Hd. induction Hs as [s|s s1 s' Hs _ IH]; intros Hd.
  { split_and!; [done..|]. intros i. by destruct (generation i s). }
  destruct (grows_spec _ _ _ Hd (step_grows _ _ _ Hd Hs)) as (Hd1 & He1 & Hg1).
  destruct (IH Hd1) as (Hd' & He' & Hg'). split_and!; [done|congruence|].
  intros i. specialize (Hg1 i). specialize (Hg' i).
  destruct (generation i s), (generation i s1), (generation i s'); (done || lia).
Qed.

Lemma encrypt_Ok secret s i p rnd m s' :
  derived secret s → encrypt i p rnd s = (Ok m, s') →
  ∃ g, ratchets s !! i = Some (at_gen (seed_of secret s i) g) ∧ 0 ≤ g < U32_MAX
    ∧ encryption.encrypt_message p (key_at (seed_of secret s i) g) (epoch s) i rnd = Ok m
    ∧ s' = moved secret i (g + 1) s
    ∧ EncryptedMessage.nonce m = encryption.build_nonce (epoch s) i g rnd.
Proof.
  intros Hd He. destruct (ratchets s !! i) as [r|] eqn:Hr.
  2: { unfold encrypt, with_ratchet in He. munfold. by rewrite Hr in He. }
  destruct (Hd _ _ Hr) as (g & Hg & ->).
  destruct (decide (g = U32_MAX)) as [->|]; [by rewrite (encrypt_at_max secret) in He|].
  rewrite (encrypt_at secret _ _ g) in He by (done || lia). injection He as He <-.
  exists g. split_and!; [done|lia..|done|done|].
  unfold encryption.encrypt_message in He. case_match; by simplify_eq/=.
Qed.

(** C23: a nonce is never used twice.  Two messages encrypted by one member's store
    at different times of an epoch have different nonces, even when the caller
    hands in the same random bytes both times. *)
Theorem nonces_never_repeat secret s i p1 rnd1 m1 s1 s2 p2 rnd2 m2 s3 :
  derived secret s → 0 ≤ epoch s < U64_MOD → 0 ≤ i < U32_MOD →
  length rnd1 = encryption.NONCE_RANDOM_SIZE → length rnd2 = encryption.NONCE_RANDOM_SIZE →
  encrypt i p1 rnd1 s = (Ok m1, s1) → rtc step s1 s2 → encrypt i p2 rnd2 s2 = (Ok m2, s3) →
  EncryptedMessage.nonce m1 ≠ EncryptedMessage.nonce m2.
Proof.
  intros Hd Hep Hi Hl1 Hl2 H1 Hs H2 Heq.
  destruct (encrypt_Ok _ _ _ _ _ _ _ Hd H1) as (g1 & Hr1 & Hg1 & _ & Hs1 & Hn1).
  assert (past secret i (g1 + 1) (epoch s) s1) as Hp.
  { subst s1. split_and!; [apply derived_moved; [done|lia]|done|].
    exists (g1 + 1). unfold generation, moved; cbn. by rewrite lookup_insert_eq. }
  apply (past_rtc _ _ _ _ _ _ Hs) in Hp as (Hd2 & He2 & g' & Hg' & Hle).
  destruct (encrypt_Ok _ _ _ _ _ _ _ Hd2 H2) as (g2 & Hr2 & Hg2 & _ & _ & Hn2).
  unfold generation in Hg'. rewrite Hr2 in Hg'. cbn in Hg'. simplify_eq.
  rewrite Hn1, Hn2, He2 in Heq. apply encryption.build_nonce_inj in Heq; [|done|done|lia..]. lia.
Qed.

(** *** Delivery of a conversation *)

(** Encrypts plaintexts, each with its random bytes, in order. *)
Fixpoint encrypt_all (i : Z) (ps : list (bytes * bytes)) :
    M SenderKeyStore SenderKeyError (list EncryptedMessage) :=
  match ps with
  | [] => mret []
  | (p, rnd) :: ps => m ← encrypt i p rnd; ms ← encrypt_all i ps; mret (m :: ms)
  end.
(** Decrypts messages in the order they arrive. *)
Fixpoint decrypt_all (ms : list EncryptedMessage) : M SenderKeyStore SenderKeyError (list bytes) :=
  match ms with
  | [] => mret []
  | m :: ms => p ← decrypt m; ps ← decrypt_all ms; mret (p :: ps)
  end.

Lemma decrypt_encrypted `{!PrimitivesOk} secret i e g r p rnd m g' :
  encryption.encrypt_message p (key_at (derive_sender_key_seed secret e i) g) e i rnd = Ok m →
  derived secret r → epoch r = e → generation i r = Some g' →
  0 ≤ g < U32_MAX → g' ≤ g ≤ g' + MAX_SKIP →
  decrypt m r = (Ok p, moved secret i (g + 1) r).
Proof.
  intros Hm Hd He Hg' Hg Hgap. destruct (generation_Some _ _ _ _ Hd Hg') as [Hr Hb].
  pose proof (encryption.encrypt_decrypt _ _ _ _ _ _ Hm) as Hp.
  assert (EncryptedMessage.epoch m = e ∧ EncryptedMessage.sender_index m = i
          ∧ EncryptedMessage.generation m = g) as (Hme & Hmi & Hmg).
  { unfold encryption.encrypt_message in Hm. case_match; by simplify_eq/=. }
  rewrite (decrypt_at secret _ _ g'); rewrite ?Hmi, ?Hmg, ?Hme; try (done || lia).
  rewrite (proj2 (Z.ltb_ge _ _)), (proj2 (Z.ltb_ge _ _)), (proj2 (Z.eqb_neq _ _)) by lia.
  cbn [orb]. unfold seed_of. by rewrite He, Hp.
Qed.

Lemma encrypt_all_deliver `{!PrimitivesOk} secret i ps ms s s' g :
  derived secret s → generation i s = Some g → encrypt_all i ps s = (Ok ms, s') →
  ∀ r g' sel, derived secret r → epoch r = epoch s → generation i r = Some g' →
  g' ≤ g → g + zlen ps ≤ g' + MAX_SKIP + 1 →
  sel `sublist_of` zip ms ps.*1 →
  ∃ r', decrypt_all sel.*1 r = (Ok sel.*2, r').
Proof.
  revert ms s s' g. induction ps as [|[p rnd] ps IH]; intros ms s s' g Hd Hg He r g' sel Hdr Her Hgr Hle Hb Hsub.
  { cbn in He. munfold. simplify_eq. apply sublist_nil_r in Hsub as ->. eexists. done. }
  cbn [encrypt_all] in He. munfold. destruct (encrypt i p rnd s) as [[m|e|] s1] eqn:Hm; try done.
  destruct (encrypt_all i ps s1) as [[ms'|e|] s2] eqn:Hms; try done. simplify_eq.
  destruct (encrypt_Ok _ _ _ _ _ _ _ Hd Hm) as (g0 & Hr0 & Hg0 & Hem & -> & _).
  destruct (generation_Some _ _ _ _ Hd Hg) as [Hr1 _]. rewrite Hr1 in Hr0.
  injection Hr0 as _ ->.
  assert (derived secret (moved secret i (g0 + 1) s)) as Hd1 by (apply derived_moved; [done|lia]).
  assert (∀ t, generation i (moved secret i (g0 + 1) t) = Some (g0 + 1)) as Hmv
    by (intros t; unfold generation, moved; cbn; by rewrite lookup_insert_eq).
  unfold zlen in *. cbn [length] in Hb. cbn [zip_with fmap list_fmap fst] in Hsub.
  apply sublist_cons_r in Hsub as [Hsub|(sel' & -> & Hsub)].
  - eapply (IH _ _ _ _ Hd1 (Hmv s) Hms r g'); (done || lia).
  - cbn [decrypt_all fmap list_fmap fst snd]. munfold. unfold seed_of in Hem.
    rewrite (decrypt_encrypted secret i (epoch s) g0 r p rnd m g') by (done || lia).
    destruct (IH _ _ _ _ Hd1 (Hmv s) Hms (moved secret i (g0 + 1) r) (g0 + 1) sel')
      as [r' Hr']; [apply derived_moved; [done|lia]|done|apply Hmv|lia|unfold MAX_SKIP in *; lia|done|].
    rewrite Hr'. eauto.
Qed.

(** C7: what one member encrypts, another reads.  Two stores of the same epoch
    secret, epoch and members: any selection of the sender's messages, in order,
    with any of them lost, decrypts at the receiver to exactly the selected
    plaintexts, as long as the sender is at most 1001 messages ahead. *)
Theorem conversation_delivered `{!PrimitivesOk} secret e members i ps ms s' sel :
  i ∈ members → zlen ps ≤ 1001 →
  encrypt_all i ps (initialize_epoch secret e members) = (Ok ms, s') →
  sel `sublist_of` zip ms ps.*1 →
  ∃ r', decrypt_all sel.*1 (initialize_epoch secret e members) = (Ok sel.*2, r').
Proof.
  intros Hi Hl He Hsub.
  assert (generation i (initialize_epoch secret e members) = Some 0) as Hg.
  { unfold generation. by rewrite initialize_epoch_lookup, bool_decide_true. }
  eapply (encrypt_all_deliver secret i ps ms _ s' 0); eauto using initialize_epoch_derived.
  all: unfold MAX_SKIP; lia.
Qed.

End store.

(** ** Witnesses *)
Section witnesses.
#[local] Existing Instance ToyPrimitives.prims.
Definition demo : SenderKeyStore := initialize_epoch [Byte.x07] 3 [0; 1].
Definition demo_rnd : bytes := replicate 8 Byte.x09.
Definition demo_msg : EncryptedMessage :=
  {| EncryptedMessage.epoch := 3; EncryptedMessage.sender_index := 1;
     EncryptedMessage.generation := 2;
     EncryptedMessage.nonce := encryption.build_nonce 3 1 2 demo_rnd;
     EncryptedMessage.ciphertext :=
       MessageKey.key (key_at (derive_sender_key_seed [Byte.x07] 3 1) 2)
       ++ encryption.build_nonce 3 1 2 demo_rnd ++ [Byte.x2a] |}.
Definition demo_forged : EncryptedMessage :=
  {| EncryptedMessage.epoch := 3; EncryptedMessage.sender_index := 1;
     EncryptedMessage.generation := 2;
     EncryptedMessage.nonce := EncryptedMessage.nonce demo_msg;
     EncryptedMessage.ciphertext := [Byte.x00] |}.

Lemma replay_rejected_witness :
  ∃ g, decrypt demo_msg (snd (decrypt demo_msg demo))
       = (Err (SenderKeyError.RatchetTooFarBehind g 2), snd (decrypt demo_msg demo)).
Proof.
  apply (replay_rejected [Byte.x07] demo_msg [Byte.x2a] demo (snd (decrypt demo_msg demo)));
    [apply initialize_epoch_derived|cbn; lia|vm_compute; reflexivity|apply rtc_refl].
Defined.

Lemma forgery_burns_generation_witness :
  ∃ g, decrypt demo_msg (snd (decrypt demo_forged demo))
       = (Err (SenderKeyError.RatchetTooFarBehind g 2), snd (decrypt demo_forged demo)).
Proof.
  apply (forgery_burns_generation [Byte.x07] demo_forged demo_msg "authentication failed" demo
           (snd (decrypt demo_forged demo)));
    [apply initialize_epoch_derived|cbn; lia|vm_compute; reflexivity|done|done|done|apply rtc_refl].
Defined.

Lemma store_invariant_witness :
  derived [Byte.x07] (snd (decrypt demo_msg demo)) ∧ epoch (snd (decrypt demo_msg demo)) = 3.
Proof.
  destruct (store_invariant [Byte.x07] demo (snd (decrypt demo_msg demo))) as (H1 & H2 & _);
    [apply initialize_epoch_derived|apply rtc_once, step_decrypt; cbn; lia|].
  split; [exact H1|exact H2].
Defined.

Definition demo_enc (s : SenderKeyStore) := encrypt 1 [Byte.x2a] demo_rnd s.
Definition get_msg (r : outcome SenderKeyError EncryptedMessage) : EncryptedMessage :=
  match r with Ok m => m | _ => demo_msg end.

Lemma nonces_never_repeat_witness :
  let s1 := snd (demo_enc demo) in
  EncryptedMessage.nonce (get_msg (fst (demo_enc demo)))
  ≠ EncryptedMessage.nonce (get_msg (fst (demo_enc s1))).
Proof.
  apply (nonces_never_repeat [Byte.x07] demo 1 [Byte.x2a] demo_rnd _ (snd (demo_enc demo))
    (snd (demo_enc demo)) [Byte.x2a] demo_rnd _ (snd (demo_enc (snd (demo_enc demo)))));
    [apply initialize_epoch_derived|cbn; lia|lia|done|done|vm_compute; reflexivity
    |apply rtc_refl|vm_compute; reflexivity].
Defined.

Lemma conversation_delivered_witness :
  ∃ m0 m1 s' r',
    encrypt_all 1 [([Byte.x01], demo_rnd); ([Byte.x02], demo_rnd)] demo = (Ok [m0; m1], s')
    ∧ decrypt_all [m1] demo = (Ok [[Byte.x02]], r').
Proof.
  destruct (encrypt_all 1 [([Byte.x01], demo_rnd); ([Byte.x02], demo_rnd)] demo)
    as [[[|m0 [|m1 [|]]]|e|] s'] eqn:E; try (vm_compute in E; discriminate).
  destruct (@conversation_delivered ToyPrimitives.prims ToyPrimitives.prims_ok
    [Byte.x07] 3 [0; 1] 1 [([Byte.x01], demo_rnd); ([Byte.x02], demo_rnd)] [m0; m1] s'
    [(m1, [Byte.x02])]) as [r' Hr]; [set_solver|done|exact E| |].
  { cbn. apply sublist_cons, sublist_skip, sublist_nil. }
  exists m0, m1, s', r'. split; [reflexivity|exact Hr].
Defined.
End witnesses.
End SenderKeyStore.
Abbreviation SenderKeyStore := SenderKeyStore.SenderKeyStore.
