(* ===== verification/ForwardSecrecy.v ===== *)
(** * Forward secrecy of the sender keys

    [sender_keys/ratchet.rs] promises that the compromise of a ratchet does not
    reveal past keys, [derivation.rs] that epochs and senders are separate, and
    [sender_key_store.rs] repeats it for a store.  This file states what can be
    computed from the key material that stores hold in memory and proves that it is
    the keys that are still to come: for any other key, the computation contains two
    different inputs with the same hash. *)

From S2P Require Import Prelude Header SenderKeys SenderKeyStore.

Module ForwardSecrecy.
Import SymmetricRatchet SenderKeyStore.
Section secrecy.
Context `{Primitives}.

(** ** What can be computed from memory *)

(** A call of one of the two keyed functions. *)
Inductive query : Type :=
| Hmac (key message : bytes)
| Hkdf (secret info : bytes).
#[global] Instance query_eq_dec : EqDecision query.
Proof. solve_decision. Defined.
Definition answer (q : query) : bytes :=
  match q with Hmac key message => hmac_sha256 key message | Hkdf secret info => hkdf_sha256 secret info end.
(** Two of the calls in a list have the same answer.  The functions have values of
    one length, so that such calls exist; to have made them is another thing. *)
Definition collision (made : list query) : Prop := ∃ q q', q ∈ made ∧ q' ∈ made ∧ q ≠ q' ∧ answer q = answer q'.

(** The key material in the memory of stores, and what comes of keying either
    function with something computed already, by the calls of a list; the message
    hashed may be anything whatever. *)
Inductive computes (ss : list SenderKeyStore) (made : list query) : bytes → Prop :=
| from_memory s i r : s ∈ ss → ratchets s !! i = Some r → computes ss made (chain_key r)
| by_hmac key message : Hmac key message ∈ made → computes ss made key → computes ss made (hmac_sha256 key message)
| by_hkdf secret info : Hkdf secret info ∈ made → computes ss made secret → computes ss made (hkdf_sha256 secret info).

(** The key of a message: of a sender in an epoch, at a generation. *)
Definition message_key (secret : bytes) (e i g : Z) : bytes :=
  MessageKey.key (key_at (derive_sender_key_seed secret e i) g).
(** The chain key behind it, and the calls that lead there. *)
Definition link (secret : bytes) (e i : Z) (n : nat) : bytes := chain (derive_sender_key_seed secret e i) n.
Fixpoint link_calls (secret : bytes) (e i : Z) (n : nat) : list query :=
  match n with
  | O => [Hkdf secret (seed_info e i)]
  | S n => Hmac (link secret e i n) CHAIN_LABEL :: link_calls secret e i n
  end.
Definition key_calls (secret : bytes) (e i g : Z) : list query :=
  Hmac (link secret e i (Z.to_nat g)) MESSAGE_LABEL :: link_calls secret e i (Z.to_nat g).
(** The calls that led to the memory of a store of the epoch with the secret. *)
Definition store_calls (m : bytes * SenderKeyStore) : list query :=
  map_to_list (ratchets m.2) ≫= λ ir, link_calls m.1 (epoch m.2) ir.1 (Z.to_nat (SymmetricRatchet.generation ir.2)).

(** A store in use, and the keys that are still to come in it. *)
Definition in_use (secret : bytes) (s : SenderKeyStore) : Prop :=
  ∃ e members, 0 ≤ e < U64_MOD ∧ Forall (λ i, 0 ≤ i < U32_MOD) members ∧ rtc step (initialize_epoch secret e members) s.
Definition to_come (ms : list (bytes * SenderKeyStore)) (secret : bytes) (e i g : Z) : Prop :=
  ∃ s G, (secret, s) ∈ ms ∧ epoch s = e ∧ generation i s = Some G ∧ G ≤ g.

(** All calls there are: of the attacker, of the stores, and for the key attacked. *)
Definition calls (made : list query) (ms : list (bytes * SenderKeyStore)) (secret : bytes) (e i g : Z) : list query :=
  made ++ (ms ≫= store_calls) ++ key_calls secret e i g.

(** ** Links *)
Section links.
Context (all : list query).

Lemma same_hmac k m k' m' : Hmac k m ∈ all → Hmac k' m' ∈ all →
  hmac_sha256 k m = hmac_sha256 k' m' → (k = k' ∧ m = m') ∨ collision all.
Proof.
  intros Hq Hq' E. destruct (decide (Hmac k m = Hmac k' m')) as [[= -> ->]|]; [by left|right]. by exists (Hmac k m), (Hmac k' m').
Qed.
Lemma same_hkdf k m k' m' : Hkdf k m ∈ all → Hkdf k' m' ∈ all →
  hkdf_sha256 k m = hkdf_sha256 k' m' → (k = k' ∧ m = m') ∨ collision all.
Proof.
  intros Hq Hq' E. destruct (decide (Hkdf k m = Hkdf k' m')) as [[= -> ->]|]; [by left|right]. by exists (Hkdf k m), (Hkdf k' m').
Qed.
(** The two functions with the same value. *)
Lemma hmac_hkdf k m k' m' : Hmac k m ∈ all → Hkdf k' m' ∈ all → hmac_sha256 k m = hkdf_sha256 k' m' → collision all.
Proof. intros ?? E. by exists (Hmac k m), (Hkdf k' m'). Qed.

Lemma seed_call secret e i n : Hkdf secret (seed_info e i) ∈ link_calls secret e i n.
Proof. induction n; cbn; set_solver. Qed.

(** Links of two chains agree only at the same place of the same chain. *)
Lemma same_link secret e i n secret' e' i' n' :
  0 ≤ e < U64_MOD → 0 ≤ i < U32_MOD → 0 ≤ e' < U64_MOD → 0 ≤ i' < U32_MOD →
  link_calls secret e i n ⊆ all → link_calls secret' e' i' n' ⊆ all →
  link secret e i n = link secret' e' i' n' → (secret = secret' ∧ e = e' ∧ i = i' ∧ n = n') ∨ collision all.
Proof.
  intros He Hi He' Hi'. revert n'. induction n as [|n IH]; intros [|n'] Hl Hl' E; cbn [link_calls] in *.
  - apply same_hkdf in E as [[-> Einfo]|]; [left|by right|set_solver..]. by apply seed_info_inj in Einfo as [-> ->].
  - right. symmetry in E. eapply hmac_hkdf; [..|exact E]; set_solver.
  - right. eapply hmac_hkdf; [..|exact E]; set_solver.
  - apply same_hmac in E as [[E' _]|]; [|by right|set_solver..].
    destruct (IH n') as [(-> & -> & -> & ->)|]; [set_solver|set_solver|done|by left|by right].
Qed.
End links.
(** The call that gives a link. *)
Lemma link_answer secret e i n : ∃ q, q ∈ link_calls secret e i n ∧ link secret e i n = answer q.
Proof. destruct n as [|n]; (eexists; split; [by left|done]). Qed.

(** A store in use holds one link for each member. *)
Lemma in_use_memory secret s :
  in_use secret s → 0 ≤ epoch s < U64_MOD
  ∧ ∀ i r, ratchets s !! i = Some r →
      0 ≤ i < U32_MOD ∧ 0 ≤ SymmetricRatchet.generation r
      ∧ chain_key r = link secret (epoch s) i (Z.to_nat (SymmetricRatchet.generation r)).
Proof.
  intros (e & members & He & Hm & Hs).
  destruct (store_invariant secret _ _ (initialize_epoch_derived secret e members) Hs) as (Hd & Hep & Hgen). cbn in Hep.
  rewrite Hep. split; [done|]. intros i r Hr. destruct (Hd i r Hr) as (g & Hg & ->). split.
  - specialize (Hgen i). unfold generation in Hgen. rewrite Hr, initialize_epoch_lookup in Hgen. cbn in Hgen.
    case_bool_decide as Hin; [|done]. rewrite List.Forall_forall in Hm. by apply Hm, list_elem_of_In.
  - split; [cbn; lia|]. cbn. unfold seed_of, link. by rewrite Hep.
Qed.

(** ** What the computations reach *)
Section memory.
Context (ms : list (bytes * SenderKeyStore)).
Hypothesis all_in_use : ∀ m, m ∈ ms → in_use m.1 m.2.

Lemma memory_link s i r :
  s ∈ ms.*2 → ratchets s !! i = Some r →
  ∃ secret, (secret, s) ∈ ms ∧ 0 ≤ epoch s < U64_MOD ∧ 0 ≤ i < U32_MOD ∧ 0 ≤ SymmetricRatchet.generation r
    ∧ chain_key r = link secret (epoch s) i (Z.to_nat (SymmetricRatchet.generation r)).
Proof.
  intros ([secret s'] & -> & Hin)%list_elem_of_fmap Hr. destruct (in_use_memory secret s') as [He Hl]; [by apply all_in_use in Hin|].
  destruct (Hl i r Hr) as (Hi & HG & Hk). by exists secret.
Qed.

Section target.
Context (made all : list query) (secret : bytes) (e i : Z).
Hypothesis made_all : made ⊆ all.
Hypothesis stores_all : ms ≫= store_calls ⊆ all.
Hypothesis fresh : ∀ q, q ∈ all → answer q ≠ secret.
Hypothesis range_e : 0 ≤ e < U64_MOD.
Hypothesis range_i : 0 ≤ i < U32_MOD.

Lemma memory_calls secret' s j r :
  (secret', s) ∈ ms → ratchets s !! j = Some r →
  link_calls secret' (epoch s) j (Z.to_nat (SymmetricRatchet.generation r)) ⊆ all.
Proof.
  intros Hin Hr q Hq. apply stores_all, list_elem_of_bind. exists (secret', s). split; [|done].
  apply list_elem_of_bind. exists (j, r). split; [done|by apply elem_of_map_to_list].
Qed.

(** What is computed is the answer of a call, and so not the secret. *)
Lemma computes_answer x : computes ms.*2 made x → ∃ q, q ∈ all ∧ x = answer q.
Proof.
  destruct 1 as [s j r Hs Hr|key message Hq _|key info Hq _].
  - destruct (memory_link s j r Hs Hr) as (secret' & Hin & _ & _ & _ & ->).
    destruct (link_answer secret' (epoch s) j (Z.to_nat (SymmetricRatchet.generation r))) as (q & Hq & Eq).
    exists q. split; [by eapply memory_calls|done].
  - exists (Hmac key message). split; [by apply made_all|done].
  - exists (Hkdf key info). split; [by apply made_all|done].
Qed.

Lemma computed_link x n : link_calls secret e i n ⊆ all → computes ms.*2 made x → x = link secret e i n →
  to_come ms secret e i (Z.of_nat n) ∨ collision all.
Proof.
  intros Hl Hc. revert n Hl. induction Hc as [s j r Hs Hr|key message Hq _ IH|key info Hq Hk _]; intros n Hl E.
  - destruct (memory_link s j r Hs Hr) as (secret' & Hin & Hep & Hj & HG & Ek). rewrite Ek in E.
    apply (same_link all) in E as [(-> & <- & -> & <-)|]; [left|by right|done..|by eapply memory_calls|done].
    exists s, (SymmetricRatchet.generation r). split_and!; [done..|by unfold generation; rewrite Hr|lia].
  - apply made_all in Hq. destruct n as [|n]; cbn [link_calls] in Hl.
    { right. eapply hmac_hkdf; [exact Hq| |exact E]. set_solver. }
    apply (same_hmac all) in E as [[-> _]|]; [|by right|done|set_solver].
    destruct (IH n) as [(s & G & Hin & Hep & Hgen & HG)|]; [set_solver|done|left|by right]. exists s, G. split_and!; [done..|lia].
  - apply made_all in Hq. destruct n as [|n]; cbn [link_calls] in Hl.
    2: { right. symmetry in E. eapply hmac_hkdf; [|exact Hq|exact E]. set_solver. }
    apply (same_hkdf all) in E as [[-> _]|]; [|by right|done|set_solver].
    destruct (computes_answer _ Hk) as (q & Hin & Eq). by destruct (fresh q Hin).
Qed.

Lemma computed_key x g : key_calls secret e i g ⊆ all →
  0 ≤ g → computes ms.*2 made x → x = message_key secret e i g → to_come ms secret e i g ∨ collision all.
Proof.
  unfold key_calls. intros Hkc Hg Hc E. change (message_key secret e i g) with (hmac_sha256 (link secret e i (Z.to_nat g)) MESSAGE_LABEL) in E.
  assert (Hmac (link secret e i (Z.to_nat g)) MESSAGE_LABEL ∈ all) as Hm by set_solver.
  destruct Hc as [s j r Hs Hr|key message Hq Hk|key info Hq _].
  - destruct (memory_link s j r Hs Hr) as (secret' & Hin & _ & _ & _ & Ek). rewrite Ek in E. right.
    pose proof (memory_calls secret' s j r Hin Hr) as Hl. destruct (Z.to_nat (SymmetricRatchet.generation r)) as [|n]; cbn [link_calls] in Hl.
    + symmetry in E. eapply hmac_hkdf; [exact Hm| |exact E]. set_solver.
    + by apply (same_hmac all) in E as [[_ ?]|]; [| |set_solver|].
  - apply (same_hmac all) in E as [[-> _]|]; [|by right|by apply made_all|done].
    destruct (computed_link (link secret e i (Z.to_nat g)) (Z.to_nat g)) as [Ht|]; [set_solver|done|done|left|by right]. by rewrite Z2Nat.id in Ht.
  - right. symmetry in E. eapply hmac_hkdf; [exact Hm|by apply made_all|exact E].
Qed.
End target.

(** More calls compute no less. *)
Lemma computes_more ss made made' x : made ⊆ made' → computes ss made x → computes ss made' x.
Proof. intros Hm. induction 1; [by eapply from_memory|apply by_hmac; auto..|apply by_hkdf; auto]. Qed.
(** The keys to come are computed by running the chain on. *)
Lemma computes_on secret e i s G n :
  (secret, s) ∈ ms → epoch s = e → generation i s = Some G →
  computes ms.*2 (link_calls secret e i (Z.to_nat G + n)) (link secret e i (Z.to_nat G + n)).
Proof.
  intros Hin Hep Hgen. induction n as [|n IH].
  - rewrite Nat.add_0_r. unfold generation in Hgen. destruct (ratchets s !! i) as [r|] eqn:Hr; [|done]. injection Hgen as <-.
    destruct (in_use_memory secret s) as [_ Hl]; [by apply all_in_use in Hin|].
    destruct (Hl i r Hr) as (_ & _ & Ek). rewrite <-Hep, <-Ek. eapply from_memory; [|exact Hr]. apply list_elem_of_fmap. by exists (secret, s).
  - rewrite Nat.add_succ_r. apply by_hmac; [by left|]. eapply computes_more; [|exact IH]. by apply list_subseteq_cons.
Qed.

(** C21: forward secrecy, exactly.  An attacker takes the memory of any stores in use,
    of any epochs, and calls the keyed functions on what it has.  A message key that
    comes out is the key of a message still to come: a member of one of these stores,
    its epoch, a generation that its ratchet has not passed; or else two of the calls
    made, by the attacker or for the keys, have the same answer.  All keys still to
    come do come out.  So nothing is learned of past messages, of other epochs or of
    anyone who is not a member, provided that none of the calls happens to answer the
    epoch's secret. *)
Theorem forward_secrecy made secret e i g :
  (∀ q, q ∈ calls made ms secret e i g → answer q ≠ secret) → 0 ≤ e < U64_MOD → 0 ≤ i < U32_MOD → 0 ≤ g →
  (computes ms.*2 made (message_key secret e i g) → to_come ms secret e i g ∨ collision (calls made ms secret e i g))
  ∧ (to_come ms secret e i g → computes ms.*2 (key_calls secret e i g) (message_key secret e i g)).
Proof.
  intros Hf He Hi Hg. split.
  { intros Hc. unfold calls in *. eapply (computed_key made); [..|exact Hc|done]; set_solver. }
  intros (s & G & Hin & Hep & Hgen & Hle). destruct (in_use_memory secret s) as [_ Hl]; [by apply all_in_use in Hin|].
  assert (0 ≤ G) as HG.
  { unfold generation in Hgen. destruct (ratchets s !! i) as [r|] eqn:Hr; [|done]. injection Hgen as <-. by destruct (Hl i r Hr) as (_ & ? & _). }
  apply by_hmac; [by left|]. change (chain _ _) with (link secret e i (Z.to_nat g)).
  replace (Z.to_nat g) with (Z.to_nat G + Z.to_nat (g - G))%nat by lia.
  eapply computes_more; [|by apply (computes_on secret e i s G)].
  unfold key_calls. replace (Z.to_nat g) with (Z.to_nat G + Z.to_nat (g - G))%nat by lia. by apply list_subseteq_cons.
Qed.
End memory.

(** A message that has been opened stays secret: from the store that opened it, at
    any later time, and from stores of other epochs, the key that opens it is not
    computed. *)
Theorem opened_message_stays_secret made secret m p s s1 s2 others :
  let all := calls made ((secret, s2) :: others) secret (epoch s) (EncryptedMessage.sender_index m) (EncryptedMessage.generation m) in
  in_use secret s → (∀ q, q ∈ all → answer q ≠ secret) → 0 ≤ EncryptedMessage.generation m ≤ U32_MAX →
  decrypt m s = (Ok p, s1) → rtc step s1 s2 → (∀ o, o ∈ others → in_use o.1 o.2 ∧ epoch o.2 ≠ epoch s) →
  ∃ key, encryption.decrypt_message m key = Ok p ∧ (computes (s2 :: others.*2) made (MessageKey.key key) → collision all).
Proof.
  intros all Hu Hf Hn Hm Hs Ho. pose proof Hu as (e & members & He & Hmem & Hs0).
  destruct (store_invariant secret _ _ (initialize_epoch_derived secret e members) Hs0) as (Hd & Hep & _). cbn in Hep.
  destruct (decrypt_Ok secret s m p s1 Hd Hn Hm) as (Hme & Hlt & Hkey).
  assert (in_use secret s2) as Hu2.
  { exists e, members. split; [done|split; [done|]]. etransitivity; [exact Hs0|]. eapply rtc_l; [|exact Hs].
    replace s1 with (snd (decrypt m s)) by (by rewrite Hm). by apply step_decrypt. }
  pose proof (decrypt_past secret m s Hd Hn) as Hp. rewrite Hm in Hp. specialize (Hp ltac:(by left; exists p)).
  apply (past_rtc _ _ _ _ _ _ Hs) in Hp as (_ & He2 & G & HG & Hle).
  exists (key_at (seed_of secret s (EncryptedMessage.sender_index m)) (EncryptedMessage.generation m)). split; [exact Hkey|].
  intros Hc. destruct (ratchets s2 !! EncryptedMessage.sender_index m) as [r|] eqn:Hr.
  2: { unfold generation in HG. by rewrite Hr in HG. }
  destruct (proj2 (in_use_memory secret s2 Hu2) _ _ Hr) as (Hi & _). subst all. unfold calls in *.
  match goal with |- collision ?all =>
    assert (to_come ((secret, s2) :: others) secret (epoch s) (EncryptedMessage.sender_index m) (EncryptedMessage.generation m) ∨ collision all)
      as [(s' & G' & Hin & Hep' & HG' & Hle')|]; [|clear Hc|done]
  end.
  { eapply (computed_key ((secret, s2) :: others) ltac:(intros o [->|Hin]%elem_of_cons; [done|by apply Ho]) made);
      [..|exact Hc|done]; try exact Hf; try lia; try set_solver. }
  apply elem_of_cons in Hin as [[= ->]|Hin].
  - rewrite HG in HG'. injection HG' as <-. lia.
  - destruct (Ho _ Hin) as [_ Hne]. cbn in Hne. by rewrite Hep' in Hne.
Qed.

(** What is left of a store that has been dropped depends on its keys by their
    lengths only; with keys of 32 bytes it is the same for every epoch secret. *)
Definition remains (s : SenderKeyStore) : gmap Z SymmetricRatchet := drop <$> ratchets s.
Lemma map_zero {A} (l l' : list A) : length l = length l' → (λ _, Byte.x00) <$> l = (λ _, Byte.x00) <$> l'.
Proof. revert l'. induction l as [|x l IH]; intros [|y l'] E; try done. injection E as E. cbn. f_equal. by apply IH. Qed.
Lemma dropped_store_tells_nothing s s' :
  (∀ i, generation i s = generation i s') →
  (∀ i r r', ratchets s !! i = Some r → ratchets s' !! i = Some r' → length (chain_key r) = length (chain_key r')) →
  remains s = remains s'.
Proof.
  intros Hg Hl. apply map_eq. intros i. unfold remains. rewrite !lookup_fmap. specialize (Hg i). unfold generation in Hg.
  destruct (ratchets s !! i) as [r|] eqn:Hr, (ratchets s' !! i) as [r'|] eqn:Hr'; cbn in *; try done.
  injection Hg as Hg. f_equal. unfold drop. f_equal; [by apply map_zero, (Hl i)|done].
Qed.
End secrecy.

(** ** Witnesses *)

(** Keyed functions that mark what they return. *)
Module TaggedPrimitives.
Definition prims : Primitives := {|
  hmac_sha256 k m := Byte.x01 :: k ++ m;
  hkdf_sha256 s i := Byte.x02 :: s ++ i;
  aead_encrypt k n p := Some p;
  aead_decrypt k n c := Some c;
|}.
End TaggedPrimitives.
Section witnesses.
#[local] Existing Instance TaggedPrimitives.prims.
Definition secret7 : bytes := [Byte.x07].
Definition before : SenderKeyStore := initialize_epoch secret7 3 [0; 1].
(** Member 1 has sent one message. *)
Definition after : SenderKeyStore := snd (encrypt 1 [Byte.x2a] (replicate 8 Byte.x09) before).
Lemma secret7_fresh q : answer q ≠ secret7.
Proof. by destruct q. Qed.
Lemma in_use_before : in_use secret7 before.
Proof. exists 3, [0; 1]. split; [lia|]. split; [by repeat constructor|apply rtc_refl]. Qed.
Lemma in_use_after : in_use secret7 after.
Proof. exists 3, [0; 1]. split; [lia|]. split; [by repeat constructor|apply rtc_once, step_encrypt]. Qed.

(** Its key is gone from the store, the next one is not. *)
Lemma forward_secrecy_witness :
  (∀ made, computes [after] made (message_key secret7 3 1 0) → collision (calls made [(secret7, after)] secret7 3 1 0))
  ∧ ∃ made, computes [after] made (message_key secret7 3 1 1).
Proof.
  assert (∀ m, m ∈ [(secret7, after)] → in_use m.1 m.2) as Hu by (intros m ->%list_elem_of_singleton; apply in_use_after).
  split.
  - intros made Hc.
    destruct (forward_secrecy [(secret7, after)] Hu made secret7 3 1 0 (λ q _, secret7_fresh q) ltac:(lia) ltac:(lia) ltac:(lia)) as [Hs _].
    destruct (Hs Hc) as [(s & G & [= ->]%list_elem_of_singleton & _ & HG & Hle)|Hcol]; [|exact Hcol].
    vm_compute in HG. injection HG as <-. by destruct Hle.
  - exists (key_calls secret7 3 1 1).
    apply (forward_secrecy [(secret7, after)] Hu [] secret7 3 1 1 (λ q _, secret7_fresh q) ltac:(lia) ltac:(lia) ltac:(lia)).
    exists after, 1. split; [by apply list_elem_of_singleton|]. split; [done|]. split; [by vm_compute|lia].
Defined.

Definition first_message : EncryptedMessage :=
  {| EncryptedMessage.epoch := 3; EncryptedMessage.sender_index := 1; EncryptedMessage.generation := 0;
     EncryptedMessage.nonce := encryption.build_nonce 3 1 0 (replicate 8 Byte.x09); EncryptedMessage.ciphertext := [Byte.x2a] |}.
Lemma opened_message_stays_secret_witness made :
  let s := snd (decrypt first_message before) in
  ∃ key, encryption.decrypt_message first_message key = Ok [Byte.x2a]
    ∧ (computes [s] made (MessageKey.key key) → collision (calls made [(secret7, s)] secret7 3 1 0)).
Proof.
  apply (opened_message_stays_secret made secret7 first_message [Byte.x2a] before (snd (decrypt first_message before)) _ []);
    [apply in_use_before|intros q _; apply secret7_fresh|cbn; lia|by vm_compute|apply rtc_refl|by intros o ?%elem_of_nil].
Qed.
End witnesses.
End ForwardSecrecy.
