(* ===== verification/MlsState.v ===== *)
(** * MLS group state

    [lockframe-core/src/mls/state.rs] and [mls/constants.rs]: the light-weight
    group state that the server validates against and persists.  Ed25519 comes
    from the [ed25519-dalek] crate and is a parameter (class [Ed25519]). *)

From S2P Require Import Prelude.

(** [VerifyingKey::from_bytes], as whether the 32 bytes encode a key;
    [VerifyingKey::verify] of a message and a 64-byte signature; [SigningKey]s
    given by their bytes, with the signature they produce and their public
    key. *)
Class Ed25519 : Type := {
  ed_key_valid : bytes → bool;
  ed_verify : bytes → bytes → bytes → bool;
  ed_sign : bytes → bytes → bytes;
  ed_public : bytes → bytes;
}.
(** What the scheme documents: public keys are valid, and what a secret key signs
    verifies under its public key, with a signature of 64 bytes. *)
Class Ed25519Ok `{Ed25519} : Prop := {
  ed_public_valid : ∀ sk, ed_key_valid (ed_public sk) = true;
  ed_sign_verify : ∀ sk msg, ed_verify (ed_public sk) msg (ed_sign sk msg) = true;
  ed_sign_length : ∀ sk msg, length (ed_sign sk msg) = 64%nat;
}.

(** A concrete scheme for the witnesses: a signature is the key and the message,
    cut or padded to 64 bytes. *)
Module ToyEd25519.
Definition pad64 (bs : bytes) : bytes := take 64 (bs ++ replicate 64 Byte.x00).
Definition ed : Ed25519 := {|
  ed_key_valid _ := true;
  ed_verify k m s := bool_decide (s = pad64 (k ++ m));
  ed_sign k m := pad64 (k ++ m);
  ed_public k := k;
|}.
Lemma ed_ok : Ed25519Ok (H := ed).
Proof.
  split; cbn; [done|intros; by rewrite bool_decide_true|]. intros.
  unfold pad64. rewrite length_take, length_app, length_replicate. lia.
Qed.
End ToyEd25519.

(** [constants.rs]. *)
Definition MAX_EPOCH : Z := 1000000.

Module MlsGroupState.
(** [struct MlsGroupState]. *)
Record MlsGroupState : Type := {
  room_id : Z;
  epoch : Z;
  tree_hash : bytes;
  members : list Z;
  member_keys : gmap Z bytes;
  openmls_state : bytes;
}.

Definition new (room_id epoch : Z) (tree_hash : bytes) (members : list Z) (openmls_state : bytes) :
    MlsGroupState :=
  {| room_id := room_id; epoch := epoch; tree_hash := tree_hash; members := members;
     member_keys := ∅; openmls_state := openmls_state |}.

Definition with_keys (room_id epoch : Z) (tree_hash : bytes) (members : list Z)
    (member_keys : gmap Z bytes) (openmls_state : bytes) : MlsGroupState :=
  {| room_id := room_id; epoch := epoch; tree_hash := tree_hash; members := members;
     member_keys := member_keys; openmls_state := openmls_state |}.

Definition is_member (member_id : Z) (s : MlsGroupState) : bool :=
  bool_decide (member_id ∈ members s).
Definition member_count (s : MlsGroupState) : Z := zlen (members s).

(** [MlsGroupState::member_key]. *)
Definition member_key `{Ed25519} (member_id : Z) (s : MlsGroupState) : option bytes :=
  bs ← member_keys s !! member_id; if ed_key_valid bs then Some bs else None.
End MlsGroupState.
Abbreviation MlsGroupState := MlsGroupState.MlsGroupState.
