(* ===== verification/Storage.v ===== *)
(** * Storage

    [lockframe-server/src/storage/]: the [Storage] trait, its contract, the
    in-memory implementation and the fault-injecting wrapper.

    The methods take [&self] and clones share their contents through an [Arc], so
    there is one store; it is threaded explicitly.  Mutex poisoning needs a panic
    while a lock is held, and a panic aborts the process. *)

From Stdlib Require Import QArith.
From S2P Require Import Prelude Header Frame MlsState.
#[local] Open Scope Z_scope.

Module StorageError.
(** [enum StorageError]. *)
Inductive StorageError : Type :=
| NotFound (room_id log_index : Z)
| Conflict (expected got : Z)
| Serialization (msg : string)
| Io (msg : string).

(** The [Display] text. *)
Definition to_string (e : StorageError) : string :=
  match e with
  | NotFound room_id log_index =>
      "frame not found: room " +:+ fmt_int room_id +:+ ", index " +:+ fmt_int log_index
  | Conflict expected got =>
      "log index conflict: expected " +:+ fmt_int expected +:+ ", got " +:+ fmt_int got
  | Serialization m => "serialization error: " +:+ m
  | Io m => "I/O error: " +:+ m
  end.
(** [From<std::io::Error>], from the error's text. *)
Definition from_io (text : string) : StorageError := Io text.
End StorageError.
Abbreviation StorageError := StorageError.StorageError.

(** [trait Storage]. *)
Class Storage (S : Type) : Type := {
  store_frame : Z → Z → Frame → M S StorageError unit;
  latest_log_index : Z → M S StorageError (option Z);
  load_frames : Z → Z → Z → M S StorageError (list Frame);
  store_mls_state : Z → MlsGroupState → M S StorageError unit;
  load_mls_state : Z → M S StorageError (option MlsGroupState);
}.

(** The index of the last entry of a log. *)
Definition latest {A} (l : list A) : option Z :=
  match l with [] => None | _ => Some (zlen l - 1) end.

(** ** The contract

    What the trait's documentation promises, over an abstract view of the store:
    a log per room and the last MLS state per room.  Any operation may fail; a
    failing one changes nothing that the view can see.  A frame goes only to the
    end of its room's log; a range is read from the log.  [load_frames] makes no
    promise for a range that overflows [u64]. *)
Class StorageOk (S : Type) `{Storage S} : Type := {
  log : S → Z → list Frame;
  mls_of : S → Z → option MlsGroupState;
  same : S → S → Prop := λ s s', (∀ r, log s' r = log s r) ∧ (∀ r, mls_of s' r = mls_of s r);
  store_frame_ok : ∀ room i f s,
    match store_frame room i f s with
    | (Ok _, s') =>
        i = zlen (log s room) ∧ log s' room = log s room ++ [f]
        ∧ (∀ r, r ≠ room → log s' r = log s r) ∧ (∀ r, mls_of s' r = mls_of s r)
    | (Err (StorageError.Conflict expected got), s') =>
        same s s' ∧ expected = zlen (log s room) ∧ got = i ∧ got ≠ expected
    | (Err _, s') => same s s'
    | (Panic, _) => False
    end;
  latest_log_index_ok : ∀ room s,
    match latest_log_index room s with
    | (Ok i, s') => same s s' ∧ i = latest (log s room)
    | (Err _, s') => same s s'
    | (Panic, _) => False
    end;
  load_frames_ok : ∀ room from limit s,
    0 ≤ from → 0 ≤ limit → from + limit < U64_MOD →
    match load_frames room from limit s with
    | (Ok fs, s') =>
        same s s' ∧ fs = take (Z.to_nat limit) (drop (Z.to_nat from) (log s room))
    | (Err _, s') => same s s'
    | (Panic, _) => False
    end;
  store_mls_state_ok : ∀ room st s,
    match store_mls_state room st s with
    | (Ok _, s') =>
        (∀ r, log s' r = log s r) ∧ mls_of s' room = Some st
        ∧ (∀ r, r ≠ room → mls_of s' r = mls_of s r)
    | (Err _, s') => same s s'
    | (Panic, _) => False
    end;
  load_mls_state_ok : ∀ room s,
    match load_mls_state room s with
    | (Ok o, s') => same s s' ∧ o = mls_of s room
    | (Err _, s') => same s s'
    | (Panic, _) => False
    end;
}.

Section same.
Context {S : Type} `{StorageOk S}.
Implicit Types s : S.
Lemma same_refl s : same s s.
Proof. done. Qed.
Lemma same_trans s1 s2 s3 : same s1 s2 → same s2 s3 → same s1 s3.
Proof. intros [H1 H2] [H3 H4]. split; intros r; [by rewrite H3|by rewrite H4]. Qed.
End same.
#[export] Hint Resolve same_refl : lockframe.

(** ** In-memory storage *)
Module MemoryStorage.
(** [struct MemoryStorageInner], the contents behind [MemoryStorage]. *)
Record MemoryStorage : Type := {
  frames : gmap Z (list Frame);
  mls_states : gmap Z MlsGroupState;
}.

Definition new : MemoryStorage := {| frames := ∅; mls_states := ∅ |}.

(** [MemoryStorage::room_count] and [total_frame_count]. *)
Definition room_count (s : MemoryStorage) : Z := Z.of_nat (size (frames s)).
Definition total_frame_count (s : MemoryStorage) : Z :=
  map_fold (λ _ fs acc, zlen fs + acc) 0 (frames s).

(** [store_frame].  The room's entry is created before the index is checked. *)
Definition store_frame (room_id log_index : Z) (frame : Frame) :
    M MemoryStorage StorageError unit := λ s,
  let fs := default [] (frames s !! room_id) in
  let expected_index := zlen fs in
  let put fs := {| frames := <[room_id := fs]> (frames s); mls_states := mls_states s |} in
  if negb (log_index =? expected_index) then
    (Err (StorageError.Conflict expected_index log_index), put fs)
  else (Ok tt, put (fs ++ [frame])).

(** [latest_log_index]. *)
Definition latest_log_index (room_id : Z) : M MemoryStorage StorageError (option Z) := λ s,
  (Ok (fs ← frames s !! room_id;
       if bool_decide (fs = []) then None else Some (zlen fs - 1)), s).

(** [load_frames]; [start + limit] is an unchecked [usize] addition, and a slice
    whose end lies before its start panics. *)
Definition load_frames (room_id from limit : Z) : M MemoryStorage StorageError (list Frame) := λ s,
  match frames s !! room_id with
  | None => (Err (StorageError.NotFound room_id from), s)
  | Some fs =>
      let start := from in
      let end_ := Z.min (start ⊕64 limit) (zlen fs) in
      if zlen fs <? start then (Ok [], s)
      else if end_ <? start then (Panic, s)
      else (Ok (slice (Z.to_nat start) (Z.to_nat end_) fs), s)
  end.

(** [store_mls_state] and [load_mls_state]. *)
Definition store_mls_state (room_id : Z) (state : MlsGroupState) :
    M MemoryStorage StorageError unit := λ s,
  (Ok tt, {| frames := frames s; mls_states := <[room_id := state]> (mls_states s) |}).
Definition load_mls_state (room_id : Z) : M MemoryStorage StorageError (option MlsGroupState) := λ s,
  (Ok (mls_states s !! room_id), s).

#[global] Instance memory_storage : Storage MemoryStorage := {
  store_frame := store_frame; latest_log_index := latest_log_index; load_frames := load_frames;
  store_mls_state := store_mls_state; load_mls_state := load_mls_state }.

(** The log of a room: absent and empty rooms look alike. *)
Definition room_log (s : MemoryStorage) (room : Z) : list Frame := default [] (frames s !! room).

Lemma store_frame_put room fs s r :
  room_log {| frames := <[room := fs]> (frames s); mls_states := mls_states s |} r
  = if bool_decide (r = room) then fs else room_log s r.
Proof.
  unfold room_log; cbn. rewrite lookup_insert. case_bool_decide; subst.
  - by rewrite decide_True.
  - by rewrite decide_False.
Qed.

Lemma load_frames_spec room from limit s fs :
  frames s !! room = Some fs → 0 ≤ from < U64_MOD → 0 ≤ limit < U64_MOD →
  zlen fs < U64_MOD →
  load_frames room from limit s =
    if (from <=? zlen fs) && (U64_MOD <=? from + limit) then (Panic, s)
    else (Ok (take (Z.to_nat limit) (drop (Z.to_nat from) fs)), s).
Proof.
  intros Hr Hf Hl Hlen. unfold load_frames. rewrite Hr.
  destruct (zlen fs <? from) eqn:E1; bool_to_prop.
  { rewrite (proj2 (Z.leb_gt _ _)) by done. cbn.
    rewrite drop_ge by (unfold zlen in *; lia). by rewrite take_nil. }
  rewrite (proj2 (Z.leb_le _ _)) by done. cbn [andb].
  destruct (U64_MOD <=? from + limit) eqn:E2; bool_to_prop.
  - assert ((from + limit) mod U64_MOD = from + limit - U64_MOD) as ->.
    { symmetry. apply (Z.mod_unique _ _ 1); lia. }
    by rewrite (proj2 (Z.ltb_lt _ _)) by lia.
  - rewrite Z.mod_small by lia. rewrite (proj2 (Z.ltb_ge _ _)) by lia.
    do 2 f_equal. unfold slice, zlen in *. destruct (decide (from + limit ≤ Z.of_nat (length fs))).
    + f_equal. lia.
    + rewrite !take_ge; rewrite ?length_drop; (done || lia).
Qed.

#[global, program] Instance memory_storage_ok : StorageOk MemoryStorage :=
  {| log := room_log; mls_of := λ s r, mls_states s !! r |}.
Next Obligation.
  intros room i f s. cbn -[room_log]. unfold store_frame. fold (room_log s room).
  destruct (i =? zlen (room_log s room)) eqn:E; cbn -[room_log]; bool_to_prop.
  - split_and!; [done|..].
    + rewrite store_frame_put. by rewrite bool_decide_true.
    + intros r Hr. rewrite store_frame_put. by rewrite bool_decide_false.
    + done.
  - split_and!; try done. intros r. rewrite store_frame_put. by case_bool_decide; subst.
Qed.
Next Obligation.
  intros room s. cbn. split; [done|]. unfold room_log.
  destruct (frames s !! room) as [[|f fs]|]; done.
Qed.
Next Obligation.
  intros room from limit s Hf Hl Hb. cbn.
  destruct (frames s !! room) as [fs|] eqn:Hr.
  2: { unfold load_frames. by rewrite Hr. }
  unfold load_frames, room_log. rewrite Hr. cbn -[Z.modulo].
  destruct (zlen fs <? from) eqn:E1; bool_to_prop.
  { split; [done|]. rewrite drop_ge by (unfold zlen in *; lia). by rewrite take_nil. }
  rewrite Z.mod_small by lia. rewrite (proj2 (Z.ltb_ge _ _)) by lia. split; [done|].
  unfold slice, zlen in *. destruct (decide (from + limit ≤ Z.of_nat (length fs))).
  - f_equal. lia.
  - rewrite !take_ge; rewrite ?length_drop; (done || lia).
Qed.
Next Obligation.
  intros room st s. cbn. split_and!; [done|by rewrite lookup_insert_eq|].
  intros r Hr. by rewrite lookup_insert_ne.
Qed.
Next Obligation. done. Qed.
End MemoryStorage.
Abbreviation MemoryStorage := MemoryStorage.MemoryStorage.

(** ** Fault injection *)
Module ChaoticStorage.

Module ChaoticRng.
(** [ChaoticRng::next]: the new state; the value returned is the state divided by
    [2^32], exact in an [f64]. *)
Definition A : Z := 1664525.
Definition C : Z := 1013904223.
Definition M : Z := 2 ^ 32.
Definition next (state : Z) : Z := (((A * state) mod U64_MOD) ⊕64 C) mod M.
(** [ChaoticRng::should_fail]; the failure rate is the exact rational value of
    the [f64]. *)
Definition should_fail (failure_rate : Q) (state : Z) : bool * Z :=
  let state := next state in
  (negb (Qle_bool failure_rate (inject_Z state / inject_Z M)), state).
End ChaoticRng.

(** [struct ChaoticStorage]. *)
Record ChaoticStorage (S : Type) : Type := {
  inner : S;
  failure_rate : Q;
  rng : Z;
  operation_count : Z;
}.
Arguments inner {S}. Arguments failure_rate {S}. Arguments rng {S}. Arguments operation_count {S}.

Section chaotic.
Context {S : Type} `{Storage S}.

(** [ChaoticStorage::with_seed] and [new], with their [assert!]. *)
Definition with_seed (inner : S) (failure_rate : Q) (seed : Z) :
    outcome StorageError (ChaoticStorage S) :=
  if Qle_bool 0 failure_rate && Qle_bool failure_rate 1 then
    Ok {| inner := inner; failure_rate := failure_rate; rng := seed; operation_count := 0 |}
  else Panic.
Definition new (inner : S) (failure_rate : Q) : outcome StorageError (ChaoticStorage S) :=
  if Qle_bool 0 failure_rate && Qle_bool failure_rate 1 then
    with_seed inner failure_rate 0x123456789ABCDEF0
  else Panic.

(** [increment_operation_count]. *)
Definition increment_operation_count (c : ChaoticStorage S) : ChaoticStorage S :=
  {| inner := inner c; failure_rate := failure_rate c; rng := rng c;
     operation_count := operation_count c ⊕64 1 |}.
(** [should_fail]. *)
Definition should_fail (c : ChaoticStorage S) : bool * ChaoticStorage S :=
  let '(b, r) := ChaoticRng.should_fail (failure_rate c) (rng c) in
  (b, {| inner := inner c; failure_rate := failure_rate c; rng := r;
         operation_count := operation_count c |}).

(** The body shared by the five methods: count, draw, then fail or delegate. *)
Definition inject {X} (op : M S StorageError X) : M (ChaoticStorage S) StorageError X := λ c,
  let c := increment_operation_count c in
  let '(fails, c) := should_fail c in
  if fails then (Err (StorageError.Io "chaotic failure injection"), c)
  else
    let '(r, s) := op (inner c) in
    (r, {| inner := s; failure_rate := failure_rate c; rng := rng c;
           operation_count := operation_count c |}).

#[global] Arguments inject : simpl never.

Definition store_frame (room_id log_index : Z) (frame : Frame) :=
  inject (Storage.store_frame room_id log_index frame).
Definition latest_log_index (room_id : Z) := inject (Storage.latest_log_index room_id).
Definition load_frames (room_id from limit : Z) := inject (Storage.load_frames room_id from limit).
Definition store_mls_state (room_id : Z) (state : MlsGroupState) :=
  inject (Storage.store_mls_state room_id state).
Definition load_mls_state (room_id : Z) := inject (Storage.load_mls_state room_id).

#[global] Instance chaotic_storage : Storage (ChaoticStorage S) := {
  store_frame := store_frame; latest_log_index := latest_log_index; load_frames := load_frames;
  store_mls_state := store_mls_state; load_mls_state := load_mls_state }.

Lemma inject_spec {X} (op : M S StorageError X) c :
  ∃ rng n fr, ((∃ why, inject op c = (Err (StorageError.Io why),
                   {| inner := inner c; failure_rate := fr; rng := rng; operation_count := n |}))
   ∨ inject op c = (fst (op (inner c)),
                   {| inner := snd (op (inner c)); failure_rate := fr; rng := rng;
                      operation_count := n |})).
Proof.
  unfold inject, should_fail. cbn -[ChaoticRng.should_fail Z.modulo].
  destruct (ChaoticRng.should_fail _ _) as [[] r]; cbn -[Z.modulo]; eexists _, _, _.
  - left. eauto.
  - right. by destruct (op (inner c)).
Qed.

#[global, program] Instance chaotic_storage_ok `{!StorageOk S} : StorageOk (ChaoticStorage S) :=
  {| log := λ c, log (inner c); mls_of := λ c, mls_of (inner c) |}.
Next Obligation.
  intros ? room i f c. cbn. pose proof (store_frame_ok room i f (inner c)) as Hok.
  unfold store_frame.
  destruct (inject_spec (Storage.store_frame room i f) c) as (?&?&?&[[? ->]| ->]); [done|].
  destruct (Storage.store_frame _ _ _ _) as [[|[]|] ?]; cbn; done.
Qed.
Next Obligation.
  intros ? room c. cbn. pose proof (latest_log_index_ok room (inner c)) as Hok.
  unfold latest_log_index.
  destruct (inject_spec (Storage.latest_log_index room) c) as (?&?&?&[[? ->]| ->]); [done|].
  destruct (Storage.latest_log_index _ _) as [[| |] ?]; cbn; done.
Qed.
Next Obligation.
  intros ? room from limit c H1 H2 H3. cbn.
  pose proof (load_frames_ok room from limit (inner c) H1 H2 H3) as Hok.
  unfold load_frames.
  destruct (inject_spec (Storage.load_frames room from limit) c) as (?&?&?&[[? ->]| ->]); [done|].
  destruct (Storage.load_frames _ _ _ _) as [[| |] ?]; cbn; done.
Qed.
Next Obligation.
  intros ? room st c. cbn. pose proof (store_mls_state_ok room st (inner c)) as Hok.
  unfold store_mls_state.
  destruct (inject_spec (Storage.store_mls_state room st) c) as (?&?&?&[[? ->]| ->]); [done|].
  destruct (Storage.store_mls_state _ _ _) as [[| |] ?]; cbn; done.
Qed.
Next Obligation.
  intros ? room c. cbn. pose proof (load_mls_state_ok room (inner c)) as Hok.
  unfold load_mls_state.
  destruct (inject_spec (Storage.load_mls_state room) c) as (?&?&?&[[? ->]| ->]); [done|].
  destruct (Storage.load_mls_state _ _) as [[| |] ?]; cbn; done.
Qed.
End chaotic.
End ChaoticStorage.
Abbreviation ChaoticStorage := ChaoticStorage.ChaoticStorage.

(** ** Storage as a function of its history

    A specification that knows no data structure: what a call returns is computed
    from the calls before it and what they returned. *)
Module History.
Import ChaoticStorage.

(** A call of a method of the trait. *)
Inductive call : Type :=
| StoreFrame (room_id log_index : Z) (frame : Frame)
| LatestLogIndex (room_id : Z)
| LoadFrames (room_id from limit : Z)
| StoreMlsState (room_id : Z) (state : MlsGroupState)
| LoadMlsState (room_id : Z).
(** What it returns. *)
Inductive reply : Type :=
| Done (r : outcome StorageError unit)
| Index (r : outcome StorageError (option Z))
| Frames (r : outcome StorageError (list Frame))
| State (r : outcome StorageError (option MlsGroupState)).
Definition aborts (r : reply) : bool := match r with Frames Panic => true | _ => false end.
Abbreviation history := (list (call * reply)).

(** *** Running a storage *)
Section run.
Context {S : Type} `{Storage S}.
Definition serve (c : call) (s : S) : reply * S :=
  match c with
  | StoreFrame room i f => let '(r, s) := Storage.store_frame room i f s in (Done r, s)
  | LatestLogIndex room => let '(r, s) := Storage.latest_log_index room s in (Index r, s)
  | LoadFrames room from limit => let '(r, s) := Storage.load_frames room from limit s in (Frames r, s)
  | StoreMlsState room st => let '(r, s) := Storage.store_mls_state room st s in (Done r, s)
  | LoadMlsState room => let '(r, s) := Storage.load_mls_state room s in (State r, s)
  end.
(** The calls one after the other; a panic ends the process. *)
Fixpoint run (cs : list call) (s : S) : history * S :=
  match cs with
  | [] => ([], s)
  | c :: cs =>
      let '(r, s) := serve c s in
      if aborts r then ([(c, r)], s) else let '(h, s) := run cs s in ((c, r) :: h, s)
  end.
End run.

(** *** What the history says *)

(** The store requests of a room that succeeded, with their indices. *)
Definition stored_entry (room : Z) (cr : call * reply) : option (Z * Frame) :=
  match cr with
  | (StoreFrame r i f, Done (Ok _)) => if r =? room then Some (i, f) else None
  | _ => None
  end.
Definition stored (room : Z) (h : history) : list (Z * Frame) := omap (stored_entry room) h.
(** A store request for the room has got as far as the index check. *)
Definition checked (room : Z) (cr : call * reply) : bool :=
  match cr with
  | (StoreFrame r _ _, Done (Ok _)) | (StoreFrame r _ _, Done (Err (StorageError.Conflict _ _))) => r =? room
  | _ => false
  end.
(** The stored frames of a room have the indices 0, 1, 2, ... *)
Definition numbered (room : Z) (h : history) : Prop := (stored room h).*1 = seqZ 0 (zlen (stored room h)).
(** The states stored for a room. *)
Definition state_entry (room : Z) (cr : call * reply) : option MlsGroupState :=
  match cr with (StoreMlsState r st, Done (Ok _)) => if r =? room then Some st else None | _ => None end.

Definition failure (c : call) : reply :=
  let e := StorageError.Io "chaotic failure injection" in
  match c with
  | StoreFrame _ _ _ | StoreMlsState _ _ => Done (Err e)
  | LatestLogIndex _ => Index (Err e)
  | LoadFrames _ _ _ => Frames (Err e)
  | LoadMlsState _ => State (Err e)
  end.
(** The reply to a call: a frame is stored at the end of what was stored before, a
    range is taken from it, a state is the last one stored.  A range of a room that
    no store request has reached is not found; one that starts in the log and ends
    beyond [u64] aborts. *)
Definition answer (h : history) (c : call) : reply :=
  match c with
  | StoreFrame room i f =>
      let n := zlen (stored room h) in
      Done (if i =? n then Ok tt else Err (StorageError.Conflict n i))
  | LatestLogIndex room => Index (Ok (latest (stored room h)))
  | LoadFrames room from limit =>
      let log := (stored room h).*2 in
      Frames (if negb (existsb (checked room) h) then Err (StorageError.NotFound room from)
              else if (from <=? zlen log) && (U64_MOD <=? from + limit) then Panic
              else Ok (take (Z.to_nat limit) (drop (Z.to_nat from) log)))
  | StoreMlsState _ _ => Done (Ok tt)
  | LoadMlsState room => State (Ok (list.last (omap (state_entry room) h)))
  end.
(** The history of calls of which those marked fail. *)
Fixpoint expected (h : history) (faults : list bool) (cs : list call) : history :=
  match faults, cs with
  | fails :: faults, c :: cs =>
      let r := if fails then failure c else answer h c in
      if aborts r then [(c, r)] else (c, r) :: expected (h ++ [(c, r)]) faults cs
  | _, _ => []
  end.
(** The draws of the generator. *)
Fixpoint draws (n : nat) (failure_rate : Q) (state : Z) : list bool :=
  match n with
  | O => []
  | Datatypes.S n => let '(b, state) := ChaoticRng.should_fail failure_rate state in b :: draws n failure_rate state
  end.

(** *** Implementations against the history *)
Lemma stored_snoc room h c r : stored room (h ++ [(c, r)]) = stored room h ++ option_list (stored_entry room (c, r)).
Proof. unfold stored. rewrite omap_app. cbn. by destruct (stored_entry room (c, r)). Qed.
Lemma states_snoc room h c r :
  omap (state_entry room) (h ++ [(c, r)]) = omap (state_entry room) h ++ option_list (state_entry room (c, r)).
Proof. rewrite omap_app. cbn. by destruct (state_entry room (c, r)). Qed.
Lemma checked_snoc room h c r : existsb (checked room) (h ++ [(c, r)]) = existsb (checked room) h || checked room (c, r).
Proof. rewrite existsb_app. cbn. by rewrite orb_false_r. Qed.
Lemma zlen_fst {A B} (l : list (A * B)) : zlen l.*2 = zlen l.
Proof. unfold zlen. by rewrite length_fmap. Qed.

(** The contents of a memory are those of a history. *)
Record holds (h : history) (s : MemoryStorage) : Prop := {
  holds_frames : ∀ room,
    MemoryStorage.frames s !! room = if existsb (checked room) h then Some (stored room h).*2 else None;
  holds_states : ∀ room, MemoryStorage.mls_states s !! room = list.last (omap (state_entry room) h);
  holds_order : ∀ room, numbered room h;
}.
Lemma holds_new : holds [] MemoryStorage.new.
Proof. split; intros room; cbn; [apply lookup_empty|apply lookup_empty|done]. Qed.
(** An entry that leaves no trace in the three readings. *)
Lemma holds_idle h s c r :
  (∀ room, stored_entry room (c, r) = None ∧ checked room (c, r) = false ∧ state_entry room (c, r) = None) →
  holds h s → holds (h ++ [(c, r)]) s.
Proof.
  intros Hn [Hf Hs Ho]. split; intros room; destruct (Hn room) as (E1 & E2 & E3).
  - by rewrite checked_snoc, stored_snoc, E1, E2, orb_false_r, app_nil_r.
  - by rewrite states_snoc, E3, app_nil_r.
  - unfold numbered. rewrite stored_snoc, E1, app_nil_r. apply Ho.
Qed.
Lemma holds_failed h s c : holds h s → holds (h ++ [(c, failure c)]) s.
Proof. apply holds_idle. intros room. by destruct c. Qed.
Lemma holds_log h s room : holds h s → default [] (MemoryStorage.frames s !! room) = (stored room h).*2.
Proof.
  intros Hh. rewrite (holds_frames _ _ Hh). destruct (existsb (checked room) h) eqn:E; [done|].
  assert (stored room h = []) as ->; [|done]. unfold stored. clear Hh. induction h as [|[c r] h IH]; [done|].
  cbn in E. apply orb_false_iff in E as [E1 E2]. specialize (IH E2).
  assert (stored_entry room (c, r) = None) as En by (destruct c, r as [[]| | |]; cbn in *; try done; by rewrite E1).
  cbn [omap list_omap]. by rewrite En.
Qed.

(** A call on the memory. *)
Definition typed (c : call) : Prop :=
  match c with LoadFrames _ from limit => 0 ≤ from < U64_MOD ∧ 0 ≤ limit < U64_MOD | _ => True end.
Lemma stored_short h s room : holds h s → zlen h < U64_MOD → zlen (stored room h).*2 < U64_MOD.
Proof.
  intros _ Hl. rewrite zlen_fst. assert (zlen (stored room h) ≤ zlen h); [|lia]. clear. unfold stored, zlen.
  induction h as [|x h IH]; [done|]. cbn [omap list_omap]. case_match; cbn [length]; lia.
Qed.
(** A store request that passes or fails the index check. *)
Lemma memory_store h s room i f :
  holds h s →
  let c := StoreFrame room i f in
  let '(r, s') := MemoryStorage.store_frame room i f s in Done r = answer h c ∧ holds (h ++ [(c, Done r)]) s'.
Proof.
  intros Hh. cbn zeta. unfold MemoryStorage.store_frame. rewrite (holds_log h s room Hh), zlen_fst. cbn [answer].
  destruct Hh as [Hf Hs Ho]. destruct (i =? zlen (stored room h)) eqn:E; bool_to_prop; cbn [negb]; (split; [done|]);
    (split; intros q; unfold numbered in *; cbn [MemoryStorage.frames MemoryStorage.mls_states];
      rewrite ?checked_snoc, ?stored_snoc, ?states_snoc; cbn [checked stored_entry state_entry];
      destruct (room =? q) eqn:Eq; bool_to_prop; cbn [option_list]; rewrite ?app_nil_r, ?orb_false_r, ?orb_true_r; try done).
  - subst q. by rewrite lookup_insert_eq, fmap_app.
  - by rewrite lookup_insert_ne, Hf.
  - subst q i. rewrite fmap_app, Ho, zlen_app. cbn. change (zlen [(zlen (stored room h), f)]) with 1.
    pose proof (zlen_nonneg (stored room h)). rewrite seqZ_app by lia. done.
  - subst q. by rewrite lookup_insert_eq.
  - by rewrite lookup_insert_ne, Hf.
Qed.
Lemma memory_load h s room from limit :
  holds h s → zlen h < U64_MOD → typed (LoadFrames room from limit) →
  MemoryStorage.load_frames room from limit s = (match answer h (LoadFrames room from limit) with Frames r => r | _ => Panic end, s).
Proof.
  intros Hh Hl [Hfr Hli]. pose proof (stored_short h s room Hh Hl) as Hs. cbn [answer]. pose proof (holds_frames _ _ Hh room) as Hf.
  destruct (existsb (checked room) h); cbn [negb].
  - rewrite (MemoryStorage.load_frames_spec room from limit s _ Hf) by done. by case_match.
  - unfold MemoryStorage.load_frames. by rewrite Hf.
Qed.
Lemma memory_serve h s c :
  holds h s → zlen h < U64_MOD → typed c →
  ∃ s', serve c s = (answer h c, s') ∧ holds (h ++ [(c, answer h c)]) s'.
Proof.
  intros Hh Hl Ht. destruct c as [room i f|room|room from limit|room st|room]; cbn [serve Storage.store_frame Storage.latest_log_index Storage.load_frames
    Storage.store_mls_state Storage.load_mls_state MemoryStorage.memory_storage].
  - pose proof (memory_store h s room i f Hh) as Hm. cbn zeta in Hm. destruct (MemoryStorage.store_frame room i f s) as [r s'].
    destruct Hm as [<- Hm]. by exists s'.
  - exists s. split; [|by apply holds_idle]. unfold MemoryStorage.latest_log_index. cbn [answer]. do 3 f_equal.
    pose proof (holds_log h s room Hh) as Hd.
    unfold latest. destruct (MemoryStorage.frames s !! room) as [fs|]; cbn in *; subst; destruct (stored room h); try done.
    cbn. by rewrite zlen_cons, zlen_cons, zlen_fst.
  - rewrite (memory_load h s room from limit Hh Hl Ht). exists s. split; [done|]. by apply holds_idle.
  - eexists. split; [done|]. destruct Hh as [Hf Hs Ho]. unfold numbered in Ho. split; intros q; unfold numbered; cbn [MemoryStorage.frames MemoryStorage.mls_states];
      rewrite ?checked_snoc, ?stored_snoc, ?states_snoc; cbn [answer checked stored_entry state_entry];
      rewrite ?app_nil_r, ?orb_false_r; try done.
    destruct (room =? q) eqn:Eq; bool_to_prop; cbn [option_list].
    + subst q. rewrite lookup_insert_eq. change (option_list _) with [st]. by rewrite last_snoc.
    + change (option_list _) with ([] : list MlsGroupState). by rewrite lookup_insert_ne, app_nil_r.
  - exists s. split; [|by apply holds_idle]. cbn [answer]. unfold MemoryStorage.load_mls_state. by rewrite (holds_states _ _ Hh).
Qed.

(** A call on the wrapper: the draw decides. *)
Lemma chaotic_serve {S : Type} `{Storage S} (c : call) (w : ChaoticStorage S) :
  let '(fails, state) := ChaoticRng.should_fail (failure_rate w) (rng w) in
  let '(r, s) := serve c (inner w) in
  serve c w = (if fails then failure c else r,
    {| inner := if fails then inner w else s; failure_rate := failure_rate w; rng := state; operation_count := operation_count w ⊕64 1 |}).
Proof.
  destruct c; cbn [serve Storage.store_frame Storage.latest_log_index Storage.load_frames Storage.store_mls_state Storage.load_mls_state chaotic_storage];
    unfold ChaoticStorage.store_frame, ChaoticStorage.latest_log_index, ChaoticStorage.load_frames,
      ChaoticStorage.store_mls_state, ChaoticStorage.load_mls_state, inject, should_fail, increment_operation_count;
    cbn [failure_rate rng inner operation_count];
    destruct (ChaoticRng.should_fail _ _) as [[] st1]; cbn [inner failure_rate rng operation_count];
    match goal with |- context [let '(_, _) := ?op (inner w) in _] => destruct (op (inner w)) end; done.
Qed.

Lemma memory_run h s cs :
  holds h s → zlen h + zlen cs < U64_MOD → Forall typed cs →
  fst (run cs s) = expected h (replicate (length cs) false) cs.
Proof.
  intros Hh Hl Ht. revert h s Hh Hl. induction Ht as [|c cs Hc _ IH]; intros h s Hh Hl; [done|].
  rewrite zlen_cons in Hl. pose proof (zlen_nonneg cs). cbn [run length replicate expected].
  destruct (memory_serve h s c Hh ltac:(lia) Hc) as (s' & -> & Hh'). destruct (aborts (answer h c)); [done|].
  specialize (IH _ _ Hh'). rewrite zlen_app in IH. change (zlen [(c, answer h c)]) with 1 in IH.
  specialize (IH ltac:(lia)). destruct (run cs s') as [t s'']. cbn in *. by rewrite IH.
Qed.
Lemma chaotic_run h (w : ChaoticStorage MemoryStorage) cs :
  holds h (inner w) → zlen h + zlen cs < U64_MOD → Forall typed cs →
  fst (run cs w) = expected h (draws (length cs) (failure_rate w) (rng w)) cs
  ∧ operation_count (snd (run cs w)) = if decide (cs = []) then operation_count w else (operation_count w + zlen (fst (run cs w))) mod U64_MOD.
Proof.
  intros Hh Hl Ht. revert h w Hh Hl. induction Ht as [|c cs Hc _ IH]; intros h w Hh Hl; [done|].
  rewrite zlen_cons in Hl. pose proof (zlen_nonneg cs). cbn [run length draws expected].
  pose proof (chaotic_serve c w) as Hs. destruct (ChaoticRng.should_fail (failure_rate w) (rng w)) as [fails state].
  destruct (memory_serve h (inner w) c Hh ltac:(lia) Hc) as (s' & E & Hh'). rewrite E in Hs. rewrite Hs. clear Hs E.
  cbn [expected]. set (r := if fails then failure c else answer h c). rewrite decide_False by done.
  destruct (aborts r); [cbn [fst snd operation_count]; by change (zlen [(c, r)]) with 1|]. set (w' := {| inner := _ |}).
  assert (holds (h ++ [(c, r)]) (inner w')) as Hw' by (subst r w'; destruct fails; [by apply holds_failed|done]).
  specialize (IH _ _ Hw'). rewrite zlen_app in IH. change (zlen [(c, r)]) with 1 in IH. specialize (IH ltac:(lia)).
  cbn [failure_rate rng operation_count w'] in IH. destruct (run cs w') as [t s''] eqn:Er. cbn [fst snd] in *.
  destruct IH as [-> IH]. split; [done|]. rewrite IH, zlen_cons. case_decide as Hcs.
  - by subst cs.
  - rewrite Zplus_mod_idemp_l. f_equal. lia.
Qed.
Lemma expected_short h faults cs : zlen (expected h faults cs) ≤ zlen cs.
Proof.
  revert h cs. induction faults as [|b faults IH]; intros h [|c cs]; cbn [expected]; try (unfold zlen; cbn; lia).
  case_match; rewrite !zlen_cons; [pose proof (zlen_nonneg cs); change (zlen []) with 0; lia|].
  specialize (IH (h ++ [(c, if b then failure c else answer h c)]) cs). lia.
Qed.
(** Whatever fails, what is stored in a room is numbered from 0. *)
Lemma expected_order room h faults cs :
  numbered room h → numbered room (h ++ expected h faults cs).
Proof.
  unfold numbered.
  revert h cs. induction faults as [|b faults IH]; intros h [|c cs] Ho; cbn [expected]; rewrite ?app_nil_r; [done..|].
  set (r := if b then failure c else answer h c).
  assert ((stored room (h ++ [(c, r)])).*1 = seqZ 0 (zlen (stored room (h ++ [(c, r)])))) as Ho'.
  { rewrite stored_snoc. destruct c as [q i f| | | |]; try (subst r; destruct b; cbn; by rewrite app_nil_r).
    subst r. destruct b; cbn; [by rewrite app_nil_r|]. destruct (i =? zlen (stored q h)) eqn:E; bool_to_prop; cbn; [|by rewrite app_nil_r].
    destruct (q =? room) eqn:Eq; bool_to_prop; cbn; [|by rewrite app_nil_r]. subst q i.
    rewrite fmap_app, Ho, zlen_app. cbn. change (zlen [(zlen (stored room h), f)]) with 1. pose proof (zlen_nonneg (stored room h)).
    rewrite seqZ_app by lia. done. }
  destruct (aborts r); [exact Ho'|].
  specialize (IH (h ++ [(c, r)]) cs Ho'). by rewrite <-app_assoc in IH.
Qed.

(** C11: the storages answer from their history.  Whatever calls of the five methods
    are made on a new memory, and on a new memory behind fault injection with any
    rate and seed, each returns what the calls before it imply: a frame is stored at
    the end of its room's log or refused with the index expected, ranges and the last
    index are those of the frames stored, a state is the last one stored; of the
    wrapper exactly the calls fail that its generator draws, without effect, and it
    counts every call.  The stored frames of a room have the indices 0, 1, 2, ... *)
Theorem storage_answers_from_history cs rate seed w :
  Forall typed cs → zlen cs < U64_MOD → with_seed MemoryStorage.new rate seed = Ok w →
  fst (run cs MemoryStorage.new) = expected [] (replicate (length cs) false) cs
  ∧ fst (run cs w) = expected [] (draws (length cs) rate seed) cs
  ∧ operation_count (snd (run cs w)) = zlen (fst (run cs w))
  ∧ ∀ room, numbered room (fst (run cs MemoryStorage.new)) ∧ numbered room (fst (run cs w)).
Proof.
  intros Ht Hl Hw. unfold with_seed in Hw. destruct (_ && _); [|done]. injection Hw as <-. set (w := {| inner := _ |}).
  assert (fst (run cs MemoryStorage.new) = expected [] (replicate (length cs) false) cs) as Em by (by apply memory_run; [apply holds_new|..]).
  destruct (chaotic_run [] w cs) as [Ec Eo]; [apply holds_new|done..|]. cbn [failure_rate rng operation_count w] in Ec, Eo.
  rewrite Eo, Em, Ec. split_and!; [done|done| |].
  - case_decide; [by subst|]. rewrite Z.add_0_l. apply Z.mod_small.
    split; [apply zlen_nonneg|]. eapply Z.le_lt_trans; [apply expected_short|done].
  - intros room. split; by apply (expected_order room []).
Qed.
End History.

Section history_witness.
Import History.
(** The same calls on a memory, and on one behind a generator that fails the first
    and the fifth. *)
Lemma storage_answers_from_history_witness :
  let f := Frame.sample in
  let lost := StorageError.Io "chaotic failure injection" in
  let cs := [StoreFrame 1 0 f; StoreFrame 1 0 f; StoreFrame 1 7 f; LatestLogIndex 1; LoadFrames 1 0 9; LoadFrames 1 0 9] in
  let w := {| ChaoticStorage.inner := MemoryStorage.new; ChaoticStorage.failure_rate := 1 # 2; ChaoticStorage.rng := 7;
              ChaoticStorage.operation_count := 0 |} in
  map snd (fst (run cs MemoryStorage.new))
  = [Done (Ok tt); Done (Err (StorageError.Conflict 1 0)); Done (Err (StorageError.Conflict 1 7)); Index (Ok (Some 0));
     Frames (Ok [f]); Frames (Ok [f])]
  ∧ map snd (fst (run cs w))
  = [Done (Err lost); Done (Ok tt); Done (Err (StorageError.Conflict 1 7)); Index (Ok (Some 0)); Frames (Err lost); Frames (Ok [f])]
  ∧ ChaoticStorage.operation_count (snd (run cs w)) = 6.
Proof.
  intros f lost cs w. destruct (storage_answers_from_history cs (1 # 2) 7 w) as (T1 & T2 & T3 & _);
    [repeat constructor; lia|by vm_compute|by vm_compute|].
  rewrite T3, T2, T1. split_and!; vm_compute; reflexivity.
Defined.
End history_witness.
