(* ===== verification/Sequencer.v ===== *)
(** * The sequencer

    [lockframe-server/src/sequencer.rs]: per-room assignment of log indices.
    The client theorems are proved against the storage contract of [Storage.v],
    so they hold for the in-memory store and for the fault-injecting one. *)

From Stdlib Require Import Sorting.Sorted.
From S2P Require Import Prelude Opcodes Header Frame MlsState Storage.

Module SequencerError.
(** [enum SequencerError]. *)
Inductive SequencerError : Type :=
| Storage (msg : string)
| Validation (msg : string)
| Rejected (msg : string).

(** The [Display] text. *)
Definition to_string (e : SequencerError) : string :=
  match e with
  | Storage m => "storage error: " +:+ m
  | Validation m => "validation error: " +:+ m
  | Rejected m => "frame rejected: " +:+ m
  end.
(** [From<StorageError>]. *)
Definition from_storage (e : StorageError) : SequencerError := Storage (StorageError.to_string e).
End SequencerError.
Abbreviation SequencerError := SequencerError.SequencerError.

(** [enum SequencerAction]. *)
Inductive SequencerAction : Type :=
| AcceptFrame (room_id log_index : Z) (frame : Frame)
| RejectFrame (room_id : Z) (reason : string) (original_frame : Frame)
| StoreFrame (room_id log_index : Z) (frame : Frame)
| BroadcastToRoom (room_id : Z) (frame : Frame).

Module Sequencer.

(** [struct RoomSequencer] and [struct Sequencer]. *)
Record RoomSequencer : Type := { next_log_index : Z }.
Record Sequencer : Type := { rooms : gmap Z RoomSequencer }.

Definition new : Sequencer := {| rooms := ∅ |}.

(** [validate_frame_structure]. *)
Definition validate_frame_structure (frame : Frame) : outcome SequencerError unit :=
  let h := Frame.header frame in
  if negb (FrameHeader.magic h =? FrameHeader.MAGIC) then
    Err (SequencerError.Validation
      ("invalid magic: got " +:+ fmt_hex_alt 10 (FrameHeader.magic h) +:+ ", expected "
       +:+ fmt_hex_alt 10 FrameHeader.MAGIC))
  else if negb (FrameHeader.version h =? FrameHeader.VERSION) then
    Err (SequencerError.Validation
      ("unsupported version: got " +:+ fmt_int (FrameHeader.version h) +:+ ", expected "
       +:+ fmt_int FrameHeader.VERSION))
  else if negb (zlen (Frame.payload frame) =? FrameHeader.payload_size h) then
    Err (SequencerError.Validation
      ("payload size mismatch: header claims " +:+ fmt_int (FrameHeader.payload_size h)
       +:+ ", actual " +:+ fmt_int (zlen (Frame.payload frame))))
  else if FrameHeader.room_id h =? 0 then
    Err (SequencerError.Validation "room_id is zero (uninitialized?)")
  else if MAX_EPOCH <? FrameHeader.epoch h then
    Err (SequencerError.Validation
      ("epoch " +:+ fmt_int (FrameHeader.epoch h) +:+ " exceeds MAX_EPOCH " +:+ fmt_int MAX_EPOCH))
  else Ok tt.

(** [rebuild_frame_with_index]. *)
Definition rebuild_frame_with_index (original : Frame) (log_index : Z) : Frame :=
  Frame.new (FrameHeader.set_log_index log_index (Frame.header original)) (Frame.payload original).

Definition is_welcome (frame : Frame) : bool :=
  match FrameHeader.opcode_enum (Frame.header frame) with
  | Some Opcode.Welcome => true
  | _ => false
  end.

Section process.
Context {S : Type} `{Storage S}.
Abbreviation Seq := (M (Sequencer * S) SequencerError).

(** A call on the storage argument, errors converted by [?]. *)
Definition on_storage {A} (op : M S StorageError A) : Seq A :=
  m_zoom snd (λ s '(q, _), (q, s)) (m_map_err SequencerError.from_storage op).
Definition set_room (room_id n : Z) : Seq unit :=
  m_modify (λ '(q, s), ({| rooms := <[room_id := {| next_log_index := n |}]> (rooms q) |}, s)).

(** [if !self.rooms.contains_key(&room_id) { .. }]: the room's counter is loaded
    from storage; [i + 1] is unchecked. *)
Definition initialize_room (room_id : Z) : Seq unit :=
  st ← m_get;
  match rooms (fst st) !! room_id with
  | Some _ => mret tt
  | None =>
      latest_index ← on_storage (latest_log_index room_id);
      set_room room_id (match latest_index with Some i => i ⊕64 1 | None => 0 end)
  end.

(** [Sequencer::process_frame]. *)
Definition process_frame (frame : Frame) : Seq (list SequencerAction) :=
  m_lift (validate_frame_structure frame);;
  let room_id := FrameHeader.room_id (Frame.header frame) in
  if is_welcome frame then mret [BroadcastToRoom room_id frame]
  else
    initialize_room room_id;;
    st ← m_get;
    match rooms (fst st) !! room_id with
    | None => m_lift Panic
    | Some room =>
        let log_index := next_log_index room in
        match checked_add_u64 (next_log_index room) 1 with
        | None =>
            m_err (SequencerError.Validation
              ("log_index overflow for room " +:+ fmt_int room_id
               +:+ ": attempted to increment beyond u64::MAX"))
        | Some n =>
            set_room room_id n;;
            let sequenced_frame := rebuild_frame_with_index frame log_index in
            mret [AcceptFrame room_id log_index sequenced_frame;
                  StoreFrame room_id log_index sequenced_frame;
                  BroadcastToRoom room_id sequenced_frame]
        end
    end.

(** Carrying out the [StoreFrame] actions; a failing store is reported and the
    next action follows. *)
Fixpoint commit (acts : list SequencerAction) (st : Sequencer * S) : Sequencer * S :=
  match acts with
  | [] => st
  | StoreFrame room i f :: acts =>
      commit acts (fst st, snd (store_frame room i f (snd st)))
  | _ :: acts => commit acts st
  end.
(** A frame through the sequencer and its actions. *)
Definition submit (frame : Frame) (st : Sequencer * S) :
    outcome SequencerError (list SequencerAction) * (Sequencer * S) :=
  match process_frame frame st with
  | (Ok acts, st) => (Ok acts, commit acts st)
  | (r, st) => (r, st)
  end.
Fixpoint submit_all (frames : list Frame) (st : Sequencer * S) :
    list (outcome SequencerError (list SequencerAction)) * (Sequencer * S) :=
  match frames with
  | [] => ([], st)
  | f :: frames =>
      let '(r, st) := submit f st in
      let '(rs, st) := submit_all frames st in (r :: rs, st)
  end.
End process.

(** The room and index assigned by an outcome of [process_frame]. *)
Definition assigned (room : Z) (rs : list (outcome SequencerError (list SequencerAction))) : list Z :=
  omap (λ r, match r with
             | Ok (AcceptFrame room' i _ :: _) => if room' =? room then Some i else None
             | _ => None
             end) rs.

(** ** Lemmas *)

Lemma validate_Ok f :
  validate_frame_structure f = Ok tt →
  FrameHeader.magic (Frame.header f) = FrameHeader.MAGIC
  ∧ FrameHeader.version (Frame.header f) = FrameHeader.VERSION
  ∧ FrameHeader.payload_size (Frame.header f) = zlen (Frame.payload f)
  ∧ FrameHeader.room_id (Frame.header f) ≠ 0
  ∧ FrameHeader.epoch (Frame.header f) ≤ MAX_EPOCH.
Proof. unfold validate_frame_structure. intros Hv. repeat case_match; simplify_eq; bool_to_prop. auto. Qed.

Lemma rebuild_log_index f i :
  0 ≤ i < U64_MOD → FrameHeader.log_index (Frame.header (rebuild_frame_with_index f i)) = i.
Proof.
  intros Hi. unfold rebuild_frame_with_index, FrameHeader.log_index; cbn.
  apply from_to_be_bytes. done.
Qed.

(** A log whose entries carry their own positions. *)
Definition indexed (l : list Frame) : Prop :=
  ∀ k f, l !! k = Some f → FrameHeader.log_index (Frame.header f) = Z.of_nat k.

Lemma indexed_snoc l f :
  indexed l → FrameHeader.log_index (Frame.header f) = zlen l → indexed (l ++ [f]).
Proof.
  intros Hl Hf k g [Hk|(Hk & Hg)]%lookup_app_Some; [by apply Hl|].
  apply list_lookup_singleton_Some in Hg as [Hg ->]. unfold zlen in *. lia.
Qed.

Lemma latest_next l : zlen (A := Frame) l < U64_MOD →
  match latest l with Some i => i ⊕64 1 | None => 0 end = zlen l.
Proof.
  intros Hl. destruct l as [|f l]; [done|]. unfold latest.
  pose proof (zlen_nonneg (f :: l)). rewrite Z.mod_small by (rewrite zlen_cons in *; pose proof (zlen_nonneg l); lia). lia.
Qed.

Section lemmas.
Context {S : Type} `{StorageOk S}.
Implicit Types (q : Sequencer) (s : S).

(** The invariant of a sequencer over a store: logs carry their positions, and a
    cached counter is never behind its room's log. *)
Record inv (st : Sequencer * S) : Prop := {
  inv_indexed : ∀ room, indexed (log (snd st) room);
  inv_bound : ∀ room, zlen (log (snd st) room) ≤ U64_MAX;
  inv_next : ∀ room r, rooms (fst st) !! room = Some r →
    zlen (log (snd st) room) ≤ next_log_index r ≤ U64_MAX;
}.

Lemma inv_same q s s' : inv (q, s) → same s s' → inv (q, s').
Proof.
  intros [H1 H2 H3] [Hl _]. split; cbn in *; intros; rewrite Hl; eauto.
Qed.

Lemma empty_inv s : (∀ room, log s room = []) → inv (new, s).
Proof.
  intros Hl. split; cbn; intros room; [|rewrite Hl; done|by rewrite lookup_empty].
  intros k f. by rewrite Hl, lookup_nil.
Qed.

(** After the initialization step the room has a counter, everything else is as
    before; or the storage failed and nothing visible changed. *)
Lemma initialize_room_spec room q s :
  zlen (log s room) ≤ U64_MAX →
  match initialize_room room (q, s) with
  | (Ok _, (q', s')) =>
      same s s'
      ∧ (rooms q' = rooms q ∧ is_Some (rooms q !! room)
         ∨ rooms q !! room = None
           ∧ rooms q' = <[room := {| next_log_index := zlen (log s room) |}]> (rooms q))
  | (Err _, (q', s')) => q' = q ∧ same s s'
  | (Panic, _) => False
  end.
Proof.
  intros Hb. unfold initialize_room, on_storage, set_room. munfold. cbn [fst snd].
  destruct (rooms q !! room) as [r|] eqn:Hr; [split; [apply same_refl|eauto]|].
  pose proof (latest_log_index_ok room s) as Hok.
  cbn -[same Z.modulo].
  destruct (latest_log_index room s) as [[i|e|] s']; cbn -[same Z.modulo]; [|auto|done].
  destruct Hok as [Hs ->]. split; [done|]. right. split; [done|]. cbn [rooms].
  by rewrite latest_next by lia.
Qed.

(** What [process_frame] does: it rejects, passes a Welcome through, or assigns
    the room's next index and moves the counter on. *)
Lemma process_frame_spec f q s :
  inv (q, s) →
  let room := FrameHeader.room_id (Frame.header f) in
  match process_frame f (q, s) with
  | (Ok acts, (q', s')) =>
      validate_frame_structure f = Ok tt ∧ same s s'
      ∧ if is_welcome f then acts = [BroadcastToRoom room f] ∧ q' = q
        else ∃ i, let f' := rebuild_frame_with_index f i in
          acts = [AcceptFrame room i f'; StoreFrame room i f'; BroadcastToRoom room f']
          ∧ 0 ≤ i < U64_MAX ∧ zlen (log s room) ≤ i
          ∧ i = next_log_index (default {| next_log_index := zlen (log s room) |} (rooms q !! room))
          ∧ rooms q' = <[room := {| next_log_index := i + 1 |}]> (rooms q)
  | (Err _, (q', s')) =>
      same s s' ∧ (rooms q' = rooms q
        ∨ rooms q !! room = None
          ∧ rooms q' = <[room := {| next_log_index := zlen (log s room) |}]> (rooms q))
  | (Panic, _) => False
  end.
Proof.
  intros Hi room. pose proof (inv_bound _ Hi room) as Hb. cbn in Hb.
  unfold process_frame. munfold.
  destruct (validate_frame_structure f) as [[]|e|] eqn:Hv; [|auto with lockframe|].
  2: { unfold validate_frame_structure in Hv. repeat case_match; simplify_eq. }
  destruct (is_welcome f) eqn:Hw; [split_and!; auto with lockframe|].
  pose proof (initialize_room_spec room q s Hb) as Hr. fold room.
  destruct (initialize_room room (q, s)) as [[[]|e|] [q' s']]; [|naive_solver..].
  cbn [fst]. destruct Hr as [Hs Hr].
  assert (∃ n, rooms q' !! room = Some {| next_log_index := n |}
     ∧ n = next_log_index (default {| next_log_index := zlen (log s room) |} (rooms q !! room))
     ∧ zlen (log s room) ≤ n ≤ U64_MAX
     ∧ ∀ x, <[room := x]> (rooms q') = <[room := x]> (rooms q)) as (n & Hn & Hdef & Hbn & Hins).
  { destruct Hr as [[Heq [[n] Hn]]|[Hn Heq]]; rewrite Heq, Hn.
    - exists n. split_and!; try done; apply (inv_next _ Hi _ _ Hn).
    - exists (zlen (log s room)). rewrite lookup_insert_eq.
      split_and!; try done. intros. by rewrite insert_insert_eq. }
  rewrite Hn. cbn [next_log_index]. unfold checked_add_u64.
  destruct (n + 1 <? U64_MOD) eqn:E; bool_to_prop; cbn.
  - split_and!; [done..|]. exists n. pose proof (zlen_nonneg (log s room)).
    split_and!; try done; try lia.
  - split; [done|]. naive_solver.
Qed.

(** The index the room's next frame will get. *)
Definition next_of (room : Z) (st : Sequencer * S) : Z :=
  next_log_index (default {| next_log_index := zlen (log (snd st) room) |} (rooms (fst st) !! room)).

Lemma next_of_bound room st : inv st → zlen (log (snd st) room) ≤ next_of room st ≤ U64_MAX.
Proof.
  intros Hi. unfold next_of. destruct (rooms (fst st) !! room) as [r|] eqn:Hr; cbn.
  - by apply (inv_next _ Hi).
  - pose proof (inv_bound _ Hi room). lia.
Qed.

(** A frame that gets no index changes no log and no counter. *)
Lemma submit_passed q q' s s' room :
  inv (q, s) → same s s' →
  (rooms q' = rooms q
   ∨ rooms q !! room = None
     ∧ rooms q' = <[room := {| next_log_index := zlen (log s room) |}]> (rooms q)) →
  inv (q', s') ∧ (∀ x, log s' x = log s x) ∧ (∀ x, next_of x (q', s') = next_of x (q, s)).
Proof.
  intros Hi Hs Hq. pose proof (proj1 Hs) as Hl. split_and!; [|done|].
  - apply (inv_same _ _ _ Hi) in Hs as [H1 H2 H3]. split; try done. cbn. intros x r Hr.
    destruct Hq as [Heq|[Hn Heq]]; rewrite Heq in Hr; [by apply H3|].
    apply lookup_insert_Some in Hr as [[<- <-]|[_ Hr]]; [|by apply H3].
    cbn. rewrite Hl. pose proof (inv_bound _ Hi room). cbn in *. lia.
  - intros x. unfold next_of; cbn. rewrite Hl. destruct Hq as [->|[Hn ->]]; [done|].
    destruct (decide (x = room)) as [->|]; [by rewrite lookup_insert_eq, Hn|].
    by rewrite lookup_insert_ne.
Qed.

Lemma process_frame_inv f st : inv st → inv (snd (process_frame f st)).
Proof.
  destruct st as [q s]. intros Hi. pose proof (process_frame_spec f q s Hi) as Hp. cbn zeta in Hp.
  set (room := FrameHeader.room_id (Frame.header f)) in *.
  destruct (process_frame f (q, s)) as [[acts|e|] [q' s']]; cbn [snd]; [| |done].
  - destruct Hp as (_ & Hs & Ha).
    pose proof (submit_passed q q s s' room Hi Hs (or_introl eq_refl)) as (Hi' & Hl & _).
    destruct (is_welcome f); [by destruct Ha as [_ ->]|].
    destruct Ha as (i & _ & Hb & Hle & _ & Hq). destruct Hi' as [G1 G2 G3]. split; [done..|].
    cbn in *. intros x r. rewrite Hq, lookup_insert_Some.
    intros [[<- <-]|[_ Hr]]; [cbn; rewrite Hl; lia|by apply G3].
  - destruct Hp as [Hs Hq]. by apply (submit_passed q q' s s' room).
Qed.

(** A store at index [i] of a room whose counter moves to [i + 1]. *)
Lemma store_at q q' s room i f :
  inv (q, s) → rooms q' = <[room := {| next_log_index := i + 1 |}]> (rooms q) →
  i = next_of room (q, s) → 0 ≤ i < U64_MAX → FrameHeader.log_index (Frame.header f) = i →
  let '(r, s') := store_frame room i f s in
  inv (q', s')
  ∧ (∀ x, x ≠ room → log s' x = log s x)
  ∧ (∀ x, next_of x (q', s') = if bool_decide (x = room) then i + 1 else next_of x (q, s))
  ∧ (if is_ok r then i = zlen (log s room) ∧ log s' room = log s room ++ [f]
     else log s' room = log s room).
Proof.
  intros Hi Hq Hn Hb Hf. pose proof (next_of_bound room _ Hi) as Hnb. cbn in Hnb.
  pose proof (store_frame_ok room i f s) as Hok. destruct (store_frame room i f s) as [r s'].
  assert ((∀ x, x ≠ room → log s' x = log s x)
    ∧ (if is_ok r then i = zlen (log s room) ∧ log s' room = log s room ++ [f]
       else log s' room = log s room)) as [Hne Hro].
  { destruct r as [|[]|]; cbn; [naive_solver| | | | |done];
      split; intros; apply Hok. }
  clear Hok. split_and!; [|done| |done].
  - destruct Hi as [H1 H2 H3]. cbn in *.
    assert (indexed (log s' room) ∧ zlen (log s' room) ≤ i + 1) as [Hix Hlen].
    { destruct (is_ok r); [destruct Hro as [Hi ->]|rewrite Hro].
      - split; [apply indexed_snoc; [done|congruence]|]. rewrite zlen_app.
        change (zlen [f]) with 1. lia.
      - split; [done|lia]. }
    split; cbn.
    + intros x. destruct (decide (x = room)) as [->|Hx]; [done|]. by rewrite Hne.
    + intros x. destruct (decide (x = room)) as [->|Hx]; [lia|]. by rewrite Hne.
    + intros x rs. rewrite Hq, lookup_insert_Some. intros [[<- <-]|[Hx Hr]]; [cbn; lia|].
      rewrite Hne by done. eauto.
  - intros x. unfold next_of; cbn. rewrite Hq. case_bool_decide; subst.
    + by rewrite lookup_insert_eq.
    + rewrite lookup_insert_ne by done. by rewrite Hne.
Qed.

(** Storing a frame under an index that was handed out before: it is appended if the
    index is the end of the log, and nothing changes otherwise. *)
Lemma store_issued q s room i f :
  inv (q, s) → i < next_of room (q, s) → FrameHeader.log_index (Frame.header f) = i →
  let s' := snd (store_frame room i f s) in
  inv (q, s')
  ∧ (∀ x, next_of x (q, s') = next_of x (q, s))
  ∧ (∀ x, x ≠ room → log s' x = log s x)
  ∧ (log s' room = log s room ∨ i = zlen (log s room) ∧ log s' room = log s room ++ [f]).
Proof.
  intros Hi Hlt Hix s'. pose proof (store_frame_ok room i f s) as Hok.
  assert ((∀ x, x ≠ room → log s' x = log s x) ∧
    (log s' room = log s room ∨ i = zlen (log s room) ∧ log s' room = log s room ++ [f])) as [Hother Hroom].
  { unfold s'. destruct (store_frame room i f s) as [[[]|e|] s1]; cbn; [| |done].
    - destruct Hok as (-> & Hl & Ho & _). split; [exact Ho|by right].
    - assert (same s s1) as [Hl _] by (destruct e; naive_solver). split; [intros x _; apply Hl|left; apply Hl]. }
  clearbody s'. pose proof (λ x, next_of_bound x _ Hi) as Hb. cbn in Hb.
  assert (∀ x, next_of x (q, s') = next_of x (q, s)) as Hnext.
  { intros x. unfold next_of in *; cbn in *. destruct (decide (x = room)) as [->|]; [|by rewrite Hother].
    destruct Hroom as [->|[-> ->]]; [done|]. destruct (_ !! room); [done|]. cbn in Hlt. lia. }
  split_and!; [|done..]. destruct Hi as [I1 I2 I3]. cbn in I1, I2, I3.
  split; cbn; intros x; destruct (decide (x = room)) as [->|N]; try (rewrite Hother by done; by auto).
  - destruct Hroom as [->|[Hi ->]]; [apply I1|]. apply indexed_snoc; [apply I1|]. congruence.
  - destruct Hroom as [->|[Hi ->]]; [apply I2|]. rewrite zlen_app. change (zlen [f]) with 1. specialize (Hb room). lia.
  - intros r Hr. destruct Hroom as [->|[Hi ->]]; [by apply I3|]. rewrite zlen_app. change (zlen [f]) with 1.
    unfold next_of in Hlt; cbn in Hlt. rewrite Hr in Hlt. cbn in Hlt. specialize (I3 _ _ Hr). lia.
Qed.

Lemma submit_spec f st :
  inv st →
  let room := FrameHeader.room_id (Frame.header f) in
  let '(r, st') := submit f st in
  inv st'
  ∧ (∀ x, x ≠ room → log (snd st') x = log (snd st) x ∧ next_of x st' = next_of x st
                     ∧ assigned x [r] = [])
  ∧ ((assigned room [r] = [] ∧ log (snd st') room = log (snd st) room
      ∧ next_of room st' = next_of room st)
     ∨ ∃ i, assigned room [r] = [i] ∧ i = next_of room st ∧ next_of room st' = i + 1
         ∧ (log (snd st') room = log (snd st) room
            ∨ log (snd st') room = log (snd st) room ++ [rebuild_frame_with_index f i]
              ∧ i = zlen (log (snd st) room))).
Proof.
  destruct st as [q s]. intros Hi room. unfold submit.
  pose proof (process_frame_spec f q s Hi) as Hp. cbn zeta in Hp. fold room in Hp.
  destruct (process_frame f (q, s)) as [[acts|e|] [q' s']]; [| |done].
  2: { destruct Hp as [Hs Hq]. destruct (submit_passed _ _ _ _ _ Hi Hs Hq) as (?&?&?). cbn; eauto 10. }
  destruct Hp as (Hv & Hs & Hp). destruct (is_welcome f).
  { destruct Hp as [-> ->]. destruct (submit_passed q q s s' room Hi Hs) as (?&?&?); [by left|].
    cbn; eauto 10. }
  destruct Hp as (i & -> & Hib & Hle & Hin & Hq). cbn [commit fst snd].
  pose proof (proj1 Hs) as Hl. assert (inv (q, s')) as Hi' by by eapply inv_same.
  assert (next_of room (q, s') = i) as Hni by (unfold next_of; cbn; by rewrite Hl).
  pose proof (store_at q q' s' room i (rebuild_frame_with_index f i) Hi' Hq (eq_sym Hni) Hib
    (rebuild_log_index f i ltac:(lia))) as Hst.
  destruct (store_frame room i _ s') as [r s'']. destruct Hst as (Hinv & Hne & Hnx & Hro).
  cbn [fst snd]. split_and!; [done|..].
  - intros x Hx. rewrite Hne, Hl, Hnx, bool_decide_false by done. split_and!; [done|..].
    + unfold next_of; cbn. by rewrite Hl.
    + cbn. by rewrite (proj2 (Z.eqb_neq room x)) by done.
  - right. exists i. cbn. rewrite Z.eqb_refl, Hnx, bool_decide_true by done. split_and!; try done.
    rewrite Hl in Hro. destruct (is_ok r); [right|left]; naive_solver.
Qed.

Lemma assigned_cons room r rs : assigned room (r :: rs) = assigned room [r] ++ assigned room rs.
Proof. unfold assigned. cbn. by case_match. Qed.

Lemma submit_all_safe frames st room :
  inv st →
  let '(rs, st') := submit_all frames st in
  inv st' ∧ log (snd st) room `prefix_of` log (snd st') room
  ∧ StronglySorted Z.lt (assigned room rs) ∧ Forall (λ i, next_of room st ≤ i) (assigned room rs)
  ∧ (next_of room st ≤ next_of room st').
Proof.
  revert st. induction frames as [|f frames IH]; intros st Hi; cbn [submit_all].
  { split_and!; try done; constructor. }
  pose proof (submit_spec f st Hi) as Hs. cbn zeta in Hs.
  set (room' := FrameHeader.room_id (Frame.header f)) in *.
  destruct (submit f st) as [r st1]. destruct Hs as (Hi1 & Hoth & Hroom).
  specialize (IH st1 Hi1). destruct (submit_all frames st1) as [rs st'].
  destruct IH as (Hi' & Hpre & Hsort & Hall & Hnx). rewrite assigned_cons.
  destruct (decide (room = room')) as [->|Hne].
  - destruct Hroom as [(-> & <- & <-)|(i & -> & Hin & Hn1 & Hlog)]; [done|]. cbn [app].
    split_and!; [done|..].
    + destruct Hlog as [<-|[Hlog _]]; [done|]. etrans; [|exact Hpre]. rewrite Hlog. by eexists.
    + constructor; [done|]. eapply Forall_impl; [|exact Hall]. intros x Hx. cbv beta in Hx. lia.
    + constructor; [lia|]. eapply Forall_impl; [|exact Hall]. intros x Hx. cbv beta in Hx. lia.
    + lia.
  - destruct (Hoth _ Hne) as (<- & <- & ->). done.
Qed.

(** ** Reliable storage *)

(** Storage that never fails on its own account. *)
Class StorageReliable : Prop := {
  latest_reliable : ∀ room s, ∃ i s', latest_log_index room s = (Ok i, s');
  store_reliable : ∀ room f s, ∃ s', store_frame room (zlen (log s room)) f s = (Ok tt, s');
}.

(** Frames that are given an index. *)
Definition accepts (f : Frame) : bool := is_ok (validate_frame_structure f) && negb (is_welcome f).

Lemma process_accepted `{!StorageReliable} f st :
  let room := FrameHeader.room_id (Frame.header f) in
  next_of room st = zlen (log (snd st) room) → zlen (log (snd st) room) < U64_MAX → accepts f = true →
  ∃ acts st', process_frame f st = (Ok acts, st').
Proof.
  destruct st as [q s]. intros room Hn Hb Ha. cbn in Hn, Hb.
  unfold accepts in Ha. destruct (validate_frame_structure f) as [[]|e|] eqn:Hv; try done.
  unfold process_frame, initialize_room, on_storage, set_room. munfold. rewrite Hv. cbn in Ha.
  destruct (is_welcome f); [done|]. fold room. cbn [fst snd].
  unfold next_of in Hn. cbn in Hn. destruct (rooms q !! room) as [[n]|] eqn:Hr; cbn in Hn.
  - cbn. rewrite ?Hr. cbn. unfold checked_add_u64. rewrite (proj2 (Z.ltb_lt _ _)) by lia. eauto.
  - destruct (latest_reliable room s) as (i & s' & Hl).
    pose proof (latest_log_index_ok room s) as Hok. rewrite Hl in Hok. destruct Hok as [_ ->].
    cbn -[Z.modulo]. rewrite Hl. cbn -[Z.modulo]. rewrite latest_next by lia.
    rewrite lookup_insert_eq. cbn -[Z.modulo]. unfold checked_add_u64.
    rewrite (proj2 (Z.ltb_lt _ _)) by lia. eauto.
Qed.

Lemma submit_reliable `{!StorageReliable} f st :
  inv st → let room := FrameHeader.room_id (Frame.header f) in
  next_of room st = zlen (log (snd st) room) → zlen (log (snd st) room) < U64_MAX →
  accepts f = true →
  let '(r, st') := submit f st in
  assigned room [r] = [zlen (log (snd st) room)]
  ∧ log (snd st') room
    = log (snd st) room ++ [rebuild_frame_with_index f (zlen (log (snd st) room))].
Proof.
  destruct st as [q s]. intros Hi room Hn Hb Ha. cbn in Hn, Hb. unfold submit.
  destruct (process_accepted f (q, s) Hn Hb Ha) as (acts & [q' s'] & Hp).
  pose proof (process_frame_spec f q s Hi) as Hs. cbn zeta in Hs. rewrite Hp in *.
  destruct Hs as (_ & [Hl _] & Hs). unfold accepts in Ha.
  destruct (is_welcome f); [by rewrite andb_false_r in Ha|].
  destruct Hs as (i & -> & _ & _ & Hin & _). cbn [commit fst snd]. fold room.
  assert (i = zlen (log s room)) as -> by exact (eq_trans Hin Hn).
  pose proof (store_reliable room (rebuild_frame_with_index f (zlen (log s room))) s') as [s'' Hst].
  pose proof (store_frame_ok room (zlen (log s' room)) (rebuild_frame_with_index f (zlen (log s room))) s') as Hok.
  rewrite Hst in Hok. rewrite Hl in *. rewrite Hst. cbn. rewrite Z.eqb_refl.
  split; [done|]. apply Hok.
Qed.

Lemma submit_rejected f st :
  inv st → accepts f = false → assigned (FrameHeader.room_id (Frame.header f)) [fst (submit f st)] = [].
Proof.
  destruct st as [q s]. intros Hi Ha. pose proof (process_frame_spec f q s Hi) as Hp. cbn zeta in Hp.
  unfold submit. destruct (process_frame f (q, s)) as [[acts|e|] [q' s']]; [|done..].
  destruct Hp as (Hv & _ & Hp). unfold accepts in Ha. rewrite Hv in Ha. cbn in Ha.
  apply negb_false_iff in Ha. rewrite Ha in Hp. by destruct Hp as [-> _].
Qed.

(** The reference: the frames of [room], in order, carrying consecutive indices
    from [n]. *)
Fixpoint sequence_from (n room : Z) (frames : list Frame) : list Frame :=
  match frames with
  | [] => []
  | f :: frames =>
      if accepts f && (FrameHeader.room_id (Frame.header f) =? room)
      then rebuild_frame_with_index f n :: sequence_from (n + 1) room frames
      else sequence_from n room frames
  end.

Lemma submit_all_reliable `{!StorageReliable} frames st :
  inv st → (∀ room, next_of room st = zlen (log (snd st) room)) →
  (∀ room, zlen (log (snd st) room) + zlen frames ≤ U64_MAX) →
  ∀ room,
  let '(rs, st') := submit_all frames st in
  log (snd st') room
    = log (snd st) room ++ sequence_from (zlen (log (snd st) room)) room frames
  ∧ assigned room rs = seqZ (zlen (log (snd st) room))
      (zlen (sequence_from (zlen (log (snd st) room)) room frames)).
Proof.
  revert st. induction frames as [|f frames IH]; intros st Hi Hn Hb room; cbn [submit_all].
  { cbn. by rewrite app_nil_r. }
  set (room' := FrameHeader.room_id (Frame.header f)).
  assert (∀ x, zlen (log (snd st) x) < U64_MAX ∧ zlen (log (snd st) x) + 1 + zlen frames ≤ U64_MAX) as Hb'.
  { intros x. specialize (Hb x). rewrite zlen_cons in Hb. pose proof (zlen_nonneg frames). lia. }
  pose proof (submit_spec f st Hi) as Hs. cbn zeta in Hs. fold room' in Hs.
  pose proof (submit_reliable f st Hi (Hn _) (proj1 (Hb' _))) as Hrel. fold room' in Hrel.
  pose proof (submit_rejected f st Hi) as Hrej. fold room' in Hrej.
  destruct (submit f st) as [r st1]. destruct Hs as (Hi1 & Hoth & Hroom). cbn [fst] in Hrej.
  assert (∀ x, log (snd st1) x
    = log (snd st) x ++ (if accepts f && (room' =? x)
                         then [rebuild_frame_with_index f (zlen (log (snd st) x))] else [])
    ∧ next_of x st1 = zlen (log (snd st1) x)
    ∧ assigned x [r] = if accepts f && (room' =? x) then [zlen (log (snd st) x)] else []) as Hstep.
  { intros x. destruct (decide (x = room')) as [->|Hx].
    - rewrite Z.eqb_refl, andb_true_r. destruct (accepts f).
      + destruct (Hrel eq_refl) as [Ha Hl]. destruct Hroom as [(Hc & _)|(i & Hc & Hii & Hn1 & _)]; [congruence|].
        rewrite Hl, zlen_app, Ha. split_and!; [done| |done].
        change (zlen [rebuild_frame_with_index f (zlen (log (snd st) room'))]) with 1.
        rewrite Hn1, Hii, Hn. done.
      + specialize (Hrej eq_refl). destruct Hroom as [(_ & -> & ->)|(i & Hc & _)]; [|congruence].
        by rewrite app_nil_r, Hn.
    - rewrite (proj2 (Z.eqb_neq room' x)), andb_false_r by done.
      destruct (Hoth x Hx) as (-> & -> & ->). by rewrite app_nil_r, Hn. }
  specialize (IH st1 Hi1 (λ x, proj1 (proj2 (Hstep x)))).
  assert (∀ x, zlen (log (snd st1) x) + zlen frames ≤ U64_MAX) as Hb1.
  { intros x. rewrite (proj1 (Hstep x)), zlen_app. pose proof (Hb' x).
    destruct (accepts f && _); unfold zlen in *; cbn [length]; lia. }
  specialize (IH Hb1 room). destruct (submit_all frames st1) as [rs st'].
  destruct IH as [IH1 IH2]. destruct (Hstep room) as (Hl & _ & Ha).
  rewrite assigned_cons, Ha, IH1, IH2, Hl. cbn [sequence_from]. fold room'.
  destruct (accepts f && (room' =? room)).
  - rewrite zlen_app, <-app_assoc. cbn [app].
    change (zlen [rebuild_frame_with_index f (zlen (log (snd st) room))]) with 1.
    split; [done|]. rewrite zlen_cons.
    pose proof (zlen_nonneg (sequence_from (zlen (log (snd st) room) + 1) room frames)).
    rewrite (seqZ_cons (zlen (log (snd st) room))) by lia. f_equal. f_equal; lia.
  - by rewrite app_nil_r.
Qed.

(** ** Wedged rooms *)

(** The room's counter has run ahead of its log. *)
Definition wedged (room : Z) (st : Sequencer * S) : Prop :=
  zlen (log (snd st) room) < next_of room st.

Lemma submit_wedged f room st :
  inv st → wedged room st →
  let '(_, st') := submit f st in
  wedged room st' ∧ log (snd st') room = log (snd st) room.
Proof.
  intros Hi Hw. pose proof (submit_spec f st Hi) as Hs. cbn zeta in Hs.
  destruct (submit f st) as [r st']. destruct Hs as (Hi' & Hoth & Hroom). unfold wedged in *.
  destruct (decide (room = FrameHeader.room_id (Frame.header f))) as [->|Hne].
  - destruct Hroom as [(_ & -> & ->)|(i & _ & -> & Hn & [->|[_ Hi2]])]; [done|split; [lia|done]|lia].
  - by destruct (Hoth _ Hne) as (-> & -> & _).
Qed.

Lemma inv_initial s :
  (∀ room, indexed (log s room)) → (∀ room, zlen (log s room) ≤ U64_MAX) → inv (new, s).
Proof. intros. by split. Qed.

(** ** Properties *)

(** C4: total order under storage faults.  A fresh sequencer over any storage that
    keeps the contract, however often it fails: for every sequence of incoming
    frames, the frame stored at position [k] of a room's log carries log index
    [k], no stored frame is ever lost or changed, and the indices handed out in
    a room strictly increase, so no index is ever given twice. *)
Theorem sequencer_safe_under_faults frames s room :
  (∀ room, indexed (log s room)) → (∀ room, zlen (log s room) ≤ U64_MAX) →
  let '(rs, (_, s')) := submit_all frames (new, s) in
  indexed (log s' room) ∧ log s room `prefix_of` log s' room
  ∧ StronglySorted Z.lt (assigned room rs).
Proof.
  intros Hix Hb. pose proof (submit_all_safe frames (new, s) room (inv_initial s Hix Hb)) as Hs.
  destruct (submit_all frames (new, s)) as [rs [q' s']]. destruct Hs as (Hi & ? & ? & _).
  split_and!; try done. apply (inv_indexed _ Hi).
Qed.

(** C1: the sequencer implements an append log.  Over storage that does not fail,
    after any sequence of frames a room's log is its old log followed by exactly
    the well-formed non-Welcome frames addressed to the room, in arrival order,
    re-headed with consecutive indices; and those are the indices reported. *)
Theorem sequencer_refines_log `{!StorageReliable} frames s room :
  (∀ room, indexed (log s room)) → (∀ room, zlen (log s room) + zlen frames ≤ U64_MAX) →
  let '(rs, (_, s')) := submit_all frames (new, s) in
  let n := zlen (log s room) in
  log s' room = log s room ++ sequence_from n room frames
  ∧ assigned room rs = seqZ n (zlen (sequence_from n room frames)).
Proof.
  intros Hix Hb. assert (inv (new, s)) as Hi.
  { apply inv_initial; [done|]. intros r. specialize (Hb r). pose proof (zlen_nonneg frames). lia. }
  pose proof (submit_all_reliable frames (new, s) Hi (λ r, eq_refl) Hb room) as Hs.
  destruct (submit_all frames (new, s)) as [rs [q' s']]. done.
Qed.

(** A room whose counter has run ahead of its log never recovers: no frame
    submitted afterwards reaches the room's log, whatever the storage does.
    (Every submission stores at an index past the end, which storage refuses.) *)
Theorem wedged_room_never_recovers frames room st :
  inv st → wedged room st →
  let '(_, st') := submit_all frames st in
  wedged room st' ∧ log (snd st') room = log (snd st) room.
Proof.
  revert st. induction frames as [|f frames IH]; intros st Hi Hw; cbn [submit_all]; [done|].
  pose proof (submit_wedged f room st Hi Hw) as Hs. pose proof (submit_spec f st Hi) as Hsp. cbn zeta in Hsp.
  destruct (submit f st) as [r st1]. destruct Hs as [Hw1 Hl1]. destruct Hsp as [Hi1 _].
  specialize (IH st1 Hi1 Hw1). destruct (submit_all frames st1). by rewrite <-Hl1.
Qed.
End lemmas.

#[global] Instance memory_reliable : StorageReliable (S := MemoryStorage).
Proof.
  split; [intros; by eexists _, _|]. intros room f s. eexists. cbn -[MemoryStorage.room_log].
  unfold MemoryStorage.store_frame. fold (MemoryStorage.room_log s room). by rewrite Z.eqb_refl.
Qed.

(** ** Witnesses *)
Definition demo_frame : Frame := Frame.sample.
Definition demo_store : MemoryStorage := MemoryStorage.new.
Lemma demo_indexed room : indexed (log demo_store room).
Proof. by intros k f. Qed.

Lemma sequencer_safe_under_faults_witness :
  let chaos := {| ChaoticStorage.inner := demo_store; ChaoticStorage.failure_rate := QArith_base.Qmake 1 2;
                  ChaoticStorage.rng := 7; ChaoticStorage.operation_count := 0 |} in
  let '(rs, (_, s')) := submit_all [demo_frame; demo_frame; demo_frame] (new, chaos) in
  indexed (log s' 9) ∧ StronglySorted Z.lt (assigned 9 rs).
Proof.
  intros chaos.
  pose proof (sequencer_safe_under_faults (S := ChaoticStorage MemoryStorage)
    [demo_frame; demo_frame; demo_frame] chaos 9 demo_indexed ltac:(done)) as T.
  destruct (submit_all _ _) as [rs [q s']]. destruct T as (T1 & _ & T3). split; [exact T1|exact T3].
Defined.

Lemma sequencer_refines_log_witness :
  let '(rs, (_, s')) := submit_all [demo_frame; demo_frame] (new, demo_store) in
  assigned 9 rs = [0; 1].
Proof.
  pose proof (sequencer_refines_log (S := MemoryStorage) [demo_frame; demo_frame] demo_store 9
    demo_indexed ltac:(done)) as T.
  destruct (submit_all _ _) as [rs [q s']]. destruct T as [_ T]. rewrite T. vm_compute. reflexivity.
Defined.

Lemma wedged_room_never_recovers_witness :
  let q := {| rooms := {[9 := {| next_log_index := 1 |}]} |} in
  let '(_, st') := submit_all [demo_frame; demo_frame] (q, demo_store) in
  log (snd st') 9 = [].
Proof.
  intros q. assert (inv (q, demo_store)) as Hi.
  { split; [apply demo_indexed|done|]. cbn. intros room r Hr.
    apply lookup_singleton_Some in Hr as [<- <-]. by vm_compute. }
  pose proof (wedged_room_never_recovers (S := MemoryStorage) [demo_frame; demo_frame] 9
    (q, demo_store) Hi ltac:(by vm_compute)) as T.
  destruct (submit_all _ _) as [rs st']. exact (proj2 T).
Defined.
End Sequencer.
Abbreviation Sequencer := Sequencer.Sequencer.
