(* ===== verification/Registry.v ===== *)
(** * The connection registry

    [lockframe-server/src/registry.rs]: registered sessions and the two-way index
    of room subscriptions.  Hash sets are [gset]s; no result below depends on
    their iteration order. *)

From S2P Require Import Prelude.

Module SessionInfo.
(** [struct SessionInfo]. *)
Record SessionInfo : Type := { user_id : option Z; authenticated : bool }.
Definition new : SessionInfo := {| user_id := None; authenticated := false |}.
(** [SessionInfo::authenticated]. *)
Definition authenticated_as (user : Z) : SessionInfo :=
  {| user_id := Some user; authenticated := true |}.
End SessionInfo.
Abbreviation SessionInfo := SessionInfo.SessionInfo.

Module ConnectionRegistry.

(** [struct ConnectionRegistry]. *)
Record ConnectionRegistry : Type := {
  sessions : gmap Z SessionInfo;
  room_subscriptions : gmap Z (gset Z);
  session_rooms : gmap Z (gset Z);
}.

Definition new : ConnectionRegistry :=
  {| sessions := ∅; room_subscriptions := ∅; session_rooms := ∅ |}.

(** The members of a map's set, or none when the key is absent. *)
Definition at_key (m : gmap Z (gset Z)) (k : Z) : gset Z := default ∅ (m !! k).

(** [ConnectionRegistry::register_session]. *)
Definition register_session (session_id : Z) (info : SessionInfo) (reg : ConnectionRegistry) :
    bool * ConnectionRegistry :=
  match sessions reg !! session_id with
  | Some _ => (false, reg)
  | None =>
      (true, {| sessions := <[session_id := info]> (sessions reg);
                room_subscriptions := room_subscriptions reg;
                session_rooms := <[session_id := ∅]> (session_rooms reg) |})
  end.

(** The body of the loop in [unregister_session]. *)
Definition remove_subscriber (session_id : Z) (subs : gmap Z (gset Z)) (room_id : Z) :
    gmap Z (gset Z) :=
  match subs !! room_id with
  | None => subs
  | Some subscribers =>
      let subscribers := subscribers ∖ {[session_id]} in
      if bool_decide (subscribers = ∅) then delete room_id subs
      else <[room_id := subscribers]> subs
  end.

(** [ConnectionRegistry::unregister_session]. *)
Definition unregister_session (session_id : Z) (reg : ConnectionRegistry) :
    option (SessionInfo * gset Z) * ConnectionRegistry :=
  match sessions reg !! session_id with
  | None => (None, reg)
  | Some info =>
      let rooms := at_key (session_rooms reg) session_id in
      (Some (info, rooms),
       {| sessions := delete session_id (sessions reg);
          room_subscriptions :=
            foldl (remove_subscriber session_id) (room_subscriptions reg) (elements rooms);
          session_rooms := delete session_id (session_rooms reg) |})
  end.

(** A write through the reference that [sessions_mut] returns. *)
Definition sessions_mut (session_id : Z) (write : SessionInfo → SessionInfo)
    (reg : ConnectionRegistry) : bool * ConnectionRegistry :=
  match sessions reg !! session_id with
  | None => (false, reg)
  | Some info =>
      (true, {| sessions := <[session_id := write info]> (sessions reg);
                room_subscriptions := room_subscriptions reg;
                session_rooms := session_rooms reg |})
  end.

Definition has_session (session_id : Z) (reg : ConnectionRegistry) : bool :=
  bool_decide (is_Some (sessions reg !! session_id)).

(** [ConnectionRegistry::subscribe]. *)
Definition subscribe (session_id room_id : Z) (reg : ConnectionRegistry) :
    bool * ConnectionRegistry :=
  match sessions reg !! session_id with
  | None => (false, reg)
  | Some _ =>
      (true,
       {| sessions := sessions reg;
          room_subscriptions :=
            <[room_id := {[session_id]} ∪ at_key (room_subscriptions reg) room_id]>
              (room_subscriptions reg);
          session_rooms :=
            <[session_id := {[room_id]} ∪ at_key (session_rooms reg) session_id]>
              (session_rooms reg) |})
  end.

(** [map.get_mut(&k).is_some_and(|s| s.remove(&x))]. *)
Definition remove_at (k x : Z) (m : gmap Z (gset Z)) : bool * gmap Z (gset Z) :=
  match m !! k with
  | None => (false, m)
  | Some s => (bool_decide (x ∈ s), <[k := s ∖ {[x]}]> m)
  end.

(** [ConnectionRegistry::unsubscribe]. *)
Definition unsubscribe (session_id room_id : Z) (reg : ConnectionRegistry) :
    bool * ConnectionRegistry :=
  let '(removed_from_room, subs) := remove_at room_id session_id (room_subscriptions reg) in
  let '(removed_from_session, rooms) := remove_at session_id room_id (session_rooms reg) in
  let subs :=
    match subs !! room_id with
    | Some s => if bool_decide (s = ∅) then delete room_id subs else subs
    | None => subs
    end in
  (removed_from_room && removed_from_session,
   {| sessions := sessions reg; room_subscriptions := subs; session_rooms := rooms |}).

(** Queries. *)
Definition is_subscribed (session_id room_id : Z) (reg : ConnectionRegistry) : bool :=
  match room_subscriptions reg !! room_id with
  | Some s => bool_decide (session_id ∈ s)
  | None => false
  end.
Definition sessions_in_room (room_id : Z) (reg : ConnectionRegistry) : list Z :=
  elements (at_key (room_subscriptions reg) room_id).
Definition rooms_for_session (session_id : Z) (reg : ConnectionRegistry) : list Z :=
  elements (at_key (session_rooms reg) session_id).
Definition session_count (reg : ConnectionRegistry) : Z := Z.of_nat (size (sessions reg)).
Definition room_session_count (room_id : Z) (reg : ConnectionRegistry) : Z :=
  match room_subscriptions reg !! room_id with
  | Some s => Z.of_nat (size s)
  | None => 0
  end.

(** ** The invariant *)

(** The two indexes are converse to each other, every session has its entry, and
    no room is kept with an empty set. *)
Record wf (reg : ConnectionRegistry) : Prop := {
  wf_dom : dom (session_rooms reg) = dom (sessions reg);
  wf_converse : ∀ s r,
    s ∈ at_key (room_subscriptions reg) r ↔ r ∈ at_key (session_rooms reg) s;
  wf_nonempty : ∀ r set, room_subscriptions reg !! r = Some set → set ≠ ∅;
}.

(** The subscription relation. *)
Definition subscribed (reg : ConnectionRegistry) (s r : Z) : Prop :=
  s ∈ at_key (room_subscriptions reg) r.
#[global] Instance subscribed_dec reg s r : Decision (subscribed reg s r).
Proof. unfold subscribed. apply _. Defined.

Lemma at_key_insert m k x j : at_key (<[k := x]> m) j = if decide (k = j) then x else at_key m j.
Proof. unfold at_key. rewrite lookup_insert. by case_decide. Qed.
Lemma at_key_delete m k j : at_key (delete k m) j = if decide (k = j) then ∅ else at_key m j.
Proof. unfold at_key. rewrite lookup_delete. by case_decide. Qed.
Lemma at_key_Some m k s : m !! k = Some s → at_key m k = s.
Proof. unfold at_key. by intros ->. Qed.
Lemma at_key_None m k : m !! k = None → at_key m k = ∅.
Proof. unfold at_key. by intros ->. Qed.

Lemma remove_subscriber_at sid subs room r :
  at_key (remove_subscriber sid subs room) r
  = if decide (room = r) then at_key subs r ∖ {[sid]} else at_key subs r.
Proof.
  unfold remove_subscriber. destruct (subs !! room) as [s|] eqn:Hs.
  - case_bool_decide as E; rewrite ?at_key_delete, ?at_key_insert; case_decide; subst; try done.
    + by rewrite (at_key_Some _ _ _ Hs).
    + by rewrite (at_key_Some _ _ _ Hs).
  - case_decide; subst; [|done]. rewrite (at_key_None _ _ Hs). set_solver.
Qed.

Lemma remove_subscriber_nonempty sid subs room :
  (∀ r set, subs !! r = Some set → set ≠ ∅) →
  ∀ r set, remove_subscriber sid subs room !! r = Some set → set ≠ ∅.
Proof.
  intros Hne r set. unfold remove_subscriber. destruct (subs !! room) as [s|] eqn:Hs; [|eauto].
  case_bool_decide.
  - rewrite lookup_delete_Some. naive_solver.
  - rewrite lookup_insert_Some. naive_solver.
Qed.

Lemma remove_all_at sid rooms subs r :
  at_key (foldl (remove_subscriber sid) subs rooms) r
  = if decide (r ∈ rooms) then at_key subs r ∖ {[sid]} else at_key subs r.
Proof.
  revert subs. induction rooms as [|room rooms IH]; intros subs; cbn.
  { by rewrite decide_False by set_solver. }
  rewrite IH, remove_subscriber_at. repeat case_decide; subst; set_solver.
Qed.

Lemma remove_all_nonempty sid rooms subs :
  (∀ r set, subs !! r = Some set → set ≠ ∅) →
  ∀ r set, foldl (remove_subscriber sid) subs rooms !! r = Some set → set ≠ ∅.
Proof.
  revert subs. induction rooms as [|room rooms IH]; intros subs Hne; cbn; [done|].
  apply IH. by apply remove_subscriber_nonempty.
Qed.

Lemma wf_new : wf new.
Proof. split; cbn; [done|set_solver|done]. Qed.

Lemma at_key_unregistered reg sid : wf reg → sessions reg !! sid = None → at_key (session_rooms reg) sid = ∅.
Proof.
  intros Hwf Hs. apply at_key_None, not_elem_of_dom. rewrite (wf_dom _ Hwf). by apply not_elem_of_dom.
Qed.

Lemma register_wf sid info reg : wf reg → wf (snd (register_session sid info reg)).
Proof.
  intros Hwf. unfold register_session. destruct (sessions reg !! sid) eqn:Hs; [done|].
  split; cbn; [rewrite !dom_insert_L; by rewrite (wf_dom _ Hwf)| |apply Hwf].
  intros s r. rewrite (wf_converse _ Hwf), at_key_insert. case_decide; subst; [|done].
  by rewrite at_key_unregistered.
Qed.

Lemma unregister_wf sid reg : wf reg → wf (snd (unregister_session sid reg)).
Proof.
  intros Hwf. unfold unregister_session. destruct (sessions reg !! sid) as [info|] eqn:Hs; [|done].
  split; cbn; [rewrite !dom_delete_L; by rewrite (wf_dom _ Hwf)| |].
  - intros s r. rewrite remove_all_at, at_key_delete.
    pose proof (wf_converse _ Hwf s r). pose proof (wf_converse _ Hwf sid r).
    repeat case_decide; set_solver.
  - apply remove_all_nonempty, Hwf.
Qed.

Lemma sessions_mut_wf sid f reg : wf reg → wf (snd (sessions_mut sid f reg)).
Proof.
  intros Hwf. unfold sessions_mut. destruct (sessions reg !! sid) as [info|] eqn:Hs; [|done].
  split; cbn; [|apply Hwf..]. rewrite dom_insert_lookup_L by done. apply Hwf.
Qed.

Lemma subscribe_wf sid room reg : wf reg → wf (snd (subscribe sid room reg)).
Proof.
  intros Hwf. unfold subscribe. destruct (sessions reg !! sid) as [info|] eqn:Hs; [|done].
  split; cbn.
  - rewrite dom_insert_L, (wf_dom _ Hwf). apply elem_of_dom_2 in Hs. set_solver.
  - intros s r. rewrite !at_key_insert. pose proof (wf_converse _ Hwf s r).
    repeat case_decide; subst; set_solver.
  - intros r set. rewrite lookup_insert_Some. intros [[_ <-]|[_ Hr]]; [set_solver|].
    by apply (wf_nonempty _ Hwf _ _ Hr).
Qed.

(** The map that [unsubscribe] leaves for the room side. *)
Lemma unsubscribe_subs sid room subs :
  let subs' := snd (remove_at room sid subs) in
  let subs'' := match subs' !! room with
                | Some s => if bool_decide (s = ∅) then delete room subs' else subs'
                | None => subs'
                end in
  (∀ r, at_key subs'' r = if decide (room = r) then at_key subs r ∖ {[sid]} else at_key subs r)
  ∧ ((∀ r set, subs !! r = Some set → set ≠ ∅) → ∀ r set, subs'' !! r = Some set → set ≠ ∅).
Proof.
  unfold remove_at. destruct (subs !! room) as [s|] eqn:Hs; cbn.
  - rewrite lookup_insert_eq. case_bool_decide as E.
    + split.
      * intros r. rewrite at_key_delete, at_key_insert. case_decide; subst; [|done].
        by rewrite (at_key_Some _ _ _ Hs).
      * intros Hne r set. rewrite lookup_delete_Some, lookup_insert_Some. naive_solver.
    + split.
      * intros r. rewrite at_key_insert. case_decide; subst; [|done]. by rewrite (at_key_Some _ _ _ Hs).
      * intros Hne r set. rewrite lookup_insert_Some. naive_solver.
  - rewrite Hs. split; [|done]. intros r. case_decide; subst; [|done].
    rewrite (at_key_None _ _ Hs). set_solver.
Qed.

Lemma remove_at_key k x m j :
  at_key (snd (remove_at k x m)) j = if decide (k = j) then at_key m j ∖ {[x]} else at_key m j.
Proof.
  unfold remove_at. destruct (m !! k) as [s|] eqn:Hs; cbn.
  - rewrite at_key_insert. case_decide; subst; [|done]. by rewrite (at_key_Some _ _ _ Hs).
  - case_decide; subst; [|done]. rewrite (at_key_None _ _ Hs). set_solver.
Qed.

Lemma remove_at_fst k x m : fst (remove_at k x m) = bool_decide (x ∈ at_key m k).
Proof.
  unfold remove_at. destruct (m !! k) as [s|] eqn:Hs; cbn.
  - by rewrite (at_key_Some _ _ _ Hs).
  - rewrite (at_key_None _ _ Hs). by rewrite bool_decide_false by set_solver.
Qed.

Lemma elem_of_removed (X : gset Z) (s sid r room : Z) :
  (s ∈ if decide (room = r) then X ∖ {[sid]} else X) ↔ s ∈ X ∧ ¬ (s = sid ∧ r = room).
Proof. case_decide; subst; rewrite ?elem_of_difference, ?elem_of_singleton; naive_solver. Qed.

Lemma unsubscribe_spec sid room reg :
  wf reg →
  wf (snd (unsubscribe sid room reg))
  ∧ (∀ s r, subscribed (snd (unsubscribe sid room reg)) s r ↔ subscribed reg s r ∧ ¬ (s = sid ∧ r = room))
  ∧ fst (unsubscribe sid room reg) = bool_decide (subscribed reg sid room)
  ∧ sessions (snd (unsubscribe sid room reg)) = sessions reg.
Proof.
  intros Hwf. unfold unsubscribe, subscribed.
  pose proof (remove_at_fst room sid (room_subscriptions reg)) as Hf1.
  pose proof (remove_at_fst sid room (session_rooms reg)) as Hf2.
  pose proof (unsubscribe_subs sid room (room_subscriptions reg)) as [Hk Hne]. cbn zeta in Hk, Hne.
  pose proof (remove_at_key sid room (session_rooms reg)) as Hk2.
  assert (dom (snd (remove_at sid room (session_rooms reg))) = dom (session_rooms reg)) as Hd.
  { unfold remove_at. destruct (session_rooms reg !! sid) eqn:E; [|done]. cbn.
    by apply dom_insert_lookup_L. }
  destruct (remove_at room sid _) as [b1 subs], (remove_at sid room _) as [b2 rooms].
  cbn [fst snd] in *. split_and!; [split; cbn|..]; cbn.
  - rewrite Hd. apply Hwf.
  - intros s r. rewrite Hk, Hk2. pose proof (wf_converse _ Hwf s r). repeat case_decide; set_solver.
  - apply Hne, Hwf.
  - intros s r. rewrite Hk. apply elem_of_removed.
  - rewrite Hf1, Hf2. pose proof (wf_converse _ Hwf sid room).
    repeat case_bool_decide; naive_solver.
  - done.
Qed.

(** ** The abstract registry: sessions and one relation *)

(** The mutating operations as data. *)
Inductive op : Type :=
| Register (sid : Z) (info : SessionInfo)
| Unregister (sid : Z)
| Update (sid : Z) (write : SessionInfo → SessionInfo)
| Subscribe (sid room : Z)
| Unsubscribe (sid room : Z).
Inductive reply : Type :=
| Answer (b : bool)
| Removed (r : option (SessionInfo * gset Z)).

Definition run (o : op) (reg : ConnectionRegistry) : reply * ConnectionRegistry :=
  match o with
  | Register sid info => let '(b, reg) := register_session sid info reg in (Answer b, reg)
  | Unregister sid => let '(r, reg) := unregister_session sid reg in (Removed r, reg)
  | Update sid f => let '(b, reg) := sessions_mut sid f reg in (Answer b, reg)
  | Subscribe sid room => let '(b, reg) := subscribe sid room reg in (Answer b, reg)
  | Unsubscribe sid room => let '(b, reg) := unsubscribe sid room reg in (Answer b, reg)
  end.

(** What each operation means for a set of sessions and a relation between
    sessions and rooms: its reply and the new sessions and relation. *)
Definition spec (o : op) (ss : gmap Z SessionInfo) (R : Z → Z → Prop)
    (rep : reply) (ss' : gmap Z SessionInfo) (R' : Z → Z → Prop) : Prop :=
  match o with
  | Register sid info =>
      rep = Answer (bool_decide (ss !! sid = None))
      ∧ ss' = (if decide (ss !! sid = None) then <[sid := info]> ss else ss)
      ∧ (∀ s r, R' s r ↔ R s r)
  | Unregister sid =>
      ss' = delete sid ss ∧ (∀ s r, R' s r ↔ R s r ∧ s ≠ sid)
      ∧ match ss !! sid with
        | None => rep = Removed None
        | Some info => ∃ rooms, rep = Removed (Some (info, rooms)) ∧ ∀ r, r ∈ rooms ↔ R sid r
        end
  | Update sid f =>
      rep = Answer (bool_decide (is_Some (ss !! sid))) ∧ ss' = alter f sid ss
      ∧ (∀ s r, R' s r ↔ R s r)
  | Subscribe sid room =>
      rep = Answer (bool_decide (is_Some (ss !! sid))) ∧ ss' = ss
      ∧ (∀ s r, R' s r ↔ R s r ∨ (is_Some (ss !! sid) ∧ s = sid ∧ r = room))
  | Unsubscribe sid room =>
      (∃ b, rep = Answer b ∧ (b = true ↔ R sid room)) ∧ ss' = ss
      ∧ (∀ s r, R' s r ↔ R s r ∧ ¬ (s = sid ∧ r = room))
  end.

Lemma subscribed_registered reg s r : wf reg → subscribed reg s r → is_Some (sessions reg !! s).
Proof.
  intros Hwf Hs. apply (wf_converse _ Hwf) in Hs. apply elem_of_dom. rewrite <-(wf_dom _ Hwf).
  unfold at_key in Hs. apply elem_of_dom. destruct (session_rooms reg !! s); [done|set_solver].
Qed.

Lemma run_wf o reg : wf reg → wf (snd (run o reg)).
Proof.
  intros Hwf. destruct o; cbn.
  - pose proof (register_wf sid info reg Hwf). by destruct (register_session _ _ _).
  - pose proof (unregister_wf sid reg Hwf). by destruct (unregister_session _ _).
  - pose proof (sessions_mut_wf sid write reg Hwf). by destruct (sessions_mut _ _ _).
  - pose proof (subscribe_wf sid room reg Hwf). by destruct (subscribe _ _ _).
  - pose proof (unsubscribe_spec sid room reg Hwf) as [? _]. by destruct (unsubscribe _ _ _).
Qed.

Lemma run_spec o reg :
  wf reg →
  spec o (sessions reg) (subscribed reg) (fst (run o reg))
       (sessions (snd (run o reg))) (subscribed (snd (run o reg))).
Proof.
  intros Hwf. destruct o as [sid info|sid|sid f|sid room|sid room]; cbn.
  - unfold register_session. destruct (sessions reg !! sid) eqn:E; cbn; split_and!; done.
  - unfold unregister_session. destruct (sessions reg !! sid) as [info|] eqn:E; cbn; split_and!; try done.
    + intros s r. unfold subscribed; cbn. rewrite remove_all_at.
      pose proof (wf_converse _ Hwf sid r). case_decide; set_solver.
    + eexists. split; [done|]. intros r. symmetry. apply Hwf.
    + by rewrite delete_id.
    + intros s r. split; [|naive_solver]. intros Hs. split; [done|]. intros ->.
      apply (subscribed_registered _ _ _ Hwf) in Hs as [??]. congruence.
  - unfold sessions_mut. destruct (sessions reg !! sid) as [info|] eqn:E; cbn; split_and!; try done.
    + apply map_eq. intros k. rewrite lookup_insert, lookup_alter. case_decide; subst; [|done].
      by rewrite E.
    + symmetry. apply map_eq. intros k. rewrite lookup_alter. case_decide; subst; [|done].
      by rewrite E.
  - unfold subscribe. destruct (sessions reg !! sid) as [info|] eqn:E; cbn; split_and!; try done.
    + intros s r. unfold subscribed; cbn. rewrite at_key_insert. case_decide; subst.
      * rewrite elem_of_union, elem_of_singleton. naive_solver.
      * naive_solver.
    + intros s r. split; [by left|]. intros [?|[[? ?] _]]; [done|congruence].
  - pose proof (unsubscribe_spec sid room reg Hwf) as (_ & H2 & H3 & H4).
    destruct (unsubscribe sid room reg) as [b reg']. cbn in *. split_and!; [|done|done].
    exists b. split; [done|]. rewrite H3. apply bool_decide_eq_true.
Qed.

(** ** Properties *)

(** The two indexes never disagree.  After any sequence of operations from an
    empty registry, a session is in a room's set exactly when the room is in the
    session's set, only registered sessions are subscribed, every registered
    session has its entry, and no empty room is kept. *)
Theorem registry_consistent ops :
  let reg := foldl (λ reg o, snd (run o reg)) new ops in
  wf reg ∧ (∀ s r, s ∈ sessions_in_room r reg ↔ r ∈ rooms_for_session s reg)
  ∧ (∀ s r, is_subscribed s r reg = true → has_session s reg = true).
Proof.
  intros reg. assert (wf reg) as Hwf.
  { unfold reg. generalize wf_new. generalize new. induction ops as [|o ops IH]; intros g Hg; cbn; [done|].
    by apply IH, run_wf. }
  split_and!; [done|..].
  - intros s r. unfold sessions_in_room, rooms_for_session. rewrite !elem_of_elements. apply Hwf.
  - intros s r Hs. apply bool_decide_eq_true, (subscribed_registered _ _ r Hwf).
    unfold is_subscribed in Hs. unfold subscribed, at_key. destruct (room_subscriptions reg !! r); [|done].
    by apply bool_decide_eq_true in Hs.
Qed.

(** C18: the registry implements its abstract specification: over the registered
    sessions and one subscription relation, registering, updating, subscribing,
    unsubscribing and unregistering do exactly what they say, reply what they
    promise, and unregistering removes every subscription of the session and
    returns exactly the rooms it was in. *)
Theorem registry_refines_relation o reg :
  wf reg →
  wf (snd (run o reg))
  ∧ spec o (sessions reg) (subscribed reg) (fst (run o reg))
         (sessions (snd (run o reg))) (subscribed (snd (run o reg))).
Proof. intros Hwf. split; [by apply run_wf|by apply run_spec]. Qed.

Lemma registry_refines_relation_witness :
  let reg := snd (run (Subscribe 1 7) (snd (run (Register 1 SessionInfo.new) new))) in
  wf (snd (run (Unregister 1) reg))
  ∧ fst (run (Unregister 1) reg) = Removed (Some (SessionInfo.new, {[7]})).
Proof.
  intros reg. split; [|vm_compute; reflexivity].
  refine (proj1 (registry_refines_relation (Unregister 1) reg _)).
  apply run_wf, run_wf, wf_new.
Defined.
End ConnectionRegistry.
Abbreviation ConnectionRegistry := ConnectionRegistry.ConnectionRegistry.
