(* ===== verification/Validator.v ===== *)
(** * MLS errors and frame validation

    [lockframe-core/src/mls/error.rs] and [mls/validator.rs]: the checks the
    server makes on a frame against the stored group state. *)

From S2P Require Import Prelude Opcodes Header Frame MlsState Sequencer.

Module MlsError.
(** [enum MlsError]. *)
Inductive MlsError : Type :=
| Serialization (msg : string)
| UnexpectedMessage (msg : string)
| InvalidState (epoch : Z) (operation : string)
| EpochMismatch (expected received : Z)
| MemberNotFound (member_id : Z)
| MemberAlreadyExists (member_id : Z)
| InvalidProposal (reason : string)
| InvalidCommit (reason : string)
| Crypto (msg : string)
| Codec (msg : string)
| Protocol (msg : string)
| NotMember
| Timeout (elapsed : Z)
| GroupNotFound
| ValidationFailed (msg : string).

(** The [Display] text. *)
Definition to_string (e : MlsError) : string :=
  match e with
  | Serialization m => "serialization error: " +:+ m
  | UnexpectedMessage m => "unexpected message type: " +:+ m
  | InvalidState epoch operation =>
      "invalid state: cannot " +:+ operation +:+ " in epoch " +:+ fmt_int epoch
  | EpochMismatch expected received =>
      "epoch mismatch: expected " +:+ fmt_int expected +:+ ", received " +:+ fmt_int received
  | MemberNotFound m => "member not found: " +:+ fmt_int m
  | MemberAlreadyExists m => "member already exists: " +:+ fmt_int m
  | InvalidProposal r => "invalid proposal: " +:+ r
  | InvalidCommit r => "invalid commit: " +:+ r
  | Crypto m => "crypto error: " +:+ m
  | Codec m => "codec error: " +:+ m
  | Protocol m => "protocol violation: " +:+ m
  | NotMember => "not a member of group"
  | Timeout elapsed => "timeout after " +:+ fmt_duration elapsed
  | GroupNotFound => "group not found"
  | ValidationFailed m => "validation failed: " +:+ m
  end.

(** [MlsError::is_transient]. *)
Definition is_transient (e : MlsError) : bool :=
  match e with EpochMismatch _ _ | Timeout _ => true | _ => false end.
End MlsError.
Abbreviation MlsError := MlsError.MlsError.

(** [enum ValidationResult]. *)
Inductive ValidationResult : Type :=
| Accept
| Reject (reason : string).

Module MlsValidator.
Section validator.
Context `{Ed25519}.

(** [MlsValidator::validate_signature].  The 64 signature bytes always have the
    right length, so the conversion to [Signature] cannot fail. *)
Definition validate_signature (frame : Frame) (group_state : MlsGroupState) :
    outcome MlsError ValidationResult :=
  let sender_id := FrameHeader.sender_id (Frame.header frame) in
  match MlsGroupState.member_key sender_id group_state with
  | None =>
      Ok (Reject ("member " +:+ fmt_int sender_id
                  +:+ " has no signature key (group state inconsistency)"))
  | Some verifying_key =>
      let signature := FrameHeader.signature (Frame.header frame) in
      let signed_data := FrameHeader.signing_data (Frame.header frame) in
      if negb (ed_verify verifying_key signed_data signature) then
        Ok (Reject ("signature verification failed for sender " +:+ fmt_int sender_id))
      else Ok Accept
  end.

(** [MlsValidator::validate_frame]. *)
Definition validate_frame (frame : Frame) (current_epoch : Z) (group_state : MlsGroupState) :
    outcome MlsError ValidationResult :=
  let frame_epoch := FrameHeader.epoch (Frame.header frame) in
  if negb (frame_epoch =? current_epoch) then
    Ok (Reject ("epoch mismatch: expected " +:+ fmt_int current_epoch +:+ ", got "
                +:+ fmt_int frame_epoch))
  else
    let sender_id := FrameHeader.sender_id (Frame.header frame) in
    if negb (MlsGroupState.is_member sender_id group_state) then
      Ok (Reject ("sender " +:+ fmt_int sender_id +:+ " not in group"))
    else validate_signature frame group_state.

(** [MlsValidator::validate_frame_no_state]. *)
Definition validate_frame_no_state (frame : Frame) : outcome MlsError ValidationResult :=
  let frame_epoch := FrameHeader.epoch (Frame.header frame) in
  if negb (frame_epoch =? 0) then
    Ok (Reject ("no MLS state for room, expected epoch 0, got " +:+ fmt_int frame_epoch))
  else Ok Accept.

(** ** Lemmas *)

(** The sender's key is on record and the header's signature verifies. *)
Definition authentic (frame : Frame) (st : MlsGroupState) : Prop :=
  ∃ key, MlsGroupState.member_key (FrameHeader.sender_id (Frame.header frame)) st = Some key
    ∧ ed_verify key (FrameHeader.signing_data (Frame.header frame))
        (FrameHeader.signature (Frame.header frame)) = true.

Lemma validate_signature_cases f st :
  validate_signature f st = Ok Accept ∧ authentic f st
  ∨ (∃ why, validate_signature f st = Ok (Reject why)) ∧ ¬ authentic f st.
Proof.
  unfold validate_signature, authentic. destruct (MlsGroupState.member_key _ st) as [key|].
  - destruct (ed_verify key _ _) eqn:E; cbn [negb]; [left; eauto|].
    right. split; [eauto|]. intros (k & [= <-] & Hk). congruence.
  - right. split; [eauto|]. by intros (k & ? & _).
Qed.

Lemma rebuild_header f i :
  FrameHeader.wf (Frame.header f) →
  FrameHeader.payload_size (Frame.header f) = zlen (Frame.payload f) →
  Frame.header (Sequencer.rebuild_frame_with_index f i) = FrameHeader.set_log_index i (Frame.header f).
Proof.
  intros Hwf Hs. destruct f as [h p]; cbn in *.
  pose proof (from_be_bytes_range (FrameHeader.h_payload_size h)) as Hr.
  rewrite (FrameHeader.wf_payload_size _ Hwf) in Hr. change (U8_MOD ^ Z.of_nat 4) with U32_MOD in Hr.
  fold (FrameHeader.payload_size h) in Hr. unfold FrameHeader.set_payload_size, as_u32. cbn -[Z.modulo].
  rewrite Z.mod_small by (rewrite <-Hs; exact Hr). rewrite <-Hs.
  unfold FrameHeader.payload_size. rewrite to_from_be_bytes by apply Hwf.
  by destruct h.
Qed.

Lemma validate_signature_rebuild f i st :
  FrameHeader.wf (Frame.header f) →
  FrameHeader.payload_size (Frame.header f) = zlen (Frame.payload f) →
  validate_signature (Sequencer.rebuild_frame_with_index f i) st = validate_signature f st.
Proof.
  intros Hwf Hs. unfold validate_signature. rewrite rebuild_header by done.
  by rewrite FrameHeader.set_log_index_signing_data.
Qed.

Lemma validate_frame_cases f epoch st :
  (validate_frame f epoch st = Ok Accept
   ↔ FrameHeader.epoch (Frame.header f) = epoch
     ∧ FrameHeader.sender_id (Frame.header f) ∈ MlsGroupState.members st
     ∧ authentic f st)
  ∧ (validate_frame f epoch st = Ok Accept ∨ ∃ why, validate_frame f epoch st = Ok (Reject why)).
Proof.
  unfold validate_frame, MlsGroupState.is_member.
  destruct (FrameHeader.epoch _ =? epoch) eqn:E1; bool_to_prop; cbn [negb]; [|naive_solver].
  case_bool_decide as E2; cbn [negb]; [|naive_solver].
  destruct (validate_signature_cases f st) as [[-> Ha]|[[why ->] Ha]]; naive_solver.
Qed.

(** ** Properties *)

(** The validator is exact.  Against a stored group state a frame is accepted
    exactly when its epoch is the current one, its sender is a member, and the
    sender's recorded key verifies the header's signature; otherwise it is
    rejected with a reason, never with an error. *)
Theorem validate_frame_exact f epoch st :
  (validate_frame f epoch st = Ok Accept
   ↔ FrameHeader.epoch (Frame.header f) = epoch
     ∧ FrameHeader.sender_id (Frame.header f) ∈ MlsGroupState.members st
     ∧ authentic f st)
  ∧ (validate_frame f epoch st = Ok Accept ∨ ∃ why, validate_frame f epoch st = Ok (Reject why)).
Proof. apply validate_frame_cases. Qed.

(** Sequencing does not invalidate a signature.  The server rewrites the log
    index (and the size field) of a structurally valid frame; validating the
    rewritten frame gives the same verdict as validating the frame as sent. *)
Theorem sequencing_preserves_signature f i st :
  FrameHeader.wf (Frame.header f) → Sequencer.validate_frame_structure f = Ok tt →
  validate_signature (Sequencer.rebuild_frame_with_index f i) st = validate_signature f st.
Proof.
  intros Hwf (_ & _ & Hs & _)%Sequencer.validate_Ok. by apply validate_signature_rebuild.
Qed.

End validator.

Lemma sequencing_preserves_signature_witness :
  validate_signature (H := ToyEd25519.ed) (Sequencer.rebuild_frame_with_index Frame.sample 5)
    (MlsGroupState.new 9 0 [] [0] [])
  = validate_signature (H := ToyEd25519.ed) Frame.sample (MlsGroupState.new 9 0 [] [0] []).
Proof.
  apply sequencing_preserves_signature; [apply Frame.sample_wf|vm_compute; reflexivity].
Defined.
End MlsValidator.
