(* ===== verification/MlsGroup.v ===== *)
(** * MLS groups

    [lockframe-core/src/mls/group.rs] and [provider.rs]: a member's view of one
    group.  The MLS protocol itself is the [openmls] crate, a parameter of the
    model (class [OpenMls]); its errors are the texts that the code wraps.

    A clone of the environment inside a provider is a stream of its own.  Key
    generation draws from the operating system; here it draws from the same
    stream. *)

From S2P Require Import Prelude Opcodes Header Frame Connection MlsState Sequencer Validator.

(** A member as [MlsGroup::members] lists it: leaf index, serialized credential
    and signature key. *)
Record Member : Type := { m_index : Z; m_credential : bytes; m_signature_key : bytes }.

(** The body of a deserialized message ([MlsMessageIn::extract]). *)
Inductive MessageBody (Welcome Other : Type) : Type :=
| BodyWelcome (w : Welcome)
| BodyOther (o : Other).
Arguments BodyWelcome {Welcome Other}. Arguments BodyOther {Welcome Other}.

(** [ProcessedMessageContent]; a proposal is kept as its debug text. *)
Inductive ProcessedContent (StagedCommit : Type) : Type :=
| ApplicationMessage (plaintext : bytes)
| ProposalMessage (debug : string)
| ExternalJoinProposalMessage
| StagedCommitMessage (staged : StagedCommit).
Arguments ApplicationMessage {StagedCommit}. Arguments ProposalMessage {StagedCommit}.
Arguments ExternalJoinProposalMessage {StagedCommit}. Arguments StagedCommitMessage {StagedCommit}.

(** The interface of [openmls] that the code uses.  [OState] is the [openmls]
    group together with the provider's storage, which its methods update; the
    provider's environment [T] is threaded beside it. *)
Class OpenMls (T : Type) : Type := {
  OState : Type;
  OProvider : Type;
  KeyPair : Type;
  KeyPackage : Type;
  Message : Type;
  ProtocolMessage : Type;
  WelcomeMessage : Type;
  StagedCommit : Type;
  StagedWelcome : Type;
  provider_default : OProvider;
  keypair_new : T → outcome string KeyPair * T;
  keypair_public : KeyPair → bytes;
  keypair_sign : KeyPair → bytes → outcome string bytes;
  group_new : OProvider → KeyPair → bytes → T → outcome string OState * T;
  group_epoch : OState → Z;
  group_id : OState → bytes;
  own_leaf_index : OState → Z;
  group_members : OState → list Member;
  tree_hash : OState → bytes;
  is_active : OState → bool;
  has_pending : OState → bool;
  group_export_secret : OState → string → bytes → Z → outcome string bytes;
  clear_pending : OState → OState;
  merge_pending : M (OState * T) string unit;
  message_deserialize_exact : bytes → outcome string Message;
  message_deserialize : bytes → outcome string Message;
  message_into_protocol : Message → outcome string ProtocolMessage;
  message_extract : Message → MessageBody WelcomeMessage Message;
  group_process_message :
    ProtocolMessage → M (OState * T) string (bytes * ProcessedContent StagedCommit);
  merge_staged : StagedCommit → M (OState * T) string unit;
  group_create_message : KeyPair → bytes → M (OState * T) string Message;
  message_serialize : Message → outcome string bytes;
  group_add_members : KeyPair → list KeyPackage → M (OState * T) string (Message * Message);
  group_remove_members : KeyPair → list Z → M (OState * T) string Message;
  group_leave : KeyPair → M (OState * T) string Message;
  key_package_deserialize : bytes → outcome string KeyPackage;
  key_package_validate : KeyPackage → outcome string KeyPackage;
  key_package_credential : KeyPackage → bytes;
  key_package_build : OProvider → KeyPair → bytes → T → outcome string (KeyPackage * OProvider) * T;
  key_package_serialize : KeyPackage → outcome string bytes;
  key_package_hash_ref : KeyPackage → outcome string bytes;
  stage_welcome : OProvider → WelcomeMessage → T → outcome string StagedWelcome * T;
  staged_into_group : OProvider → StagedWelcome → T → outcome string OState * T;
}.

(** Epochs and pending commits.  What [openmls] documents: a new group is at epoch 0;
    merging a commit moves to the next epoch, and merging the pending one leaves
    nothing pending; creating a commit makes it pending, and the epoch moves only when
    a commit is merged.  Its documentation is silent on calls that fail: of a merge
    that fails no more is assumed than that the group is at the old epoch or at the
    new one, and the calls that merge nothing are assumed to leave the epoch when
    they fail as they do when they succeed. *)
Class OpenMlsOk (T : Type) `{OpenMls T} : Prop := {
  new_epoch_0 : ∀ pr kp id t g t', group_new pr kp id t = (Ok g, t') → group_epoch g = 0;
  merge_pending_epoch : ∀ g t r g' t', merge_pending (g, t) = (r, (g', t')) →
    match r with
    | Ok _ => group_epoch g' = group_epoch g + 1 ∧ has_pending g' = false
    | _ => group_epoch g' = group_epoch g ∨ group_epoch g' = group_epoch g + 1
    end;
  merge_staged_epoch : ∀ c g t r g' t', merge_staged c (g, t) = (r, (g', t')) →
    match r with
    | Ok _ => group_epoch g' = group_epoch g + 1
    | _ => group_epoch g' = group_epoch g ∨ group_epoch g' = group_epoch g + 1
    end;
  process_epoch : ∀ m g t r g' t', group_process_message m (g, t) = (r, (g', t')) →
    group_epoch g' = group_epoch g;
  create_epoch : ∀ kp p g t r g' t', group_create_message kp p (g, t) = (r, (g', t')) →
    group_epoch g' = group_epoch g;
  add_epoch : ∀ kp ks g t r g' t', group_add_members kp ks (g, t) = (r, (g', t')) →
    group_epoch g' = group_epoch g ∧ (is_ok r = true → has_pending g' = true);
  remove_epoch : ∀ kp is_ g t r g' t', group_remove_members kp is_ (g, t) = (r, (g', t')) →
    group_epoch g' = group_epoch g ∧ (is_ok r = true → has_pending g' = true);
  leave_epoch : ∀ kp g t r g' t', group_leave kp (g, t) = (r, (g', t')) →
    group_epoch g' = group_epoch g;
  clear_epoch : ∀ g, group_epoch (clear_pending g) = group_epoch g
                     ∧ has_pending (clear_pending g) = false;
}.

(** [enum MlsAction]. *)
Inductive MlsAction : Type :=
| SendProposal (frame : Frame)
| SendCommit (frame : Frame)
| SendWelcome (recipient : Z) (frame : Frame)
| SendMessage (frame : Frame)
| DeliverMessage (sender : Z) (plaintext : bytes)
| RemoveGroup (reason : string)
| Log (message : string).

(** [extract_member_id_from_credential]. *)
Definition extract_member_id_from_credential (credential : bytes) : outcome MlsError Z :=
  if zlen credential <? 8 then
    Err (MlsError.Crypto ("Invalid credential: expected 8 bytes for member_id, got "
                          +:+ fmt_int (zlen credential)))
  else Ok (from_le_bytes (take 8 credential)).

Module MlsGroup.
Section group.
Context {T : Type} `{Environment T} `{OpenMls T}.

(** [struct PendingJoinState]: provider (with its environment) and signer. *)
Record PendingJoinState : Type := { pj_provider : OProvider; pj_env : T; pj_signer : KeyPair }.

(** [struct PendingCommit]. *)
Record PendingCommit : Type := { target_epoch : Z; sent_at : Z }.

(** [struct MlsGroup]; [mls_group] includes the provider's storage, [env] is the
    provider's environment. *)
Record MlsGroup : Type := {
  room_id : Z;
  member_id : Z;
  mls_group : OState;
  signer : KeyPair;
  env : T;
  pending_commit : option PendingCommit;
}.

Definition with_mls (s : OState * T) (g : MlsGroup) : MlsGroup :=
  {| room_id := room_id g; member_id := member_id g; mls_group := fst s; signer := signer g;
     env := snd s; pending_commit := pending_commit g |}.
Definition with_pending (p : option PendingCommit) (g : MlsGroup) : MlsGroup :=
  {| room_id := room_id g; member_id := member_id g; mls_group := mls_group g; signer := signer g;
     env := env g; pending_commit := p |}.

Abbreviation GroupM := (M MlsGroup MlsError).

(** A call on the [openmls] group, its error wrapped by the caller. *)
Definition on_mls {A} (wrap : string → MlsError) (op : M (OState * T) string A) : GroupM A :=
  m_zoom (λ g, (mls_group g, env g)) with_mls (m_map_err wrap op).
(** A pure call with a wrapped error. *)
Definition lift_err {A} (wrap : string → MlsError) (r : outcome string A) : GroupM A :=
  m_lift (map_err wrap r).
Definition crypto (what : string) (e : string) : MlsError := MlsError.Crypto (what +:+ ": " +:+ e).
Definition serialization (what : string) (e : string) : MlsError :=
  MlsError.Serialization (what +:+ ": " +:+ e).

(** [MlsGroup::new]. *)
Definition new (env : T) (room_id member_id : Z) :
    outcome MlsError (MlsGroup * list MlsAction) :=
  let '(kp, env) := keypair_new env in
  signer ← map_err (crypto "Failed to generate keypair") kp;
  let '(g, env) := group_new provider_default signer (to_le_bytes 8 member_id) env in
  mls_group ← map_err (crypto "Failed to create MLS group") g;
  Ok ({| room_id := room_id; member_id := member_id; mls_group := mls_group; signer := signer;
         env := env; pending_commit := None |},
      [Log ("Created group " +:+ fmt_int room_id +:+ " at epoch 0 (member_id="
            +:+ fmt_int member_id +:+ ")")]).

(** Accessors. *)
Definition epoch (g : MlsGroup) : Z := group_epoch (mls_group g).
Definition own_leaf (g : MlsGroup) : Z := own_leaf_index (mls_group g).
Definition member_leaf_indices (g : MlsGroup) : list Z := map m_index (group_members (mls_group g)).
Definition has_pending_commit (g : MlsGroup) : bool := bool_decide (is_Some (pending_commit g)).
Definition has_mls_pending_commit (g : MlsGroup) : bool := has_pending (mls_group g).

(** [MlsGroup::sign_frame_header]: the first 64 header bytes are signed; on a
    failure the header is left as it is. *)
Definition sign_frame_header (g : MlsGroup) (header : FrameHeader) : FrameHeader :=
  let signed_data := take 64 (FrameHeader.to_bytes header) in
  match keypair_sign (signer g) signed_data with
  | Ok signature =>
      if zlen signature =? 64 then FrameHeader.set_signature signature header else header
  | _ => header
  end.

(** [MlsGroup::member_id_by_leaf_index]: the first member at the index whose
    credential can be read. *)
Definition member_id_by_leaf_index (leaf_index : Z) (g : MlsGroup) : option Z :=
  (fix find_map (ms : list Member) : option Z :=
    match ms with
    | [] => None
    | m :: ms =>
        match (if m_index m =? leaf_index then
                 match extract_member_id_from_credential (m_credential m) with
                 | Ok id => Some id
                 | _ => None
                 end
               else None) with
        | Some id => Some id
        | None => find_map ms
        end
    end) (group_members (mls_group g)).

(** [MlsGroup::export_secret]. *)
Definition export_secret (label : string) (context : bytes) (length : Z) (g : MlsGroup) :
    outcome MlsError bytes :=
  map_err (crypto "Failed to export secret") (group_export_secret (mls_group g) label context length).

(** [MlsGroup::is_commit_timeout]. *)
Definition is_commit_timeout (now timeout : Z) (g : MlsGroup) : bool :=
  match pending_commit g with
  | Some pending => timeout <=? elapsed_since now (sent_at pending)
  | None => false
  end.

(** [MlsGroup::clear_pending_commit]. *)
Definition clear_pending_commit (g : MlsGroup) : MlsGroup :=
  let g := with_pending None g in with_mls (clear_pending (mls_group g), env g) g.

(** [MlsGroup::merge_pending_commit]. *)
Definition merge_pending_commit : GroupM unit :=
  g ← m_get;
  match pending_commit g with
  | None => m_err (MlsError.Crypto "No pending commit to merge")
  | Some _ =>
      on_mls (crypto "Failed to merge pending commit") merge_pending;;
      m_modify (with_pending None)
  end.

(** [MlsGroup::validate_frame]. *)
Definition validate_frame `{Ed25519} (frame : Frame) (mls_state : option MlsGroupState)
    (g : MlsGroup) : outcome MlsError unit :=
  validation_result ←
    match mls_state with
    | Some state => MlsValidator.validate_frame frame (epoch g) state
    | None => MlsValidator.validate_frame_no_state frame
    end;
  match validation_result with
  | Accept => Ok tt
  | Reject reason => Err (MlsError.ValidationFailed reason)
  end.

(** [MlsGroup::process_message]. *)
Definition process_message (frame : Frame) : GroupM (list MlsAction) :=
  mls_message ← lift_err (serialization "Failed to deserialize MLS message")
                  (message_deserialize_exact (Frame.payload frame));
  protocol_message ← lift_err (serialization "Invalid MLS message type")
                       (message_into_protocol mls_message);
  processed ← on_mls (crypto "Failed to process message") (group_process_message protocol_message);
  sender_id ← m_lift (extract_member_id_from_credential (fst processed));
  g ← m_get;
  match snd processed with
  | ApplicationMessage plaintext => mret [DeliverMessage sender_id plaintext]
  | ProposalMessage debug =>
      mret [Log ("Received proposal in epoch " +:+ fmt_int (epoch g) +:+ ": " +:+ debug)]
  | ExternalJoinProposalMessage =>
      mret [Log ("Received external join proposal in epoch " +:+ fmt_int (epoch g))]
  | StagedCommitMessage staged =>
      on_mls (crypto "Failed to merge commit") (merge_staged staged);;
      g ← m_get;
      mret (Log ("Advanced to epoch " +:+ fmt_int (epoch g))
            :: (if is_active (mls_group g) then []
                else [RemoveGroup "Removed from group by commit"]))
  end.

(** [MlsGroup::create_message].  The frame is built from its fields, not by
    [Frame::new]. *)
Definition create_message (plaintext : bytes) : GroupM (list MlsAction) :=
  g ← m_get;
  msg ← on_mls (crypto "Failed to create message") (group_create_message (signer g) plaintext);
  payload ← lift_err (serialization "Failed to serialize message") (message_serialize msg);
  mret [SendMessage {| Frame.header := FrameHeader.new Opcode.AppMessage; Frame.payload := payload |}].

(** [?] on each element, stopping at the first error. *)
Fixpoint collect {A B} (f : A → outcome MlsError B) (l : list A) : outcome MlsError (list B) :=
  match l with
  | [] => Ok []
  | x :: l => y ← f x; ys ← collect f l; Ok (y :: ys)
  end.

(** The loop over the key packages in [add_members]. *)
Definition welcome_action (g : MlsGroup) (payload : bytes) (kp : KeyPackage) :
    outcome MlsError MlsAction :=
  recipient ← extract_member_id_from_credential (key_package_credential kp);
  let header := FrameHeader.new Opcode.Welcome in
  let header := FrameHeader.set_recipient_id recipient header in
  let header := FrameHeader.set_room_id (room_id g) header in
  let header := FrameHeader.set_sender_id (member_id g) header in
  Ok (SendWelcome recipient {| Frame.header := header; Frame.payload := payload |}).

Definition commit_frame (payload : bytes) : Frame :=
  {| Frame.header := FrameHeader.new Opcode.Commit; Frame.payload := payload |}.

(** [self.provider.now()]. *)
Definition provider_now : GroupM Z := λ g,
  let '(t, e) := Environment.now (env g) in (Ok t, with_mls (mls_group g, e) g).

(** [MlsGroup::add_members]; [self.epoch() + 1] is unchecked. *)
Definition add_members (key_packages : list KeyPackage) : GroupM (list MlsAction) :=
  g ← m_get;
  let target := epoch g ⊕64 1 in
  now ← provider_now;
  out ← on_mls (crypto "Failed to add members") (group_add_members (signer g) key_packages);
  m_modify (with_pending (Some {| target_epoch := target; sent_at := now |}));;
  commit_payload ← lift_err (serialization "Failed to serialize commit") (message_serialize (fst out));
  welcome_payload ← lift_err (serialization "Failed to serialize welcome") (message_serialize (snd out));
  welcomes ← m_lift (collect (welcome_action g welcome_payload) key_packages);
  mret (SendCommit (commit_frame commit_payload)
        :: welcomes ++ [Log ("Adding " +:+ fmt_int (zlen key_packages) +:+ " members to group")]).

(** [MlsGroup::add_members_from_bytes]. *)
Definition add_members_from_bytes (key_packages_bytes : list bytes) : GroupM (list MlsAction) :=
  key_packages ← m_lift (collect (λ bs,
      kp_in ← map_err (serialization "Invalid KeyPackage") (key_package_deserialize bs);
      map_err (crypto "Invalid KeyPackage signature") (key_package_validate kp_in)) key_packages_bytes);
  add_members key_packages.

(** The member id in a credential, when it is long enough. *)
Definition identity_id (identity : bytes) : option Z :=
  if 8 <=? zlen identity then Some (from_le_bytes (take 8 identity)) else None.

(** [MlsGroup::member_ids_to_leaf_indices]. *)
Definition find_leaf (g : MlsGroup) (target_id : Z) : outcome MlsError Z :=
  match list_find (λ m, identity_id (m_credential m) = Some target_id) (group_members (mls_group g)) with
  | Some (_, m) => Ok (m_index m)
  | None => Err (MlsError.Crypto ("Member " +:+ fmt_int target_id +:+ " not found in group"))
  end.
Definition member_ids_to_leaf_indices (member_ids : list Z) (g : MlsGroup) : outcome MlsError (list Z) :=
  collect (find_leaf g) member_ids.

(** [{:?}] of a slice of integers. *)
Definition fmt_list (l : list Z) : string :=
  "[" +:+ match l with
          | [] => ""
          | x :: l => fmt_int x +:+ foldr (λ y acc, ", " +:+ fmt_int y +:+ acc) "" l
          end +:+ "]".

(** [MlsGroup::remove_members]. *)
Definition remove_members (member_ids : list Z) : GroupM (list MlsAction) :=
  g ← m_get;
  if bool_decide (member_ids = []) then
    m_err (MlsError.Crypto "No members specified for removal")
  else if bool_decide (member_id g ∈ member_ids) then
    m_err (MlsError.Crypto "Cannot remove self with remove_members, use leave_group instead")
  else
    let target := epoch g ⊕64 1 in
    now ← provider_now;
    g ← m_get;
    leaf_indices ← m_lift (member_ids_to_leaf_indices member_ids g);
    out ← on_mls (crypto "Failed to remove members") (group_remove_members (signer g) leaf_indices);
    m_modify (with_pending (Some {| target_epoch := target; sent_at := now |}));;
    commit_payload ← lift_err (serialization "Failed to serialize commit") (message_serialize out);
    mret [SendCommit (commit_frame commit_payload);
          Log ("Removing " +:+ fmt_int (zlen member_ids) +:+ " members from group: "
               +:+ fmt_list member_ids)].

(** [MlsGroup::leave_group]. *)
Definition leave_group : GroupM (list MlsAction) :=
  g ← m_get;
  out ← on_mls (crypto "Failed to create leave proposal") (group_leave (signer g));
  payload ← lift_err (serialization "Failed to serialize proposal") (message_serialize out);
  mret [SendProposal {| Frame.header := FrameHeader.new Opcode.Proposal; Frame.payload := payload |};
        Log ("Created leave proposal for group " +:+ fmt_int (room_id g) +:+ " (member_id="
             +:+ fmt_int (member_id g) +:+ ")")].

(** [MlsGroup::export_state]. *)
Definition export_state (g : MlsGroup) : outcome MlsError bytes :=
  map_err (λ e, crypto "Failed to export group state" (MlsError.to_string e))
    (export_secret "group_state" [] 64 g).

(** The loop shared by the two exports: member ids in order, and the keys of the
    members whose key has 32 bytes, later entries winning. *)
Definition export_member (acc : list Z * gmap Z bytes) (m : Member) : list Z * gmap Z bytes :=
  let '(members, keys) := acc in
  match identity_id (m_credential m) with
  | None => (members, keys)
  | Some id =>
      (members ++ [id],
       if zlen (m_signature_key m) =? 32 then <[id := m_signature_key m]> keys else keys)
  end.
Definition exported_members (g : MlsGroup) : list Z * gmap Z bytes :=
  foldl export_member ([], ∅) (group_members (mls_group g)).

(** [MlsGroup::export_validation_state]. *)
Definition export_validation_state (g : MlsGroup) : MlsGroupState :=
  let '(members, keys) := exported_members g in
  let hash := tree_hash (mls_group g) in
  let hash := if zlen hash =? 32 then hash else replicate 32 Byte.x00 in
  MlsGroupState.with_keys (room_id g) (epoch g) hash members keys [].

(** [MlsGroup::export_group_state]. *)
Definition export_group_state (g : MlsGroup) : outcome MlsError MlsGroupState :=
  let '(members, keys) := exported_members g in
  let hash := tree_hash (mls_group g) in
  if negb (zlen hash =? 32) then Err (MlsError.Crypto "tree hash has unexpected length")
  else
    state ← export_state g;
    Ok (MlsGroupState.with_keys (room_id g) (epoch g) hash members keys state).

(** [MlsGroup::generate_key_package]. *)
Definition generate_key_package (env : T) (member_id : Z) :
    outcome MlsError (bytes * bytes * PendingJoinState) :=
  let '(kp, env) := keypair_new env in
  signer ← map_err (crypto "Failed to generate keypair") kp;
  let '(b, env) := key_package_build provider_default signer (to_le_bytes 8 member_id) env in
  bundle ← map_err (crypto "Failed to build KeyPackage") b;
  let '(key_package, provider) := bundle in
  serialized ← map_err (serialization "Failed to serialize KeyPackage") (key_package_serialize key_package);
  hash_ref ← map_err (crypto "Failed to compute KeyPackage hash") (key_package_hash_ref key_package);
  Ok (serialized, hash_ref, {| pj_provider := provider; pj_env := env; pj_signer := signer |}).

(** [MlsGroup::join_from_welcome]. *)
Definition join_from_welcome (room_id member_id : Z) (welcome_bytes : bytes) (pending : PendingJoinState) :
    outcome MlsError (MlsGroup * list MlsAction) :=
  mls_message ← map_err (serialization "Failed to deserialize Welcome") (message_deserialize welcome_bytes);
  match message_extract mls_message with
  | BodyOther _ => Err (MlsError.Serialization "Message is not a Welcome")
  | BodyWelcome welcome =>
      let '(st, env) := stage_welcome (pj_provider pending) welcome (pj_env pending) in
      staged ← map_err (crypto "Failed to stage Welcome") st;
      let '(g, env) := staged_into_group (pj_provider pending) staged env in
      mls_group ← map_err (crypto "Failed to join group from Welcome") g;
      Ok ({| room_id := room_id; member_id := member_id; mls_group := mls_group;
             signer := pj_signer pending; env := env; pending_commit := None |},
          [Log ("Joined group " +:+ fmt_int room_id +:+ " at epoch "
                +:+ fmt_int (group_epoch mls_group) +:+ " via Welcome (member_id="
                +:+ fmt_int member_id +:+ ")")])
  end.

(** ** Lemmas and properties *)

(** *** Exported members *)
Lemma exported_members_go ms acc_m acc_k :
  let '(members, keys) := foldl export_member (acc_m, acc_k) ms in
  members = acc_m ++ omap (λ m, identity_id (m_credential m)) ms
  ∧ ∀ id k, keys !! id = Some k → acc_k !! id = Some k
    ∨ ∃ m, m ∈ ms ∧ identity_id (m_credential m) = Some id ∧ m_signature_key m = k ∧ zlen k = 32.
Proof.
  revert acc_m acc_k. induction ms as [|m ms IH]; intros acc_m acc_k; cbn [foldl].
  { cbn. rewrite app_nil_r. auto. }
  cbn [omap list_omap export_member]. destruct (identity_id (m_credential m)) as [id|] eqn:Hid.
  - specialize (IH (acc_m ++ [id])
      (if zlen (m_signature_key m) =? 32 then <[id := m_signature_key m]> acc_k else acc_k)).
    destruct (foldl _ _ ms) as [members keys]. destruct IH as [-> IH].
    split; [by rewrite <-app_assoc|]. intros id' k Hk.
    destruct (IH _ _ Hk) as [Hk'|(m' & ? & ?)]; [|right; exists m'; set_solver].
    destruct (zlen (m_signature_key m) =? 32) eqn:E; [|by left]. bool_to_prop.
    apply lookup_insert_Some in Hk' as [[<- <-]|[_ ?]]; [right; exists m; set_solver|by left].
  - specialize (IH acc_m acc_k). destruct (foldl _ _ ms) as [members keys]. destruct IH as [-> IH].
    split; [done|]. intros id' k Hk. destruct (IH _ _ Hk) as [?|(m' & ? & ?)]; [by left|].
    right; exists m'; set_solver.
Qed.

Lemma exported_members_spec g :
  let '(members, keys) := exported_members g in
  members = omap (λ m, identity_id (m_credential m)) (group_members (mls_group g))
  ∧ ∀ id k, keys !! id = Some k →
    ∃ m, m ∈ group_members (mls_group g) ∧ identity_id (m_credential m) = Some id
         ∧ m_signature_key m = k ∧ zlen k = 32.
Proof.
  unfold exported_members. pose proof (exported_members_go (group_members (mls_group g)) [] ∅) as Hg.
  destruct (foldl export_member _ _) as [members keys]. destruct Hg as [-> Hg]. split; [done|].
  intros id k Hk. by destruct (Hg _ _ Hk) as [?|?].
Qed.

(** The exported validation state says who is in the group.  Its epoch and
    room are the group's, its members are exactly the ids in the members'
    credentials, in order, and every key it records is the 32-byte signature key
    of a current member with that id. *)
Theorem validation_state_sound g :
  let st := export_validation_state g in
  MlsGroupState.epoch st = epoch g ∧ MlsGroupState.room_id st = room_id g
  ∧ zlen (MlsGroupState.tree_hash st) = 32
  ∧ (∀ id, MlsGroupState.is_member id st = true
       ↔ ∃ m, m ∈ group_members (mls_group g) ∧ identity_id (m_credential m) = Some id)
  ∧ (∀ id k, MlsGroupState.member_keys st !! id = Some k →
       MlsGroupState.is_member id st = true
       ∧ ∃ m, m ∈ group_members (mls_group g) ∧ identity_id (m_credential m) = Some id
              ∧ m_signature_key m = k ∧ zlen k = 32).
Proof.
  unfold export_validation_state, MlsGroupState.is_member.
  pose proof (exported_members_spec g) as Hs. destruct (exported_members g) as [members keys].
  destruct Hs as [-> Hk]. cbn.
  assert (∀ id, bool_decide (id ∈ omap (λ m, identity_id (m_credential m)) (group_members (mls_group g))) = true
       ↔ ∃ m, m ∈ group_members (mls_group g) ∧ identity_id (m_credential m) = Some id) as Hm.
  { intros id. rewrite bool_decide_eq_true, list_elem_of_omap. done. }
  split_and!; [done|done| |done|].
  - destruct (zlen (tree_hash (mls_group g)) =? 32) eqn:E; [by bool_to_prop|done].
  - intros id k Hid. destruct (Hk _ _ Hid) as (m & Hin & Hidm & Hkey). rewrite Hm. naive_solver.
Qed.

(** *** Signatures *)
Section signing.
Context `{Ed25519}.

(** The key by which a member id is known in a group: the last one of 32 bytes among
    the leaves whose credential has that id. *)
Definition key_entry (id : Z) (m : Member) : option bytes :=
  if bool_decide (identity_id (m_credential m) = Some id) && (zlen (m_signature_key m) =? 32) then Some (m_signature_key m) else None.
Definition roster_key (id : Z) (g : MlsGroup) : option bytes := list.last (omap (key_entry id) (group_members (mls_group g))).

Lemma export_keys ms id : snd (foldl export_member ([], ∅) ms) !! id = list.last (omap (key_entry id) ms).
Proof.
  induction ms as [|m ms IH] using rev_ind; [apply lookup_empty|]. rewrite foldl_app, omap_app. cbn [foldl].
  destruct (foldl export_member ([], ∅) ms) as [members keys]. cbn in IH. cbn [export_member omap list_omap]. unfold key_entry at 2.
  destruct (identity_id (m_credential m)) as [i|]; [|by rewrite bool_decide_false, app_nil_r].
  destruct (zlen (m_signature_key m) =? 32); [|by rewrite andb_false_r, app_nil_r]. rewrite andb_true_r. cbn [snd].
  destruct (decide (i = id)) as [->|].
  - by rewrite bool_decide_true, last_snoc, lookup_insert_eq.
  - rewrite bool_decide_false by congruence. by rewrite app_nil_r, lookup_insert_ne.
Qed.
Lemma roster_member id g key : roster_key id g = Some key →
  id ∈ omap (λ m, identity_id (m_credential m)) (group_members (mls_group g)).
Proof.
  intros (m & Hm & Hk)%last_Some_elem_of%list_elem_of_omap. apply list_elem_of_omap. exists m. split; [done|].
  unfold key_entry in Hk. by case_bool_decide.
Qed.

(** What the group says of a frame: it is of the current epoch, and its signature
    verifies under the key by which its sender is known. *)
Definition vouched (frame : Frame) (g : MlsGroup) : Prop :=
  let h := Frame.header frame in
  FrameHeader.epoch h = epoch g
  ∧ ∃ key, roster_key (FrameHeader.sender_id h) g = Some key ∧ ed_key_valid key = true
      ∧ ed_verify key (FrameHeader.signing_data h) (FrameHeader.signature h) = true.

(** C31: a group's exported state stands for the group.  A frame validated against
    either export of a group is accepted exactly if the group vouches for it: it has
    the group's epoch, a leaf of the group carries its sender's id with a key of 32
    bytes that is a point of the curve, and its signature verifies under that key,
    the last one if there are several; every other frame is refused as invalid,
    without any other error. *)
Theorem exported_state_vouches frame g st :
  st = export_validation_state g ∨ export_group_state g = Ok st →
  (validate_frame frame (Some st) g = Ok tt ∧ vouched frame g)
  ∨ (∃ why, validate_frame frame (Some st) g = Err (MlsError.ValidationFailed why)) ∧ ¬ vouched frame g.
Proof.
  intros Hst. assert (MlsGroupState.members st = omap (λ m, identity_id (m_credential m)) (group_members (mls_group g))
    ∧ ∀ id, MlsGroupState.member_keys st !! id = roster_key id g) as [Hm Hk].
  { unfold export_validation_state, export_group_state in Hst. pose proof (exported_members_spec g) as Hs.
    pose proof (export_keys (group_members (mls_group g))) as Hx. fold (exported_members g) in Hx.
    destruct (exported_members g) as [members keys]. destruct Hs as [-> _]. munfold.
    destruct Hst as [->|Hst]; [by split|]. destruct (_ =? 32); [|done]. destruct (export_state g); [|done..]. by injection Hst as <-. }
  unfold validate_frame, MlsValidator.validate_frame, vouched, MlsGroupState.is_member. munfold. rewrite Hm.
  set (h := Frame.header frame). destruct (_ =? epoch g) eqn:Ee; bool_to_prop; cbn [negb].
  2: { right. split; [by eexists|]. by intros [? _]. }
  case_bool_decide as Hin; cbn [negb].
  2: { right. split; [by eexists|]. intros (_ & key & Hr & _). by eapply Hin, roster_member. }
  unfold MlsValidator.validate_signature, MlsGroupState.member_key. fold h. rewrite Hk.
  destruct (roster_key (FrameHeader.sender_id h) g) as [key|]; cbn; [|right; split; [by eexists|naive_solver]].
  destruct (ed_key_valid key) eqn:Ev; cbn; [|right; split; [by eexists|naive_solver congruence]].
  destruct (ed_verify key _ _) eqn:Es; cbn; [left; split; [done|]; split; [done|]; by exists key|].
  right. split; [by eexists|]. intros (_ & k & [= <-] & _ & Hv). congruence.
Qed.

Lemma sign_frame_header_Ok g h sig :
  keypair_sign (signer g) (take 64 (FrameHeader.to_bytes h)) = Ok sig → length sig = 64%nat →
  sign_frame_header g h = FrameHeader.set_signature sig h.
Proof.
  intros Hs Hl. unfold sign_frame_header. rewrite Hs.
  by rewrite (proj2 (Z.eqb_eq _ _)) by (unfold zlen; lia).
Qed.

(** Frames signed by [sign_frame_header] do not validate.  It signs the first
    64 header bytes, but the validator checks the signature against the 56 bytes
    of [signing_data], which leave out [context_id].  So, for a signature that
    verifies for no message other than the one it was made for, the frame is
    rejected under the sender's own registered key. *)
Theorem group_signature_rejected g h payload st key sig :
  FrameHeader.wf h →
  keypair_sign (signer g) (take 64 (FrameHeader.to_bytes h)) = Ok sig → length sig = 64%nat →
  MlsGroupState.member_key (FrameHeader.sender_id h) st = Some key →
  (∀ msg, ed_verify key msg sig = true → msg = take 64 (FrameHeader.to_bytes h)) →
  ∃ why, MlsValidator.validate_signature (Frame.new (sign_frame_header g h) payload) st
         = Ok (Reject why).
Proof.
  intros Hwf Hs Hl Hk Honly. rewrite (sign_frame_header_Ok g h sig) by done.
  set (f := Frame.new _ _).
  destruct (MlsValidator.validate_signature_cases f st) as [[_ (k & Hk' & Hv)]|[? _]]; [|done].
  assert (FrameHeader.sender_id (Frame.header f) = FrameHeader.sender_id h) as Hsid by done.
  rewrite Hsid, Hk in Hk'. injection Hk' as <-.
  assert (FrameHeader.signature (Frame.header f) = sig) as Hsig by done. rewrite Hsig in Hv.
  apply Honly, (f_equal length) in Hv. rewrite length_take, FrameHeader.length_to_bytes in Hv by done.
  rewrite FrameHeader.length_signing_data in Hv; [lia|].
  apply FrameHeader.set_payload_size_wf, FrameHeader.set_signature_wf; done.
Qed.
End signing.

(** *** Frames built from their fields *)

(** The frames that the actions send to the sequencer for ordering. *)
Definition sends (acts : list MlsAction) (f : Frame) : Prop :=
  SendCommit f ∈ acts ∨ SendProposal f ∈ acts ∨ SendMessage f ∈ acts.

(** A frame whose header was only given its opcode. *)
Definition bare (f : Frame) : Prop := ∃ o, Frame.header f = FrameHeader.new o.

Lemma bare_frame_rejected f :
  bare f → ∃ why, Sequencer.validate_frame_structure f = Err (SequencerError.Validation why).
Proof.
  intros [o Ho]. unfold Sequencer.validate_frame_structure. rewrite Ho.
  destruct (FrameHeader.new_valid o) as (-> & -> & _). rewrite !Z.eqb_refl. cbn [negb].
  case_match; cbn [negb]; eauto.
Qed.

(** Solves [bare f] from the membership of [f] in a literal list of actions. *)
Ltac find_bare Hs :=
  unfold sends in Hs; set_unfold; destruct_or!; simplify_eq/=; by eexists.

Lemma sends_cons a acts f :
  sends (a :: acts) f ↔ sends [a] f ∨ sends acts f.
Proof. unfold sends. set_solver. Qed.

Lemma welcomes_send_nothing g payload kps ws f :
  collect (welcome_action g payload) kps = Ok ws → ¬ sends ws f.
Proof.
  revert ws. induction kps as [|kp kps IH]; intros ws Hc; cbn in Hc; munfold.
  { simplify_eq. unfold sends. set_solver. }
  destruct (welcome_action g payload kp) as [w|e|] eqn:Hw; [|done..].
  destruct (collect _ kps) as [ws'|e|]; [|done..]. simplify_eq.
  unfold welcome_action in Hw. munfold.
  destruct (extract_member_id_from_credential _); [|done..]. simplify_eq.
  rewrite sends_cons. intros [Hs|Hs]; [unfold sends in Hs; set_solver|by eapply IH].
Qed.

(** Nothing a group creates can be sequenced as it is.  Every commit,
    proposal and message frame returned by the group operations carries no room
    id and a size field of zero, so the server's structural check refuses it,
    whatever its payload. *)
Theorem group_frames_unsequenceable g g' acts f plaintext kps ids :
  (create_message plaintext g = (Ok acts, g') ∨ add_members_from_bytes kps g = (Ok acts, g')
   ∨ remove_members ids g = (Ok acts, g') ∨ leave_group g = (Ok acts, g')) →
  sends acts f →
  ∃ why, Sequencer.validate_frame_structure f = Err (SequencerError.Validation why).
Proof.
  intros Hop Hs. apply bare_frame_rejected. destruct Hop as [Hop|[Hop|[Hop|Hop]]].
  - unfold create_message, lift_err in Hop. mcases. find_bare Hs.
  - unfold add_members_from_bytes, add_members, lift_err in Hop. munfold.
    destruct (collect _ kps) as [ks|e|]; [|done..].
    repeat (case_match; simplify_eq/=). apply sends_cons in Hs as [Hs|Hs]; [find_bare Hs|].
    exfalso. match goal with Hw : collect (welcome_action _ _) _ = Ok _ |- _ =>
      apply (welcomes_send_nothing _ _ _ _ f Hw) end.
    unfold sends in *. set_solver.
  - unfold remove_members, lift_err in Hop. mcases. find_bare Hs.
  - unfold leave_group, lift_err in Hop. mcases. find_bare Hs.
Qed.

(** *** Epochs *)

(** One operation on a group, whatever it returns. *)
Inductive step : MlsGroup → MlsGroup → Prop :=
| step_clear g : step g (clear_pending_commit g)
| step_merge g : step g (snd (merge_pending_commit g))
| step_process f g : step g (snd (process_message f g))
| step_create p g : step g (snd (create_message p g))
| step_add kps g : step g (snd (add_members_from_bytes kps g))
| step_remove ids g : step g (snd (remove_members ids g))
| step_leave g : step g (snd (leave_group g)).

(** The identity fields of a group. *)
Definition ident (g : MlsGroup) : Z * Z * KeyPair := (room_id g, member_id g, signer g).

(** A change that keeps identity and epoch. *)
Definition quiet (g g' : MlsGroup) : Prop := ident g' = ident g ∧ epoch g' = epoch g.
(** A change that keeps identity and moves the epoch by at most one. *)
Definition advances (g g' : MlsGroup) : Prop :=
  ident g' = ident g ∧ epoch g ≤ epoch g' ≤ epoch g + 1.

Lemma quiet_advances g g' : quiet g g' → advances g g'.
Proof. intros [? He]. split; [done|lia]. Qed.
Lemma advances_quiet_l g g' g'' : quiet g g' → advances g' g'' → advances g g''.
Proof. intros [Hi He] [Hi' He']. split; [congruence|lia]. Qed.

Section epochs.
Context `{!OpenMlsOk T}.

Lemma provider_now_quiet g : quiet g (snd (provider_now g)) ∧ ∃ t, fst (provider_now g) = Ok t.
Proof. unfold provider_now. destruct (Environment.now (env g)). cbn. split; [done|eauto]. Qed.

Lemma on_mls_cases {A} wrap (op : M (OState * T) string A) g :
  let '(r, (o, t)) := op (mls_group g, env g) in
  on_mls wrap op g = (map_err wrap r, with_mls (o, t) g).
Proof. unfold on_mls, m_zoom, m_map_err. destruct (op _) as [r [o t]]. done. Qed.

(** Follows the calls of an operation, using a law at each call on [openmls]. *)
Ltac call law Hl :=
  match goal with
  | |- context [on_mls ?w ?op ?g] =>
      let Hc := fresh in
      pose proof (on_mls_cases w op g) as Hc;
      destruct (op (mls_group g, env g)) as [? [? ?]] eqn:Hl; rewrite Hc; clear Hc; apply law in Hl
  end.

Lemma clear_quiet g : quiet g (clear_pending_commit g).
Proof. split; [done|]. unfold epoch. cbn. apply clear_epoch. Qed.

Lemma merge_advances g : advances g (snd (merge_pending_commit g)).
Proof.
  unfold merge_pending_commit. munfold. destruct (pending_commit g); [|split; [done|cbn; lia]].
  call merge_pending_epoch Hl. unfold advances, epoch. cbn.
  destruct o; cbn; (split; [done|lia]).
Qed.

Lemma process_advances f g : advances g (snd (process_message f g)).
Proof.
  unfold process_message, lift_err. munfold.
  destruct (message_deserialize_exact _) as [m|e|]; [|split; [done|cbn; lia]..].
  destruct (message_into_protocol m) as [pm|e|]; [|split; [done|cbn; lia]..].
  call process_epoch Hl. set (g1 := with_mls (o0, t) g).
  assert (quiet g g1) as Hq by done. destruct o as [[cred c]|e|]; [|by apply quiet_advances..].
  cbn [map_err fst snd].
  destruct (extract_member_id_from_credential cred) as [id|e|]; [|by apply quiet_advances..].
  destruct c as [p|d| |c]; [by apply quiet_advances..|].
  eapply advances_quiet_l; [exact Hq|]. clear Hl. call merge_staged_epoch Hl. unfold advances, epoch. cbn in *.
  destruct o; cbn; (split; [done|lia]).
Qed.

Lemma create_quiet p g : quiet g (snd (create_message p g)).
Proof.
  unfold create_message, lift_err. munfold. call create_epoch Hl.
  unfold quiet, epoch. destruct o as [m|e|]; cbn; [destruct (message_serialize m)|..]; done.
Qed.

Lemma add_quiet kps g : quiet g (snd (add_members kps g)).
Proof.
  unfold add_members, lift_err. munfold. destruct (provider_now_quiet g) as [Hn [now Hnow]].
  destruct (provider_now g) as [r g1]. cbn in Hnow, Hn. subst r. call add_epoch Hl.
  destruct Hl as [Hl _]. unfold quiet, ident, epoch in *. destruct Hn as [Hn1 Hn2].
  destruct o as [[c w]|e|]; cbn; [|split; congruence..].
  repeat (case_match; simplify_eq/=); split; congruence.
Qed.

Lemma add_bytes_quiet kps g : quiet g (snd (add_members_from_bytes kps g)).
Proof.
  unfold add_members_from_bytes. munfold. destruct (collect _ kps); [apply add_quiet|done..].
Qed.

Lemma remove_quiet ids g : quiet g (snd (remove_members ids g)).
Proof.
  unfold remove_members, lift_err. munfold. case_bool_decide; [done|]. case_bool_decide; [done|].
  destruct (provider_now_quiet g) as [Hn [now Hnow]].
  destruct (provider_now g) as [r g1]. cbn in Hnow, Hn. subst r. cbn.
  destruct (member_ids_to_leaf_indices ids g1) as [leaves|e|]; [|done..]. call remove_epoch Hl.
  destruct Hl as [Hl _]. unfold quiet, ident, epoch in *. destruct Hn as [Hn1 Hn2].
  destruct o as [c|e|]; cbn; [|split; congruence..].
  repeat (case_match; simplify_eq/=); split; congruence.
Qed.

Lemma leave_quiet g : quiet g (snd (leave_group g)).
Proof.
  unfold leave_group, lift_err. munfold. call leave_epoch Hl.
  unfold quiet, epoch. destruct o as [m|e|]; cbn; [destruct (message_serialize m)|..]; done.
Qed.

Lemma step_advances g g' : step g g' → advances g g'.
Proof.
  destruct 1; auto using merge_advances, process_advances, quiet_advances, clear_quiet,
    create_quiet, add_bytes_quiet, remove_quiet, leave_quiet.
Qed.

End epochs.
(** *** Absence of panics *)

(** [openmls] reports malformed and refused messages as errors. *)
Class ProcessTotal : Prop := {
  deserialize_exact_total : ∀ p, message_deserialize_exact p ≠ Panic;
  into_protocol_total : ∀ m, message_into_protocol m ≠ Panic;
  process_total : ∀ m s, fst (group_process_message m s) ≠ Panic;
  merge_total : ∀ m s, fst (merge_staged m s) ≠ Panic;
  export_total : ∀ g l x n, group_export_secret g l x n ≠ Panic;
}.

Lemma on_mls_total {A} wrap (op : M (OState * T) string A) g :
  (∀ s, fst (op s) ≠ Panic) → fst (on_mls wrap op g) ≠ Panic.
Proof.
  intros Ho. unfold on_mls, m_zoom, m_map_err.
  specialize (Ho (mls_group g, env g)). destruct (op _) as [r s]. cbn in *. by apply map_err_total.
Qed.

Section total.
Context `{!ProcessTotal}.
Lemma process_message_total frame g : fst (process_message frame g) ≠ Panic.
Proof.
  unfold process_message, lift_err. munfold.
  pose proof (deserialize_exact_total (Frame.payload frame)).
  destruct (message_deserialize_exact _) as [m|e|]; [|done..].
  pose proof (into_protocol_total m). destruct (message_into_protocol m) as [pm|e|]; [|done..].
  pose proof (on_mls_total (crypto "Failed to process message") _ g (process_total pm)) as Hp.
  destruct (on_mls _ _ g) as [[[cred x]|e|] g1]; [|done..]. cbn [fst snd].
  unfold extract_member_id_from_credential. destruct (zlen cred <? 8); [done|]. destruct x as [| | |staged]; [done..|].
  pose proof (on_mls_total (crypto "Failed to merge commit") _ g1 (merge_total staged)) as Hm.
  by destruct (on_mls _ _ g1) as [[|e|] g2].
Qed.
Lemma export_state_total g : export_state g ≠ Panic.
Proof. apply map_err_total. unfold export_secret. apply map_err_total, export_total. Qed.
Lemma export_group_state_total g : export_group_state g ≠ Panic.
Proof.
  unfold export_group_state. destruct (exported_members g). pose proof (export_state_total g) as He. munfold.
  case_match; [done|]. by destruct (export_state g).
Qed.
End total.
End group.
End MlsGroup.
Abbreviation MlsGroup := MlsGroup.MlsGroup.

(** ** A concrete protocol for the witnesses

    A group is an epoch, its members and whether a commit is pending; a message
    is its bytes, a proposal if the first byte is 0xff and a commit otherwise; a
    signature is the signed message. *)
Module ToyMls.
Record state : Type := { t_epoch : Z; t_members : list Member; t_pending : bool }.
Definition member_of (credential : bytes) : Member :=
  {| m_index := 0; m_credential := credential; m_signature_key := replicate 32 Byte.x01 |}.
Definition bump (s : state) : state :=
  {| t_epoch := t_epoch s + 1; t_members := t_members s; t_pending := false |}.
Definition set_pending (b : bool) (s : state) : state :=
  {| t_epoch := t_epoch s; t_members := t_members s; t_pending := b |}.

Definition ops (T : Type) : OpenMls T := {|
  OState := state; OProvider := unit; KeyPair := bytes; KeyPackage := bytes; Message := bytes;
  ProtocolMessage := bytes; WelcomeMessage := bytes; StagedCommit := unit; StagedWelcome := unit;
  provider_default := tt;
  keypair_new t := (Ok [], t);
  keypair_public kp := kp;
  keypair_sign kp m := Ok m;
  group_new _ _ cred t := (Ok {| t_epoch := 0; t_members := [member_of cred]; t_pending := false |}, t);
  group_epoch := t_epoch;
  group_id _ := [];
  own_leaf_index _ := 0;
  group_members := t_members;
  tree_hash _ := replicate 32 Byte.x00;
  is_active _ := true;
  has_pending := t_pending;
  group_export_secret _ _ _ n := Ok (replicate (Z.to_nat n) Byte.x07);
  clear_pending := set_pending false;
  merge_pending '(s, t) := (Ok tt, (bump s, t));
  message_deserialize_exact := Ok;
  message_deserialize := Ok;
  message_into_protocol := Ok;
  message_extract m := BodyWelcome m;
  group_process_message m '(s, t) :=
    (Ok (m, if bool_decide (head m = Some Byte.xff) then ProposalMessage "proposal" else StagedCommitMessage tt),
     (s, t));
  merge_staged _ '(s, t) := (Ok tt, (bump s, t));
  group_create_message _ p '(s, t) := (Ok p, (s, t));
  message_serialize := Ok;
  group_add_members _ _ '(s, t) := (Ok ([Byte.x01], [Byte.x02]), (set_pending true s, t));
  group_remove_members _ _ '(s, t) := (Ok [Byte.x01], (set_pending true s, t));
  group_leave _ '(s, t) := (Ok [Byte.x03], (s, t));
  key_package_deserialize := Ok;
  key_package_validate := Ok;
  key_package_credential kp := kp;
  key_package_build _ _ cred t := (Ok (cred, tt), t);
  key_package_serialize := Ok;
  key_package_hash_ref := Ok;
  stage_welcome _ _ t := (Ok tt, t);
  staged_into_group _ _ t := (Ok {| t_epoch := 1; t_members := []; t_pending := false |}, t);
|}.

Lemma ops_ok T : @OpenMlsOk T (ops T).
Proof. split; cbn; intros; simplify_eq/=; auto. Qed.
Lemma process_total T : @MlsGroup.ProcessTotal T (ops T).
Proof. split; try by intros. all: by intros m [s t]. Qed.

(** A group of the concrete protocol. *)
Definition group (room member : Z) : @MlsGroup ToyEnv.T (ops _) :=
  {| MlsGroup.room_id := room; MlsGroup.member_id := member;
     MlsGroup.mls_group := ({| t_epoch := 0; t_members := [member_of (to_le_bytes 8 member)];
                               t_pending := false |} : @OState _ (ops ToyEnv.T));
     MlsGroup.signer := ([] : @KeyPair _ (ops ToyEnv.T)); MlsGroup.env := (0, 0);
     MlsGroup.pending_commit := None |}.

(** The signature scheme that goes with it. *)
Definition ed : Ed25519 := {|
  ed_key_valid _ := true;
  ed_verify _ m s := bool_decide (m = s);
  ed_sign _ m := m;
  ed_public k := k;
|}.
End ToyMls.

Section mls_witnesses.
#[local] Existing Instances ToyMls.ops.

Lemma group_signature_rejected_witness :
  let g := ToyMls.group 9 5 in
  let h := FrameHeader.set_sender_id 5 (FrameHeader.new Opcode.AppMessage) in
  ∃ why, MlsValidator.validate_signature (H := ToyMls.ed)
    (Frame.new (MlsGroup.sign_frame_header g h) [Byte.x00])
    (MlsGroup.export_validation_state g) = Ok (Reject why).
Proof.
  intros g h.
  apply (@MlsGroup.group_signature_rejected ToyEnv.T (ToyMls.ops _) ToyMls.ed g h [Byte.x00]
    (MlsGroup.export_validation_state g) (replicate 32 Byte.x01) (take 64 (FrameHeader.to_bytes h))).
  - apply FrameHeader.set_sender_id_wf, FrameHeader.new_wf.
  - reflexivity.
  - vm_compute. reflexivity.
  - vm_compute. reflexivity.
  - intros msg Hm. cbn in Hm. by apply bool_decide_eq_true in Hm.
Defined.

Lemma group_frames_unsequenceable_witness :
  ∃ why, Sequencer.validate_frame_structure
    {| Frame.header := FrameHeader.new Opcode.Proposal; Frame.payload := [Byte.x03] |}
  = Err (SequencerError.Validation why).
Proof.
  pose (g := ToyMls.group 9 5).
  apply (@MlsGroup.group_frames_unsequenceable ToyEnv.T _ (ToyMls.ops _) g
    (snd (MlsGroup.leave_group g))
    [SendProposal {| Frame.header := FrameHeader.new Opcode.Proposal; Frame.payload := [Byte.x03] |};
     Log "Created leave proposal for group 9 (member_id=5)"] _ [] [] []).
  - right; right; right. vm_compute. reflexivity.
  - right; left. apply list_elem_of_here.
Defined.
End mls_witnesses.

Section roster_witness.
#[local] Existing Instances ToyMls.ops ToyEd25519.ed.
(** A message signed by member 5, in a group where the later of two leaves with its
    id counts: accepted under that key and refused under the other. *)
Definition two_leaves (k1 k2 : bytes) : MlsGroup (T := ToyEnv.T) :=
  let leaf k := {| m_index := 0; m_credential := to_le_bytes 8 5; m_signature_key := k |} in
  {| MlsGroup.room_id := 9; MlsGroup.member_id := 5;
     MlsGroup.mls_group := ({| ToyMls.t_epoch := 0; ToyMls.t_members := [leaf k1; leaf k2]; ToyMls.t_pending := false |}
                            : @OState _ (ToyMls.ops ToyEnv.T));
     MlsGroup.signer := ([] : @KeyPair _ (ToyMls.ops ToyEnv.T)); MlsGroup.env := (0, 0); MlsGroup.pending_commit := None |}.
Definition signed_by (k : bytes) : Frame :=
  let h := FrameHeader.set_sender_id 5 (FrameHeader.new Opcode.AppMessage) in
  Frame.new (FrameHeader.set_signature (ed_sign k (FrameHeader.signing_data h)) h) [].
Lemma exported_state_vouches_witness :
  let k1 := replicate 32 Byte.x01 in let k2 := replicate 32 Byte.x02 in let g := two_leaves k1 k2 in
  let st := MlsGroup.export_validation_state g in
  MlsGroup.validate_frame (signed_by k2) (Some st) g = Ok tt
  ∧ ∃ why, MlsGroup.validate_frame (signed_by k1) (Some st) g = Err (MlsError.ValidationFailed why).
Proof.
  intros k1 k2 g st. split.
  - destruct (MlsGroup.exported_state_vouches (signed_by k2) g st (or_introl eq_refl)) as [[E _]|[_ Hn]]; [exact E|].
    exfalso. apply Hn. split; [by vm_compute|]. exists k2. split; [by vm_compute|]. split; [done|by vm_compute].
  - destruct (MlsGroup.exported_state_vouches (signed_by k1) g st (or_introl eq_refl)) as [[_ Hv]|[Hr _]]; [|exact Hr].
    exfalso. destruct Hv as (_ & key & Hk & _ & Hv). vm_compute in Hk. injection Hk as <-. by vm_compute in Hv.
Defined.
End roster_witness.
