(* ===== verification/MiniMls.v ===== *)
(** * A small group protocol

    A concrete instance of the MLS interface of [MlsGroup.v] that carries out whole
    conversations: it has the roster, the epochs, the pending commits and the
    welcomes of MLS, with a byte encoding of its messages, and none of the
    cryptography.  Tests and witnesses that need more than the trivial [ToyMls] run
    on it. *)

From Stdlib Require Import ZArith Lia.
From S2P Require Import Prelude Payload MlsGroup.

Module MiniMls.
(** The members as leaf index and credential. *)
Abbreviation roster := (list (Z * bytes)).
Record group : Type := { g_epoch : Z; g_roster : roster; g_own : Z; g_pending : option roster }.

(** Messages: application data, commits and proposals with epoch and sender, and
    welcomes. *)
Abbreviation handshake := ((Z * Z) * (bytes + (roster + unit)))%type.
Abbreviation message := (handshake + (Z * roster))%type.
Definition application (e sender : Z) (p : bytes) : message := inl ((e, sender), inl p).
Definition commit (e sender : Z) (r : roster) : message := inl ((e, sender), inr (inl r)).
Definition proposal (e sender : Z) : message := inl ((e, sender), inr (inr tt)).
Definition welcome (e : Z) (r : roster) : message := inr (e, r).
#[local] Existing Instance ToyCodec.byte_countable.
Definition wire : Cbor message := ToyCodec.toy_cbor.

Definition credential_of (i : Z) (r : roster) : option bytes := (λ x, snd (snd x)) <$> list_find (λ m, fst m = i) r.
Definition leaf_of (cred : bytes) (r : roster) : option Z := (λ x, fst (snd x)) <$> list_find (λ m, snd m = cred) r.
Definition next_leaf (r : roster) : Z := foldr (λ m acc, Z.max (fst m + 1) acc) 0 r.
Definition add_all (creds : list bytes) (r : roster) : roster := foldl (λ r c, r ++ [(next_leaf r, c)]) r creds.

Definition with_pending (p : option roster) (g : group) : group :=
  {| g_epoch := g_epoch g; g_roster := g_roster g; g_own := g_own g; g_pending := p |}.
Definition next (r : roster) (g : group) : group :=
  {| g_epoch := g_epoch g + 1; g_roster := r; g_own := g_own g; g_pending := None |}.

(** Staging a commit of new members or of removals. *)
Definition stage {T} (r : roster) : M (group * T) string message := λ '(g, t),
  (Ok (commit (g_epoch g) (g_own g) r), (with_pending (Some r) g, t)).
Definition process {T} (m : handshake) : M (group * T) string (bytes * ProcessedContent roster) := λ '(g, t),
  let '((e, sender), content) := m in
  (if negb (e =? g_epoch g) then Err "wrong epoch"
   else match credential_of sender (g_roster g) with
        | None => Err "unknown sender"
        | Some cred =>
            Ok (cred, match content with
                      | inl p => ApplicationMessage p
                      | inr (inl r) => StagedCommitMessage r
                      | inr (inr _) => ProposalMessage "Remove"
                      end)
        end, (g, t)).

(** A provider holds the credential of its key package. *)
Definition ops (T : Type) : OpenMls T := {|
  OState := group; OProvider := option bytes; KeyPair := bytes; KeyPackage := bytes; Message := message;
  ProtocolMessage := handshake; WelcomeMessage := Z * roster; StagedCommit := roster; StagedWelcome := Z * roster;
  provider_default := None;
  keypair_new t := (Ok (replicate 32 Byte.x01), t);
  keypair_public kp := kp;
  keypair_sign kp m := Ok (take 64 (m ++ replicate 64 Byte.x00));
  group_new _ _ cred t := (Ok {| g_epoch := 0; g_roster := [(0, cred)]; g_own := 0; g_pending := None |}, t);
  group_epoch := g_epoch;
  group_id _ := [];
  own_leaf_index := g_own;
  group_members g := map (λ m, {| m_index := fst m; m_credential := snd m; m_signature_key := replicate 32 Byte.x01 |}) (g_roster g);
  tree_hash _ := replicate 32 Byte.x00;
  is_active g := match credential_of (g_own g) (g_roster g) with Some _ => true | None => false end;
  has_pending g := match g_pending g with Some _ => true | None => false end;
  group_export_secret g _ _ n := Ok (replicate (Z.to_nat n) (byte_of_Z (g_epoch g mod 256)));
  clear_pending := with_pending None;
  merge_pending '(g, t) :=
    match g_pending g with
    | None => (Err "no pending commit", (g, t))
    | Some r => (Ok tt, (next r g, t))
    end;
  message_deserialize_exact := cbor_de (Cbor := wire);
  message_deserialize := cbor_de (Cbor := wire);
  message_into_protocol m := match m with inl h => Ok h | inr _ => Err "not a protocol message" end;
  message_extract m := match m with inr w => BodyWelcome w | inl _ => BodyOther m end;
  group_process_message := process;
  merge_staged r '(g, t) := (Ok tt, (next r g, t));
  group_create_message _ p '(g, t) := (Ok (application (g_epoch g) (g_own g) p), (g, t));
  message_serialize := cbor_ser (Cbor := wire);
  group_add_members _ kps '(g, t) :=
    let r := add_all kps (g_roster g) in
    let '(c, s) := stage r (g, t) in (m ← c; Ok (m, welcome (g_epoch g + 1) r), s);
  group_remove_members _ leaves '(g, t) := stage (filter (λ m, fst m ∉ leaves) (g_roster g)) (g, t);
  group_leave _ '(g, t) := (Ok (proposal (g_epoch g) (g_own g)), (g, t));
  key_package_deserialize := Ok;
  key_package_validate := Ok;
  key_package_credential kp := kp;
  key_package_build _ _ cred t := (Ok (cred, Some cred), t);
  key_package_serialize := Ok;
  key_package_hash_ref := Ok;
  stage_welcome p w t := (match p with Some _ => Ok w | None => Err "no matching key package" end, t);
  staged_into_group p '(e, r) t :=
    (match p with
     | Some cred =>
         match leaf_of cred r with
         | Some i => Ok {| g_epoch := e; g_roster := r; g_own := i; g_pending := None |}
         | None => Err "not in the group"
         end
     | None => Err "no matching key package"
     end, t);
|}.

(** It keeps what the MLS implementation documents. *)
Lemma mini_ops_ok T : @OpenMlsOk T (ops T).
Proof.
  split; cbn; intros; repeat case_match; simplify_eq/=; try done; try (by left).
  all: unfold process in *; repeat case_match; simplify_eq/=; by auto.
Qed.
End MiniMls.
