(* ===== verification/RoomManager.v ===== *)
(** * The room manager

    [lockframe-server/src/room_manager.rs]: rooms with their MLS groups, frame
    validation, sequencing and catch-up. *)

From S2P Require Import Prelude Opcodes Header Frame Connection MlsState Storage Sequencer Validator.
From S2P Require Import MlsGroup.

(** [struct RoomMetadata]. *)
Record RoomMetadata : Type := { creator : Z; created_at : Z }.

(** [enum RoomAction]. *)
Inductive RoomAction : Type :=
| Broadcast (room_id : Z) (frame : Frame) (exclude_sender : bool) (processed_at : Z)
| PersistFrame (room_id log_index : Z) (frame : Frame) (processed_at : Z)
| PersistMlsState (room_id : Z) (state : MlsGroupState) (processed_at : Z)
| RejectSender (sender_id : Z) (reason : string) (processed_at : Z)
| SendSyncResponse (sender_id room_id : Z) (frames : list bytes) (has_more : bool)
    (server_epoch processed_at : Z).

Module RoomError.
(** [enum RoomError]. *)
Inductive RoomError : Type :=
| MlsValidation (e : MlsError)
| Sequencing (e : SequencerError)
| Storage (e : StorageError)
| RoomNotFound (room_id : Z)
| RoomAlreadyExists (room_id : Z)
| InvalidEpoch (expected actual : Z)
| NotMember (member_id : Z).

(** The [Display] text. *)
Definition to_string (e : RoomError) : string :=
  match e with
  | MlsValidation e => "MLS validation failed: " +:+ MlsError.to_string e
  | Sequencing e => "Sequencer error: " +:+ SequencerError.to_string e
  | Storage e => "Storage error: " +:+ StorageError.to_string e
  | RoomNotFound r => "Room not found: " +:+ fmt_hex_pad 32 r
  | RoomAlreadyExists r => "Room already exists: " +:+ fmt_hex_pad 32 r
  | InvalidEpoch expected actual =>
      "epoch mismatch: expected " +:+ fmt_int expected +:+ ", got " +:+ fmt_int actual
  | NotMember m => "not a member: " +:+ fmt_int m
  end.
End RoomError.
Abbreviation RoomError := RoomError.RoomError.

Module RoomManager.
Section manager.
Context {T : Type} `{Environment T} `{OpenMls T} `{Ed25519} {S : Type} `{Storage S}.

(** [struct RoomManager]. *)
Record RoomManager : Type := {
  groups : gmap Z MlsGroup;
  sequencer : Sequencer;
  room_metadata : gmap Z RoomMetadata;
}.

Definition new : RoomManager :=
  {| groups := ∅; sequencer := Sequencer.new; room_metadata := ∅ |}.

(** A manager with the environment and the storage its methods are given. *)
Record world : Type := { rm : RoomManager; env : T; store : S }.

Definition with_groups (gs : gmap Z MlsGroup) (m : RoomManager) : RoomManager :=
  {| groups := gs; sequencer := sequencer m; room_metadata := room_metadata m |}.
Definition with_sequencer (q : Sequencer) (m : RoomManager) : RoomManager :=
  {| groups := groups m; sequencer := q; room_metadata := room_metadata m |}.
Definition with_metadata (md : gmap Z RoomMetadata) (m : RoomManager) : RoomManager :=
  {| groups := groups m; sequencer := sequencer m; room_metadata := md |}.
Definition with_rm (m : RoomManager) (w : world) : world :=
  {| rm := m; env := env w; store := store w |}.

Abbreviation RoomM := (M world RoomError).

(** [env.now()]. *)
Definition env_now : RoomM Z := λ w,
  let '(t, e) := Environment.now (env w) in (Ok t, {| rm := rm w; env := e; store := store w |}).
(** A call on the storage, errors converted by [?]. *)
Definition on_store {A} (op : M S StorageError A) : RoomM A := λ w,
  let '(r, s) := op (store w) in
  (map_err RoomError.Storage r, {| rm := rm w; env := env w; store := s |}).
(** A call on the sequencer, which also uses the storage. *)
Definition on_sequencer {A} (op : M (Sequencer * S) SequencerError A) : RoomM A := λ w,
  let '(r, (q, s)) := op (sequencer (rm w), store w) in
  (map_err RoomError.Sequencing r,
   {| rm := with_sequencer q (rm w); env := env w; store := s |}).
(** [self.groups.get_mut(&room_id).ok_or(RoomNotFound)?] and a call on it. *)
Definition on_group {A} (room_id : Z) (op : M MlsGroup MlsError A) : RoomM A := λ w,
  match groups (rm w) !! room_id with
  | None => (Err (RoomError.RoomNotFound room_id), w)
  | Some g =>
      let '(r, g) := op g in
      (map_err RoomError.MlsValidation r,
       with_rm (with_groups (<[room_id := g]> (groups (rm w))) (rm w)) w)
  end.

(** [RoomManager::has_room] and [epoch]. *)
Definition has_room (room_id : Z) (m : RoomManager) : bool :=
  bool_decide (is_Some (room_metadata m !! room_id)).
Definition epoch (room_id : Z) (m : RoomManager) : option Z :=
  MlsGroup.epoch <$> groups m !! room_id.

(** [RoomManager::validate_frame_basic]. *)
Definition validate_frame_basic (frame : Frame) (group : MlsGroup)
    (mls_state : option MlsGroupState) : outcome RoomError unit :=
  let frame_epoch := FrameHeader.epoch (Frame.header frame) in
  if negb (frame_epoch =? MlsGroup.epoch group) then
    Err (RoomError.InvalidEpoch (MlsGroup.epoch group) frame_epoch)
  else
    let sender_id := FrameHeader.sender_id (Frame.header frame) in
    match mls_state with
    | Some state =>
        if negb (MlsGroupState.is_member sender_id state) then Err (RoomError.NotMember sender_id)
        else
          match MlsGroupState.member_key sender_id state with
          | None => Err (RoomError.MlsValidation (MlsError.MemberNotFound sender_id))
          | Some _ => Ok tt
          end
    | None =>
        if negb (frame_epoch =? 0) then Err (RoomError.InvalidEpoch 0 frame_epoch) else Ok tt
    end.

(** The frame an action carries for the signature check. *)
Definition action_frame (a : SequencerAction) : option Frame :=
  match a with
  | AcceptFrame _ _ f | StoreFrame _ _ f | BroadcastToRoom _ f => Some f
  | RejectFrame _ _ _ => None
  end.
(** Opcodes whose frames are not checked: MLS messages, and unknown opcodes. *)
Definition signature_exempt (frame : Frame) : bool :=
  match FrameHeader.opcode_enum (Frame.header frame) with
  | Some (Opcode.Commit | Opcode.Proposal | Opcode.Welcome) => true
  | Some _ => false
  | None => true
  end.

(** [RoomManager::validate_sequenced_actions_signatures]. *)
Fixpoint validate_sequenced_actions_signatures (acts : list SequencerAction)
    (mls_state : option MlsGroupState) : outcome RoomError unit :=
  match acts with
  | [] => Ok tt
  | a :: acts =>
      match action_frame a with
      | None => validate_sequenced_actions_signatures acts mls_state
      | Some frame =>
          if signature_exempt frame then validate_sequenced_actions_signatures acts mls_state
          else
            match mls_state with
            | None => validate_sequenced_actions_signatures acts mls_state
            | Some state =>
                v ← map_err RoomError.MlsValidation (MlsValidator.validate_signature frame state);
                match v with
                | Reject reason =>
                    Err (RoomError.MlsValidation (MlsError.ValidationFailed reason))
                | Accept => validate_sequenced_actions_signatures acts mls_state
                end
            end
      end
  end.

(** [RoomManager::create_room]. *)
Definition create_room (room_id creator_id : Z) : RoomM unit :=
  w ← m_get;
  if has_room room_id (rm w) then m_err (RoomError.RoomAlreadyExists room_id)
  else
    created ← m_lift (map_err RoomError.MlsValidation (MlsGroup.new (env w) room_id creator_id));
    m_modify (λ w, with_rm (with_groups (<[room_id := fst created]> (groups (rm w))) (rm w)) w);;
    now ← env_now;
    m_modify (λ w, with_rm (with_metadata
      (<[room_id := {| creator := creator_id; created_at := now |}]> (room_metadata (rm w))) (rm w)) w).

(** [RoomManager::add_members], [remove_members], [leave_room]. *)
Definition add_members (room_id : Z) (key_packages : list bytes) : RoomM (list MlsAction) :=
  on_group room_id (MlsGroup.add_members_from_bytes key_packages).
Definition remove_members (room_id : Z) (member_ids : list Z) : RoomM (list MlsAction) :=
  on_group room_id (MlsGroup.remove_members member_ids).
Definition leave_room (room_id : Z) : RoomM (list MlsAction) :=
  on_group room_id MlsGroup.leave_group.

(** [f.encode(&mut buf).expect(..)] for every frame. *)
Fixpoint encode_all (frames : list Frame) : outcome RoomError (list bytes) :=
  match frames with
  | [] => Ok []
  | f :: frames =>
      match Frame.encode f [] with
      | (Ok _, buf) => rest ← encode_all frames; Ok (buf :: rest)
      | _ => Panic
      end
  end.

(** [RoomManager::handle_sync_request]. *)
Definition handle_sync_request (room_id sender_id from_log_index limit : Z) : RoomM RoomAction :=
  now ← env_now;
  w ← m_get;
  match groups (rm w) !! room_id with
  | None => m_err (RoomError.RoomNotFound room_id)
  | Some group =>
      let server_epoch := MlsGroup.epoch group in
      frames ← on_store (load_frames room_id from_log_index limit);
      frame_bytes ← m_lift (encode_all frames);
      latest_index ← on_store (latest_log_index room_id);
      let last_loaded_index :=
        if bool_decide (frames = []) then saturating_sub from_log_index 1
        else ((from_log_index ⊕64 zlen frames) - 1) mod U64_MOD in
      let has_more :=
        match latest_index with Some latest => last_loaded_index <? latest | None => false end in
      mret (SendSyncResponse sender_id room_id frame_bytes has_more server_epoch now)
  end.

(** The conversion of step 5 of [process_frame]. *)
Definition to_room_action (now : Z) (a : SequencerAction) : RoomAction :=
  match a with
  | AcceptFrame room_id log_index frame => PersistFrame room_id log_index frame now
  | StoreFrame room_id log_index frame => PersistFrame room_id log_index frame now
  | BroadcastToRoom room_id frame => Broadcast room_id frame false now
  | RejectFrame _ reason original =>
      RejectSender (FrameHeader.sender_id (Frame.header original)) reason now
  end.

Definition is_commit (frame : Frame) : bool :=
  match FrameHeader.opcode_enum (Frame.header frame) with
  | Some Opcode.Commit => true
  | _ => false
  end.

(** Step 6 of [process_frame]: the group follows an ordered commit, and its new
    state is to be persisted. *)
Definition follow_commit (room_id : Z) (frame : Frame) : RoomM MlsGroupState :=
  on_group room_id (
    g ← m_get;
    (if MlsGroup.has_mls_pending_commit g then MlsGroup.merge_pending_commit
     else MlsGroup.process_message frame;; mret tt);;
    g ← m_get;
    m_lift (MlsGroup.export_group_state g)).

(** [RoomManager::process_frame]. *)
Definition process_frame (frame : Frame) : RoomM (list RoomAction) :=
  now ← env_now;
  let room_id := FrameHeader.room_id (Frame.header frame) in
  w ← m_get;
  match groups (rm w) !! room_id with
  | None => m_err (RoomError.RoomNotFound room_id)
  | Some group =>
      mls_state ← on_store (load_mls_state room_id);
      m_lift (validate_frame_basic frame group mls_state);;
      sequencer_actions ← on_sequencer (Sequencer.process_frame frame);
      m_lift (validate_sequenced_actions_signatures sequencer_actions mls_state);;
      let room_actions := map (to_room_action now) sequencer_actions in
      if is_commit frame then
        state ← follow_commit room_id frame;
        mret (room_actions ++ [PersistMlsState room_id state now])
      else mret room_actions
  end.

(** ** Lemmas *)
Section lemmas.
Context `{!StorageOk S}.

(** The sequencer's invariant over the storage in hand. *)
Definition winv (w : world) : Prop := Sequencer.inv (sequencer (rm w), store w).

Lemma world_now_spec w :
  ∃ t e, env_now w = (Ok t, {| rm := rm w; env := e; store := store w |}).
Proof. unfold env_now. destruct (Environment.now (env w)). eauto. Qed.

(** The first three steps of [process_frame]: what has been checked when the
    sequencer is reached, and the state in which it runs. *)
Lemma process_frame_front frame w :
  winv w →
  let room := FrameHeader.room_id (Frame.header frame) in
  (∃ e w', process_frame frame w = (Err e, w')
     ∧ sequencer (rm w') = sequencer (rm w) ∧ groups (rm w') = groups (rm w)
     ∧ same (store w) (store w')
     ∧ ∀ why, e ≠ RoomError.MlsValidation (MlsError.ValidationFailed why))
  ∨ ∃ group w1 now,
      groups (rm w) !! room = Some group
      ∧ validate_frame_basic frame group (mls_of (store w) room) = Ok tt
      ∧ rm w1 = rm w ∧ same (store w) (store w1)
      ∧ process_frame frame w
        = (sequencer_actions ← on_sequencer (Sequencer.process_frame frame);
           m_lift (validate_sequenced_actions_signatures sequencer_actions (mls_of (store w) room));;
           let room_actions := map (to_room_action now) sequencer_actions in
           if is_commit frame then
             state ← follow_commit room frame;
             mret (room_actions ++ [PersistMlsState room state now])
           else mret room_actions) w1.
Proof.
  intros Hi room. unfold process_frame. destruct (world_now_spec w) as (now & e & Hn).
  munfold. rewrite Hn. cbn [rm]. fold room.
  destruct (groups (rm w) !! room) as [group|] eqn:Hg.
  2: { left. eexists _, _. split; [done|]. split_and!; try done. }
  unfold on_store. cbn [store rm env].
  pose proof (load_mls_state_ok room (store w)) as Hl.
  destruct (load_mls_state room (store w)) as [[o|err|] s1]; cbn [map_err]; [| |done].
  2: { left. eexists _, _. split; [done|]. split_and!; done. }
  destruct Hl as [Hs ->].
  destruct (validate_frame_basic frame group (mls_of (store w) room)) as [[]|err|] eqn:Hv.
  - right. exists group, {| rm := rm w; env := e; store := s1 |}, now. split_and!; done.
  - left. eexists _, _. split; [done|]. split_and!; try done.
    intros why ->. unfold validate_frame_basic in Hv. repeat case_match; done.
  - exfalso. unfold validate_frame_basic in Hv. repeat case_match; done.
Qed.

(** What the sequencer does to the world. *)
Lemma on_sequencer_spec frame w w1 :
  winv w → rm w1 = rm w → same (store w) (store w1) →
  let room := FrameHeader.room_id (Frame.header frame) in
  ∃ r q s, on_sequencer (Sequencer.process_frame frame) w1
           = (map_err RoomError.Sequencing r,
              {| rm := with_sequencer q (rm w); env := env w1; store := s |})
    ∧ Sequencer.process_frame frame (sequencer (rm w), store w1) = (r, (q, s))
    ∧ same (store w) s ∧ winv {| rm := rm w; env := env w1; store := store w1 |}
    ∧ Sequencer.inv (q, s).
Proof.
  intros Hi Hrm Hs room. unfold on_sequencer. rewrite Hrm.
  assert (Sequencer.inv (sequencer (rm w), store w1)) as Hi1 by by eapply Sequencer.inv_same.
  pose proof (Sequencer.process_frame_spec frame _ _ Hi1) as Hp. cbn zeta in Hp.
  pose proof (Sequencer.process_frame_inv frame _ Hi1) as Hi2.
  destruct (Sequencer.process_frame frame _) as [r [q s]]. exists r, q, s. split_and!; try done.
  eapply same_trans; [exact Hs|]. destruct r; [by destruct Hp as (_ & ? & _)|by destruct Hp|done].
Qed.

Lemma follow_commit_store room frame w r w' :
  follow_commit room frame w = (r, w') →
  store w' = store w ∧ sequencer (rm w') = sequencer (rm w).
Proof.
  unfold follow_commit, on_group. intros Hf. destruct (groups (rm w) !! room); [|by simplify_eq].
  match type of Hf with (let '(_, _) := ?op in _) = _ => destruct op as [r' g'] end.
  by simplify_eq.
Qed.

(** The frames that actions persist or broadcast. *)
Definition released (acts : list RoomAction) : list Frame :=
  omap (λ a, match a with
             | Broadcast _ f _ _ | PersistFrame _ _ f _ => Some f
             | _ => None
             end) acts.

Lemma released_map now sacts : released (map (to_room_action now) sacts) = omap action_frame sacts.
Proof. unfold released. induction sacts as [|a sacts IH]; [done|]. cbn. rewrite IH. by destruct a. Qed.

Lemma validate_sigs_Ok sacts st f :
  validate_sequenced_actions_signatures sacts (Some st) = Ok tt →
  f ∈ omap action_frame sacts → signature_exempt f = false → MlsValidator.authentic f st.
Proof.
  induction sacts as [|a sacts IH]; cbn; [set_solver|].
  destruct (action_frame a) as [f'|]; [|auto].
  destruct (signature_exempt f') eqn:He.
  { intros Hv [->|Hf]%elem_of_cons Hex; [congruence|auto]. }
  munfold. destruct (MlsValidator.validate_signature_cases f' st) as [[-> Ha]|[[why ->] _]]; [|done].
  intros Hv [->|Hf]%elem_of_cons Hex; auto.
Qed.

(** A successful run: everything that has been checked, and what is returned. *)
Lemma process_frame_Ok frame w acts w' :
  winv w → process_frame frame w = (Ok acts, w') →
  let room := FrameHeader.room_id (Frame.header frame) in
  ∃ group sacts now extra,
    groups (rm w) !! room = Some group
    ∧ validate_frame_basic frame group (mls_of (store w) room) = Ok tt
    ∧ Sequencer.validate_frame_structure frame = Ok tt
    ∧ validate_sequenced_actions_signatures sacts (mls_of (store w) room) = Ok tt
    ∧ acts = map (to_room_action now) sacts ++ extra
    ∧ (extra = [] ∨ ∃ st, extra = [PersistMlsState room st now])
    ∧ (∀ r, log (store w') r = log (store w) r) ∧ winv w'
    ∧ (if Sequencer.is_welcome frame then sacts = [BroadcastToRoom room frame]
       else ∃ i, let f' := Sequencer.rebuild_frame_with_index frame i in
         sacts = [AcceptFrame room i f'; StoreFrame room i f'; BroadcastToRoom room f']
         ∧ zlen (log (store w) room) ≤ i
         ∧ Sequencer.next_of room (sequencer (rm w), store w) = i
         ∧ Sequencer.next_of room (sequencer (rm w'), store w') = i + 1).
Proof.
  intros Hi Hp room.
  destruct (process_frame_front frame w Hi) as [(e & w1 & Hf & _)|(group & w1 & now & Hg & Hv & Hrm & Hs & Heq)];
    [congruence|]. fold room in Hg, Hv, Heq.
  destruct (on_sequencer_spec frame w w1 Hi Hrm Hs) as (r & q & s & Hon & Hsq & Hs' & Hi1 & Hinv).
  rewrite Heq in Hp. munfold. rewrite Hon in Hp.
  pose proof (Sequencer.process_frame_spec frame _ _ Hi1) as Hspec. cbn zeta in Hspec. fold room in Hspec.
  cbn [rm store] in Hspec. rewrite Hsq in Hspec.
  destruct r as [sacts|e|]; cbn [map_err] in Hp; [|done..].
  destruct (validate_sequenced_actions_signatures sacts (mls_of (store w) room)) as [[]|e|] eqn:Hsig; [|done..].
  destruct Hspec as (Hstruct & _ & Hacts). destruct Hs' as [Hlog _].
  assert (∃ extra, acts = map (to_room_action now) sacts ++ extra
    ∧ (extra = [] ∨ ∃ st, extra = [PersistMlsState room st now])
    ∧ store w' = s ∧ sequencer (rm w') = q) as (extra & Hacteq & Hrel & Hst & Hsqn).
  { destruct (is_commit frame).
    - destruct (follow_commit room frame _) as [[state|e|] w2] eqn:Hfc in Hp; [|done..].
      apply follow_commit_store in Hfc as [Hst Hsqn]. simplify_eq.
      eexists. split; [done|]. split_and!; [by eauto|by rewrite Hst|by rewrite Hsqn].
    - simplify_eq. exists []. rewrite app_nil_r. auto. }
  exists group, sacts, now, extra. split_and!; try done.
  - intros x. rewrite Hst. apply Hlog.
  - unfold winv. by rewrite Hst, Hsqn.
  - destruct (Sequencer.is_welcome frame); [by destruct Hacts|].
    destruct Hacts as (i & -> & Hib & Hle & Hin & Hq). exists i. pose proof (proj1 Hs) as Hl1.
    rewrite Hl1 in Hle, Hin. split_and!; try done.
    rewrite Hst, Hsqn. unfold Sequencer.next_of; cbn. rewrite Hq. by rewrite lookup_insert_eq.
Qed.

(** Nothing is checked without a stored group state: a frame of epoch 0 for a room
    whose group is at epoch 0 needs neither a member as its sender nor a signature. *)
Lemma sigs_unchecked sacts : validate_sequenced_actions_signatures sacts None = Ok tt.
Proof. induction sacts as [|a sacts IH]; [done|]. cbn. repeat case_match; done. Qed.

Lemma process_frame_unchecked `{!Sequencer.StorageReliable} frame group w s1 :
  winv w → let room := FrameHeader.room_id (Frame.header frame) in
  groups (rm w) !! room = Some group → load_mls_state room (store w) = (Ok None, s1) →
  MlsGroup.epoch group = 0 → FrameHeader.epoch (Frame.header frame) = 0 → is_commit frame = false →
  Sequencer.next_of room (sequencer (rm w), store w) = zlen (log (store w) room) →
  zlen (log (store w) room) < U64_MAX → Sequencer.accepts frame = true →
  ∃ acts w', process_frame frame w = (Ok acts, w').
Proof.
  intros Hi room Hg Hload Hge Hfe Hc Hn Hb Ha. unfold process_frame.
  destruct (world_now_spec w) as (now & e & Hnow). munfold. rewrite Hnow. cbn [rm]. fold room.
  rewrite Hg. unfold on_store. cbn [store rm env]. rewrite Hload. cbn [map_err].
  pose proof (load_mls_state_ok room (store w)) as Hl. rewrite Hload in Hl. destruct Hl as [Hs _].
  unfold validate_frame_basic. rewrite Hge, Hfe. cbn [Z.eqb negb]. unfold on_sequencer. cbn [rm store].
  destruct (Sequencer.process_accepted frame (sequencer (rm w), s1)) as (sacts & [q s2] & ->); [|by rewrite (proj1 Hs)|done|].
  { rewrite (proj1 Hs). unfold Sequencer.next_of in *. cbn in *. by rewrite (proj1 Hs). }
  cbn [map_err]. rewrite sigs_unchecked, Hc. eauto.
Qed.

(** A frame of a member that is in order but for its signature gets as far as an
    index, and is refused then. *)
Lemma process_frame_refused `{!Sequencer.StorageReliable} frame group st key w s1 :
  winv w → let room := FrameHeader.room_id (Frame.header frame) in
  let sender := FrameHeader.sender_id (Frame.header frame) in
  groups (rm w) !! room = Some group → load_mls_state room (store w) = (Ok (Some st), s1) →
  FrameHeader.epoch (Frame.header frame) = MlsGroup.epoch group →
  MlsGroupState.is_member sender st = true → MlsGroupState.member_key sender st = Some key →
  Frame.wf frame → signature_exempt frame = false → (∀ i, ¬ MlsValidator.authentic (Sequencer.rebuild_frame_with_index frame i) st) →
  Sequencer.next_of room (sequencer (rm w), store w) = zlen (log (store w) room) →
  zlen (log (store w) room) < U64_MAX → Sequencer.accepts frame = true →
  ∃ why w', process_frame frame w = (Err (RoomError.MlsValidation (MlsError.ValidationFailed why)), w').
Proof.
  intros Hi room sender Hg Hload Hep Hmem Hkey Hwf Hex Hbad Hn Hb Ha. unfold process_frame.
  destruct (world_now_spec w) as (now & e & Hnow). munfold. rewrite Hnow. cbn [rm]. fold room.
  rewrite Hg. unfold on_store. cbn [store rm env]. rewrite Hload. cbn [map_err].
  pose proof (load_mls_state_ok room (store w)) as Hl. rewrite Hload in Hl. destruct Hl as [Hs _].
  unfold validate_frame_basic. fold sender. rewrite Hep, Z.eqb_refl, Hmem, Hkey. cbn [negb].
  unfold on_sequencer. cbn [rm store].
  assert (Sequencer.inv (sequencer (rm w), s1)) as Hi1 by by eapply Sequencer.inv_same.
  destruct (Sequencer.process_accepted frame (sequencer (rm w), s1)) as (sacts & [q s2] & Hq); [|by rewrite (proj1 Hs)|done|].
  { rewrite (proj1 Hs). unfold Sequencer.next_of in *. cbn in *. by rewrite (proj1 Hs). }
  pose proof (Sequencer.process_frame_spec frame _ _ Hi1) as Hspec. cbn zeta in Hspec. rewrite Hq in *.
  destruct Hspec as (_ & _ & Hacts). unfold Sequencer.accepts in Ha.
  destruct (Sequencer.is_welcome frame); [by rewrite andb_false_r in Ha|].
  destruct Hacts as (i & -> & _). cbn [map_err validate_sequenced_actions_signatures action_frame].
  assert (signature_exempt (Sequencer.rebuild_frame_with_index frame i) = false) as ->.
  { unfold signature_exempt. by rewrite (MlsValidator.rebuild_header frame i (Frame.wf_header _ Hwf) (Frame.wf_size _ Hwf)). }
  destruct (MlsValidator.validate_signature_cases (Sequencer.rebuild_frame_with_index frame i) st) as [[_ Hau]|[[why Hv] _]];
    [by destruct (Hbad i)|]. rewrite Hv. cbn. eauto.
Qed.

(** *** Absence of panics *)

(** The calls of [openmls] that the manager makes return errors. *)
Class RoomTotal : Prop := {
  #[global] room_process :: MlsGroup.ProcessTotal;
  room_merge : ∀ s, fst (merge_pending s) ≠ Panic;
  room_keypair : ∀ t, fst (keypair_new t) ≠ Panic;
  room_group : ∀ pr kp id t, fst (group_new pr kp id t) ≠ Panic;
}.

Lemma on_group_total {A} room (op : M MlsGroup MlsError A) w :
  (∀ g, fst (op g) ≠ Panic) → fst (on_group room op w) ≠ Panic.
Proof.
  intros Ho. unfold on_group. destruct (groups (rm w) !! room) as [g|]; [|done].
  specialize (Ho g). destruct (op g) as [[]]; done.
Qed.
Lemma validate_sigs_total sacts st : validate_sequenced_actions_signatures sacts st ≠ Panic.
Proof.
  induction sacts as [|a sacts IH]; [done|]. cbn. destruct (action_frame a) as [f|]; [|done].
  destruct (signature_exempt f); [done|]. destruct st as [st|]; [|done]. munfold.
  by destruct (MlsValidator.validate_signature_cases f st) as [[-> _]|[[why ->] _]].
Qed.

Lemma create_room_same room who x :
  store (snd (create_room room who x)) = store x ∧ sequencer (rm (snd (create_room room who x))) = sequencer (rm x).
Proof.
  unfold create_room, MlsGroup.new. munfold. destruct (has_room room (rm x)); [done|].
  destruct (keypair_new (env x)) as [[kp|e|] t]; [|done..]. destruct (group_new _ kp _ t) as [[g|e|] t']; [|done..].
  cbn. match goal with |- context [env_now ?w] => destruct (world_now_spec w) as (now & e & ->) end. done.
Qed.

Section total.
Context `{!RoomTotal}.
Lemma follow_commit_total room frame w : fst (follow_commit room frame w) ≠ Panic.
Proof.
  apply on_group_total. intros g. munfold.
  destruct (MlsGroup.has_mls_pending_commit g).
  - unfold MlsGroup.merge_pending_commit. munfold. destruct (MlsGroup.pending_commit g) as [pc|]; [|done].
    pose proof (MlsGroup.on_mls_total (MlsGroup.crypto "Failed to merge pending commit") _ g room_merge) as Hm.
    destruct (MlsGroup.on_mls _ _ g) as [[[]|e|] g1]; [|done..]. apply MlsGroup.export_group_state_total.
  - pose proof (MlsGroup.process_message_total frame g) as Hp.
    destruct (MlsGroup.process_message frame g) as [[acts|e|] g1]; [|done..]. apply MlsGroup.export_group_state_total.
Qed.

(** Processing a frame ends with actions or an error. *)
Lemma process_frame_total frame w : winv w → fst (process_frame frame w) ≠ Panic.
Proof.
  intros Hi. destruct (process_frame_front frame w Hi) as [(e & w1 & -> & _)|(g & w1 & now & _ & _ & Hrm & Hs & ->)]; [done|].
  destruct (on_sequencer_spec frame w w1 Hi Hrm Hs) as (r & q & s & Hon & Hsq & _ & Hi1 & _). munfold. rewrite Hon.
  pose proof (Sequencer.process_frame_spec frame _ _ Hi1) as Hspec. cbn zeta in Hspec. cbn [rm store] in Hspec. rewrite Hsq in Hspec.
  destruct r as [sacts|e|]; cbn [map_err]; [|done..].
  set (room := FrameHeader.room_id (Frame.header frame)). pose proof (validate_sigs_total sacts (mls_of (store w) room)).
  destruct (validate_sequenced_actions_signatures sacts _) as [[]|e|]; [|done..].
  destruct (is_commit frame); [|done].
  match goal with |- context [follow_commit ?r ?f ?w] => pose proof (follow_commit_total r f w) as Hfc;
    destruct (follow_commit r f w) as [[st|e|] w2] end; done.
Qed.

Lemma create_room_total room who w : fst (create_room room who w) ≠ Panic.
Proof.
  unfold create_room, MlsGroup.new. munfold. destruct (has_room room (rm w)); [done|].
  pose proof (room_keypair (env w)). destruct (keypair_new (env w)) as [[kp|e|] t]; [|done..].
  pose proof (room_group provider_default kp (to_le_bytes 8 who) t).
  destruct (group_new _ kp _ t) as [[g|e|] t']; [|done..]. cbn.
  match goal with |- context [env_now ?w] => destruct (world_now_spec w) as (now & e & ->) end. done.
Qed.
End total.

(** ** Properties *)


(** Every ordered frame is handed to storage twice.  A successful
    [process_frame] of anything but a Welcome returns two identical
    [PersistFrame] actions, and on every storage that keeps its contract at most
    one of them can succeed. *)
Theorem frames_persisted_twice frame w acts w' :
  winv w → process_frame frame w = (Ok acts, w') → Sequencer.is_welcome frame = false →
  ∃ room i f now rest,
    acts = PersistFrame room i f now :: PersistFrame room i f now :: rest
    ∧ ∀ s : S, let '(r1, s1) := store_frame room i f s in
               let '(r2, _) := store_frame room i f s1 in
               is_ok r1 && is_ok r2 = false.
Proof.
  intros Hi Hp Hw.
  destruct (process_frame_Ok frame w acts w' Hi Hp)
    as (group & sacts & now & extra & _ & _ & _ & _ & -> & _ & _ & _ & Hacts).
  rewrite Hw in Hacts. destruct Hacts as (i & -> & _).
  eexists _, i, _, now, _. split; [reflexivity|]. intros s.
  set (room := FrameHeader.room_id (Frame.header frame)).
  set (f := Sequencer.rebuild_frame_with_index frame i).
  pose proof (store_frame_ok room i f s) as Ha.
  destruct (store_frame room i f s) as [r1 s1]. pose proof (store_frame_ok room i f s1) as Hb.
  destruct (store_frame room i f s1) as [r2 s2].
  destruct r1; [|done..]. destruct r2; [|done..]. exfalso.
  destruct Ha as (Ha & Hl & _), Hb as (Hb & _). rewrite Hl, zlen_app in Hb.
  change (zlen [f]) with 1 in Hb. lia.
Qed.

(** A frame refused for its signature leaves the counter ahead of the log. *)
Lemma refusal_wedges frame w why w' :
  winv w → is_commit frame = false →
  process_frame frame w = (Err (RoomError.MlsValidation (MlsError.ValidationFailed why)), w') →
  let room := FrameHeader.room_id (Frame.header frame) in
  (∀ r, log (store w') r = log (store w) r)
  ∧ Sequencer.wedged room (sequencer (rm w'), store w')
  ∧ ∀ f, log (snd (snd (Sequencer.submit f (sequencer (rm w'), store w')))) room = log (store w) room.
Proof.
  intros Hi Hnc Hp room.
  destruct (process_frame_front frame w Hi)
    as [(e & w1 & Hf & _ & _ & _ & Hne)|(group & w1 & now & Hg & Hv & Hrm & Hs & Heq)].
  { rewrite Hf in Hp. simplify_eq. by destruct (Hne why). }
  fold room in Hg, Hv, Heq.
  destruct (on_sequencer_spec frame w w1 Hi Hrm Hs) as (r & q & s & Hon & Hsq & Hs' & Hi1 & Hinv).
  rewrite Heq in Hp. munfold. rewrite Hon, Hnc in Hp.
  pose proof (Sequencer.process_frame_spec frame _ _ Hi1) as Hspec. cbn zeta in Hspec. fold room in Hspec.
  cbn [rm store] in Hspec. rewrite Hsq in Hspec.
  destruct r as [sacts|e|]; cbn [map_err] in Hp; [|done..].
  destruct (validate_sequenced_actions_signatures sacts (mls_of (store w) room)) as [[]|e|] eqn:Hsig; [done| |done].
  simplify_eq. cbn [rm store with_sequencer sequencer].
  destruct Hspec as (Hstruct & [Hlog1 Hmls1] & Hacts). destruct Hs' as [Hlog Hmls].
  destruct (Sequencer.is_welcome frame) eqn:Hw.
  { exfalso. destruct Hacts as [-> _]. cbn in Hsig. unfold signature_exempt, Sequencer.is_welcome in *.
    repeat case_match; simplify_eq. }
  destruct Hacts as (i & -> & Hib & Hle & Hin & Hq).
  assert (Sequencer.next_of room (q, s) = i + 1) as Hnext.
  { unfold Sequencer.next_of; cbn. by rewrite Hq, lookup_insert_eq. }
  assert (Sequencer.wedged room (q, s)) as Hwd.
  { unfold Sequencer.wedged. rewrite Hnext. cbn. rewrite Hlog1. lia. }
  split_and!; [done|done|]. intros f.
  pose proof (Sequencer.submit_wedged f room (q, s) Hinv Hwd) as Hsub.
  destruct (Sequencer.submit f (q, s)) as [r' st']. cbn in *. destruct Hsub as [_ ->]. apply Hlog.
Qed.

(** A frame refused for its signature costs the room its log.  The index is
    assigned before the signature is checked, so the refusal leaves the counter
    ahead of the log with nothing stored; from then on no frame is stored in the
    room again, whichever frames are submitted. *)
Theorem bad_signature_wedges_room frame w why w' :
  winv w → is_commit frame = false →
  process_frame frame w = (Err (RoomError.MlsValidation (MlsError.ValidationFailed why)), w') →
  let room := FrameHeader.room_id (Frame.header frame) in
  (∀ r, log (store w') r = log (store w) r)
  ∧ Sequencer.wedged room (sequencer (rm w'), store w')
  ∧ ∀ f, log (snd (snd (Sequencer.submit f (sequencer (rm w'), store w')))) room = log (store w) room.
Proof. apply refusal_wedges. Qed.

(** *** Catch-up *)

Lemma encode_all_wf fs :
  Forall Frame.wf fs → ∃ bs, encode_all fs = Ok bs ∧ Forall2 (λ b f, Frame.decode b = Ok f) bs fs.
Proof.
  induction 1 as [|f fs Hf _ (bs & IH1 & IH2)]; [exists []; split; [done|constructor]|].
  cbn. rewrite Frame.encode_Ok by by apply Frame.wf_bound. rewrite IH1. munfold.
  eexists. split; [done|]. constructor; [|done]. cbn.
  rewrite <-(app_nil_r (Frame.payload f)). by apply Frame.decode_app.
Qed.

Lemma has_more_correct (l : list Frame) from limit :
  0 ≤ from → 1 ≤ limit → from + limit < U64_MOD → zlen l ≤ U64_MAX →
  let fs := take (Z.to_nat limit) (drop (Z.to_nat from) l) in
  match latest l with
  | Some latest =>
      (if bool_decide (fs = []) then saturating_sub from 1
       else ((from ⊕64 zlen fs) - 1) mod U64_MOD) <? latest
  | None => false
  end = (from + limit <? zlen l).
Proof.
  intros Hf Hl Hb Hn fs. destruct l as [|f0 l0]; cbn [latest].
  { change (zlen (A := Frame) []) with 0. symmetry. apply Z.ltb_ge. lia. }
  set (l := f0 :: l0) in *. assert (1 ≤ zlen l) as Hone by (unfold l, zlen; cbn; lia).
  assert (zlen fs = Z.min limit (Z.max 0 (zlen l - from))) as Hfs.
  { unfold fs, zlen. rewrite length_take, length_drop. lia. }
  unfold saturating_sub. case_bool_decide as E.
  - rewrite E in Hfs. change (zlen (A := Frame) []) with 0 in Hfs.
    rewrite (proj2 (Z.ltb_ge _ _)) by lia. symmetry. apply Z.ltb_ge. lia.
  - assert (0 < zlen fs) by (destruct fs; [done|unfold zlen; cbn; lia]).
    rewrite (Z.mod_small (from + zlen fs)), Z.mod_small by lia.
    destruct (from + limit <? zlen l) eqn:Ecmp; bool_to_prop; [apply Z.ltb_lt|apply Z.ltb_ge]; lia.
Qed.

Lemma sync_response_Ok room sender from limit w a w' :
  winv w → Forall Frame.wf (log (store w) room) →
  0 ≤ from → 1 ≤ limit → from + limit < U64_MOD →
  handle_sync_request room sender from limit w = (Ok a, w') →
  ∃ bs group now,
    a = SendSyncResponse sender room bs (from + limit <? zlen (log (store w) room))
          (MlsGroup.epoch group) now
    ∧ groups (rm w) !! room = Some group
    ∧ Forall2 (λ b f, Frame.decode b = Ok f) bs
        (take (Z.to_nat limit) (drop (Z.to_nat from) (log (store w) room))).
Proof.
  intros Hi Hwf Hf Hl Hb Hh. pose proof (Sequencer.inv_bound _ Hi room) as Hlen. cbn in Hlen.
  unfold handle_sync_request in Hh. destruct (world_now_spec w) as (now & e & Hn).
  munfold. rewrite Hn in Hh. cbn [rm] in Hh.
  destruct (groups (rm w) !! room) as [group|] eqn:Hg; [|done].
  unfold on_store in Hh. cbn [store rm env] in Hh.
  pose proof (load_frames_ok room from limit (store w) Hf ltac:(lia) Hb) as Hload.
  destruct (load_frames room from limit (store w)) as [[fs|er|] s1]; cbn [map_err] in Hh; [|done..].
  destruct Hload as [[Hlog _] ->].
  set (fs := take (Z.to_nat limit) (drop (Z.to_nat from) (log (store w) room))) in *.
  destruct (encode_all_wf fs) as (bs & Hbs & Hdec).
  { unfold fs. by apply Forall_take, Forall_drop. }
  rewrite Hbs in Hh. cbn [store] in Hh.
  pose proof (latest_log_index_ok room s1) as Hlat.
  destruct (latest_log_index room s1) as [[o|er|] s2]; cbn [map_err] in Hh; [|done..].
  destruct Hlat as [_ ->]. rewrite Hlog in Hh. exists bs, group, now. split_and!; try done.
  pose proof (has_more_correct (log (store w) room) from limit Hf Hl Hb Hlen) as Hm. fold fs in Hm.
  cbv zeta in Hm. rewrite <-Hm. by simplify_eq.
Qed.

(** Catch-up returns exactly the missing frames.  A successful sync reply for
    a non-empty range carries the encodings of the log entries of that range, in
    order, which decode back to the entries; it reports the room's epoch; and it
    announces more frames exactly when the log extends past the range. *)
Theorem sync_response_exact room sender from limit w a w' :
  winv w → Forall Frame.wf (log (store w) room) →
  0 ≤ from → 1 ≤ limit → from + limit < U64_MOD →
  handle_sync_request room sender from limit w = (Ok a, w') →
  ∃ bs group now,
    a = SendSyncResponse sender room bs (from + limit <? zlen (log (store w) room))
          (MlsGroup.epoch group) now
    ∧ groups (rm w) !! room = Some group
    ∧ Forall2 (λ b f, Frame.decode b = Ok f) bs
        (take (Z.to_nat limit) (drop (Z.to_nat from) (log (store w) room))).
Proof. apply sync_response_Ok. Qed.

End lemmas.

(** *** Rooms and groups *)
Section rooms.
Context `{!OpenMlsOk T}.

(** One call of the manager's interface, whatever it returns. *)
Inductive step : world → world → Prop :=
| step_create room who w : step w (snd (create_room room who w))
| step_add room kps w : step w (snd (add_members room kps w))
| step_remove room ids w : step w (snd (remove_members room ids w))
| step_leave room w : step w (snd (leave_room room w))
| step_sync room who from limit w : step w (snd (handle_sync_request room who from limit w))
| step_process frame w : step w (snd (process_frame frame w)).

(** Every room has a group of its own id and metadata. *)
Definition consistent (m : RoomManager) : Prop :=
  dom (groups m) = dom (room_metadata m)
  ∧ ∀ r g, groups m !! r = Some g → MlsGroup.room_id g = r.

(** Rooms stay, and their epochs do not go back. *)
Definition evolves (m m' : RoomManager) : Prop :=
  consistent m →
  consistent m'
  ∧ ∀ r g, groups m !! r = Some g →
      ∃ g', groups m' !! r = Some g' ∧ MlsGroup.epoch g ≤ MlsGroup.epoch g'.

Lemma evolves_refl m m' :
  groups m' = groups m → room_metadata m' = room_metadata m → evolves m m'.
Proof. unfold evolves, consistent. intros -> -> Hc. split; [done|]. eauto with lia. Qed.

Lemma evolves_trans m1 m2 m3 : evolves m1 m2 → evolves m2 m3 → evolves m1 m3.
Proof.
  intros E1 E2 Hc. destruct (E1 Hc) as [Hc1 He1]. destruct (E2 Hc1) as [Hc2 He2].
  split; [done|]. intros r g Hg.
  destruct (He1 _ _ Hg) as (g1 & Hg1 & ?). destruct (He2 _ _ Hg1) as (g2 & Hg2 & ?).
  exists g2. split; [done|lia].
Qed.

Lemma group_steps_advance g g' :
  rtc MlsGroup.step g g' → MlsGroup.epoch g ≤ MlsGroup.epoch g' ∧ MlsGroup.room_id g' = MlsGroup.room_id g.
Proof.
  induction 1 as [|g g1 g' Hs _ [IH1 IH2]]; [done|].
  apply MlsGroup.step_advances in Hs as [Hi He]. unfold MlsGroup.ident in Hi.
  split; [lia|congruence].
Qed.

Lemma on_group_evolves {A} room (op : M MlsGroup MlsError A) w :
  (∀ g, rtc MlsGroup.step g (snd (op g))) → evolves (rm w) (rm (snd (on_group room op w))).
Proof.
  intros Hop. unfold on_group. destruct (groups (rm w) !! room) as [g|] eqn:Hg; [|by apply evolves_refl].
  specialize (Hop g). destruct (op g) as [r g']. cbn in Hop. apply group_steps_advance in Hop as [He Hr].
  intros [Hd Hid]. split; cbn.
  - split; cbn; [rewrite dom_insert_lookup_L by done; done|].
    intros x gx. rewrite lookup_insert_Some. intros [[<- <-]|[_ Hx]]; [|by apply Hid].
    rewrite Hr. by apply Hid.
  - intros x gx Hx. rewrite lookup_insert. destruct (decide (room = x)) as [<-|]; [|eauto with lia].
    simplify_eq. eauto.
Qed.

Lemma new_group_room e room who g acts :
  MlsGroup.new e room who = Ok (g, acts) → MlsGroup.room_id g = room.
Proof.
  unfold MlsGroup.new. munfold. intros Hn. destruct (keypair_new e) as [[kp|?|] e1]; try done.
  cbn in Hn. destruct (group_new _ _ _ _) as [[s|?|] e2]; try done. by simplify_eq/=.
Qed.

Lemma create_room_evolves room who w : evolves (rm w) (rm (snd (create_room room who w))).
Proof.
  unfold create_room, has_room. munfold.
  case_bool_decide as Hr; [by apply evolves_refl|].
  destruct (MlsGroup.new (env w) room who) as [[g acts]|e|] eqn:Hn; cbn [map_err]; [|by apply evolves_refl..].
  destruct (world_now_spec (with_rm (with_groups (<[room := g]> (groups (rm w))) (rm w)) w)) as (t & e & Ht).
  cbn [fst]. rewrite Ht. cbn. intros [Hd Hids]. split; cbn.
  - split; cbn; [by rewrite !dom_insert_L, Hd|].
    intros x gx. rewrite lookup_insert_Some. intros [[<- <-]|[_ Hx]]; [|by apply Hids].
    by eapply new_group_room.
  - intros x gx Hx. rewrite lookup_insert. destruct (decide (room = x)) as [<-|]; [|eauto with lia].
    destruct Hr. apply elem_of_dom. rewrite <-Hd. by eapply elem_of_dom_2.
Qed.

Lemma follow_commit_evolves room frame w : evolves (rm w) (rm (snd (follow_commit room frame w))).
Proof.
  apply on_group_evolves. intros g. munfold.
  destruct (MlsGroup.has_mls_pending_commit g).
  - pose proof (MlsGroup.step_merge g) as Hs.
    destruct (MlsGroup.merge_pending_commit g) as [[] g']; cbn in *; by apply rtc_once.
  - pose proof (MlsGroup.step_process frame g) as Hs.
    destruct (MlsGroup.process_message frame g) as [[] g']; cbn in *; by apply rtc_once.
Qed.

Lemma process_frame_evolves frame w : evolves (rm w) (rm (snd (process_frame frame w))).
Proof.
  unfold process_frame. destruct (world_now_spec w) as (now & e & Hn). munfold. rewrite Hn. cbn [rm].
  set (room := FrameHeader.room_id (Frame.header frame)).
  destruct (groups (rm w) !! room) as [group|]; [|by apply evolves_refl].
  unfold on_store. cbn [store rm env].
  destruct (load_mls_state room (store w)) as [[o|?|] s1]; cbn [map_err]; [|by apply evolves_refl..].
  destruct (validate_frame_basic frame group o); [|by apply evolves_refl..].
  unfold on_sequencer. cbn [rm store sequencer env].
  destruct (Sequencer.process_frame frame _) as [[sacts|?|] [q s]]; cbn [map_err]; [|by apply evolves_refl..].
  destruct (validate_sequenced_actions_signatures sacts o); [|by apply evolves_refl..].
  destruct (is_commit frame); [|by apply evolves_refl].
  set (w2 := {| rm := with_sequencer q (rm w); env := e; store := s |}).
  pose proof (follow_commit_evolves room frame w2) as Hf.
  eapply evolves_trans; [by apply (evolves_refl _ (rm w2))|].
  by destruct (follow_commit room frame w2) as [[] w3].
Qed.

Lemma handle_sync_rm room who from limit w :
  rm (snd (handle_sync_request room who from limit w)) = rm w.
Proof.
  unfold handle_sync_request, on_store. destruct (world_now_spec w) as (now & e & Hn). munfold.
  rewrite Hn. cbn [rm]. destruct (groups (rm w) !! room); [|done].
  destruct (load_frames _ _ _ _) as [[fs|?|] s1]; cbn; [|done..].
  destruct (encode_all fs); [|done..]. by destruct (latest_log_index _ _) as [[] s2].
Qed.

Lemma step_evolves w w' : step w w' → evolves (rm w) (rm w').
Proof.
  destruct 1 as [room who w|room kps w|room ids w|room w|room who from limit w|frame w].
  - apply create_room_evolves.
  - apply on_group_evolves. intros g. apply rtc_once, MlsGroup.step_add.
  - apply on_group_evolves. intros g. apply rtc_once, MlsGroup.step_remove.
  - apply on_group_evolves. intros g. apply rtc_once, MlsGroup.step_leave.
  - rewrite handle_sync_rm. by apply evolves_refl.
  - apply process_frame_evolves.
Qed.

(** C26: rooms are consistent and live on.  Starting from an empty manager and
    through any sequence of calls, successful or not, over any storage: a room
    has metadata exactly when it has a group, a group always belongs to its
    room, no room ever disappears, and a room's epoch never decreases. *)
Theorem rooms_consistent e s w w' :
  rtc step {| rm := new; env := e; store := s |} w → rtc step w w' →
  dom (groups (rm w)) = dom (room_metadata (rm w))
  ∧ (∀ r g, groups (rm w) !! r = Some g →
       MlsGroup.room_id g = r
       ∧ ∃ g', groups (rm w') !! r = Some g' ∧ MlsGroup.epoch g ≤ MlsGroup.epoch g').
Proof.
  assert (∀ w1 w2, rtc step w1 w2 → evolves (rm w1) (rm w2)) as Hrtc.
  { induction 1; [by apply evolves_refl|]. eapply evolves_trans; [by apply step_evolves|done]. }
  intros Ha%Hrtc Hb%Hrtc. assert (consistent new) as Hnew by (split; cbn; [by rewrite !dom_empty_L|done]).
  destruct (Ha Hnew) as [Hc _]. destruct (Hb Hc) as [_ He]. split; [apply Hc|].
  intros r g Hg. split; [by apply Hc|by apply He].
Qed.
End rooms.
End manager.
End RoomManager.
Abbreviation RoomManager := RoomManager.RoomManager.

(** ** Witnesses *)
Section room_witnesses.
#[local] Existing Instances ToyMls.ops ToyMls.ed.
Import RoomManager.

(** A room 9 created by member 5, whose group state is stored, and a message of
    that member without a signature. *)
Definition demo_rm : @RoomManager ToyEnv.T (ToyMls.ops _) :=
  {| groups := {[9 := ToyMls.group 9 5]}; sequencer := Sequencer.new;
     room_metadata := {[9 := {| creator := 5; created_at := 0 |}]} |}.
Definition demo_world (st : option MlsGroupState) : world (T := ToyEnv.T) (S := MemoryStorage) :=
  {| rm := demo_rm; env := (0, 0);
     store := {| MemoryStorage.frames := ∅;
                 MemoryStorage.mls_states := match st with Some st => {[9 := st]} | None => ∅ end |} |}.
Definition demo_state : MlsGroupState := MlsGroup.export_validation_state (ToyMls.group 9 5).
Definition demo_msg : Frame :=
  Frame.new (FrameHeader.set_room_id 9 (FrameHeader.set_sender_id 5 (FrameHeader.new Opcode.AppMessage)))
    [Byte.x41].

Lemma demo_winv st : winv (demo_world st).
Proof. by split. Qed.

Lemma bad_signature_wedges_room_witness :
  Sequencer.wedged 9 (sequencer (rm (snd (process_frame demo_msg (demo_world (Some demo_state))))),
                      store (snd (process_frame demo_msg (demo_world (Some demo_state))))).
Proof.
  refine (proj1 (proj2 (bad_signature_wedges_room demo_msg (demo_world (Some demo_state))
    "signature verification failed for sender 5" _ (demo_winv _) eq_refl _))).
  vm_compute. reflexivity.
Defined.

Definition demo_acts := fst (process_frame demo_msg (demo_world None)).

Lemma frames_persisted_twice_witness :
  ∃ room i f now rest,
    demo_acts = Ok (PersistFrame room i f now :: PersistFrame room i f now :: rest).
Proof.
  run_ok (process_frame demo_msg (demo_world None)) as acts w' E.
  destruct (frames_persisted_twice demo_msg (demo_world None) acts w' (demo_winv _) E eq_refl)
    as (room & i & f & now & rest & Hacts & _).
  exists room, i, f, now, rest. unfold demo_acts. rewrite E. cbn. by rewrite Hacts.
Defined.

(** The same room with one frame stored. *)
Definition demo_logged : world (T := ToyEnv.T) (S := MemoryStorage) :=
  {| rm := demo_rm; env := (0, 0);
     store := {| MemoryStorage.frames := {[9 := [Frame.sample]]}; MemoryStorage.mls_states := ∅ |} |}.

Lemma demo_log room : log (store demo_logged) room = if decide (room = 9) then [Frame.sample] else [].
Proof.
  cbn. unfold MemoryStorage.room_log; cbn. case_decide; subst; [done|]. by rewrite lookup_singleton_ne.
Qed.
Lemma demo_logged_winv : winv demo_logged.
Proof.
  split; cbn [fst snd].
  - intros room k f. rewrite demo_log. case_decide; [|done].
    intros [-> <-]%list_lookup_singleton_Some. by vm_compute.
  - intros room. rewrite demo_log. by case_decide.
  - done.
Qed.

Lemma sync_response_exact_witness :
  ∃ bs, fst (handle_sync_request 9 5 0 10 demo_logged) = Ok (SendSyncResponse 5 9 bs false 0 0)
    ∧ Forall2 (λ b f, Frame.decode b = Ok f) bs [Frame.sample].
Proof.
  run_ok (handle_sync_request 9 5 0 10 demo_logged) as a w' E.
  destruct (sync_response_exact 9 5 0 10 demo_logged a w' demo_logged_winv) as (bs & g & now & Ha & Hg & Hb);
    [|lia..|exact E|].
  { rewrite demo_log. repeat constructor; apply Frame.sample_wf. }
  exists bs. cbn [fst]. apply (f_equal fst) in E. vm_compute in E. injection E as <-. injection Ha as <- _ _.
  split; [reflexivity|exact Hb].
Defined.

Lemma rooms_consistent_witness :
  let w0 := {| rm := new; env := (0, 0); store := MemoryStorage.new |} in
  let w := snd (create_room 9 5 (T := ToyEnv.T) (S := MemoryStorage) w0) in
  dom (groups (rm w)) = dom (room_metadata (rm w)).
Proof.
  intros w0 w.
  refine (proj1 (@rooms_consistent ToyEnv.T _ _ _ MemoryStorage _ (ToyMls.ops_ok _) (0, 0)
    MemoryStorage.new w w _ _)); [apply rtc_once, step_create|apply rtc_refl].
Defined.
End room_witnesses.

Section checked_witness.
#[local] Existing Instances ToyMls.ops ToyEd25519.ed.
Import RoomManager.
(** The room of [demo_world] with its group state stored, and a message that its
    member has signed. *)
Definition signed_msg : Frame :=
  {| Frame.header := FrameHeader.set_signature
       (ed_sign (replicate 32 Byte.x01) (FrameHeader.signing_data (Frame.header demo_msg))) (Frame.header demo_msg);
     Frame.payload := Frame.payload demo_msg |}.
End checked_witness.
