(* ===== verification/ServerDriver.v ===== *)
(** * The server driver

    [lockframe-server/src/driver.rs] and [server_error.rs]: connections, registry,
    room manager and storage behind one event handler.  Hash-map iteration order
    is not specified by Rust; the order used here is the map's own, and no
    statement depends on it. *)

From S2P Require Import Prelude Opcodes Header Frame Payload Connection MlsState Storage Sequencer.
From S2P Require Import Registry Validator MlsGroup RoomManager.

Module ServerError.
(** [enum ServerError] of [server_error.rs]. *)
Inductive ServerError : Type :=
| SessionNotFound (session_id : Z)
| SessionAlreadyExists (session_id : Z)
| Room (e : RoomError)
| Storage (e : StorageError)
| ConnectionFailed (session_id : Z) (reason : string)
| Protocol (msg : string).

(** [Display]. *)
Definition to_string (e : ServerError) : string :=
  match e with
  | SessionNotFound id => "session not found: " +:+ fmt_int id
  | SessionAlreadyExists id => "session already exists: " +:+ fmt_int id
  | Room e => "room error: " +:+ RoomError.to_string e
  | Storage e => "storage error: " +:+ StorageError.to_string e
  | ConnectionFailed id reason =>
      "connection failed for session " +:+ fmt_int id +:+ ": " +:+ reason
  | Protocol m => "protocol error: " +:+ m
  end.

(** [From<ProtocolError>]. *)
Definition from_protocol (e : ProtocolError) : ServerError := Protocol (protocol_error_to_string e).
End ServerError.
Abbreviation ServerError := ServerError.ServerError.

Module ExecutorError.
(** [enum ExecutorError] of [server_error.rs] and its [Display]. *)
Inductive ExecutorError : Type :=
| SendFailed (session_id : Z) (reason : string)
| StorageFailed (msg : string)
| Transport (msg : string).

Definition to_string (e : ExecutorError) : string :=
  match e with
  | SendFailed session_id reason =>
      "send failed for session " +:+ fmt_int session_id +:+ ": " +:+ reason
  | StorageFailed msg => "storage failed: " +:+ msg
  | Transport msg => "transport error: " +:+ msg
  end.
End ExecutorError.

(** [struct ServerConfig] and its default. *)
Record ServerConfig : Type := { connection : Connection.ConnectionConfig; max_connections : Z }.
Definition default_server_config : ServerConfig :=
  {| connection := Connection.default_config; max_connections := 10000 |}.

(** [enum ServerEvent]. *)
Inductive ServerEvent : Type :=
| ConnectionAccepted (session_id : Z)
| FrameReceived (session_id : Z) (frame : Frame)
| ConnectionClosed (session_id : Z) (reason : string)
| Tick.

(** [enum LogLevel]. *)
Inductive LogLevel : Type := Debug | Info | Warn | ErrorLevel.

Module ServerAction.
(** [enum ServerAction]. *)
Inductive ServerAction : Type :=
| SendToSession (session_id : Z) (frame : Frame)
| BroadcastToRoom (room_id : Z) (frame : Frame) (exclude_session : option Z)
| CloseConnection (session_id : Z) (reason : string)
| PersistFrame (room_id log_index : Z) (frame : Frame)
| PersistMlsState (room_id : Z) (state : MlsGroupState)
| Log (level : LogLevel) (message : string) (timestamp : Z).
End ServerAction.
Abbreviation ServerAction := ServerAction.ServerAction.

Module ServerDriver.
Import ServerAction.
Section driver.
Context `{PayloadCodec} {T : Type} `{Environment T} `{OpenMls T} `{Ed25519} {S : Type} `{Storage S}.

(** [struct ServerDriver]. *)
Record ServerDriver : Type := {
  connections : gmap Z Connection;
  registry : ConnectionRegistry;
  room_manager : RoomManager;
  storage : S;
  env : T;
  config : ServerConfig;
}.

(** [ServerDriver::new]. *)
Definition new (env : T) (storage : S) (config : ServerConfig) : ServerDriver :=
  {| connections := ∅; registry := ConnectionRegistry.new; room_manager := RoomManager.new;
     storage := storage; env := env; config := config |}.

Definition with_connections (cs : gmap Z Connection) (d : ServerDriver) : ServerDriver :=
  {| connections := cs; registry := registry d; room_manager := room_manager d;
     storage := storage d; env := env d; config := config d |}.
Definition with_registry (r : ConnectionRegistry) (d : ServerDriver) : ServerDriver :=
  {| connections := connections d; registry := r; room_manager := room_manager d;
     storage := storage d; env := env d; config := config d |}.
Definition with_world (w : RoomManager.world) (d : ServerDriver) : ServerDriver :=
  {| connections := connections d; registry := registry d; room_manager := RoomManager.rm w;
     storage := RoomManager.store w; env := RoomManager.env w; config := config d |}.
Definition world_of (d : ServerDriver) : RoomManager.world :=
  {| RoomManager.rm := room_manager d; RoomManager.env := env d; RoomManager.store := storage d |}.

Abbreviation DriverM := (M ServerDriver ServerError).

(** [self.env.now()]. *)
Definition env_now : DriverM Z := λ d,
  let '(t, e) := Environment.now (env d) in
  (Ok t, with_world {| RoomManager.rm := room_manager d; RoomManager.env := e;
                       RoomManager.store := storage d |} d).
(** A call on the room manager, errors converted by [?]. *)
Definition on_rooms {A} (op : M RoomManager.world RoomError A) : DriverM A :=
  m_zoom world_of with_world (m_map_err ServerError.Room op).
(** A call on the registry; the result may be ignored. *)
Definition on_registry {A} (op : ConnectionRegistry → A * ConnectionRegistry) : DriverM A := λ d,
  let '(a, r) := op (registry d) in (Ok a, with_registry r d).
Definition set_connection (session_id : Z) (c : Connection) : DriverM unit :=
  m_modify (λ d, with_connections (<[session_id := c]> (connections d)) d).

(** The loop that turns connection actions into server actions. *)
Definition conn_action (session_id : Z) (a : Connection.ConnectionAction) : ServerAction :=
  match a with
  | Connection.SendFrame f => SendToSession session_id f
  | Connection.Close reason => CloseConnection session_id reason
  end.

(** [ServerDriver::handle_connection_accepted]. *)
Definition handle_connection_accepted (session_id : Z) : DriverM (list ServerAction) :=
  now ← env_now;
  d ← m_get;
  if max_connections (config d) <=? Z.of_nat (size (connections d)) then
    mret [CloseConnection session_id "max connections exceeded"]
  else
    let conn := Connection.set_session_id session_id (Connection.new now (connection (config d))) in
    set_connection session_id conn;;
    on_registry (ConnectionRegistry.register_session session_id SessionInfo.new);;
    mret [Log Debug ("connection " +:+ fmt_int session_id +:+ " accepted, session_id="
                     +:+ fmt_int session_id) now].

(** [ServerDriver::convert_room_action]. *)
Definition convert_room_action (a : RoomAction) (sender_session_id : Z) : DriverM (list ServerAction) :=
  match a with
  | RoomManager.Broadcast room_id frame exclude_sender _ =>
      mret [BroadcastToRoom room_id frame (if exclude_sender then Some sender_session_id else None)]
  | RoomManager.PersistFrame room_id log_index frame _ => mret [PersistFrame room_id log_index frame]
  | RoomManager.PersistMlsState room_id state _ => mret [PersistMlsState room_id state]
  | RejectSender sender_id reason processed_at =>
      let log := Log Warn ("rejected frame from " +:+ fmt_int sender_id +:+ ": " +:+ reason) processed_at in
      match Payload.into_frame (Payload.Error (ErrorPayload.frame_rejected reason))
              (FrameHeader.new Opcode.Error) with
      | Ok frame => mret [SendToSession sender_id frame; log]
      | Err _ => mret [log]
      | Panic => m_lift Panic
      end
  | SendSyncResponse sender_id room_id frames has_more server_epoch _ =>
      let response := Payload.SyncResponse {| session.sync_frames := frames;
        session.sync_has_more := has_more; session.sync_server_epoch := server_epoch |} in
      match Payload.into_frame response (FrameHeader.new Opcode.SyncResponse) with
      | Ok frame =>
          mret [SendToSession sender_id
                  {| Frame.header := FrameHeader.set_room_id room_id (Frame.header frame);
                     Frame.payload := Frame.payload frame |}]
      | Err e =>
          now ← env_now;
          mret [Log ErrorLevel ("failed to encode SyncResponse: " +:+ protocol_error_to_string e) now]
      | Panic => m_lift Panic
      end
  end.

(** [ServerDriver::make_error_response]. *)
Definition make_error_response (session_id room_id : Z) (error : ServerError) :
    DriverM (list ServerAction) :=
  let error_payload :=
    match error with
    | ServerError.Room room_err =>
        match room_err with
        | RoomError.RoomNotFound _ => ErrorPayload.room_not_found room_id
        | RoomError.Storage e => ErrorPayload.storage_error (StorageError.to_string e)
        | RoomError.MlsValidation e => ErrorPayload.mls_error (MlsError.to_string e)
        | RoomError.Sequencing e => ErrorPayload.sequencer_error (SequencerError.to_string e)
        | _ => ErrorPayload.frame_rejected (ServerError.to_string error)
        end
    | ServerError.Protocol msg => ErrorPayload.invalid_payload msg
    | _ => ErrorPayload.frame_rejected (ServerError.to_string error)
    end in
  match Payload.into_frame (Payload.Error error_payload) (FrameHeader.new Opcode.Error) with
  | Ok frame =>
      now ← env_now;
      mret [SendToSession session_id
              {| Frame.header := FrameHeader.set_room_id room_id (Frame.header frame);
                 Frame.payload := Frame.payload frame |};
            Log Warn ("sync request failed for " +:+ fmt_int session_id +:+ ": "
                      +:+ ErrorPayload.message error_payload) now]
  | Err e =>
      now ← env_now;
      mret [Log ErrorLevel ("failed to encode error response: " +:+ protocol_error_to_string e) now]
  | Panic => m_lift Panic
  end.

(** [ServerDriver::handle_sync_request]: errors become a reply to the sender. *)
Definition handle_sync_request (session_id : Z) (frame : Frame) : DriverM (list ServerAction) :=
  let room_id := FrameHeader.room_id (Frame.header frame) in
  result ← m_try (
    payload ← m_lift (map_err ServerError.from_protocol (Payload.from_frame frame));
    match payload with
    | Payload.SyncRequest req =>
        room_action ← on_rooms (RoomManager.handle_sync_request room_id session_id
                        (session.sync_from_log_index req) (session.sync_limit req));
        convert_room_action room_action session_id
    | _ => m_err (ServerError.Protocol "expected SyncRequest payload")
    end);
  match result with
  | Ok actions => mret actions
  | Err e => make_error_response session_id room_id e
  | Panic => m_lift Panic
  end.

(** Room processing followed by the conversion of its actions. *)
Definition process_room_frame (session_id : Z) (frame : Frame) : DriverM (list ServerAction) :=
  room_actions ← on_rooms (RoomManager.process_frame frame);
  m_concat_map (λ a, convert_room_action a session_id) room_actions.

(** [ServerDriver::handle_frame_received]. *)
Definition handle_frame_received (session_id : Z) (frame : Frame) : DriverM (list ServerAction) :=
  now ← env_now;
  d ← m_get;
  match connections d !! session_id with
  | None => m_err (ServerError.SessionNotFound session_id)
  | Some conn =>
      match FrameHeader.opcode_enum (Frame.header frame) with
      | Some ((Opcode.Hello | Opcode.Ping | Opcode.Pong | Opcode.Goodbye) as opcode) =>
          let '(res, conn) := Connection.handle_frame frame now conn in
          set_connection session_id conn;;
          conn_actions ← m_lift (map_err (λ e,
            ServerError.ConnectionFailed session_id (ConnectionError.to_string e)) res);
          (match opcode with
           | Opcode.Hello =>
               on_registry (ConnectionRegistry.sessions_mut session_id (λ _,
                 {| SessionInfo.user_id := Connection.session_id conn;
                    SessionInfo.authenticated := true |}));; mret tt
           | _ => mret tt
           end);;
          mret (map (conn_action session_id) conn_actions)
      | Some Opcode.SyncRequest => handle_sync_request session_id frame
      | Some Opcode.Welcome =>
          let room_id := FrameHeader.room_id (Frame.header frame) in
          set_connection session_id (Connection.update_activity now conn);;
          on_registry (ConnectionRegistry.subscribe session_id room_id);;
          let log := Log Debug ("session " +:+ fmt_int session_id +:+ " subscribed to room "
                                +:+ fmt_hex_pad 32 room_id +:+ " via Welcome") now in
          actions ← process_room_frame session_id frame;
          mret (log :: actions)
      | _ =>
          set_connection session_id (Connection.update_activity now conn);;
          process_room_frame session_id frame
      end
  end.

(** [ServerDriver::handle_connection_closed]. *)
Definition handle_connection_closed (session_id : Z) (reason : string) : DriverM (list ServerAction) :=
  now ← env_now;
  m_modify (λ d, with_connections (delete session_id (connections d)) d);;
  removed ← on_registry (ConnectionRegistry.unregister_session session_id);
  match removed with
  | Some (_, rooms) =>
      mret [Log Info ("connection " +:+ fmt_int session_id +:+ " closed: " +:+ reason +:+ ", was in "
                      +:+ fmt_int (Z.of_nat (size rooms)) +:+ " rooms") now]
  | None => mret []
  end.

(** The body of the loop in [handle_tick]. *)
Definition tick_session (now session_id : Z) : DriverM (list ServerAction) :=
  d ← m_get;
  match connections d !! session_id with
  | None => mret []
  | Some conn =>
      let '(acts, conn) := Connection.tick now conn in
      set_connection session_id conn;;
      mret (map (conn_action session_id) acts)
  end.

(** [ServerDriver::handle_tick]. *)
Definition handle_tick : DriverM (list ServerAction) :=
  now ← env_now;
  d ← m_get;
  m_concat_map (tick_session now) (map fst (map_to_list (connections d))).

(** [ServerDriver::process_event]. *)
Definition process_event (event : ServerEvent) : DriverM (list ServerAction) :=
  match event with
  | ConnectionAccepted session_id => handle_connection_accepted session_id
  | FrameReceived session_id frame => handle_frame_received session_id frame
  | ConnectionClosed session_id reason => handle_connection_closed session_id reason
  | Tick => handle_tick
  end.

(** [ServerDriver::create_room]. *)
Definition create_room (room_id creator_session_id : Z) : DriverM (list ServerAction) :=
  now ← env_now;
  d ← m_get;
  match ConnectionRegistry.sessions (registry d) !! creator_session_id with
  | None => m_err (ServerError.SessionNotFound creator_session_id)
  | Some info =>
      let user_id := default creator_session_id (SessionInfo.user_id info) in
      on_rooms (RoomManager.create_room room_id user_id);;
      on_registry (ConnectionRegistry.subscribe creator_session_id room_id);;
      mret [Log Info ("room " +:+ fmt_hex_pad 32 room_id +:+ " created by session "
                      +:+ fmt_int creator_session_id) now]
  end.

(** [subscribe_to_room], [unsubscribe_from_room], [sessions_in_room],
    [connection_count], [has_room], [room_epoch]. *)
Definition subscribe_to_room (session_id room_id : Z) : DriverM bool :=
  on_registry (ConnectionRegistry.subscribe session_id room_id).
Definition unsubscribe_from_room (session_id room_id : Z) : DriverM bool :=
  on_registry (ConnectionRegistry.unsubscribe session_id room_id).
Definition sessions_in_room (room_id : Z) (d : ServerDriver) : list Z :=
  ConnectionRegistry.sessions_in_room room_id (registry d).
Definition connection_count (d : ServerDriver) : Z := Z.of_nat (size (connections d)).
Definition has_room (room_id : Z) (d : ServerDriver) : bool :=
  RoomManager.has_room room_id (room_manager d).
Definition room_epoch (room_id : Z) (d : ServerDriver) : option Z :=
  RoomManager.epoch room_id (room_manager d).

(** ** The driver's invariant *)

(** Every connection is a registered session and conversely, the registry is
    well-formed, and the connection limit is respected. *)
Record dinv (d : ServerDriver) : Prop := {
  dinv_dom : dom (connections d) = dom (ConnectionRegistry.sessions (registry d));
  dinv_registry : ConnectionRegistry.wf (registry d);
  dinv_limit : Z.of_nat (size (connections d)) ≤ max_connections (config d);
}.

(** Methods that preserve the invariant. *)
Definition kept (d d' : ServerDriver) : Prop := dinv d → dinv d'.
#[local] Instance kept_preorder : PreOrder kept.
Proof. split; unfold kept; [intros d|intros d1 d2 d3]; auto. Qed.
Abbreviation preserves := (respects kept).

(** A change outside connections, registry and configuration. *)
Lemma dinv_with_world w d : dinv d → dinv (with_world w d).
Proof. intros []. by split. Qed.
(** Replacing the state of an existing connection. *)
Lemma dinv_set_connection sid c c' d :
  dinv d → connections d !! sid = Some c →
  dinv (with_connections (<[sid := c']> (connections d)) d).
Proof.
  intros [Hd Hr Hl] Hc. split; cbn; [|done|].
  - by rewrite dom_insert_lookup_L by done.
  - rewrite map_size_insert_Some; [done|]. by eexists.
Qed.
(** Running a registry operation that keeps the set of sessions. *)
Lemma dinv_registry_op o d :
  dinv d →
  dom (ConnectionRegistry.sessions (snd (ConnectionRegistry.run o (registry d))))
  = dom (ConnectionRegistry.sessions (registry d)) →
  dinv (with_registry (snd (ConnectionRegistry.run o (registry d))) d).
Proof.
  intros [Hd Hr Hl] Ho. split; cbn; [by rewrite Ho|by apply ConnectionRegistry.run_wf|done].
Qed.

Lemma env_now_preserves : preserves env_now.
Proof. intros d Hd. unfold env_now. destruct (Environment.now (env d)). by apply dinv_with_world. Qed.
Lemma on_rooms_preserves {A} (op : M RoomManager.world RoomError A) : preserves (on_rooms op).
Proof.
  intros d Hd. unfold on_rooms, m_zoom, m_map_err. destruct (op (world_of d)). by apply dinv_with_world.
Qed.

Lemma subscribe_run sid room reg :
  snd (ConnectionRegistry.subscribe sid room reg)
  = snd (ConnectionRegistry.run (ConnectionRegistry.Subscribe sid room) reg).
Proof. cbn. by destruct (ConnectionRegistry.subscribe sid room reg). Qed.
Lemma subscribe_sessions sid room reg :
  ConnectionRegistry.sessions (snd (ConnectionRegistry.subscribe sid room reg))
  = ConnectionRegistry.sessions reg.
Proof. unfold ConnectionRegistry.subscribe. by destruct (_ !! sid). Qed.
Lemma unsubscribe_run sid room reg :
  snd (ConnectionRegistry.unsubscribe sid room reg)
  = snd (ConnectionRegistry.run (ConnectionRegistry.Unsubscribe sid room) reg).
Proof. cbn. by destruct (ConnectionRegistry.unsubscribe sid room reg). Qed.
Lemma unsubscribe_sessions sid room reg :
  ConnectionRegistry.sessions (snd (ConnectionRegistry.unsubscribe sid room reg))
  = ConnectionRegistry.sessions reg.
Proof. unfold ConnectionRegistry.unsubscribe. by repeat case_match. Qed.
Lemma update_run sid f reg :
  snd (ConnectionRegistry.sessions_mut sid f reg)
  = snd (ConnectionRegistry.run (ConnectionRegistry.Update sid f) reg).
Proof. cbn. by destruct (ConnectionRegistry.sessions_mut sid f reg). Qed.
Lemma update_sessions sid f reg :
  dom (ConnectionRegistry.sessions (snd (ConnectionRegistry.sessions_mut sid f reg)))
  = dom (ConnectionRegistry.sessions reg).
Proof.
  unfold ConnectionRegistry.sessions_mut. destruct (_ !! sid) eqn:E; [|done]. cbn.
  by apply dom_insert_lookup_L.
Qed.

Lemma subscribe_preserves sid room : preserves (on_registry (ConnectionRegistry.subscribe sid room)).
Proof.
  intros d Hd. unfold on_registry. pose proof (subscribe_run sid room (registry d)) as Hr.
  pose proof (subscribe_sessions sid room (registry d)) as Hs.
  destruct (ConnectionRegistry.subscribe sid room (registry d)) as [b reg]. cbn [snd] in *. subst reg.
  apply dinv_registry_op; [done|]. by rewrite Hs.
Qed.
Lemma unsubscribe_preserves sid room : preserves (on_registry (ConnectionRegistry.unsubscribe sid room)).
Proof.
  intros d Hd. unfold on_registry. pose proof (unsubscribe_run sid room (registry d)) as Hr.
  pose proof (unsubscribe_sessions sid room (registry d)) as Hs.
  destruct (ConnectionRegistry.unsubscribe sid room (registry d)) as [b reg]. cbn [snd] in *. subst reg.
  apply dinv_registry_op; [done|]. by rewrite Hs.
Qed.
Lemma update_preserves sid f : preserves (on_registry (ConnectionRegistry.sessions_mut sid f)).
Proof.
  intros d Hd. unfold on_registry. pose proof (update_run sid f (registry d)) as Hr.
  pose proof (update_sessions sid f (registry d)) as Hs.
  destruct (ConnectionRegistry.sessions_mut sid f (registry d)) as [b reg]. cbn [snd] in *. subst reg.
  by apply dinv_registry_op.
Qed.

#[local] Hint Resolve env_now_preserves on_rooms_preserves subscribe_preserves
  unsubscribe_preserves update_preserves : respects.

Lemma convert_room_action_preserves a sid : preserves (convert_room_action a sid).
Proof. destruct a; cbn; auto with respects; case_match; auto with respects. Qed.
#[local] Hint Resolve convert_room_action_preserves : respects.

Lemma make_error_response_preserves sid room e : preserves (make_error_response sid room e).
Proof. unfold make_error_response. case_match; auto 6 with respects. Qed.
#[local] Hint Resolve make_error_response_preserves : respects.

Lemma handle_sync_request_preserves sid f : preserves (handle_sync_request sid f).
Proof.
  unfold handle_sync_request. apply (respects_bind kept).
  - apply (respects_try kept), (respects_bind kept); [auto with respects|]. intros p.
    destruct p; auto with respects.
  - intros []; auto with respects.
Qed.
Lemma process_room_frame_preserves sid f : preserves (process_room_frame sid f).
Proof. unfold process_room_frame. auto 6 with respects. Qed.
#[local] Hint Resolve handle_sync_request_preserves process_room_frame_preserves : respects.

(** After reading the clock, a method goes on from the same connections. *)
Lemma driver_now_spec d :
  ∃ t e, env_now d = (Ok t, with_world {| RoomManager.rm := room_manager d; RoomManager.env := e;
                                          RoomManager.store := storage d |} d).
Proof. unfold env_now. destruct (Environment.now (env d)). eauto. Qed.

(** The state changes of an accepted connection, on any driver with room. *)
Lemma dinv_accept sid c d :
  dinv d → Z.of_nat (size (connections d)) < max_connections (config d) →
  dinv (with_registry (snd (ConnectionRegistry.register_session sid SessionInfo.new (registry d)))
         (with_connections (<[sid := c]> (connections d)) d)).
Proof.
  intros [Hdom Hr Hl] Hmax. split; cbn.
  - unfold ConnectionRegistry.register_session.
    destruct (ConnectionRegistry.sessions (registry d) !! sid) eqn:Hs; cbn.
    + rewrite dom_insert_L, Hdom. apply elem_of_dom_2 in Hs. set_solver.
    + by rewrite !dom_insert_L, Hdom.
  - by apply ConnectionRegistry.register_wf.
  - rewrite map_size_insert. case_match; unfold id; lia.
Qed.

Lemma accepted_preserves sid : preserves (handle_connection_accepted sid).
Proof.
  intros d Hd. unfold handle_connection_accepted. destruct (driver_now_spec d) as (t & e & Hn).
  munfold. rewrite Hn. clear Hn.
  match goal with |- context [with_world ?w d] => pose proof (dinv_with_world w d Hd) as Hd1;
    set (d1 := with_world w d) in * end.
  destruct (max_connections (config d1) <=? Z.of_nat (size (connections d1))) eqn:Hmax; [done|].
  bool_to_prop. unfold set_connection, on_registry. munfold.
  pose proof (dinv_accept sid (Connection.set_session_id sid (Connection.new t (connection (config d1))))
    d1 Hd1 Hmax) as Hacc.
  cbn [registry with_connections] in *. by destruct (ConnectionRegistry.register_session _ _ _).
Qed.

Lemma closed_preserves sid reason : preserves (handle_connection_closed sid reason).
Proof.
  intros d Hd. unfold handle_connection_closed. destruct (driver_now_spec d) as (t & e & Hn).
  munfold. rewrite Hn. clear Hn.
  match goal with |- context [with_world ?w d] => pose proof (dinv_with_world w d Hd) as Hd1;
    set (d1 := with_world w d) in * end.
  destruct Hd1 as [Hdom Hr Hl]. unfold on_registry. cbn [registry with_connections].
  pose proof (ConnectionRegistry.unregister_wf sid _ Hr) as Hw.
  assert (ConnectionRegistry.sessions (snd (ConnectionRegistry.unregister_session sid (registry d1)))
          = delete sid (ConnectionRegistry.sessions (registry d1))) as Hs.
  { unfold ConnectionRegistry.unregister_session. destruct (_ !! sid) eqn:E; [done|].
    cbn. by rewrite delete_id. }
  destruct (ConnectionRegistry.unregister_session sid (registry d1)) as [r reg]. cbn [snd] in *.
  assert (dinv (with_registry reg (with_connections (delete sid (connections d1)) d1))) as Hfin.
  { split; cbn [connections registry config with_registry with_connections]; [|done|].
    - by rewrite Hs, !dom_delete_L, Hdom.
    - rewrite map_size_delete. case_match; unfold id; lia. }
  by destruct r as [[info rooms]|].
Qed.

Lemma tick_session_preserves now sid : preserves (tick_session now sid).
Proof.
  intros d Hd. unfold tick_session. munfold. destruct (connections d !! sid) as [c|] eqn:Hc; [|done].
  destruct (Connection.tick now c) as [acts c']. by apply (dinv_set_connection sid c).
Qed.

Lemma tick_preserves : preserves handle_tick.
Proof.
  unfold handle_tick. apply (respects_bind kept); [auto with respects|]. intros now d Hd. munfold.
  apply (respects_concat_map kept); [|done]. intros sid _. apply tick_session_preserves.
Qed.

Lemma frame_received_preserves sid frame : preserves (handle_frame_received sid frame).
Proof.
  unfold handle_frame_received. apply (respects_bind kept); [auto with respects|].
  intros now d Hd.
  match goal with |- dinv (snd ((m_get ≫= ?k) d)) => change (dinv (snd (k d d))) end. cbv beta.
  destruct (connections d !! sid) as [conn|] eqn:Hc; [|done].
  assert (∀ conn' A (k : DriverM A), preserves k →
    dinv (snd ((set_connection sid conn';; k) d))) as Hset.
  { intros conn' A k Hk. unfold set_connection. munfold. apply Hk. by apply (dinv_set_connection sid conn). }
  repeat case_match; try (apply Hset; auto 6 with respects); apply handle_sync_request_preserves; done.
Qed.

Lemma process_event_preserves ev : preserves (process_event ev).
Proof.
  destruct ev; cbn; auto using accepted_preserves, frame_received_preserves, closed_preserves, tick_preserves.
Qed.

Lemma create_room_preserves room sid : preserves (create_room room sid).
Proof.
  unfold create_room. apply (respects_bind kept); [auto with respects|]. intros now d Hd. munfold.
  destruct (_ !! sid) as [info|]; [|done].
  pose proof (on_rooms_preserves (RoomManager.create_room room (default sid (SessionInfo.user_id info))) d Hd) as H1'.
  destruct (on_rooms _ d) as [[a|e|] d1]; cbn in *; [|done..].
  pose proof (subscribe_preserves sid room d1 H1') as H2'.
  by destruct (on_registry _ d1) as [[b|e|] d2].
Qed.

(** One call of the driver's interface. *)
Inductive step : ServerDriver → ServerDriver → Prop :=
| step_event ev d : step d (snd (process_event ev d))
| step_create room sid d : step d (snd (create_room room sid d))
| step_subscribe sid room d : step d (snd (subscribe_to_room sid room d))
| step_unsubscribe sid room d : step d (snd (unsubscribe_from_room sid room d)).

Lemma step_dinv d d' : step d d' → dinv d → dinv d'.
Proof.
  destruct 1; [apply process_event_preserves|apply create_room_preserves
    |apply subscribe_preserves|apply unsubscribe_preserves].
Qed.

Lemma reachable_dinv e st cfg d :
  0 ≤ max_connections cfg → rtc step (new e st cfg) d → dinv d.
Proof.
  intros Hm Hr. assert (dinv (new e st cfg)) as H0'.
  { split; cbn; [done|apply ConnectionRegistry.wf_new|done]. }
  induction Hr; eauto using step_dinv.
Qed.

(** ** Properties *)

(** C24: the driver's bookkeeping is consistent.  In every state reachable from a
    fresh driver by any events and calls: the connections are exactly the
    registered sessions, the registry's two indexes agree, only connected
    sessions are subscribed to rooms (so a broadcast never targets a session
    that is gone), and the connection limit holds. *)
Theorem driver_consistent e st cfg d :
  0 ≤ max_connections cfg → rtc step (new e st cfg) d →
  dom (connections d) = dom (ConnectionRegistry.sessions (registry d))
  ∧ ConnectionRegistry.wf (registry d)
  ∧ (∀ room sid, sid ∈ sessions_in_room room d → is_Some (connections d !! sid))
  ∧ connection_count d ≤ max_connections (config d).
Proof.
  intros Hm Hr. destruct (reachable_dinv e st cfg d Hm Hr) as [Hdom Hreg Hl]. split_and!; try done.
  intros room sid Hs. unfold sessions_in_room, ConnectionRegistry.sessions_in_room in Hs.
  apply elem_of_elements, (ConnectionRegistry.subscribed_registered _ sid room Hreg), elem_of_dom in Hs.
  rewrite <-Hdom in Hs. by apply elem_of_dom.
Qed.

(** Closing a connection leaves nothing behind: afterwards the session has no
    connection, is not registered, and is subscribed to no room, while every
    other session keeps its connection and its subscriptions. *)
Theorem closed_session_forgotten sid reason d :
  dinv d →
  let d' := snd (process_event (ConnectionClosed sid reason) d) in
  connections d' !! sid = None
  ∧ ConnectionRegistry.has_session sid (registry d') = false
  ∧ (∀ room, sid ∉ sessions_in_room room d')
  ∧ (∀ other, other ≠ sid → connections d' !! other = connections d !! other
       ∧ ∀ room, other ∈ sessions_in_room room d' ↔ other ∈ sessions_in_room room d).
Proof.
  intros Hd d'. pose proof (dinv_registry _ Hd) as Hreg.
  assert (connections d' = delete sid (connections d)
    ∧ registry d' = snd (ConnectionRegistry.run (ConnectionRegistry.Unregister sid) (registry d))) as [Hc Hr].
  { unfold d'. cbn [process_event]. unfold handle_connection_closed, on_registry.
    destruct (driver_now_spec d) as (t & e & Hn). munfold. rewrite Hn. cbn.
    destruct (ConnectionRegistry.unregister_session sid (registry d)) as [[[info rooms]|] reg]; done. }
  pose proof (ConnectionRegistry.run_spec (ConnectionRegistry.Unregister sid) _ Hreg) as (Hss & HR & _).
  rewrite <-Hr in Hss, HR. rewrite Hc.
  assert (∀ x room, x ∈ sessions_in_room room d' ↔ x ∈ sessions_in_room room d ∧ x ≠ sid) as Hroom.
  { intros x room. unfold sessions_in_room, ConnectionRegistry.sessions_in_room.
    rewrite !elem_of_elements. apply HR. }
  split_and!.
  - by rewrite lookup_delete_eq.
  - unfold ConnectionRegistry.has_session. rewrite Hss, lookup_delete_eq. done.
  - intros room. rewrite Hroom. naive_solver.
  - intros other Ho. split; [by rewrite lookup_delete_ne|]. intros room. rewrite Hroom. naive_solver.
Qed.

(** *** What room processing sees of the connections *)

(** A method that neither reads nor writes the connections. *)
Definition blind {A} (m : DriverM A) : Prop :=
  ∀ cs d, m (with_connections cs d) = (fst (m d), with_connections cs (snd (m d))).

Lemma blind_ret {A} (a : A) : blind (mret a).
Proof. done. Qed.
Lemma blind_lift {A} (r : outcome ServerError A) : blind (m_lift r).
Proof. done. Qed.
Lemma blind_bind {A B} (m : DriverM A) (f : A → DriverM B) :
  blind m → (∀ a, blind (f a)) → blind (m ≫= f).
Proof.
  intros Hm Hf cs d. munfold. rewrite Hm. destruct (m d) as [[a|e|] d']; cbn; [apply Hf|done..].
Qed.
Lemma blind_concat_map {A B} (f : A → DriverM (list B)) l :
  (∀ a, blind (f a)) → blind (m_concat_map f l).
Proof.
  intros Hf. induction l as [|a l IH]; cbn; [apply blind_ret|].
  apply blind_bind; [done|]. intros. apply blind_bind; [done|]. intros. apply blind_ret.
Qed.
Lemma blind_env_now : blind env_now.
Proof. intros cs d. unfold env_now. cbn. by destruct (Environment.now (env d)). Qed.
Lemma blind_on_rooms {A} (op : M RoomManager.world RoomError A) : blind (on_rooms op).
Proof.
  intros cs d. unfold on_rooms, m_zoom, m_map_err. unfold world_of; cbn.
  by destruct (op _) as [r w].
Qed.
Lemma blind_on_registry {A} (op : ConnectionRegistry → A * ConnectionRegistry) : blind (on_registry op).
Proof. intros cs d. unfold on_registry; cbn. by destruct (op (registry d)). Qed.
#[local] Hint Resolve blind_ret blind_lift blind_bind blind_concat_map blind_env_now blind_on_rooms
  blind_on_registry : blind.
Lemma blind_convert a sid : blind (convert_room_action a sid).
Proof. destruct a; cbn; auto with blind; case_match; auto with blind. Qed.
#[local] Hint Resolve blind_convert : blind.
Lemma blind_process_room_frame sid f : blind (process_room_frame sid f).
Proof. unfold process_room_frame. auto with blind. Qed.

(** Room processing leaves the registry alone. *)
Definition same_registry (d d' : ServerDriver) : Prop := registry d' = registry d.
#[local] Instance same_registry_preorder : PreOrder same_registry.
Proof. split; unfold same_registry; [intros d|intros d1 d2 d3]; congruence. Qed.
Abbreviation keeps_registry := (respects same_registry).
Lemma keeps_env_now : keeps_registry env_now.
Proof. intros d. unfold env_now. by destruct (Environment.now (env d)). Qed.
Lemma keeps_on_rooms {A} (op : M RoomManager.world RoomError A) : keeps_registry (on_rooms op).
Proof. intros d. unfold on_rooms, m_zoom, m_map_err. by destruct (op _). Qed.
#[local] Hint Resolve keeps_env_now keeps_on_rooms : respects.
Lemma keeps_convert a sid : keeps_registry (convert_room_action a sid).
Proof. destruct a; cbn; auto with respects; case_match; auto with respects. Qed.
Lemma keeps_process_room_frame sid f : keeps_registry (process_room_frame sid f).
Proof. unfold process_room_frame. auto using keeps_convert with respects. Qed.

(** The opcodes that the driver does not hand to room processing. *)
Definition session_opcode (o : option Opcode) : bool :=
  match o with
  | Some (Opcode.Hello | Opcode.Ping | Opcode.Pong | Opcode.Goodbye | Opcode.SyncRequest) => true
  | _ => false
  end.

(** What the driver does with a room-level frame once it has a connection. *)
Definition route_room_frame (sid : Z) (frame : Frame) (now : Z) : DriverM (list ServerAction) :=
  if Sequencer.is_welcome frame then
    on_registry (ConnectionRegistry.subscribe sid (FrameHeader.room_id (Frame.header frame)));;
    actions ← process_room_frame sid frame;
    mret (Log Debug ("session " +:+ fmt_int sid +:+ " subscribed to room "
            +:+ fmt_hex_pad 32 (FrameHeader.room_id (Frame.header frame)) +:+ " via Welcome") now :: actions)
  else process_room_frame sid frame.

Lemma blind_route sid frame now : blind (route_room_frame sid frame now).
Proof.
  unfold route_room_frame. case_match; [|apply blind_process_room_frame].
  apply blind_bind; [auto with blind|]. intros. apply blind_bind; [apply blind_process_room_frame|].
  auto with blind.
Qed.

Lemma handle_room_frame sid frame d c :
  connections d !! sid = Some c →
  session_opcode (FrameHeader.opcode_enum (Frame.header frame)) = false →
  ∃ now e, let d1 := with_world {| RoomManager.rm := room_manager d; RoomManager.env := e;
                                   RoomManager.store := storage d |} d in
    (∀ cs, env_now (with_connections cs d) = (Ok now, with_connections cs d1))
    ∧ process_event (FrameReceived sid frame) d
      = (fst (route_room_frame sid frame now d1),
         with_connections (<[sid := Connection.update_activity now c]> (connections d))
           (snd (route_room_frame sid frame now d1))).
Proof.
  intros Hc Ho. destruct (driver_now_spec d) as (now & e & Hn). exists now, e. cbn zeta. split.
  { intros cs. by rewrite blind_env_now, Hn. }
  set (d1 := with_world _ d) in *.
  cbn [process_event]. unfold handle_frame_received. munfold. rewrite Hn.
  assert (connections d1 = connections d) as Hcd by done. rewrite Hcd, Hc.
  rewrite <-(blind_route sid frame now
    (<[sid := Connection.update_activity now c]> (connections d)) d1).
  unfold route_room_frame, Sequencer.is_welcome, set_connection. munfold.
  destruct (FrameHeader.opcode_enum (Frame.header frame)) as [[]|]; done.
Qed.

(** A frame for a room that is accepted: its index is handed out, and the driver
    returns what has to be stored and sent. *)
Lemma room_frame_ordered `{!StorageOk S} sid frame d acts d' :
  RoomManager.winv (world_of d) →
  session_opcode (FrameHeader.opcode_enum (Frame.header frame)) = false →
  Sequencer.is_welcome frame = false →
  process_event (FrameReceived sid frame) d = (Ok acts, d') →
  let room := FrameHeader.room_id (Frame.header frame) in
  let next d := Sequencer.next_of room (RoomManager.sequencer (room_manager d), storage d) in
  ∃ rest, let f := Sequencer.rebuild_frame_with_index frame (next d) in
    acts = [PersistFrame room (next d) f; PersistFrame room (next d) f; BroadcastToRoom room f None] ++ rest
    ∧ (rest = [] ∨ ∃ st, rest = [PersistMlsState room st])
    ∧ RoomManager.winv (world_of d') ∧ (∀ r, log (storage d') r = log (storage d) r)
    ∧ next d' = next d + 1.
Proof.
  intros Hi Ho Hw Hp room next.
  destruct (connections d !! sid) as [c|] eqn:Hc; swap 1 2.
  { cbn [process_event] in Hp. unfold handle_frame_received in Hp.
    destruct (driver_now_spec d) as (now & e & Hn). munfold. rewrite Hn in Hp. cbn in Hp. by rewrite Hc in Hp. }
  destruct (handle_room_frame sid frame d c Hc Ho) as (now & e & _ & Heq). rewrite Hp in Heq. clear Hp.
  set (d1 := with_world _ d) in *. unfold route_room_frame, process_room_frame, on_rooms in Heq.
  rewrite Hw in Heq. munfold.
  destruct (RoomManager.process_frame frame (world_of d1)) as [[racts|e'|] w'] eqn:Hpf;
    cbn [map_err] in Heq; [|by simplify_eq..].
  destruct (RoomManager.process_frame_Ok frame (world_of d1) racts w' Hi Hpf)
    as (group & sacts & t & extra & _ & _ & _ & _ & -> & Hx & Hl & Hi' & Hacts).
  rewrite Hw in Hacts. destruct Hacts as (i & -> & _ & Hin & Hnext). fold room in Hin, Hnext, Hx.
  assert (next d = i) as -> by exact Hin.
  destruct Hx as [->|[st ->]]; cbn in Heq; munfold; cbn in Heq; injection Heq as -> ->.
  - exists []. split_and!; auto.
  - exists [PersistMlsState room st]. split_and!; eauto.
Qed.

(** Room processing does not ask for a handshake.  For every frame that is
    not a session-layer frame, the driver's answer and all of its state other
    than the connection entry itself are the same whatever state the sender's
    connection is in: never authenticated, authenticated or closed. *)
Theorem room_frames_ignore_handshake sid frame d c cs :
  connections d !! sid = Some c →
  session_opcode (FrameHeader.opcode_enum (Frame.header frame)) = false →
  let d2 := with_connections (<[sid := Connection.with_state cs c]> (connections d)) d in
  let '(r, d') := process_event (FrameReceived sid frame) d in
  let '(r2, d2') := process_event (FrameReceived sid frame) d2 in
  r2 = r ∧ registry d2' = registry d' ∧ room_manager d2' = room_manager d' ∧ storage d2' = storage d'.
Proof.
  intros Hc Ho d2. destruct (handle_room_frame sid frame d c Hc Ho) as (now & e & Hn & ->).
  destruct (handle_room_frame sid frame d2 (Connection.with_state cs c)) as (now2 & e2 & Hn2 & ->);
    [by apply lookup_insert_eq|done|].
  specialize (Hn (connections d)). specialize (Hn2 (connections d)).
  assert (with_connections (connections d) d = d) as Hid by by destruct d. rewrite Hid in Hn.
  replace (with_connections (connections d) d2) with d in Hn2 by by destruct d.
  rewrite Hn in Hn2. injection Hn2 as <- <-.
  cbn [d2 with_connections room_manager storage].
  set (d1 := with_world {| RoomManager.rm := room_manager d; RoomManager.env := e;
    RoomManager.store := storage d |} d) in *.
  match goal with |- context [route_room_frame sid frame now ?dd] =>
    lazymatch dd with d1 => fail | _ =>
      change dd with (with_connections (connections d2) d1) end end.
  rewrite blind_route. cbn. by destruct (route_room_frame sid frame now d1) as [r d'].
Qed.

(** A Welcome subscribes its sender, not its recipient, and does so before any
    check: whatever becomes of the frame, even when it is refused, the session
    that sent it receives the room's broadcasts from then on. *)
Theorem welcome_subscribes_sender sid frame d c :
  dinv d → connections d !! sid = Some c →
  FrameHeader.opcode_enum (Frame.header frame) = Some Opcode.Welcome →
  sid ∈ sessions_in_room (FrameHeader.room_id (Frame.header frame))
          (snd (process_event (FrameReceived sid frame) d)).
Proof.
  intros Hd Hc Ho. destruct (handle_room_frame sid frame d c Hc ltac:(by rewrite Ho)) as (now & e & _ & ->).
  set (d1 := with_world _ d). set (room := FrameHeader.room_id (Frame.header frame)).
  assert (registry (snd (route_room_frame sid frame now d1))
          = snd (ConnectionRegistry.subscribe sid room (registry d))) as Hreg.
  { unfold route_room_frame, Sequencer.is_welcome. rewrite Ho. munfold. unfold on_registry. fold room.
    change (registry d1) with (registry d).
    destruct (ConnectionRegistry.subscribe sid room (registry d)) as [b reg]. cbn.
    pose proof (keeps_process_room_frame sid frame (with_registry reg d1)) as Hk.
    destruct (process_room_frame sid frame (with_registry reg d1)) as [[] d3]; exact Hk. }
  unfold sessions_in_room, ConnectionRegistry.sessions_in_room. apply elem_of_elements.
  change (sid ∈ ConnectionRegistry.at_key (ConnectionRegistry.room_subscriptions
    (registry (snd (route_room_frame sid frame now d1)))) room). rewrite Hreg.
  assert (is_Some (ConnectionRegistry.sessions (registry d) !! sid)) as Hs.
  { apply elem_of_dom. rewrite <-(dinv_dom _ Hd). by eapply elem_of_dom_2. }
  pose proof (ConnectionRegistry.run_spec (ConnectionRegistry.Subscribe sid room) (registry d)
    (dinv_registry _ Hd)) as (_ & _ & HR).
  rewrite subscribe_run. apply HR. right. done.
Qed.
End driver.

Section memory.
Context `{PayloadCodec} {T : Type} `{Environment T} `{OpenMls T} `{Ed25519}.

(** C40: one catch-up request can stop the server.  With the in-memory storage, a
    [SyncRequest] for an existing room whose range starts inside the log and ends
    beyond [u64::MAX] makes the driver panic, from any connection in any state;
    panics abort the process. *)
Theorem sync_request_panics (d : ServerDriver (S := MemoryStorage)) sid frame c req group fs :
  let room := FrameHeader.room_id (Frame.header frame) in
  connections d !! sid = Some c →
  FrameHeader.opcode_enum (Frame.header frame) = Some Opcode.SyncRequest →
  Payload.from_frame frame = Ok (Payload.SyncRequest req) →
  RoomManager.groups (room_manager d) !! room = Some group →
  MemoryStorage.frames (storage d) !! room = Some fs → zlen fs < U64_MOD →
  0 ≤ session.sync_from_log_index req ≤ zlen fs → 0 ≤ session.sync_limit req < U64_MOD →
  U64_MOD ≤ session.sync_from_log_index req + session.sync_limit req →
  fst (process_event (FrameReceived sid frame) d) = Panic.
Proof.
  intros room Hc Ho Hp Hg Hfs Hlen Hfrom Hlim Hover.
  cbn [process_event]. unfold handle_frame_received, handle_sync_request, on_rooms.
  destruct (driver_now_spec d) as (now & e & Hn). munfold. rewrite Hn.
  set (d1 := with_world _ d) in *. change (connections d1) with (connections d). rewrite Hc, Ho, Hp.
  fold room. unfold RoomManager.handle_sync_request, RoomManager.on_store. munfold.
  destruct (RoomManager.world_now_spec (world_of d1)) as (t & e1 & Hn1). rewrite Hn1.
  cbn [RoomManager.rm RoomManager.store RoomManager.env].
  change (RoomManager.rm (world_of d1)) with (room_manager d). rewrite Hg.
  change (RoomManager.store (world_of d1)) with (storage d). cbn [load_frames MemoryStorage.memory_storage].
  rewrite (MemoryStorage.load_frames_spec room _ _ (storage d) fs) by (done || lia).
  rewrite (proj2 (Z.leb_le _ _)), (proj2 (Z.leb_le _ _)) by lia. done.
Qed.
End memory.
End ServerDriver.
Abbreviation ServerDriver := ServerDriver.ServerDriver.

(** ** Witnesses *)
Section driver_witnesses.
#[local] Existing Instances ToyCodec.codec ToyMls.ops ToyMls.ed.
Import ServerDriver.

Definition demo_driver : ServerDriver (T := ToyEnv.T) (S := MemoryStorage) :=
  new (0, 0) MemoryStorage.new default_server_config.
Definition demo_connected : ServerDriver (T := ToyEnv.T) (S := MemoryStorage) :=
  snd (process_event (ConnectionAccepted 4) demo_driver).

Lemma driver_consistent_witness : connection_count demo_connected ≤ 10000.
Proof.
  destruct (driver_consistent (0, 0) MemoryStorage.new default_server_config demo_connected)
    as (_ & _ & _ & Hl); [done|apply rtc_once, step_event|]. exact Hl.
Defined.

Lemma demo_dinv : dinv demo_connected.
Proof.
  apply (reachable_dinv (0, 0) MemoryStorage.new default_server_config); [done|].
  apply rtc_once, step_event.
Qed.

Lemma closed_session_forgotten_witness :
  connections (snd (process_event (ConnectionClosed 4 "bye") demo_connected)) !! 4 = None.
Proof. exact (proj1 (closed_session_forgotten 4 "bye" demo_connected demo_dinv)). Defined.

Definition demo_welcome : Frame := Frame.new (FrameHeader.set_room_id 9 (FrameHeader.new Opcode.Welcome)) [].
Definition demo_conn : Connection :=
  Connection.set_session_id 4 (Connection.new 0 Connection.default_config).

Lemma welcome_subscribes_sender_witness :
  4 ∈ sessions_in_room 9 (snd (process_event (FrameReceived 4 demo_welcome) demo_connected))
  ∧ fst (process_event (FrameReceived 4 demo_welcome) demo_connected)
    = Err (ServerError.Room (RoomError.RoomNotFound 9)).
Proof.
  split; [|vm_compute; reflexivity].
  apply (welcome_subscribes_sender 4 demo_welcome demo_connected demo_conn demo_dinv);
    vm_compute; reflexivity.
Defined.

Lemma room_frames_ignore_handshake_witness :
  let d2 := with_connections (<[4 := Connection.with_state ConnectionState.Closed demo_conn]>
              (connections demo_connected)) demo_connected in
  fst (process_event (FrameReceived 4 demo_welcome) d2)
  = fst (process_event (FrameReceived 4 demo_welcome) demo_connected).
Proof.
  intros d2.
  pose proof (room_frames_ignore_handshake 4 demo_welcome demo_connected demo_conn ConnectionState.Closed
    ltac:(vm_compute; reflexivity) ltac:(vm_compute; reflexivity)) as T. cbv zeta in T. fold d2 in T.
  destruct (process_event (FrameReceived 4 demo_welcome) demo_connected) as [r d'].
  destruct (process_event (FrameReceived 4 demo_welcome) d2) as [r2 d2']. exact (proj1 T).
Defined.

Definition demo_sync : Frame :=
  match Payload.into_frame (Payload.SyncRequest {| session.sync_from_log_index := 1;
          session.sync_limit := U64_MAX |})
          (FrameHeader.set_room_id 9 (FrameHeader.new Opcode.SyncRequest)) with
  | Ok f => f
  | _ => Frame.sample
  end.
Definition demo_stored : ServerDriver (T := ToyEnv.T) (S := MemoryStorage) :=
  with_world {| RoomManager.rm := demo_rm; RoomManager.env := (0, 0);
                RoomManager.store := {| MemoryStorage.frames := {[9 := [Frame.sample]]};
                                        MemoryStorage.mls_states := ∅ |} |} demo_connected.

Lemma sync_request_panics_witness :
  fst (process_event (FrameReceived 4 demo_sync) demo_stored) = Panic.
Proof.
  apply (sync_request_panics demo_stored 4 demo_sync demo_conn
    {| session.sync_from_log_index := 1; session.sync_limit := U64_MAX |} (ToyMls.group 9 5) [Frame.sample]);
    try (vm_compute; reflexivity); try (cbn; lia); vm_compute; split; discriminate.
Defined.
End driver_witnesses.
