(* ===== verification/Server.v ===== *)
(** * The server runtime

    [lockframe-server/src/lib.rs] and [error.rs]: reading frames from a stream,
    handing them to the driver, and executing the driver's actions.

    QUIC streams and tasks are I/O.  What is modelled is what the code does with
    the bytes it has read, with the table of live connections and with the
    driver.  A write to a connection of the table is recorded in an outbox; the code
    ignores its result, so the outbox holds what was handed to connections, which a
    failing connection need not deliver.  The driver's lock is taken once for [process_event] and
    once more for [execute_actions], so tasks interleave between the two. *)

From S2P Require Import Prelude Opcodes Header Frame Payload Connection MlsState Storage Sequencer.
From S2P Require Import Registry Validator MlsGroup RoomManager ServerDriver.

(** [enum ServerError] of [error.rs]. *)
Inductive RuntimeError : Type :=
| Config (msg : string)
| Transport (msg : string)
| ProtocolErr (msg : string)
| Internal (msg : string)
| Driver (e : ServerError).
(** [Display], and [From<std::io::Error>] on the error's text. *)
Definition runtime_error_to_string (e : RuntimeError) : string :=
  match e with
  | Config msg => "configuration error: " +:+ msg
  | Transport msg => "transport error: " +:+ msg
  | ProtocolErr msg => "protocol error: " +:+ msg
  | Internal msg => "internal error: " +:+ msg
  | Driver err => "driver error: " +:+ ServerError.to_string err
  end.
Definition runtime_from_io (msg : string) : RuntimeError := Transport msg.

(** [enum BroadcastPolicy] of [executor.rs] and its default. *)
Inductive BroadcastPolicy : Type :=
| BestEffort
| Retry (max_attempts initial_backoff_ms : Z).
Definition default_broadcast_policy : BroadcastPolicy := BestEffort.

Module Server.
Import ServerAction.

(** ** Reading frames *)

(** One round of the loop in [handle_stream] on the bytes that will arrive. *)
Inductive read_result : Type :=
| ReadError
| DecodeError (e : ProtocolError)
| DecodePanic
| Got (frame : Frame) (rest : bytes).

Definition read_frame (input : bytes) : read_result :=
  if zlen input <? 128 then ReadError
  else
    let header := FrameHeader.layout (take 128 input) in
    let payload_size := FrameHeader.payload_size header in
    if zlen input <? 128 + payload_size then ReadError
    else
      let n := (128 + Z.to_nat payload_size)%nat in
      match Frame.decode (take n input) with
      | Ok f => Got f (drop n input)
      | Err e => DecodeError e
      | Panic => DecodePanic
      end.

(** The frames a stream delivers before the loop ends, with the reason. *)
Fixpoint read_frames (fuel : nat) (input : bytes) : option (list Frame * read_result) :=
  match fuel with
  | O => None
  | S fuel =>
      match read_frame input with
      | Got f rest =>
          match read_frames fuel rest with
          | Some (fs, r) => Some (f :: fs, r)
          | None => None
          end
      | r => Some ([], r)
      end
  end.

Section runtime.
Context `{PayloadCodec} {T : Type} `{Environment T} `{OpenMls T} `{Ed25519} {S : Type} `{Storage S}.

(** The driver with the runtime's [SharedState] and what has been written. *)
Record Runtime : Type := {
  driver : ServerDriver (T := T) (S := S);
  live : gset Z;
  sent : list (Z * bytes);
}.

Definition with_driver (d : ServerDriver (T := T) (S := S)) (rt : Runtime) : Runtime :=
  {| driver := d; live := live rt; sent := sent rt |}.
Definition with_live (l : gset Z) (rt : Runtime) : Runtime :=
  {| driver := driver rt; live := l; sent := sent rt |}.
(** Writes a buffer to a connection that is still in the table. *)
Definition write_to (sid : Z) (buf : bytes) (rt : Runtime) : Runtime :=
  if decide (sid ∈ live rt) then {| driver := driver rt; live := live rt; sent := sent rt ++ [(sid, buf)] |}
  else rt.
Definition set_storage (s : S) (d : ServerDriver (T := T) (S := S)) : ServerDriver (T := T) (S := S) :=
  ServerDriver.with_world {| RoomManager.rm := ServerDriver.room_manager d;
    RoomManager.env := ServerDriver.env d; RoomManager.store := s |} d.

Abbreviation RtM := (M Runtime RuntimeError).

(** A storage call whose error is only logged. *)
Definition on_storage {A} (op : M S StorageError A) : RtM unit := λ rt,
  let '(r, s) := op (ServerDriver.storage (driver rt)) in
  (match r with Panic => Panic | _ => Ok tt end, with_driver (set_storage s (driver rt)) rt).

(** [frame.encode(&mut buf).map_err(..)?]. *)
Definition encode_ (frame : Frame) : outcome RuntimeError bytes :=
  match Frame.encode frame [] with
  | (Ok _, buf) => Ok buf
  | (Err e, _) => Err (ProtocolErr (protocol_error_to_string e))
  | (Panic, _) => Panic
  end.

(** One round of the loop in [execute_actions]. *)
Definition execute_action (a : ServerAction) : RtM unit :=
  match a with
  | SendToSession sid frame =>
      rt ← m_get;
      if decide (sid ∈ live rt) then
        buf ← m_lift (encode_ frame); m_modify (write_to sid buf)
      else mret tt
  | BroadcastToRoom room_id frame exclude =>
      rt ← m_get;
      let sessions := ServerDriver.sessions_in_room room_id (driver rt) in
      buf ← m_lift (encode_ frame);
      m_modify (λ rt, foldl (λ rt sid, if decide (Some sid = exclude) then rt else write_to sid buf rt)
                        rt sessions)
  | CloseConnection sid _ => m_modify (λ rt, with_live (live rt ∖ {[sid]}) rt)
  | PersistFrame room_id log_index frame => on_storage (store_frame room_id log_index frame)
  | PersistMlsState room_id state => on_storage (store_mls_state room_id state)
  | Log _ _ _ => mret tt
  end.

(** [execute_actions]. *)
Definition execute_actions (acts : list ServerAction) : RtM unit := m_iter execute_action acts.

(** [driver.process_event(event)] under the lock, errors converted by [?]. *)
Definition process (ev : ServerEvent) : RtM (list ServerAction) := λ rt,
  let '(r, d) := ServerDriver.process_event ev (driver rt) in
  (map_err Driver r, with_driver d rt).

(** The part of the loop in [handle_stream] after a frame is decoded: a processing
    error skips the frame, an execution error ends the stream. *)
Fixpoint handle_frames (sid : Z) (frames : list Frame) : RtM unit :=
  match frames with
  | [] => mret tt
  | f :: frames =>
      r ← m_try (process (FrameReceived sid f));
      match r with
      | Ok acts => execute_actions acts;; handle_frames sid frames
      | Err _ => handle_frames sid frames
      | Panic => m_lift Panic
      end
  end.

(** [handle_stream] on the bytes that it gets to read: all of the stream, or what
    comes before the reads fail because the connection was closed.  Which frames these
    bytes hold does not depend on how the earlier ones were processed, so the cutting
    is done first; the fuel is more than the stream can use.  [Lifecycle.v] lets the
    task of a stream end with frames unread, at any time. *)
Definition handle_stream (sid : Z) (input : bytes) : RtM unit :=
  match read_frames (Datatypes.S (length input)) input with
  | Some (_, DecodePanic) | None => m_lift Panic
  | Some (frames, _) => handle_frames sid frames
  end.

(** The two ends of [handle_connection]. *)
Definition open_connection (sid : Z) : RtM unit :=
  m_modify (λ rt, with_live ({[sid]} ∪ live rt) rt);;
  acts ← process (ConnectionAccepted sid);
  execute_actions acts.
Definition close_connection (sid : Z) : RtM unit :=
  m_modify (λ rt, with_live (live rt ∖ {[sid]}) rt);;
  acts ← process (ConnectionClosed sid "connection closed");
  execute_actions acts.
End runtime.

(** ** Properties *)

(** *** Streams *)
Lemma read_frame_app f rest :
  Frame.wf f →
  read_frame (FrameHeader.to_bytes (Frame.header f) ++ Frame.payload f ++ rest) = Got f rest.
Proof.
  intros Hf. pose proof (Frame.wf_header _ Hf) as Hwf. pose proof (Frame.wf_size _ Hf) as Hs.
  pose proof (FrameHeader.length_to_bytes _ Hwf) as Hl.
  unfold read_frame. rewrite !zlen_app, (take_app_exact 128) by done.
  pose proof (FrameHeader.layout_to_bytes (Frame.header f) [] Hwf) as Hlay. rewrite app_nil_r in Hlay.
  rewrite Hlay, Hs. pose proof (zlen_nonneg (Frame.payload f)). pose proof (zlen_nonneg rest).
  unfold zlen at 1 4. rewrite Hl. rewrite !(proj2 (Z.ltb_ge _ _)) by lia.
  replace (128 + Z.to_nat (zlen (Frame.payload f)))%nat
    with (length (FrameHeader.to_bytes (Frame.header f) ++ Frame.payload f))
    by (rewrite length_app, Hl; unfold zlen; lia).
  rewrite app_assoc, take_app_length, drop_app_length.
  rewrite <-(app_nil_r (Frame.payload f)), Frame.decode_app by done. done.
Qed.

Lemma read_frame_consumes input f rest :
  read_frame input = Got f rest → (length rest + 128 ≤ length input)%nat.
Proof.
  unfold read_frame. repeat case_match; intros; simplify_eq. bool_to_prop. rewrite length_drop.
  pose proof (from_be_bytes_range (FrameHeader.h_payload_size (FrameHeader.layout (take 128 input)))).
  unfold zlen in *. unfold FrameHeader.payload_size in *. lia.
Qed.

Lemma read_frames_total fuel input : (length input < fuel)%nat → is_Some (read_frames fuel input).
Proof.
  revert input. induction fuel as [|fuel IH]; intros input Hl; [lia|]. cbn.
  destruct (read_frame input) as [|e| |f rest] eqn:Hr; [by eexists..|].
  apply read_frame_consumes in Hr. destruct (IH rest ltac:(lia)) as [[fs r] ->]. by eexists.
Qed.

(** The bytes a sender writes for a sequence of frames. *)
Definition wire (fs : list Frame) : bytes :=
  concat (map (λ f, FrameHeader.to_bytes (Frame.header f) ++ Frame.payload f) fs).

Lemma read_wire fs : Forall Frame.wf fs → read_frames (Datatypes.S (length (wire fs))) (wire fs) = Some (fs, ReadError).
Proof.
  intros Hfs. assert (∀ fuel, (length (wire fs) < fuel)%nat → read_frames fuel (wire fs) = Some (fs, ReadError)) as Hgo;
    [|apply Hgo; lia].
  induction Hfs as [|f fs Hf Hfs IH]; intros fuel Hl; (destruct fuel as [|fuel]; [lia|]); [done|].
  unfold wire in *. cbn [map concat] in *. cbn [read_frames]. rewrite <-app_assoc, read_frame_app by done.
  pose proof (FrameHeader.length_to_bytes _ (Frame.wf_header _ Hf)) as Hlen.
  rewrite !length_app, Hlen in Hl. rewrite IH by lia. done.
Qed.

(** C9: a stream is cut into exactly the frames that were sent.  The read loop
    always ends; on the concatenated encodings of well-formed frames it yields
    those frames in order, and then stops at the end of the stream. *)
Theorem stream_reassembles fs input :
  (∃ r, read_frames (Datatypes.S (length input)) input = Some r)
  ∧ (Forall Frame.wf fs → read_frames (Datatypes.S (length (wire fs))) (wire fs) = Some (fs, ReadError)).
Proof.
  split; [|apply read_wire].
  destruct (read_frames_total (Datatypes.S (length input)) input) as [r ->]; [lia|eauto].
Qed.

(** *** Storage and the order of execution *)
Section ordering.
Context `{PayloadCodec} {T : Type} `{Environment T} `{OpenMls T} `{Ed25519} {S : Type} `{StorageOk S}.
Implicit Types rt : Runtime (T := T) (S := S).

Definition room_log (room : Z) (rt : Runtime (T := T) (S := S)) : list Frame :=
  log (ServerDriver.storage (driver rt)) room.

(** Actions that store no frame. *)
Definition quiet (a : ServerAction) : Prop := match a with PersistFrame _ _ _ => False | _ => True end.

Lemma write_to_driver sid buf rt : driver (write_to sid buf rt) = driver rt.
Proof. unfold write_to. by case_decide. Qed.

Lemma quiet_action a rt room : quiet a → room_log room (snd (execute_action a rt)) = room_log room rt.
Proof.
  intros Hq. unfold room_log. destruct a as [sid f|r f ex| | |r st|]; cbn [execute_action]; [| |done..| |done].
  - munfold. case_decide; [|done]. destruct (encode_ f); cbn; [by rewrite write_to_driver|done..].
  - munfold. destruct (encode_ f) as [buf| |]; [|done..]. cbn [snd].
    generalize (ServerDriver.sessions_in_room r (driver rt)) as ss. intros ss. revert rt.
    induction ss as [|sid ss IH]; intros rt; [done|]. cbn [foldl]. rewrite IH.
    case_decide; by rewrite ?write_to_driver.
  - unfold on_storage. pose proof (store_mls_state_ok r st (ServerDriver.storage (driver rt))) as Hs.
    destruct (store_mls_state r st _) as [x s']. cbn in *. destruct x; [apply Hs|apply Hs|done].
Qed.

Lemma quiet_actions acts rt room :
  Forall quiet acts → room_log room (snd (execute_actions acts rt)) = room_log room rt.
Proof.
  unfold execute_actions. intros Hq. revert rt. induction Hq as [|a acts Ha Hq IH]; intros rt; [done|].
  cbn [m_iter]. munfold. pose proof (quiet_action a rt room Ha) as Hl.
  destruct (execute_action a rt) as [[[]|e|] rt']; cbn [snd] in *; [by rewrite IH|done..].
Qed.

(** Storing at an index: the end of the log, or refused. *)
Lemma persist_action `{!Sequencer.StorageReliable} room i f rt :
  ∃ rt', execute_action (PersistFrame room i f) rt = (Ok tt, rt')
    ∧ room_log room rt' = room_log room rt ++ (if decide (i = zlen (room_log room rt)) then [f] else []).
Proof.
  cbn [execute_action]. unfold on_storage, room_log.
  pose proof (store_frame_ok room i f (ServerDriver.storage (driver rt))) as Hok.
  destruct (decide _) as [->|Hne].
  - destruct (Sequencer.store_reliable room f (ServerDriver.storage (driver rt))) as [s' Hs].
    rewrite Hs in *. eexists. split; [done|]. apply Hok.
  - destruct (store_frame room i f _) as [[[]|e|] s']; [naive_solver| |done].
    eexists. split; [done|]. cbn. rewrite app_nil_r. destruct e; apply Hok.
Qed.

(** The actions of one ordered frame append it if its index is the end of the log
    and change nothing otherwise. *)
Lemma ordered_actions `{!Sequencer.StorageReliable} room i f rest rt :
  Forall quiet rest →
  room_log room (snd (execute_actions (PersistFrame room i f :: PersistFrame room i f :: rest) rt))
  = room_log room rt ++ (if decide (i = zlen (room_log room rt)) then [f] else []).
Proof.
  intros Hq. unfold execute_actions. cbn [m_iter app]. munfold.
  destruct (persist_action room i f rt) as (rt1 & -> & Hl1).
  destruct (persist_action room i f rt1) as (rt2 & -> & Hl2).
  pose proof (quiet_actions rest rt2 room Hq) as Hr. unfold execute_actions in Hr. rewrite Hr, Hl2, Hl1.
  destruct (decide (i = zlen (room_log room rt))) as [->|]; [|by rewrite !app_nil_r, decide_False, app_nil_r].
  rewrite decide_False; [by rewrite app_nil_r|]. rewrite zlen_app. change (zlen [f]) with 1. lia.
Qed.

Lemma process_Ok ev rt acts rt' :
  process ev rt = (Ok acts, rt') → ServerDriver.process_event ev (driver rt) = (Ok acts, driver rt').
Proof.
  unfold process. destruct (ServerDriver.process_event ev (driver rt)) as [[a|e|] d]; cbn [map_err]; intros [= <- <-]; done.
Qed.

(** Two frames of a room are processed one after the other.  If the actions are
    executed in the order of processing, the log gains both frames; in the other
    order the later frame, though broadcast, is refused by the storage, and the
    room's counter stays ahead of its log. *)
Lemma two_frames `{!Sequencer.StorageReliable} s1 s2 f1 f2 rt a1 a2 rt1 rt2 :
  let room := FrameHeader.room_id (Frame.header f1) in
  let n := zlen (room_log room rt) in
  let world rt := ServerDriver.world_of (driver rt) in
  let counter rt := Sequencer.next_of room (RoomManager.sequencer (RoomManager.rm (world rt)), RoomManager.store (world rt)) in
  RoomManager.winv (world rt) → counter rt = n →
  FrameHeader.room_id (Frame.header f2) = room →
  Forall (λ f, ServerDriver.session_opcode (FrameHeader.opcode_enum (Frame.header f)) = false
               ∧ Sequencer.is_welcome f = false) [f1; f2] →
  process (FrameReceived s1 f1) rt = (Ok a1, rt1) →
  process (FrameReceived s2 f2) rt1 = (Ok a2, rt2) →
  let in_order := snd (execute_actions a2 (snd (execute_actions a1 rt2))) in
  let swapped := snd (execute_actions a1 (snd (execute_actions a2 rt2))) in
  let g1 := Sequencer.rebuild_frame_with_index f1 n in
  let g2 := Sequencer.rebuild_frame_with_index f2 (n + 1) in
  BroadcastToRoom room g2 None ∈ a2
  ∧ room_log room in_order = room_log room rt ++ [g1; g2]
  ∧ room_log room swapped = room_log room rt ++ [g1]
  ∧ counter rt2 = n + 2.
Proof.
  intros room n world counter Hi Hn Hr Hf Hp1 Hp2.
  apply Forall_cons_iff in Hf as [[Ho1 Hw1] Hf]. apply Forall_singleton in Hf as [Ho2 Hw2].
  apply process_Ok in Hp1 as E1, Hp2 as E2.
  destruct (ServerDriver.room_frame_ordered _ _ _ _ _ Hi Ho1 Hw1 E1) as (x1 & Ha1 & Hx1 & Hi1 & Hl1 & Hn1).
  destruct (ServerDriver.room_frame_ordered _ _ _ _ _ Hi1 Ho2 Hw2 E2) as (x2 & Ha2 & Hx2 & _ & Hl2 & Hn2).
  rewrite Hr in Ha2, Hx2, Hn2. fold room in Ha1, Hx1, Hn1, Ha2, Hx2, Hn2.
  unfold counter, world, ServerDriver.world_of in *. cbn [RoomManager.rm RoomManager.store] in *.
  rewrite Hn in Ha1, Hn1. rewrite Hn1 in Ha2, Hn2.
  assert (Forall quiet (BroadcastToRoom room (Sequencer.rebuild_frame_with_index f1 n) None :: x1)) as Hq1
    by (destruct Hx1 as [->|[? ->]]; repeat constructor).
  assert (Forall quiet (BroadcastToRoom room (Sequencer.rebuild_frame_with_index f2 (n + 1)) None :: x2)) as Hq2
    by (destruct Hx2 as [->|[? ->]]; repeat constructor).
  assert (room_log room rt2 = room_log room rt) as Hl by (unfold room_log; by rewrite Hl2, Hl1).
  cbv zeta. cbn [app] in Ha1, Ha2. subst a1 a2.
  split_and!; [set_solver|..].
  - rewrite !ordered_actions, Hl by done. fold n. rewrite decide_True by done.
    rewrite zlen_app. change (zlen [_]) with 1. rewrite decide_True by done. by rewrite <-app_assoc.
  - rewrite !ordered_actions, Hl by done. fold n. rewrite decide_False by lia.
    rewrite app_nil_r. by rewrite decide_True.
  - cbn. lia.
Qed.
End ordering.

Lemma stream_reassembles_witness :
  read_frames 1000 (wire [Frame.sample; Frame.sample]) = Some ([Frame.sample; Frame.sample], ReadError).
Proof.
  pose proof (proj2 (stream_reassembles [Frame.sample; Frame.sample] [])
    ltac:(repeat constructor; apply Frame.sample_wf)) as T.
  vm_compute in T |- *. exact T.
Defined.

Section runtime_witnesses.
#[local] Existing Instances ToyCodec.codec ToyMls.ops ToyMls.ed.

(** A session 4 with a connection, and room 9 with an empty log. *)
Definition demo_runtime : Runtime (T := ToyEnv.T) (S := MemoryStorage) :=
  {| driver := ServerDriver.with_world (demo_world None) demo_connected; live := {[4]}; sent := [] |}.
Definition demo_first := process (FrameReceived 4 demo_msg) demo_runtime.
Definition demo_second := process (FrameReceived 4 demo_msg) (snd demo_first).

End runtime_witnesses.
End Server.
