(* ===== verification/Diagnostics.v ===== *)
(** * What is shown of a value

    The hand-written [Debug] implementations ([payloads/session.rs], [header.rs],
    [driver.rs]), the conversions between error types and the chain of their causes
    ([errors.rs], [server_error.rs], [error.rs]).  Tokens, challenges and signatures
    must not get into a log, whoever formats the value that holds them. *)

From Stdlib Require Import ZArith Lia.
From S2P Require Import Prelude Opcodes Header Frame Payload Connection MlsState Storage Sequencer.
From S2P Require Import Registry Validator MlsGroup RoomManager ServerDriver Server.

(** ** The builders of [std::fmt], as [{:?}] uses them *)
Module fmt.
Fixpoint join (sep : string) (l : list string) : string :=
  match l with
  | [] => ""
  | [x] => x
  | x :: l => x +:+ sep +:+ join sep l
  end.
Definition field (f : string * string) : string := fst f +:+ ": " +:+ snd f.
(** [debug_struct(..).field(..)...finish()] and [finish_non_exhaustive()]. *)
Definition finish (name : string) (fields : list (string * string)) : string :=
  match fields with [] => name | _ => name +:+ " { " +:+ join ", " (field <$> fields) +:+ " }" end.
Definition finish_non_exhaustive (name : string) (fields : list (string * string)) : string :=
  match fields with [] => name +:+ " { .. }" | _ => name +:+ " { " +:+ join ", " (field <$> fields) +:+ ", .. }" end.
Definition debug_option (o : option string) : string :=
  match o with Some s => "Some(" +:+ s +:+ ")" | None => "None" end.
Definition debug_vec (l : list string) : string := "[" +:+ join ", " l +:+ "]".
End fmt.

Module Debug.
Import fmt.
Section debug.
(** [Debug] of a string, which depends on Unicode tables, and of the flags, which
    the [bitflags] macro generates. *)
Context (debug_str : string → string) (debug_flags : FrameFlags → string).

Definition redacted (secret : bytes) : string := "<redacted " +:+ fmt_int (zlen secret) +:+ " bytes>".
Definition hello (h : session.Hello) : string :=
  finish "Hello"
    [("version", fmt_int (session.hello_version h));
     ("capabilities", debug_vec (debug_str <$> session.hello_capabilities h));
     ("auth_token", debug_option ((λ token, debug_str (redacted token)) <$> session.hello_auth_token h))].
Definition hello_reply (r : session.HelloReply) : string :=
  finish "HelloReply"
    [("session_id", fmt_int (session.reply_session_id r));
     ("capabilities", debug_vec (debug_str <$> session.reply_capabilities r));
     ("challenge", debug_option ((λ ch, debug_str (redacted ch)) <$> session.reply_challenge r))].

Definition context_label (h : FrameHeader) : string :=
  if decide (FrameHeader.opcode_enum h = Some Opcode.Welcome) then "recipient_id" else "log_index".
Definition frame_header (h : FrameHeader) : string :=
  let context_value := from_be_bytes (FrameHeader.h_context_id h) in
  finish_non_exhaustive "FrameHeader"
    [("magic", debug_str (fmt_hex_alt 10 (FrameHeader.magic h)));
     ("version", fmt_int (FrameHeader.version h));
     ("flags", debug_flags (FrameHeader.flags h));
     ("opcode", debug_str (fmt_hex_alt 6 (FrameHeader.opcode h)));
     ("request_id", fmt_int (FrameHeader.request_id h));
     ("room_id", debug_str (fmt_hex_alt 34 (FrameHeader.room_id h)));
     ("sender_id", fmt_int (FrameHeader.sender_id h));
     (context_label h, fmt_int context_value);
     ("hlc_timestamp", fmt_int (FrameHeader.hlc_timestamp h));
     ("epoch", fmt_int (FrameHeader.epoch h));
     ("payload_size", fmt_int (FrameHeader.payload_size h))].
End debug.

Definition server_driver {T S} `{OpenMls T} (d : ServerDriver (T := T) (S := S)) : string :=
  finish "ServerDriver"
    [("connection_count", fmt_int (Z.of_nat (size (ServerDriver.connections d))));
     ("session_count", fmt_int (ConnectionRegistry.session_count (ServerDriver.registry d)))].
End Debug.

(** ** Errors and their causes *)
Module Errors.
(** [From<RoomError>], [From<StorageError>] for the driver's error;
    [From<ServerError>] for the server's. *)
Definition from_room (e : RoomError) : ServerError := ServerError.Room e.
Definition from_storage (e : StorageError) : ServerError := ServerError.Storage e.
Definition from_driver (e : ServerError) : RuntimeError := Driver e.
(** [std::io::Error] made of a [ProtocolError]. *)
Inductive IoError : Type := InvalidData (inner : ProtocolError).
Definition io_from_protocol (e : ProtocolError) : IoError := InvalidData e.

(** [&dyn Error] of what these errors wrap. *)
Inductive Cause : Type :=
| DriverCause (e : ServerError)
| RoomCause (e : RoomError)
| StorageCause (e : StorageError).
Definition cause_to_string (c : Cause) : string :=
  match c with
  | DriverCause e => ServerError.to_string e
  | RoomCause e => RoomError.to_string e
  | StorageCause e => StorageError.to_string e
  end.
(** [source()] of the two [ServerError]s. *)
Definition driver_source (e : ServerError) : option Cause :=
  match e with
  | ServerError.Room err => Some (RoomCause err)
  | ServerError.Storage err => Some (StorageCause err)
  | _ => None
  end.
Definition source (e : RuntimeError) : option Cause :=
  match e with
  | Driver err => Some (DriverCause err)
  | _ => None
  end.
End Errors.

(** ** Theorems *)
Module DebugTheory.
Import fmt Debug.
Section theory.
Context (debug_str : string → string) (debug_flags : FrameFlags → string).

Lemma append_cancel (a b c : string) : a +:+ b = a +:+ c → b = c.
Proof. induction a as [|x a IH]; cbn; [done|]. intros [= E]. by apply IH. Qed.
Lemma append_assoc (a b c : string) : (a +:+ b) +:+ c = a +:+ (b +:+ c).
Proof. induction a as [|x a IH]; [done|]. exact (f_equal (String x) IH). Qed.
Lemma append_length (a b : string) : String.length (a +:+ b) = (String.length a + String.length b)%nat.
Proof. induction a as [|x a IH]; [done|]. exact (f_equal Datatypes.S IH). Qed.
Lemma append_cancel_r (a b c : string) : a +:+ c = b +:+ c → a = b.
Proof.
  revert b. induction a as [|x a IH]; intros [|y b] E; [done| | |].
  1,2: apply (f_equal String.length) in E; rewrite !append_length in E; cbn in E; lia.
  injection E as -> E. f_equal. by apply IH.
Qed.
Lemma join_last sep l : ∃ p, ∀ x, join sep (l ++ [x]) = p +:+ x.
Proof.
  induction l as [|y l [p IH]]; [by exists ""%string|]. exists (y +:+ sep +:+ p). intros x. rewrite !append_assoc, <-(IH x). cbn.
  by destruct l.
Qed.
(** Two values that differ in their last field only look the same exactly if that
    field does. *)
Lemma finish_last name fs k v1 v2 : finish name (fs ++ [(k, v1)]) = finish name (fs ++ [(k, v2)]) ↔ v1 = v2.
Proof.
  split; [|by intros ->]. destruct (join_last ", " (field <$> fs)) as [p Hp].
  assert (∀ v, finish name (fs ++ [(k, v)]) = name +:+ " { " +:+ (p +:+ k +:+ ": " +:+ v) +:+ " }") as Hf.
  { intros v. unfold finish. rewrite fmap_app. cbn [fmap list_fmap]. rewrite Hp. by destruct fs. }
  rewrite !Hf. intros E%append_cancel%append_cancel%append_cancel_r. by do 3 apply append_cancel in E.
Qed.
Lemma debug_option_inj o1 o2 : debug_option o1 = debug_option o2 → o1 = o2.
Proof.
  destruct o1 as [a|], o2 as [b|]; cbn; [|done..]. intros E%append_cancel%append_cancel_r. by f_equal.
Qed.

(** The text of a secret is its length. *)
Lemma redacted_length a b : redacted a = redacted b ↔ length a = length b.
Proof.
  unfold redacted, zlen. split; [|by intros ->]. intros E%append_cancel%append_cancel_r. unfold fmt_int in E.
  apply (inj pretty) in E. lia.
Qed.

Section redaction.
(** [Debug] tells strings apart. *)
Context `{!Inj (=) (=) debug_str}.
Lemma secret_field o1 o2 :
  debug_option ((λ s, debug_str (redacted s)) <$> o1) = debug_option ((λ s, debug_str (redacted s)) <$> o2)
  ↔ length <$> o1 = length <$> o2.
Proof.
  split.
  - intros E%debug_option_inj. destruct o1, o2; cbn in *; [|done..]. injection E as E%(inj debug_str)%redacted_length. by f_equal.
  - destruct o1 as [a|], o2 as [b|]; cbn; [|done..]. intros [= E]. by rewrite (proj2 (redacted_length a b) E).
Qed.

(** A [Hello] shows of its token whether there is one and how long it is, and
    nothing else: two values with the same version and capabilities look the same
    exactly when their tokens have the same length. *)
Theorem hello_redacted (h1 h2 : session.Hello) :
  session.hello_version h1 = session.hello_version h2 →
  session.hello_capabilities h1 = session.hello_capabilities h2 →
  hello debug_str h1 = hello debug_str h2
  ↔ length <$> session.hello_auth_token h1 = length <$> session.hello_auth_token h2.
Proof. intros Ev Ec. unfold hello. rewrite Ev, Ec. etrans; [apply (finish_last _ [_; _])|apply secret_field]. Qed.
(** The same of a [HelloReply] and its challenge. *)
Theorem hello_reply_redacted (r1 r2 : session.HelloReply) :
  session.reply_session_id r1 = session.reply_session_id r2 →
  session.reply_capabilities r1 = session.reply_capabilities r2 →
  hello_reply debug_str r1 = hello_reply debug_str r2
  ↔ length <$> session.reply_challenge r1 = length <$> session.reply_challenge r2.
Proof. intros Es Ec. unfold hello_reply. rewrite Es, Ec. etrans; [apply (finish_last _ [_; _])|apply secret_field]. Qed.
End redaction.

(** A header shows nothing of its signature: it looks the same under any other. *)
Theorem header_debug_hides_signature (h : FrameHeader) sig :
  frame_header debug_str debug_flags (FrameHeader.set_signature sig h) = frame_header debug_str debug_flags h.
Proof. done. Qed.
End theory.

(** A driver whose connections are the registered sessions, as they are in every
    reachable state, shows one number twice. *)
Theorem driver_debug_counts {T S} `{OpenMls T} (d : ServerDriver (T := T) (S := S)) :
  dom (ServerDriver.connections d) = dom (ConnectionRegistry.sessions (ServerDriver.registry d)) →
  let n := fmt_int (Z.of_nat (size (ServerDriver.connections d))) in
  server_driver d = finish "ServerDriver" [("connection_count", n); ("session_count", n)].
Proof. intros E. unfold server_driver, ConnectionRegistry.session_count. by rewrite <-!size_dom, E. Qed.
End DebugTheory.

Module ErrorsTheory.
Import Errors.
(** A cause is shown in the text of the error: each [Display] ends with the one of
    its [source]. *)
Theorem cause_is_shown :
  (∀ e c, source e = Some c → ∃ prefix, runtime_error_to_string e = prefix +:+ cause_to_string c)
  ∧ (∀ e c, driver_source e = Some c → ∃ prefix, ServerError.to_string e = prefix +:+ cause_to_string c).
Proof. split; intros [] c; cbn; intros [= <-]; by eexists. Qed.
End ErrorsTheory.
