(* ===== verification/Client.v ===== *)
(** * The client

    [lockframe-client/src/client.rs], [event.rs] and [error.rs]: room memberships,
    each an MLS group with the sender keys of its epoch, behind one event handler.

    [handle_frame] and [handle_sync_response] call each other; the model gives the
    recursion a depth, and [frame_handling_terminates] shows that the depth used
    by [handle] is enough.  The stack that the recursion takes is not modelled: its
    depth is bounded by the size of the payload alone.  A hash map is visited in an unspecified order; the
    order here is the map's own. *)

From S2P Require Import Prelude Opcodes Header Frame Payload Connection SenderKeys SenderKeyStore.
From S2P Require Import MlsState Sequencer Validator MlsGroup.

Module ClientError.
(** [enum ClientError]. *)
Inductive ClientError : Type :=
| RoomNotFound (room_id : Z)
| EpochMismatch (expected actual : Z)
| RoomAlreadyExists (room_id : Z)
| Mls (reason : string)
| SenderKey (e : SenderKeyError)
| InvalidFrame (reason : string)
| InvalidState (reason : string)
| SyncRequired (room_id target_epoch : Z).

(** [Display]. *)
Definition to_string (e : ClientError) : string :=
  match e with
  | RoomNotFound r => "room not found: " +:+ fmt_hex r
  | EpochMismatch expected actual =>
      "epoch mismatch: expected " +:+ fmt_int expected +:+ ", got " +:+ fmt_int actual
  | RoomAlreadyExists r => "room already exists: " +:+ fmt_hex r
  | Mls reason => "MLS error: " +:+ reason
  | SenderKey e => "sender key error: " +:+ SenderKeyError.to_string e
  | InvalidFrame reason => "invalid frame: " +:+ reason
  | InvalidState reason => "invalid state: " +:+ reason
  | SyncRequired r target =>
      "sync required: room " +:+ fmt_hex r +:+ " needs epoch " +:+ fmt_int target
  end.

(** [ClientError::is_fatal]. *)
Definition is_fatal (e : ClientError) : bool :=
  match e with
  | InvalidFrame _ | InvalidState _ | Mls _ => true
  | SenderKey e => SenderKeyError.is_fatal e
  | RoomNotFound _ | RoomAlreadyExists _ | EpochMismatch _ _ | SyncRequired _ _ => false
  end.

(** [.map_err(|e| ClientError::Mls { reason: e.to_string() })]. *)
Definition from_mls (e : MlsError) : ClientError := Mls (MlsError.to_string e).
End ClientError.
Abbreviation ClientError := ClientError.ClientError.

(** [enum ClientEvent]. *)
Inductive ClientEvent : Type :=
| FrameReceived (frame : Frame)
| Tick (now : Z)
| SendMessage (room_id : Z) (plaintext : bytes)
| CreateRoom (room_id : Z)
| JoinRoom (room_id : Z) (welcome : bytes)
| LeaveRoom (room_id : Z)
| AddMembers (room_id : Z) (key_packages : list bytes).

(** [struct RoomStateSnapshot]. *)
Record RoomStateSnapshot : Type := {
  snap_room_id : Z; snap_epoch : Z; snap_mls_state : bytes; snap_my_leaf_index : Z }.

Module ClientAction.
(** [enum ClientAction]. *)
Inductive ClientAction : Type :=
| Send (frame : Frame)
| DeliverMessage (room_id sender_id : Z) (plaintext : bytes) (log_index timestamp : Z)
| RequestSync (room_id from_epoch to_epoch : Z)
| PersistRoom (snapshot : RoomStateSnapshot)
| RoomRemoved (room_id : Z) (reason : string)
| Log (message : string).
End ClientAction.
Abbreviation ClientAction := ClientAction.ClientAction.

Module Client.
Import ClientError ClientAction.

Definition SENDER_KEY_LABEL : string := "lockframe sender keys v1".
Definition SENDER_KEY_CONTEXT : bytes := [].
Definition SENDER_KEY_SECRET_SIZE : Z := 32.
Definition COMMIT_TIMEOUT : Z := from_secs 30.

(** [struct ClientIdentity]. *)
Record ClientIdentity : Type := { sender_id : Z }.

(** [crypto_to_proto_encrypted] and [proto_to_crypto_encrypted]. *)
Definition crypto_to_proto_encrypted (m : EncryptedMessage) : app.EncryptedMessage := {|
  app.msg_epoch := EncryptedMessage.epoch m;
  app.msg_sender_index := EncryptedMessage.sender_index m;
  app.msg_generation := EncryptedMessage.generation m;
  app.msg_nonce := EncryptedMessage.nonce m;
  app.msg_ciphertext := EncryptedMessage.ciphertext m;
  app.msg_push_keys := None |}.
Definition proto_to_crypto_encrypted (m : app.EncryptedMessage) : EncryptedMessage := {|
  EncryptedMessage.epoch := app.msg_epoch m;
  EncryptedMessage.sender_index := app.msg_sender_index m;
  EncryptedMessage.generation := app.msg_generation m;
  EncryptedMessage.nonce := app.msg_nonce m;
  EncryptedMessage.ciphertext := app.msg_ciphertext m |}.

Section client.
Context `{PayloadCodec} `{Primitives} {T : Type} `{Environment T} `{OpenMls T} `{Ed25519}.

(** [serialize_encrypted_message] ([expect] on the encoder) and
    [deserialize_encrypted_message]. *)
Definition serialize_encrypted_message (m : app.EncryptedMessage) : outcome ClientError bytes :=
  match cbor_ser m with Ok data => Ok data | _ => Panic end.
Definition deserialize_encrypted_message (data : bytes) : outcome string app.EncryptedMessage :=
  map_err (λ e, "CBOR decode failed: " +:+ e) (cbor_de data).

(** [struct RoomState]. *)
Record RoomState : Type := {
  mls_group : MlsGroup (T := T);
  sender_keys : SenderKeyStore;
  my_leaf_index : Z;
}.
Definition with_group (g : MlsGroup) (r : RoomState) : RoomState :=
  {| mls_group := g; sender_keys := sender_keys r; my_leaf_index := my_leaf_index r |}.
Definition with_keys (k : SenderKeyStore) (r : RoomState) : RoomState :=
  {| mls_group := mls_group r; sender_keys := k; my_leaf_index := my_leaf_index r |}.
Definition with_leaf (i : Z) (r : RoomState) : RoomState :=
  {| mls_group := mls_group r; sender_keys := sender_keys r; my_leaf_index := i |}.

(** [struct Client]. *)
Record Client : Type := {
  identity : ClientIdentity;
  rooms : gmap Z RoomState;
  pending_joins : list (MlsGroup.PendingJoinState (T := T));
  env : T;
}.
Definition with_rooms (rs : gmap Z RoomState) (c : Client) : Client :=
  {| identity := identity c; rooms := rs; pending_joins := pending_joins c; env := env c |}.
Definition with_pending_joins (l : list (MlsGroup.PendingJoinState (T := T))) (c : Client) : Client :=
  {| identity := identity c; rooms := rooms c; pending_joins := l; env := env c |}.
Definition with_env (e : T) (c : Client) : Client :=
  {| identity := identity c; rooms := rooms c; pending_joins := pending_joins c; env := e |}.

(** [Client::new] and the accessors. *)
Definition new (env : T) (identity : ClientIdentity) : Client :=
  {| identity := identity; rooms := ∅; pending_joins := []; env := env |}.
Definition client_sender_id (c : Client) : Z := sender_id (identity c).
Definition room_count (c : Client) : Z := Z.of_nat (size (rooms c)).
Definition is_member (room_id : Z) (c : Client) : bool := bool_decide (is_Some (rooms c !! room_id)).
Definition epoch (room_id : Z) (c : Client) : option Z :=
  (λ r, MlsGroup.epoch (mls_group r)) <$> rooms c !! room_id.

Abbreviation ClientM := (M Client ClientError).
Abbreviation RoomStateM := (M RoomState ClientError).

(** [self.rooms.get(&room_id).ok_or(RoomNotFound)?]. *)
Definition get_room (room_id : Z) : ClientM RoomState := λ c,
  (ok_or (rooms c !! room_id) (RoomNotFound room_id), c).
(** [self.rooms.get_mut(&room_id).ok_or(RoomNotFound)?], and work on the room. *)
Definition on_room {A} (room_id : Z) (op : RoomStateM A) : ClientM A := λ c,
  match rooms c !! room_id with
  | None => (Err (RoomNotFound room_id), c)
  | Some room =>
      let '(r, room) := op room in (r, with_rooms (<[room_id := room]> (rooms c)) c)
  end.
(** Calls on the parts of a room, errors converted. *)
Definition on_group {A} (op : M MlsGroup MlsError A) : RoomStateM A :=
  m_zoom mls_group with_group (m_map_err from_mls op).
Definition on_keys {A} (op : M SenderKeyStore SenderKeyError A) : RoomStateM A :=
  m_zoom sender_keys with_keys (m_map_err SenderKey op).
Definition env_random (n : nat) : ClientM bytes := λ c,
  let '(bs, e) := Environment.random_bytes n (env c) in (Ok bs, with_env e c).

(** [Client::generate_key_package]. *)
Definition generate_key_package : ClientM (bytes * bytes) :=
  c ← m_get;
  kp ← m_lift (map_err from_mls (MlsGroup.generate_key_package (env c) (client_sender_id c)));
  let '(kp_bytes, hash_ref, pending_state) := kp in
  m_modify (λ c, with_pending_joins (pending_joins c ++ [pending_state]) c);;
  mret (kp_bytes, hash_ref).

(** [Client::convert_mls_actions]. *)
Definition convert_mls_action (room_id : Z) (a : MlsAction) : ClientAction :=
  match a with
  | MlsGroup.SendCommit frame | MlsGroup.SendProposal frame | MlsGroup.SendMessage frame => Send frame
  | MlsGroup.SendWelcome _ frame => Send frame
  | MlsGroup.DeliverMessage sender plaintext => DeliverMessage room_id sender plaintext 0 0
  | MlsGroup.RemoveGroup reason => RoomRemoved room_id reason
  | MlsGroup.Log message => Log message
  end.
Definition convert_mls_actions (room_id : Z) (acts : list MlsAction) : list ClientAction :=
  map (convert_mls_action room_id) acts.

(** [Client::initialize_sender_keys]. *)
Definition initialize_sender_keys (g : MlsGroup) : outcome ClientError SenderKeyStore :=
  epoch_secret ← map_err from_mls
    (MlsGroup.export_secret SENDER_KEY_LABEL SENDER_KEY_CONTEXT SENDER_KEY_SECRET_SIZE g);
  let member_indices := MlsGroup.member_leaf_indices g in
  Ok (SenderKeyStore.initialize_epoch epoch_secret (MlsGroup.epoch g) member_indices).

(** The room that [handle_create_room], [handle_welcome] and [handle_join_room]
    insert for a fresh group. *)
Definition new_room (g : MlsGroup) (keys : SenderKeyStore) : RoomState :=
  {| mls_group := g; sender_keys := keys; my_leaf_index := MlsGroup.own_leaf g |}.
Definition insert_room (room_id : Z) (r : RoomState) : ClientM unit :=
  m_modify (λ c, with_rooms (<[room_id := r]> (rooms c)) c).

(** [Client::handle_create_room]. *)
Definition handle_create_room (room_id : Z) : ClientM (list ClientAction) :=
  c ← m_get;
  if is_member room_id c then m_err (RoomAlreadyExists room_id)
  else
    created ← m_lift (map_err from_mls (MlsGroup.new (env c) room_id (client_sender_id c)));
    let '(g, mls_actions) := created in
    keys ← m_lift (initialize_sender_keys g);
    initial_state ← m_lift (map_err from_mls (MlsGroup.export_state g));
    insert_room room_id (new_room g keys);;
    mret (convert_mls_actions room_id mls_actions
          ++ [PersistRoom {| snap_room_id := room_id; snap_epoch := 0; snap_mls_state := initial_state;
                             snap_my_leaf_index := MlsGroup.own_leaf g |};
              Log ("Created room " +:+ fmt_hex room_id +:+ " at epoch 0")]).

(** [Client::handle_send_message]: what is done with the room in hand. *)
Definition send_in_room (sender room_id : Z) (plaintext random : bytes) : RoomStateM Frame :=
  room ← m_get;
  encrypted ← on_keys (SenderKeyStore.encrypt (my_leaf_index room) plaintext random);
  payload ← m_lift (serialize_encrypted_message (crypto_to_proto_encrypted encrypted));
  let header := FrameHeader.new Opcode.AppMessage in
  let header := FrameHeader.set_room_id room_id header in
  let header := FrameHeader.set_sender_id sender header in
  let header := FrameHeader.set_epoch (MlsGroup.epoch (mls_group room)) header in
  let header := MlsGroup.sign_frame_header (mls_group room) header in
  mret (Frame.new header payload).
Definition handle_send_message (room_id : Z) (plaintext : bytes) : ClientM (list ClientAction) :=
  get_room room_id;;
  random ← env_random encryption.NONCE_RANDOM_SIZE;
  c ← m_get;
  frame ← on_room room_id (send_in_room (client_sender_id c) room_id plaintext random);
  mret [Send frame].

(** [Client::handle_app_message]: what is done with the room in hand. *)
Definition app_message_in_room (room_id : Z) (frame : Frame) : RoomStateM (list ClientAction) :=
  room ← m_get;
  let g := mls_group room in
  let frame_epoch := FrameHeader.epoch (Frame.header frame) in
  let room_epoch := MlsGroup.epoch g in
  if negb (frame_epoch =? room_epoch) then m_err (EpochMismatch room_epoch frame_epoch)
  else
    m_lift (map_err (λ e, InvalidFrame (MlsError.to_string e))
      (MlsGroup.validate_frame frame (Some (MlsGroup.export_validation_state g)) g));;
    proto_encrypted ← m_lift (map_err InvalidFrame (deserialize_encrypted_message (Frame.payload frame)));
    let header_sender_id := FrameHeader.sender_id (Frame.header frame) in
    let index := app.msg_sender_index proto_encrypted in
    verified_sender_id ← m_lift (ok_or (MlsGroup.member_id_by_leaf_index index g)
      (InvalidFrame ("unknown sender_index " +:+ fmt_int index +:+ " in encrypted payload")));
    if negb (header_sender_id =? verified_sender_id) then
      m_err (InvalidFrame ("sender_id mismatch: header claims " +:+ fmt_int header_sender_id
        +:+ ", but sender_index " +:+ fmt_int index +:+ " belongs to " +:+ fmt_int verified_sender_id))
    else
      plaintext ← on_keys (SenderKeyStore.decrypt (proto_to_crypto_encrypted proto_encrypted));
      mret [DeliverMessage room_id verified_sender_id plaintext
              (FrameHeader.log_index (Frame.header frame)) (FrameHeader.hlc_timestamp (Frame.header frame))].
Definition handle_app_message (room_id : Z) (frame : Frame) : ClientM (list ClientAction) :=
  on_room room_id (app_message_in_room room_id frame).

(** [Client::handle_commit]. *)
Definition handle_commit (room_id : Z) (frame : Frame) : ClientM (list ClientAction) :=
  mls_actions ← on_room room_id (on_group (MlsGroup.process_message frame));
  room ← get_room room_id;
  new_sender_keys ← m_lift (initialize_sender_keys (mls_group room));
  let leaf_index := MlsGroup.own_leaf (mls_group room) in
  let epoch := MlsGroup.epoch (mls_group room) in
  on_room room_id (m_modify (λ r, with_leaf leaf_index (with_keys new_sender_keys r)));;
  room ← get_room room_id;
  mls_state ← m_lift (map_err from_mls (MlsGroup.export_state (mls_group room)));
  mret (convert_mls_actions room_id mls_actions
        ++ [PersistRoom {| snap_room_id := room_id; snap_epoch := epoch; snap_mls_state := mls_state;
                           snap_my_leaf_index := leaf_index |}]).

(** [Client::try_join_from_welcome]: the latest key package is used up. *)
Definition try_join_from_welcome (room_id : Z) (welcome_bytes : bytes) :
    ClientM (MlsGroup * list MlsAction) :=
  c ← m_get;
  match reverse (pending_joins c) with
  | [] => m_err (Mls "No pending KeyPackage state - call generate_key_package first")
  | pending_state :: older =>
      m_modify (with_pending_joins (reverse older));;
      m_lift (map_err from_mls
        (MlsGroup.join_from_welcome room_id (client_sender_id c) welcome_bytes pending_state))
  end.

(** The common body of [Client::handle_welcome] and [Client::handle_join_room],
    which differ in the last word of the log message. *)
Definition join (via : string) (room_id : Z) (welcome : bytes) : ClientM (list ClientAction) :=
  c ← m_get;
  if is_member room_id c then m_err (RoomAlreadyExists room_id)
  else
    joined ← try_join_from_welcome room_id welcome;
    let '(g, mls_actions) := joined in
    keys ← m_lift (initialize_sender_keys g);
    insert_room room_id (new_room g keys);;
    mret (convert_mls_actions room_id mls_actions
          ++ [Log ("Joined room " +:+ fmt_hex room_id +:+ " via " +:+ via)]).
Definition handle_welcome (room_id : Z) (frame : Frame) : ClientM (list ClientAction) :=
  join "Welcome" room_id (Frame.payload frame).
Definition handle_join_room (room_id : Z) (welcome : bytes) : ClientM (list ClientAction) :=
  join "JoinRoom event" room_id welcome.

(** [{}] of a [bool]. *)
Definition fmt_bool (b : bool) : string := if b then "true" else "false".

(** The body of the loop in [handle_sync_response]; [handle_frame] is the method
    it calls. *)
Definition sync_frame (handle_frame : Frame → ClientM (list ClientAction)) (ib : Z * bytes) :
    ClientM (list ClientAction) :=
  let '(i, frame_bytes) := ib in
  frame ← m_lift (map_err (λ e, InvalidFrame ("Failed to decode sync frame " +:+ fmt_int i +:+ ": "
                                              +:+ protocol_error_to_string e))
                    (Frame.decode frame_bytes));
  r ← m_try (handle_frame frame);
  match r with
  | Ok actions => mret actions
  | Err e =>
      mret [Log ("Sync frame " +:+ fmt_int i +:+ " processing error (may be expected): "
                 +:+ ClientError.to_string e)]
  | Panic => m_lift Panic
  end.

(** [Client::handle_sync_response]. *)
Definition handle_sync_response (handle_frame : Frame → ClientM (list ClientAction)) (room_id : Z)
    (frame : Frame) : ClientM (list ClientAction) :=
  sync_response ← m_lift (map_err (λ e, InvalidFrame ("Failed to decode SyncResponse: " +:+ e))
                            (cbor_de (A := session.SyncResponse) (Frame.payload frame)));
  let frames := session.sync_frames sync_response in
  let has_more := session.sync_has_more sync_response in
  let server_epoch := session.sync_server_epoch sync_response in
  actions ← m_concat_map (sync_frame handle_frame) (imap (λ i b, (Z.of_nat i, b)) frames);
  c ← m_get;
  let current_epoch := default 0 (epoch room_id c) in
  mret ([Log ("Processing sync response for room " +:+ fmt_hex room_id +:+ ": "
              +:+ fmt_int (zlen frames) +:+ " frames, has_more=" +:+ fmt_bool has_more
              +:+ ", server_epoch=" +:+ fmt_int server_epoch)]
        ++ actions
        ++ if has_more then
             [RequestSync room_id current_epoch server_epoch;
              Log ("Sync incomplete, requesting more frames for room " +:+ fmt_hex room_id
                   +:+ " (current epoch: " +:+ fmt_int current_epoch +:+ ", target: "
                   +:+ fmt_int server_epoch +:+ ")")]
           else
             [Log ("Sync complete for room " +:+ fmt_hex room_id +:+ ", now at epoch "
                   +:+ fmt_int current_epoch)]).

(** [Client::handle_frame], to a recursion depth. *)
Fixpoint handle_frame (depth : nat) (frame : Frame) : ClientM (list ClientAction) :=
  match depth with
  | O => m_lift Panic
  | Datatypes.S depth =>
      let room_id := FrameHeader.room_id (Frame.header frame) in
      match FrameHeader.opcode_enum (Frame.header frame) with
      | None => m_err (InvalidFrame ("Unknown opcode: " +:+ fmt_int (FrameHeader.opcode (Frame.header frame))))
      | Some Opcode.AppMessage => handle_app_message room_id frame
      | Some Opcode.Commit => handle_commit room_id frame
      | Some Opcode.Welcome => handle_welcome room_id frame
      | Some Opcode.SyncResponse => handle_sync_response (handle_frame depth) room_id frame
      | Some _ =>
          mls_actions ← on_room room_id (on_group (MlsGroup.process_message frame));
          mret (convert_mls_actions room_id mls_actions)
      end
  end.
(** A depth that is enough for every frame. *)
Definition frame_depth (frame : Frame) : nat := Datatypes.S (length (Frame.payload frame)).

(** [Client::handle_add_members]. *)
Definition handle_add_members (room_id : Z) (key_packages_bytes : list bytes) :
    ClientM (list ClientAction) :=
  mls_actions ← on_room room_id (on_group (MlsGroup.add_members_from_bytes key_packages_bytes));
  mret (convert_mls_actions room_id mls_actions).

(** The body of the loop in [handle_tick]. *)
Definition tick_room (now room_id : Z) (room : RoomState) : list ClientAction * RoomState :=
  if MlsGroup.is_commit_timeout now COMMIT_TIMEOUT (mls_group room) then
    let current_epoch := MlsGroup.epoch (mls_group room) in
    ([RequestSync room_id current_epoch (Z.min (current_epoch + 1) U64_MAX);
      Log ("Commit timeout in room " +:+ fmt_hex room_id +:+ ", requesting sync from epoch "
           +:+ fmt_int current_epoch)],
     with_group (MlsGroup.clear_pending_commit (mls_group room)) room)
  else ([], room).
(** [Client::handle_tick]. *)
Definition handle_tick (now : Z) : ClientM (list ClientAction) := λ c,
  (Ok (concat (map (λ '(room_id, room), fst (tick_room now room_id room)) (map_to_list (rooms c)))),
   with_rooms (map_imap (λ room_id room, Some (snd (tick_room now room_id room))) (rooms c)) c).

(** [Client::handle_leave_room]. *)
Definition handle_leave_room (room_id : Z) : ClientM (list ClientAction) :=
  c ← m_get;
  if is_member room_id c then
    m_modify (λ c, with_rooms (delete room_id (rooms c)) c);;
    mret [RoomRemoved room_id "Left room"]
  else m_err (RoomNotFound room_id).

(** [Client::handle]. *)
Definition handle (event : ClientEvent) : ClientM (list ClientAction) :=
  match event with
  | CreateRoom room_id => handle_create_room room_id
  | SendMessage room_id plaintext => handle_send_message room_id plaintext
  | FrameReceived frame => handle_frame (frame_depth frame) frame
  | Tick now => handle_tick now
  | LeaveRoom room_id => handle_leave_room room_id
  | JoinRoom room_id welcome => handle_join_room room_id welcome
  | AddMembers room_id key_packages => handle_add_members room_id key_packages
  end.

(** ** The client's invariant *)

(** Every room's group belongs to that room and to this client; its sender keys
    lie on the members' hash chains for an epoch the group has reached. *)
Record room_ok (me room_id : Z) (r : RoomState) : Prop := {
  ok_room : MlsGroup.room_id (mls_group r) = room_id;
  ok_member : MlsGroup.member_id (mls_group r) = me;
  ok_keys : ∃ secret, SenderKeyStore.derived secret (sender_keys r);
  ok_epoch : SenderKeyStore.epoch (sender_keys r) ≤ MlsGroup.epoch (mls_group r);
}.
Definition cinv (c : Client) : Prop :=
  ∀ room_id r, rooms c !! room_id = Some r → room_ok (client_sender_id c) room_id r.

(** What the CBOR decoder guarantees about the two types that the client decodes
    itself: a [u32] is in range, and a byte string inside a value is no longer
    than the value's encoding. *)
Class ClientCodecOk : Prop := {
  generation_u32 : ∀ p (m : app.EncryptedMessage), cbor_de p = Ok m → 0 ≤ app.msg_generation m ≤ U32_MAX;
  sync_frames_short : ∀ p (r : session.SyncResponse) b,
    cbor_de p = Ok r → b ∈ session.sync_frames r → (length b ≤ length p)%nat;
}.

(** A room after some work on it: still valid, and not at an earlier epoch. *)
Definition room_kept (r r' : RoomState) : Prop :=
  ∀ me id, room_ok me id r →
    room_ok me id r' ∧ MlsGroup.epoch (mls_group r) ≤ MlsGroup.epoch (mls_group r').
#[local] Instance room_kept_preorder : PreOrder room_kept.
Proof.
  split; [intros r me id; by split|]. intros r1 r2 r3 H12 H23 me id Hr.
  destruct (H12 _ _ Hr) as [G1 G2]. destruct (H23 _ _ G1) as [G3 G4]. split; [done|lia].
Qed.
Abbreviation room_keeps := (respects room_kept).

(** A client after some work on it: same identity, valid, and every room still
    there, not at an earlier epoch. *)
Definition grows (c c' : Client) : Prop :=
  identity c' = identity c ∧ cinv c'
  ∧ ∀ id r, rooms c !! id = Some r → ∃ r', rooms c' !! id = Some r'
      ∧ MlsGroup.epoch (mls_group r) ≤ MlsGroup.epoch (mls_group r').

Lemma grows_refl c : cinv c → grows c c.
Proof. intros Hc. split_and!; [done..|]. intros id r Hr. exists r. split; [done|lia]. Qed.
Lemma grows_trans c1 c2 c3 : grows c1 c2 → grows c2 c3 → grows c1 c3.
Proof.
  intros (Hi & _ & Hr) (Hi' & Hc & Hr'). split_and!; [congruence|done|].
  intros id r G1. destruct (Hr _ _ G1) as (r' & G2 & ?). destruct (Hr' _ _ G2) as (r'' & ? & ?).
  exists r''. split; [done|lia].
Qed.

Definition kept (c c' : Client) : Prop := cinv c → grows c c'.
#[local] Instance kept_preorder : PreOrder kept.
Proof.
  split; [intros c Hc; by apply grows_refl|]. intros c1 c2 c3 H12 H23 Hc.
  eapply grows_trans; [by apply H12|]. by apply H23, H12.
Qed.
Abbreviation keeps := (respects kept).

Lemma keeps_get_room id : keeps (get_room id).
Proof. intros c Hc. by apply grows_refl. Qed.
Lemma keeps_env_random n : keeps (env_random n).
Proof. intros c Hc. unfold env_random. destruct (Environment.random_bytes n (env c)). apply (grows_refl c Hc). Qed.

Lemma keeps_on_room {A} id (op : RoomStateM A) : room_keeps op → keeps (on_room id op).
Proof.
  intros Ho c Hc. unfold on_room. destruct (rooms c !! id) as [r|] eqn:Hr; [|by apply grows_refl].
  specialize (Ho r _ _ (Hc _ _ Hr)). destruct (op r) as [a r']. cbn [snd] in *. destruct Ho as [Hok Hle].
  split_and!; [done| |].
  - intros id' x. cbn. rewrite lookup_insert_Some. intros [[<- <-]|[_ Hx]]; [done|by apply Hc].
  - intros id' x Hx. cbn. destruct (decide (id = id')) as [->|].
    + rewrite lookup_insert_eq. exists r'. split; [done|]. by simplify_eq.
    + rewrite lookup_insert_ne by done. exists x. split; [done|lia].
Qed.
#[local] Hint Resolve keeps_get_room keeps_env_random : respects.

Lemma keeps_insert_room id r c :
  cinv c → rooms c !! id = None → room_ok (client_sender_id c) id r → grows c (snd (insert_room id r c)).
Proof.
  intros Hc Hn Hok. split_and!; [done| |].
  - intros id' x. cbn. rewrite lookup_insert_Some. intros [[<- <-]|[_ Hx]]; [done|by apply Hc].
  - intros id' x Hx. cbn. rewrite lookup_insert_ne by congruence. exists x. split; [done|lia].
Qed.

(** *** Rooms *)

Lemma room_keeps_group {A} (op : M MlsGroup MlsError A) :
  (∀ g, MlsGroup.advances g (snd (op g))) → room_keeps (on_group op).
Proof.
  intros Ho r me id [G1 G2 G3 G4]. specialize (Ho (mls_group r)). unfold on_group, m_zoom, m_map_err.
  destruct (op (mls_group r)) as [a g]. cbn in *. destruct Ho as [Hi He]. unfold MlsGroup.ident in Hi.
  simplify_eq. split; [|lia]. split; cbn; [congruence|congruence|done|lia].
Qed.

Lemma room_keeps_keys {A} (op : M SenderKeyStore SenderKeyError A) :
  (∀ k, SenderKeyStore.step k (snd (op k))) → room_keeps (on_keys op).
Proof.
  intros Ho r me id [G1 G2 [secret G3] G4]. specialize (Ho (sender_keys r)).
  unfold on_keys, m_zoom, m_map_err. destruct (op (sender_keys r)) as [a k]. cbn in *.
  apply (SenderKeyStore.step_grows secret _ _ G3) in Ho.
  apply (SenderKeyStore.grows_spec _ _ _ G3) in Ho as (Hd & He & _).
  split; [|lia]. split; cbn; [done|done|by exists secret|by rewrite He].
Qed.

Lemma send_keeps me id p rnd : room_keeps (send_in_room me id p rnd).
Proof.
  apply (respects_bind room_kept); [auto with respects|]. intros room. apply (respects_bind room_kept).
  - apply room_keeps_keys. intros. constructor.
  - intros m. apply (respects_bind room_kept); auto with respects.
Qed.

Section invariant.
Context `{!OpenMlsOk T, !ClientCodecOk}.

Lemma deserialize_generation p m :
  map_err InvalidFrame (deserialize_encrypted_message p) = Ok m → 0 ≤ app.msg_generation m ≤ U32_MAX.
Proof.
  unfold deserialize_encrypted_message. destruct (cbor_de p) as [m'|e|] eqn:Hm; cbn; intros [= <-].
  by eapply generation_u32.
Qed.

Lemma app_message_keeps id frame : room_keeps (app_message_in_room id frame).
Proof.
  apply (respects_bind room_kept); [auto with respects|]. intros room. cbv zeta. case_match; [auto with respects|].
  apply (respects_bind_lift room_kept). intros _ _. apply (respects_bind_lift room_kept). intros m Hm%deserialize_generation.
  apply (respects_bind_lift room_kept). intros who _. case_match; [auto with respects|].
  apply (respects_bind room_kept); [|auto with respects]. apply room_keeps_keys. intros k. by constructor.
Qed.

Lemma process_keeps id frame : keeps (on_room id (on_group (MlsGroup.process_message frame))).
Proof. apply keeps_on_room, room_keeps_group. apply MlsGroup.process_advances. Qed.

Lemma initialize_sender_keys_Ok g keys :
  initialize_sender_keys g = Ok keys →
  SenderKeyStore.epoch keys = MlsGroup.epoch g ∧ ∃ secret, SenderKeyStore.derived secret keys
  ∧ MlsGroup.export_secret SENDER_KEY_LABEL SENDER_KEY_CONTEXT SENDER_KEY_SECRET_SIZE g = Ok secret
  ∧ keys = SenderKeyStore.initialize_epoch secret (MlsGroup.epoch g) (MlsGroup.member_leaf_indices g).
Proof.
  unfold initialize_sender_keys. munfold. destruct (MlsGroup.export_secret _ _ _ g) as [secret|e|]; [|done..].
  intros [= <-]. split; [done|]. exists secret. split; [|done].
  apply SenderKeyStore.initialize_epoch_derived.
Qed.

(** The second half of [handle_commit], on the room with its processed group. *)
Definition rekey (room_id : Z) (mls_actions : list MlsAction) : ClientM (list ClientAction) :=
  room ← get_room room_id;
  new_sender_keys ← m_lift (initialize_sender_keys (mls_group room));
  let leaf_index := MlsGroup.own_leaf (mls_group room) in
  let epoch := MlsGroup.epoch (mls_group room) in
  on_room room_id (m_modify (λ r, with_leaf leaf_index (with_keys new_sender_keys r)));;
  room ← get_room room_id;
  mls_state ← m_lift (map_err from_mls (MlsGroup.export_state (mls_group room)));
  mret (convert_mls_actions room_id mls_actions
        ++ [PersistRoom {| snap_room_id := room_id; snap_epoch := epoch; snap_mls_state := mls_state;
                           snap_my_leaf_index := leaf_index |}]).
Lemma handle_commit_eq id frame :
  handle_commit id frame = (on_room id (on_group (MlsGroup.process_message frame)) ≫= rekey id).
Proof. done. Qed.

(** What the second half does to a client. *)
Lemma rekey_spec id acts c r :
  rooms c !! id = Some r →
  match initialize_sender_keys (mls_group r) with
  | Ok keys =>
      snd (rekey id acts c)
      = with_rooms (<[id := new_room (mls_group r) keys]> (rooms c)) c
  | _ => snd (rekey id acts c) = c ∧ is_ok (fst (rekey id acts c)) = false
  end.
Proof.
  intros Hr. unfold rekey, get_room, on_room. munfold. rewrite Hr.
  destruct (initialize_sender_keys (mls_group r)) as [keys|e|]; [|done..].
  cbn. rewrite lookup_insert_eq.
  by destruct (MlsGroup.export_state _).
Qed.

Lemma rekey_keeps id acts : keeps (rekey id acts).
Proof.
  intros c Hc. destruct (rooms c !! id) as [r|] eqn:Hr; swap 1 2.
  { unfold rekey, get_room. munfold. rewrite Hr. by apply grows_refl. }
  pose proof (rekey_spec id acts c r Hr) as Hs.
  destruct (initialize_sender_keys (mls_group r)) as [keys|e|] eqn:Hk;
    [rewrite Hs|destruct Hs as [-> _]; by apply grows_refl..].
  apply initialize_sender_keys_Ok in Hk as (He & secret & Hd & _). destruct (Hc _ _ Hr) as [G1 G2 G3 G4].
  split_and!; [done| |].
  - intros id' x. cbn. rewrite lookup_insert_Some. intros [[<- <-]|[_ Hx]]; [|by apply Hc].
    split; cbn; [done|done|by exists secret|lia].
  - intros id' x Hx. cbn. destruct (decide (id = id')) as [->|].
    + rewrite lookup_insert_eq. eexists. split; [done|]. simplify_eq. cbn. lia.
    + rewrite lookup_insert_ne by done. exists x. split; [done|lia].
Qed.

Lemma commit_keeps id frame : keeps (handle_commit id frame).
Proof. rewrite handle_commit_eq. apply (respects_bind kept); [apply process_keeps|apply rekey_keeps]. Qed.

Lemma is_member_false id c : is_member id c = false → rooms c !! id = None.
Proof. intros Hf%bool_decide_eq_false. by apply eq_None_not_Some. Qed.

Lemma new_room_ok id g keys :
  initialize_sender_keys g = Ok keys → MlsGroup.room_id g = id →
  room_ok (MlsGroup.member_id g) id (new_room g keys).
Proof.
  intros (He & secret & Hd & _)%initialize_sender_keys_Ok Hid. split; cbn; [done|done|by exists secret|lia].
Qed.

Lemma create_keeps id : keeps (handle_create_room id).
Proof.
  intros c Hc. unfold handle_create_room. munfold.
  destruct (is_member id c) eqn:Hm; [by apply grows_refl|]. apply is_member_false in Hm.
  destruct (MlsGroup.new (env c) id (client_sender_id c)) as [[g acts]|e|] eqn:Hg; [|by apply grows_refl..].
  destruct (initialize_sender_keys g) as [keys|e|] eqn:Hk; [|by apply grows_refl..].
  destruct (MlsGroup.export_state g); [|by apply grows_refl..].
  apply keeps_insert_room; [done..|]. unfold MlsGroup.new in Hg. munfold.
  repeat (case_match; simplify_eq/=). by eapply new_room_ok in Hk.
Qed.

Lemma join_keeps via id welcome : keeps (join via id welcome).
Proof.
  intros c Hc. unfold join, try_join_from_welcome. munfold.
  destruct (is_member id c) eqn:Hm; [by apply grows_refl|]. apply is_member_false in Hm.
  destruct (reverse (pending_joins c)) as [|pj older]; [by apply grows_refl|].
  set (c1 := with_pending_joins (reverse older) c). assert (cinv c1) as Hc1 by done.
  assert (grows c c1) as Hg1 by apply (grows_refl c Hc).
  destruct (MlsGroup.join_from_welcome id (client_sender_id c) welcome pj) as [[g acts]|e|] eqn:Hg; [|done..].
  destruct (initialize_sender_keys g) as [keys|e|] eqn:Hk; [|done..].
  eapply (grows_trans c c1); [done|]. apply keeps_insert_room; [done..|].
  unfold MlsGroup.join_from_welcome in Hg. munfold. repeat (case_match; simplify_eq/=).
  by eapply new_room_ok in Hk.
Qed.

Lemma frame_keeps depth frame : keeps (handle_frame depth frame).
Proof.
  revert frame. induction depth as [|depth IH]; intros frame; [apply (respects_lift kept)|]. cbn [handle_frame].
  assert (keeps (mls_actions ← on_room (FrameHeader.room_id (Frame.header frame))
                    (on_group (MlsGroup.process_message frame));
                 mret (convert_mls_actions (FrameHeader.room_id (Frame.header frame)) mls_actions))) as Hother.
  { apply (respects_bind kept); [apply process_keeps|auto with respects]. }
  destruct (FrameHeader.opcode_enum (Frame.header frame)) as [[]|]; try exact Hother; [..|apply (respects_err kept)].
  all: first [apply commit_keeps | apply join_keeps | apply keeps_on_room, app_message_keeps | idtac].
  apply (respects_bind kept); [auto with respects|]. intros r. cbv zeta. apply (respects_bind kept).
  - apply (respects_concat_map kept). intros [i b] _. apply (respects_bind kept); [auto with respects|]. intros f.
    apply (respects_bind kept); [apply (respects_try kept), IH|]. intros [|?|]; auto with respects.
  - intros acts. apply (respects_bind kept); auto with respects.
Qed.

Lemma add_members_keeps id kps : keeps (handle_add_members id kps).
Proof.
  apply (respects_bind kept); [|auto with respects]. apply keeps_on_room, room_keeps_group.
  intros g. apply MlsGroup.quiet_advances, MlsGroup.add_bytes_quiet.
Qed.

Lemma tick_room_keeps now id : respects room_kept (E := ClientError) (λ r, (Ok (fst (tick_room now id r)), snd (tick_room now id r))).
Proof.
  intros r me id' [G1 G2 G3 G4]. unfold tick_room. destruct (MlsGroup.is_commit_timeout _ _ _); cbn.
  - pose proof (MlsGroup.clear_quiet (mls_group r)) as [Hi He]. split; [|lia].
    unfold MlsGroup.ident in Hi. simplify_eq. split; cbn; [congruence|congruence|done|lia].
  - split; [done|lia].
Qed.

Lemma tick_keeps now : keeps (handle_tick now).
Proof.
  intros c Hc. split_and!; [done| |]; cbn; intros id r.
  - cbn. rewrite map_lookup_imap. destruct (rooms c !! id) as [r0|] eqn:Hr; intros [= <-].
    by apply (tick_room_keeps now id), Hc.
  - intros Hr. rewrite map_lookup_imap, Hr. eexists. split; [done|].
    by apply (tick_room_keeps now id _ (client_sender_id c) id), Hc.
Qed.

Lemma send_message_keeps id p : keeps (handle_send_message id p).
Proof.
  apply (respects_bind kept); [auto with respects|]. intros _. apply (respects_bind kept); [auto with respects|]. intros rnd.
  apply (respects_bind kept); [auto with respects|]. intros c. apply (respects_bind kept); [|auto with respects].
  apply keeps_on_room, send_keeps.
Qed.

Lemma leaves_or_not ev : (∃ id, ev = LeaveRoom id) ∨ ∀ id, ev ≠ LeaveRoom id.
Proof. destruct ev; eauto. Qed.

Lemma event_keeps ev : (∀ id, ev ≠ LeaveRoom id) → keeps (handle ev).
Proof.
  intros Hn. destruct ev; cbn [handle]; [apply frame_keeps|apply tick_keeps|apply send_message_keeps
    |apply create_keeps|apply join_keeps|by destruct (Hn room_id)|apply add_members_keeps].
Qed.

Lemma leave_spec id c :
  snd (handle_leave_room id c) = with_rooms (delete id (rooms c)) c.
Proof.
  unfold handle_leave_room. munfold. destruct (is_member id c) eqn:Hm; [done|].
  apply is_member_false in Hm. rewrite delete_id by done. by destruct c.
Qed.

Lemma key_package_keeps c : cinv c → grows c (snd (generate_key_package c)).
Proof.
  intros Hc. unfold generate_key_package. munfold.
  destruct (MlsGroup.generate_key_package _ _) as [[[]]|e|]; [|by apply grows_refl..].
  apply (grows_refl c Hc).
Qed.

(** One step of a client: an event, or a key package for an invitation. *)
Inductive step : Client → Client → Prop :=
| step_event ev c : step c (snd (handle ev c))
| step_key_package c : step c (snd (generate_key_package c)).

Lemma step_cinv c c' : step c c' → cinv c → cinv c' ∧ identity c' = identity c.
Proof.
  destruct 1 as [ev c|c]; intros Hc; [|split; by apply key_package_keeps].
  destruct (leaves_or_not ev) as [[id ->]|Hn].
  - cbn [handle]. rewrite leave_spec. split; [|done]. intros id' r. cbn. rewrite lookup_delete_Some.
    intros [_ Hr]. by apply Hc.
  - split; by apply event_keeps.
Qed.

Lemma reachable_cinv e me c : rtc step (new e me) c → cinv c ∧ identity c = me.
Proof.
  intros Hr. cut (∀ c0, rtc step c0 c → cinv c0 → cinv c ∧ identity c = identity c0).
  { intros Hc. by apply (Hc (new e me)). }
  clear Hr. induction 1 as [|c1 c2 c3 Hs _ IH]; [done|]. intros Hc.
  apply step_cinv in Hs as [Hc2 <-]; auto.
Qed.

(** C25: the client's invariant.  Whatever events it has handled, successfully or
    not, a client keeps its identity; each room's group is that room's and this
    client's; its sender keys lie on the members' hash chains of an epoch that the
    group has reached.  And an event other than leaving a room keeps the room,
    never at an earlier epoch. *)
Theorem client_invariant e me c :
  rtc step (new e me) c →
  identity c = me ∧ cinv c
  ∧ ∀ ev id r, rooms c !! id = Some r → ev ≠ LeaveRoom id →
      ∃ r', rooms (snd (handle ev c)) !! id = Some r'
            ∧ MlsGroup.epoch (mls_group r) ≤ MlsGroup.epoch (mls_group r').
Proof.
  intros [Hc Hi]%reachable_cinv. split_and!; [done..|]. intros ev id r Hr Hn.
  destruct (leaves_or_not ev) as [[id' ->]|Hev].
  - cbn [handle]. rewrite leave_spec. cbn. rewrite lookup_delete_ne by congruence. exists r. split; [done|lia].
  - by eapply event_keeps.
Qed.

(** *** Termination and panics *)

(** The calls into other crates on the receiving path return, with a value or an
    error. *)
Class ReceiveTotal : Prop := {
  #[global] receive_process :: MlsGroup.ProcessTotal;
  encrypted_total : ∀ p, cbor_de (A := app.EncryptedMessage) p ≠ Panic;
  response_total : ∀ p, cbor_de (A := session.SyncResponse) p ≠ Panic;
  deserialize_total : ∀ p, message_deserialize p ≠ Panic;
  stage_total : ∀ p w t, fst (stage_welcome p w t) ≠ Panic;
  into_group_total : ∀ p w t, fst (staged_into_group p w t) ≠ Panic;
}.

Definition safe {A} (m : ClientM A) : Prop := ∀ c, cinv c → fst (m c) ≠ Panic.
Definition room_safe {A} (op : RoomStateM A) : Prop := ∀ me id r, room_ok me id r → fst (op r) ≠ Panic.

Lemma safe_bind {A B} (m : ClientM A) (f : A → ClientM B) :
  safe m → keeps m → (∀ a, safe (f a)) → safe (m ≫= f).
Proof.
  intros Hs Hk Hf c Hc. specialize (Hs c Hc). specialize (Hk c Hc). munfold.
  destruct (m c) as [[a|e|] c']; cbn in *; [|done..]. apply Hf, Hk.
Qed.
Lemma safe_bind_lift {A B} (x : outcome ClientError A) (f : A → ClientM B) :
  x ≠ Panic → (∀ a, x = Ok a → safe (f a)) → safe (m_lift x ≫= f).
Proof. intros Hx Hf c Hc. munfold. destruct x; [by apply Hf|done..]. Qed.
Lemma safe_concat_map {A B} (f : A → ClientM (list B)) l :
  (∀ a, a ∈ l → safe (f a) ∧ keeps (f a)) → safe (m_concat_map f l).
Proof.
  induction l as [|a l IH]; intros Hf; cbn; [by intros c Hc|].
  apply safe_bind; [apply Hf; set_solver..|]. intros ys.
  apply safe_bind; [apply IH; set_solver|apply (respects_concat_map kept); set_solver|]. by intros zs c Hc.
Qed.
Lemma safe_on_room {A} id (op : RoomStateM A) : room_safe op → safe (on_room id op).
Proof.
  intros Ho c Hc. unfold on_room. destruct (rooms c !! id) as [r|] eqn:Hr; [|done].
  specialize (Ho _ _ _ (Hc _ _ Hr)). by destruct (op r).
Qed.
Lemma room_safe_bind_lift {A B} (x : outcome ClientError A) (f : A → RoomStateM B) :
  x ≠ Panic → (∀ a, x = Ok a → room_safe (f a)) → room_safe (m_lift x ≫= f).
Proof. intros Hx Hf me id r Hr. munfold. destruct x; [by eapply Hf|done..]. Qed.

Lemma room_safe_get {B} (f : RoomState → RoomStateM B) : (∀ room, room_safe (f room)) → room_safe (m_get ≫= f).
Proof. intros Hf me id r Hr. by eapply Hf. Qed.

Lemma ok_or_total {E A} (x : option A) (e : E) : ok_or x e ≠ Panic.
Proof. by destruct x. Qed.
Lemma decode_short bs f : Frame.decode bs = Ok f → (length (Frame.payload f) + 128 ≤ length bs)%nat.
Proof.
  intros [Hf [rest ->]]%Frame.decode_Ok. rewrite !length_app, FrameHeader.length_to_bytes by apply Hf. lia.
Qed.

Section total.
Context `{!ReceiveTotal}.

Lemma process_safe id frame : safe (on_room id (on_group (MlsGroup.process_message frame))).
Proof.
  apply safe_on_room. intros me id' r _. unfold on_group, m_zoom, m_map_err.
  pose proof (MlsGroup.process_message_total frame (mls_group r)) as Hp.
  destruct (MlsGroup.process_message frame (mls_group r)). cbn in *. by apply map_err_total.
Qed.

Lemma initialize_total g : initialize_sender_keys g ≠ Panic.
Proof.
  unfold initialize_sender_keys, MlsGroup.export_secret. munfold.
  match goal with |- context [group_export_secret ?g ?l ?x ?n] =>
    pose proof (MlsGroup.export_total g l x n); by destruct (group_export_secret g l x n) end.
Qed.
Lemma rekey_safe id acts : safe (rekey id acts).
Proof.
  intros c Hc. unfold rekey, get_room, on_room. munfold. destruct (rooms c !! id) as [r|] eqn:Hr; [|done].
  pose proof (initialize_total (mls_group r)). destruct (initialize_sender_keys (mls_group r)) as [keys|e|]; [|done..].
  cbn. rewrite lookup_insert_eq. pose proof (MlsGroup.export_state_total (mls_group r)) as He. cbn.
  by destruct (MlsGroup.export_state (mls_group r)).
Qed.

Lemma join_safe via id welcome : safe (join via id welcome).
Proof.
  intros c Hc. unfold join, try_join_from_welcome. munfold. destruct (is_member id c); [done|].
  destruct (reverse (pending_joins c)) as [|pj older]; [done|].
  destruct (MlsGroup.join_from_welcome _ _ welcome pj) as [[g acts]|e|] eqn:Hj; [|done|exfalso].
  - pose proof (initialize_total g). by destruct (initialize_sender_keys g).
  - unfold MlsGroup.join_from_welcome in Hj. munfold. pose proof (deserialize_total welcome).
    destruct (message_deserialize welcome) as [m|e|]; [|done..]. destruct (message_extract m) as [w|]; [|done].
    pose proof (stage_total (MlsGroup.pj_provider pj) w (MlsGroup.pj_env pj)) as Hs.
    destruct (stage_welcome _ w _) as [[st|e|] t]; [|done..].
    pose proof (into_group_total (MlsGroup.pj_provider pj) st t) as Hg.
    by destruct (staged_into_group _ st t) as [[]].
Qed.

Lemma decrypt_total secret k m :
  SenderKeyStore.derived secret k → 0 ≤ EncryptedMessage.generation m ≤ U32_MAX →
  fst (SenderKeyStore.decrypt m k) ≠ Panic.
Proof.
  intros Hd Hn. destruct (decide (EncryptedMessage.epoch m = SenderKeyStore.epoch k)) as [He|Hne].
  2: { unfold SenderKeyStore.decrypt. munfold. by rewrite (proj2 (Z.eqb_neq _ _) Hne). }
  destruct (SenderKeyStore.ratchets k !! EncryptedMessage.sender_index m) as [r|] eqn:Hr.
  2: { unfold SenderKeyStore.decrypt, SenderKeyStore.with_ratchet. munfold.
       rewrite (proj2 (Z.eqb_eq _ _) He). cbn [negb]. by rewrite Hr. }
  destruct (Hd _ _ Hr) as (g & Hg & ->). rewrite (SenderKeyStore.decrypt_at secret _ _ g) by done.
  repeat case_match; try done. cbn. unfold encryption.decrypt_message. case_match; [done|]. apply ok_or_total.
Qed.

Lemma app_message_safe id frame : room_safe (app_message_in_room id frame).
Proof.
  apply room_safe_get. intros room. cbv zeta. case_match; [by intros me id' r Hr|].
  apply room_safe_bind_lift.
  { apply map_err_total. unfold MlsGroup.validate_frame. munfold.
    match goal with |- context [MlsValidator.validate_frame ?f ?e ?st] =>
      destruct (proj2 (MlsValidator.validate_frame_cases f e st)) as [->|[why ->]]; done end. }
  intros _ _. apply room_safe_bind_lift.
  { apply map_err_total, map_err_total, encrypted_total. }
  intros m Hm%deserialize_generation. apply room_safe_bind_lift; [apply ok_or_total|]. intros who _.
  case_match; [by intros me id' r Hr|]. intros me id' r [_ _ [secret Hd] _].
  pose proof (decrypt_total secret (sender_keys r) (proto_to_crypto_encrypted m) Hd Hm) as Hp.
  unfold on_keys. munfold. by destruct (SenderKeyStore.decrypt _ (sender_keys r)) as [[]].
Qed.

(** The frames inside a decoded response have shorter payloads. *)
Lemma sync_inner_short p r i b f :
  cbor_de (A := session.SyncResponse) p = Ok r →
  (i, b) ∈ imap (λ i b, (Z.of_nat i, b)) (session.sync_frames r) → Frame.decode b = Ok f →
  (length (Frame.payload f) < length p)%nat.
Proof.
  intros Hr Hb Hf%decode_short. apply elem_of_lookup_imap in Hb as (k & b' & [= -> ->] & Hk).
  apply list_elem_of_lookup_2 in Hk. pose proof (sync_frames_short _ _ _ Hr Hk). lia.
Qed.

Lemma map_err_Ok {E E' A} (f : E → E') (x : outcome E A) a : map_err f x = Ok a → x = Ok a.
Proof. by destruct x; intros [= <-]. Qed.

Lemma frame_safe depth frame : (length (Frame.payload frame) < depth)%nat → safe (handle_frame depth frame).
Proof.
  revert frame. induction depth as [|depth IH]; intros frame Hd; [lia|]. cbn [handle_frame].
  assert (safe (mls_actions ← on_room (FrameHeader.room_id (Frame.header frame))
                    (on_group (MlsGroup.process_message frame));
                 mret (convert_mls_actions (FrameHeader.room_id (Frame.header frame)) mls_actions))) as Hother.
  { apply safe_bind; [apply process_safe|apply process_keeps|]. by intros a c Hc. }
  destruct (FrameHeader.opcode_enum (Frame.header frame)) as [[]|];
    try exact Hother; [..|by intros c Hc].
  all: first [apply join_safe | apply safe_on_room, app_message_safe | idtac].
  2: { rewrite handle_commit_eq. apply safe_bind; [apply process_safe|apply process_keeps|apply rekey_safe]. }
  apply safe_bind_lift; [apply map_err_total, response_total|]. intros r Hr%map_err_Ok. cbv zeta.
  apply safe_bind; [| |by intros acts c Hc].
  - apply safe_concat_map. intros [i b] Hb. split.
    + apply safe_bind_lift; [apply map_err_total, Frame.decode_total|]. intros f Hf%map_err_Ok.
      pose proof (sync_inner_short _ _ _ _ _ Hr Hb Hf).
      assert (safe (handle_frame depth f)) as Hs by (apply IH; lia). intros c Hc. specialize (Hs c Hc).
      munfold. by destruct (handle_frame depth f c) as [[]].
    + apply (respects_bind kept); [auto with respects|]. intros f.
      apply (respects_bind kept); [apply (respects_try kept), frame_keeps|]. intros [|?|]; auto with respects.
  - apply (respects_concat_map kept). intros [i b] _. apply (respects_bind kept); [auto with respects|]. intros f.
    apply (respects_bind kept); [apply (respects_try kept), frame_keeps|]. intros [|?|]; auto with respects.
Qed.

Lemma concat_map_ext {A B} (f g : A → ClientM (list B)) l c :
  (∀ a, a ∈ l → ∀ c, f a c = g a c) → m_concat_map f l c = m_concat_map g l c.
Proof.
  revert c. induction l as [|a l IH]; intros c Hfg; [done|]. cbn. munfold.
  rewrite Hfg by set_solver. destruct (g a c) as [[ys|e|] c']; [|done..]. rewrite IH by set_solver. done.
Qed.

Lemma frame_depth_irrelevant d1 d2 frame c :
  (length (Frame.payload frame) < d1)%nat → (length (Frame.payload frame) < d2)%nat →
  handle_frame d1 frame c = handle_frame d2 frame c.
Proof.
  revert d2 frame c. induction d1 as [|d1 IH]; intros [|d2] frame c H1' H2'; [lia..|]. cbn [handle_frame].
  destruct (FrameHeader.opcode_enum (Frame.header frame)) as [[]|]; try done.
  unfold handle_sync_response. munfold.
  destruct (cbor_de (Frame.payload frame)) as [r|e|] eqn:Hr; [|done..].
  rewrite (concat_map_ext _ (sync_frame (handle_frame d2))); [done|]. intros [i b] Hb c'. cbn [sync_frame].
  munfold. destruct (Frame.decode b) as [f|e|] eqn:Hf; [|done..].
  pose proof (sync_inner_short _ _ _ _ _ Hr Hb Hf). by rewrite (IH d2) by lia.
Qed.

(** C27: handling a frame always ends.  [handle_frame] and [handle_sync_response]
    call each other, and a sync response may hold sync responses.  For a client in
    a reachable state, every frame is handled to the end with a result or an
    error, never a panic; and any deeper recursion allowance gives the same
    outcome. *)
Theorem frame_handling_terminates e me c frame :
  rtc step (new e me) c →
  fst (handle (FrameReceived frame) c) ≠ Panic
  ∧ ∀ depth, (frame_depth frame ≤ depth)%nat →
      handle_frame depth frame c = handle (FrameReceived frame) c.
Proof.
  intros [Hc _]%reachable_cinv. split.
  - apply frame_safe; [|done]. unfold frame_depth. lia.
  - intros depth Hd. unfold frame_depth in *. apply frame_depth_irrelevant; unfold frame_depth; lia.
Qed.
End total.

(** *** Application messages *)

(** What [handle_app_message] checks before it decrypts, for the message in the
    frame and the sender it names. *)
Definition admissible (frame : Frame) (g : MlsGroup) (m : app.EncryptedMessage) : Prop :=
  FrameHeader.epoch (Frame.header frame) = MlsGroup.epoch g
  ∧ FrameHeader.sender_id (Frame.header frame) ∈ MlsGroupState.members (MlsGroup.export_validation_state g)
  ∧ MlsValidator.authentic frame (MlsGroup.export_validation_state g)
  ∧ deserialize_encrypted_message (Frame.payload frame) = Ok m
  ∧ MlsGroup.member_id_by_leaf_index (app.msg_sender_index m) g
    = Some (FrameHeader.sender_id (Frame.header frame)).

Definition delivery (id : Z) (frame : Frame) (plaintext : bytes) : list ClientAction :=
  [DeliverMessage id (FrameHeader.sender_id (Frame.header frame)) plaintext
     (FrameHeader.log_index (Frame.header frame)) (FrameHeader.hlc_timestamp (Frame.header frame))].

Lemma validate_frame_Ok frame g :
  MlsGroup.validate_frame frame (Some (MlsGroup.export_validation_state g)) g = Ok tt
  ↔ FrameHeader.epoch (Frame.header frame) = MlsGroup.epoch g
    ∧ FrameHeader.sender_id (Frame.header frame) ∈ MlsGroupState.members (MlsGroup.export_validation_state g)
    ∧ MlsValidator.authentic frame (MlsGroup.export_validation_state g).
Proof.
  unfold MlsGroup.validate_frame. munfold.
  destruct (MlsValidator.validate_frame_cases frame (MlsGroup.epoch g) (MlsGroup.export_validation_state g))
    as [Hiff [Ha|[why Hr]]]; [rewrite Ha; naive_solver|].
  rewrite Hr in *. split; [done|]. intros Hc. apply Hiff in Hc. done.
Qed.

(** An admissible frame is decrypted and delivered, *)
Lemma app_message_admissible id frame r m :
  admissible frame (mls_group r) m →
  app_message_in_room id frame r
  = let '(x, k) := SenderKeyStore.decrypt (proto_to_crypto_encrypted m) (sender_keys r) in
    (match x with Ok p => Ok (delivery id frame p) | Err e => Err (SenderKey e) | Panic => Panic end,
     with_keys k r).
Proof.
  intros (He & Hmem & Ha & Hd & Hl). unfold app_message_in_room, on_keys. munfold.
  rewrite (proj2 (Z.eqb_eq _ _) He). cbn [negb].
  rewrite (proj2 (validate_frame_Ok frame (mls_group r))) by done. rewrite Hd, Hl, Z.eqb_refl. cbn [negb].
  by destruct (SenderKeyStore.decrypt _ (sender_keys r)) as [[] k].
Qed.

(** and no other frame is. *)
Lemma app_message_Ok id frame r acts r' :
  app_message_in_room id frame r = (Ok acts, r') →
  ∃ m p k, admissible frame (mls_group r) m
    ∧ SenderKeyStore.decrypt (proto_to_crypto_encrypted m) (sender_keys r) = (Ok p, k)
    ∧ acts = delivery id frame p ∧ r' = with_keys k r.
Proof.
  intros Ho. assert (∃ m, admissible frame (mls_group r) m) as [m Hm].
  { revert Ho. unfold app_message_in_room. munfold.
    destruct (_ =? MlsGroup.epoch _) eqn:He; [|done]. cbn [negb]. bool_to_prop.
    destruct (MlsGroup.validate_frame _ _ _) as [[]|e|] eqn:Hv; [|done..].
    destruct (deserialize_encrypted_message _) as [m|e|] eqn:Hd; [|done..].
    destruct (MlsGroup.member_id_by_leaf_index _ _) as [who|] eqn:Hl; [|done].
    destruct (_ =? who) eqn:Hw; [|done]. bool_to_prop. subst who. intros _. exists m.
    apply validate_frame_Ok in Hv as (_ & ? & ?). done. }
  rewrite (app_message_admissible id frame r m Hm) in Ho.
  destruct (SenderKeyStore.decrypt _ (sender_keys r)) as [[p|e|] k] eqn:Hdec; simplify_eq. eauto 10.
Qed.

Definition is_app (frame : Frame) : Prop :=
  FrameHeader.opcode_enum (Frame.header frame) = Some Opcode.AppMessage.

Lemma handle_app frame c :
  is_app frame →
  handle (FrameReceived frame) c
  = on_room (FrameHeader.room_id (Frame.header frame))
      (app_message_in_room (FrameHeader.room_id (Frame.header frame)) frame) c.
Proof. intros Ha. cbn [handle frame_depth handle_frame]. by rewrite Ha. Qed.

Lemma handle_app_Ok frame c acts c' :
  is_app frame → handle (FrameReceived frame) c = (Ok acts, c') →
  let id := FrameHeader.room_id (Frame.header frame) in
  ∃ r m p k, rooms c !! id = Some r ∧ admissible frame (mls_group r) m
    ∧ SenderKeyStore.decrypt (proto_to_crypto_encrypted m) (sender_keys r) = (Ok p, k)
    ∧ acts = delivery id frame p ∧ c' = with_rooms (<[id := with_keys k r]> (rooms c)) c.
Proof.
  intros Ha Ho id. rewrite handle_app in Ho by done. unfold on_room in Ho. fold id in Ho.
  destruct (rooms c !! id) as [r|] eqn:Hr; [|done].
  destruct (app_message_in_room id frame r) as [x r'] eqn:E. simplify_eq.
  apply app_message_Ok in E as (m & p & k & ? & ? & -> & ->). by exists r, m, p, k.
Qed.

(** C6: only authentic messages are delivered, and each at most once.  When an
    application frame leads to a delivery, the frame carries the room's epoch, its
    sender is a member whose registered key verifies the header, the leaf index
    inside the encrypted message belongs to that same sender, and the plaintext
    delivered in the sender's name is what the sender's ratchet decrypts.
    Presenting the same payload again, under any header, delivers nothing. *)
Theorem delivered_messages_authentic e me c frame acts c' :
  rtc step (new e me) c → is_app frame → handle (FrameReceived frame) c = (Ok acts, c') →
  let id := FrameHeader.room_id (Frame.header frame) in
  (∃ r m p k, rooms c !! id = Some r ∧ admissible frame (mls_group r) m
    ∧ SenderKeyStore.decrypt (proto_to_crypto_encrypted m) (sender_keys r) = (Ok p, k)
    ∧ acts = delivery id frame p)
  ∧ ∀ again, is_app again → FrameHeader.room_id (Frame.header again) = id →
      Frame.payload again = Frame.payload frame → is_ok (fst (handle (FrameReceived again) c')) = false.
Proof.
  intros [Hc _]%reachable_cinv Ha Ho id.
  destruct (handle_app_Ok _ _ _ _ Ha Ho) as (r & m & p & k & Hr & Hadm & Hdec & -> & ->). fold id in Hr.
  split; [by exists r, m, p, k|]. intros again Ha' Hid Hpay.
  destruct (handle (FrameReceived again) _) as [[acts'|e'|] c''] eqn:Hagain; [exfalso|done..].
  destruct (handle_app_Ok _ _ _ _ Ha' Hagain) as (r' & m' & p' & k' & Hr' & Hadm' & Hdec' & _).
  rewrite Hid in Hr'. fold id in Hr'. cbn in Hr'. rewrite lookup_insert_eq in Hr'. injection Hr' as <-.
  destruct Hadm as (_ & _ & _ & Hd & _), Hadm' as (_ & _ & _ & Hd' & _).
  rewrite Hpay, Hd in Hd'. injection Hd' as <-. destruct (ok_keys _ _ _ (Hc _ _ Hr)) as [secret Hder].
  assert (0 ≤ EncryptedMessage.generation (proto_to_crypto_encrypted m) ≤ U32_MAX) as Hgen.
  { apply (deserialize_generation (Frame.payload frame)). by rewrite Hd. }
  pose proof (SenderKeyStore.decrypt_past secret _ _ Hder Hgen) as Hpast. rewrite Hdec in Hpast.
  destruct (SenderKeyStore.past_refused secret (proto_to_crypto_encrypted m) k) as [g Hg];
    [lia|apply Hpast; eauto|]. cbn [sender_keys with_keys] in Hdec'. congruence.
Qed.

(** *** Clients and the rest of the system *)

(** A frame as the server hands it on: with its log index. *)
Definition sequenced (i : Z) (frame : Frame) : Frame :=
  {| Frame.header := FrameHeader.set_log_index i (Frame.header frame); Frame.payload := Frame.payload frame |}.

(** The header that [handle_send_message] signs. *)
Definition message_header (me room_id epoch : Z) : FrameHeader :=
  FrameHeader.set_epoch epoch (FrameHeader.set_sender_id me
    (FrameHeader.set_room_id room_id (FrameHeader.new Opcode.AppMessage))).
Lemma message_header_wf me id e : FrameHeader.wf (message_header me id e).
Proof.
  apply FrameHeader.set_epoch_wf, FrameHeader.set_sender_id_wf, FrameHeader.set_room_id_wf, FrameHeader.new_wf.
Qed.

Lemma handle_send_Ok id p c acts c' :
  handle (SendMessage id p) c = (Ok acts, c') →
  ∃ r payload, rooms c !! id = Some r
    ∧ acts = [Send (Frame.new (MlsGroup.sign_frame_header (mls_group r)
        (message_header (client_sender_id c) id (MlsGroup.epoch (mls_group r)))) payload)].
Proof.
  cbn [handle]. unfold handle_send_message, get_room, env_random, on_room, send_in_room, on_keys. munfold.
  destruct (rooms c !! id) as [r|] eqn:Hr; [|done].
  destruct (Environment.random_bytes _ (env c)) as [rnd t]. cbn. rewrite Hr.
  destruct (SenderKeyStore.encrypt _ p rnd (sender_keys r)) as [[m|e|] k]; cbn; [|done..].
  destruct (serialize_encrypted_message _) as [payload|e|]; [|done..]. intros. simplify_eq. eauto.
Qed.

Lemma app_message_invalid id frame r :
  FrameHeader.epoch (Frame.header frame) = MlsGroup.epoch (mls_group r) →
  ¬ MlsValidator.authentic frame (MlsGroup.export_validation_state (mls_group r)) →
  ∃ why, app_message_in_room id frame r = (Err (InvalidFrame why), r).
Proof.
  intros He Ha. unfold app_message_in_room. munfold. rewrite (proj2 (Z.eqb_eq _ _) He). cbn [negb].
  unfold MlsGroup.validate_frame. munfold.
  destruct (MlsValidator.validate_frame_cases frame (MlsGroup.epoch (mls_group r))
    (MlsGroup.export_validation_state (mls_group r))) as [Hiff [Hv|[why ->]]]; [|by eexists].
  exfalso. apply Ha, Hiff, Hv.
Qed.

(** The frame that [handle_send_message] of [a] makes for room [id]. *)
Record sent_by (a : Client) (id : Z) (ra : RoomState) (sig : bytes) (frame : Frame) : Prop := {
  sent_app : is_app frame;
  sent_room : FrameHeader.room_id (Frame.header frame) = id;
  sent_sender : FrameHeader.sender_id (Frame.header frame) = client_sender_id a;
  sent_epoch : FrameHeader.epoch (Frame.header frame) = MlsGroup.epoch (mls_group ra);
  sent_signature : FrameHeader.signature (Frame.header frame) = sig;
  sent_header : FrameHeader.wf (Frame.header frame);
  sent_wf : zlen (Frame.payload frame) ≤ FrameHeader.MAX_PAYLOAD_SIZE → Frame.wf frame }.

(** The bytes it signs. *)
Definition signed_part (a : Client) (id : Z) (ra : RoomState) : bytes :=
  take 64 (FrameHeader.to_bytes (message_header (client_sender_id a) id (MlsGroup.epoch (mls_group ra)))).

Lemma handle_send_frame a id p frame a' ra sig :
  handle (SendMessage id p) a = (Ok [Send frame], a') → rooms a !! id = Some ra →
  0 ≤ id < U128_MOD → 0 ≤ client_sender_id a < U64_MOD → 0 ≤ MlsGroup.epoch (mls_group ra) < U64_MOD →
  keypair_sign (MlsGroup.signer (mls_group ra)) (signed_part a id ra) = Ok sig → length sig = 64%nat →
  sent_by a id ra sig frame.
Proof.
  intros Hsend Hra Hid Hme Hep Hsig Hlen.
  destruct (handle_send_Ok _ _ _ _ _ Hsend) as (r & payload & Hr & [= ->]).
  rewrite Hra in Hr. injection Hr as <-.
  pose proof (message_header_wf (client_sender_id a) id (MlsGroup.epoch (mls_group ra))) as Hwf.
  unfold signed_part in Hsig. set (h := message_header _ _ _) in *.
  rewrite (MlsGroup.sign_frame_header_Ok _ h sig) by done.
  assert (FrameHeader.wf (FrameHeader.set_signature sig h)) as Hwf' by by apply FrameHeader.set_signature_wf. split.
  - unfold is_app. apply (FrameHeader.new_opcode_enum Opcode.AppMessage).
  - unfold FrameHeader.room_id. cbn. apply from_to_be_bytes. exact Hid.
  - unfold FrameHeader.sender_id. cbn. apply from_to_be_bytes. exact Hme.
  - unfold FrameHeader.epoch. cbn. apply from_to_be_bytes. exact Hep.
  - done.
  - by apply FrameHeader.set_payload_size_wf.
  - intros Hsz. by apply Frame.frame_new_wf.
Qed.

(** Its signature is over 64 bytes and is verified against 56. *)
Lemma sent_not_authentic a id ra sig frame st key i :
  sent_by a id ra sig frame → MlsGroupState.member_key (client_sender_id a) st = Some key →
  (∀ msg, ed_verify key msg sig = true → msg = signed_part a id ra) →
  ¬ MlsValidator.authentic (sequenced i frame) st.
Proof.
  intros Hs Hkey Honly (k & Hk & Hv). change (FrameHeader.sender_id _) with (FrameHeader.sender_id (Frame.header frame)) in Hk.
  change (FrameHeader.signature _) with (FrameHeader.signature (Frame.header frame)) in Hv.
  rewrite (sent_sender _ _ _ _ _ Hs), Hkey in Hk. injection Hk as <-.
  rewrite (sent_signature _ _ _ _ _ Hs) in Hv. apply Honly, (f_equal length) in Hv.
  rewrite FrameHeader.length_signing_data in Hv by apply FrameHeader.set_log_index_wf, (sent_header _ _ _ _ _ Hs).
  unfold signed_part in Hv. rewrite length_take, FrameHeader.length_to_bytes in Hv by apply message_header_wf. lia.
Qed.

Lemma sent_refused a b id ra rb sig frame key i :
  sent_by a id ra sig frame → rooms b !! id = Some rb →
  MlsGroup.epoch (mls_group rb) = MlsGroup.epoch (mls_group ra) →
  MlsGroupState.member_key (client_sender_id a) (MlsGroup.export_validation_state (mls_group rb)) = Some key →
  (∀ msg, ed_verify key msg sig = true → msg = signed_part a id ra) →
  ∃ why, handle (FrameReceived (sequenced i frame)) b = (Err (InvalidFrame why), b).
Proof.
  intros Hs Hrb Heq Hkey Honly. rewrite handle_app by apply (sent_app _ _ _ _ _ Hs). unfold on_room.
  change (FrameHeader.room_id _) with (FrameHeader.room_id (Frame.header frame)).
  rewrite (sent_room _ _ _ _ _ Hs), Hrb. destruct (app_message_invalid id (sequenced i frame) rb) as [why ->].
  - by rewrite Heq, <-(sent_epoch _ _ _ _ _ Hs).
  - by eapply sent_not_authentic.
  - exists why. rewrite insert_id by done. by destruct b.
Qed.

(** A message sent by one client is refused by every other.  The sender signs
    the first 64 header bytes before the payload size is filled in; the receiver
    verifies the 56 bytes of [signing_data].  So for a signature that verifies
    only the bytes it was made for, any client at the same epoch that has the
    sender's key refuses the frame, as sent or with any log index, and is left
    unchanged. *)
Theorem client_messages_rejected a b id p frame a' ra rb sig key i :
  handle (SendMessage id p) a = (Ok [Send frame], a') →
  rooms a !! id = Some ra → rooms b !! id = Some rb →
  0 ≤ id < U128_MOD → 0 ≤ client_sender_id a < U64_MOD → 0 ≤ MlsGroup.epoch (mls_group ra) < U64_MOD →
  MlsGroup.epoch (mls_group rb) = MlsGroup.epoch (mls_group ra) →
  let signed := take 64 (FrameHeader.to_bytes
    (message_header (client_sender_id a) id (MlsGroup.epoch (mls_group ra)))) in
  keypair_sign (MlsGroup.signer (mls_group ra)) signed = Ok sig → length sig = 64%nat →
  MlsGroupState.member_key (client_sender_id a) (MlsGroup.export_validation_state (mls_group rb)) = Some key →
  (∀ msg, ed_verify key msg sig = true → msg = signed) →
  ∃ why, handle (FrameReceived (sequenced i frame)) b = (Err (InvalidFrame why), b).
Proof.
  intros Hsend Hra Hrb Hid Hme Hep Heq signed Hsig Hlen Hkey Honly. eapply sent_refused; [|done..].
  by eapply handle_send_frame.
Qed.

(** The opcodes whose frames go to the MLS group and nowhere else. *)
Definition mls_only (frame : Frame) : Prop :=
  match FrameHeader.opcode_enum (Frame.header frame) with
  | None | Some (Opcode.AppMessage | Opcode.Commit | Opcode.Welcome | Opcode.SyncResponse) => False
  | Some _ => True
  end.
Lemma handle_mls_only frame c :
  mls_only frame →
  snd (handle (FrameReceived frame) c)
  = snd (on_room (FrameHeader.room_id (Frame.header frame)) (on_group (MlsGroup.process_message frame)) c).
Proof.
  unfold mls_only. cbn [handle frame_depth handle_frame]. munfold.
  destruct (FrameHeader.opcode_enum (Frame.header frame)) as [[]|]; intros Hm; try done;
    by destruct (on_room _ _ c) as [[] ?].
Qed.

(** A commit under another opcode strands the room.  Frames other than
    commits are also processed by the group, whatever MLS message they hold, but
    the sender keys are only renewed for the Commit opcode.  If such a frame moves
    the epoch, the room keeps its old sender keys, and from then on no message of
    the new epoch can be delivered. *)
Theorem misfiled_commit_strands_room e me c frame r r' :
  let id := FrameHeader.room_id (Frame.header frame) in
  let c' := snd (handle (FrameReceived frame) c) in
  rtc step (new e me) c → mls_only frame →
  rooms c !! id = Some r → rooms c' !! id = Some r' →
  MlsGroup.epoch (mls_group r) < MlsGroup.epoch (mls_group r') →
  sender_keys r' = sender_keys r
  ∧ SenderKeyStore.epoch (sender_keys r') < MlsGroup.epoch (mls_group r')
  ∧ ∀ f m, is_app f → FrameHeader.room_id (Frame.header f) = id →
      deserialize_encrypted_message (Frame.payload f) = Ok m →
      app.msg_epoch m = FrameHeader.epoch (Frame.header f) →
      is_ok (fst (handle (FrameReceived f) c')) = false.
Proof.
  intros id c' [Hc _]%reachable_cinv Hm Hr Hr' Hlt.
  assert (sender_keys r' = sender_keys r) as Hkeys.
  { revert Hr'. unfold c'. rewrite handle_mls_only by done. fold id. unfold on_room. rewrite Hr.
    unfold on_group. munfold. destruct (MlsGroup.process_message frame (mls_group r)) as [x g].
    cbn. rewrite lookup_insert_eq. by intros [= <-]. }
  pose proof (ok_epoch _ _ _ (Hc _ _ Hr)) as Hold.
  split_and!; [done|rewrite Hkeys; lia|]. intros f m Happ Hid Hd Hme.
  destruct (handle (FrameReceived f) c') as [[acts|x|] c''] eqn:Hf; [exfalso|done..].
  destruct (handle_app_Ok _ _ _ _ Happ Hf) as (r2 & m' & p & k & Hr2 & (He & _ & _ & Hd' & _) & Hdec & _).
  rewrite Hid, Hr' in Hr2. injection Hr2 as <-. rewrite Hd in Hd'. injection Hd' as <-.
  unfold SenderKeyStore.decrypt in Hdec. munfold. cbn [EncryptedMessage.epoch proto_to_crypto_encrypted] in Hdec.
  destruct (_ =? SenderKeyStore.epoch _) eqn:E; cbn [negb] in Hdec; [|done]. bool_to_prop.
  rewrite Hkeys in E. lia.
Qed.

(** The room's sender keys are those of its group's current epoch. *)
Definition in_sync (r : RoomState) : Prop :=
  SenderKeyStore.epoch (sender_keys r) = MlsGroup.epoch (mls_group r)
  ∧ ∃ secret, SenderKeyStore.derived secret (sender_keys r)
    ∧ MlsGroup.export_secret SENDER_KEY_LABEL SENDER_KEY_CONTEXT SENDER_KEY_SECRET_SIZE (mls_group r) = Ok secret.
(** Two states of a group with the same epoch, members and exported keys: a
    proposal was received, or nothing. *)
Definition same_view (g g' : MlsGroup (T := T)) : Prop :=
  MlsGroup.epoch g' = MlsGroup.epoch g
  ∧ group_members (MlsGroup.mls_group g') = group_members (MlsGroup.mls_group g)
  ∧ MlsGroup.export_secret SENDER_KEY_LABEL SENDER_KEY_CONTEXT SENDER_KEY_SECRET_SIZE g'
    = MlsGroup.export_secret SENDER_KEY_LABEL SENDER_KEY_CONTEXT SENDER_KEY_SECRET_SIZE g.

Lemma admissible_view frame g g' m : same_view g g' → admissible frame g m → admissible frame g' m.
Proof.
  intros (He & Hm & _) (H1' & H2' & H3' & H4' & H5'). unfold admissible, MlsValidator.authentic, MlsGroup.export_validation_state,
    MlsGroup.exported_members, MlsGroup.member_id_by_leaf_index in *. rewrite Hm, He.
  destruct (foldl _ _ _) as [members keys]. done.
Qed.

Lemma leaf_of_member i g who :
  MlsGroup.member_id_by_leaf_index i g = Some who → i ∈ MlsGroup.member_leaf_indices g.
Proof.
  unfold MlsGroup.member_id_by_leaf_index, MlsGroup.member_leaf_indices.
  induction (group_members _) as [|x ms IH]; [done|]. cbn.
  destruct (m_index x =? i) eqn:E; bool_to_prop; [subst; set_solver|]. intros Hm. apply IH in Hm. set_solver.
Qed.

Definition is_commit (frame : Frame) : Prop :=
  FrameHeader.opcode_enum (Frame.header frame) = Some Opcode.Commit.

(** A commit frame that is accepted: the group has processed it and the keys are
    those of a fresh epoch. *)
Lemma handle_commit_Ok frame c acts c' r :
  let id := FrameHeader.room_id (Frame.header frame) in
  is_commit frame → rooms c !! id = Some r → handle (FrameReceived frame) c = (Ok acts, c') →
  ∃ g keys, g = snd (MlsGroup.process_message frame (mls_group r))
    ∧ initialize_sender_keys g = Ok keys ∧ rooms c' !! id = Some (new_room g keys).
Proof.
  intros id Hcm Hr Ho. cbn [handle frame_depth handle_frame] in Ho. rewrite Hcm, handle_commit_eq in Ho. fold id in Ho.
  unfold on_room at 1 in Ho. unfold on_group in Ho. munfold. rewrite Hr in Ho.
  destruct (MlsGroup.process_message frame (mls_group r)) as [[x|e|] g]; [|done..]. cbn in Ho.
  set (c1 := with_rooms _ c) in Ho. assert (rooms c1 !! id = Some (with_group g r)) as Hr1 by apply lookup_insert_eq.
  pose proof (rekey_spec id x c1 _ Hr1) as Hs. cbn [mls_group with_group] in Hs.
  change (rekey id x c1 = (Ok acts, c')) in Ho. rewrite Ho in Hs. exists g.
  destruct (initialize_sender_keys g) as [keys|e|]; [|by destruct Hs..]. exists keys.
  cbn [snd] in Hs. rewrite Hs. split_and!; [done..|]. apply lookup_insert_eq.
Qed.

(** A commit frame without a commit reopens the epoch to replay.  Whatever MLS
    message a frame with the Commit opcode holds, the client derives its sender
    keys again.  If the message was not a commit the epoch is the same, so every
    ratchet restarts at generation 0: a message that has been delivered is
    delivered a second time. *)
Theorem commit_opcode_reopens_replay e me c c1 c2 msg other acts acts' r r2 m :
  let id := FrameHeader.room_id (Frame.header msg) in
  rtc step (new e me) c → rooms c !! id = Some r → in_sync r →
  is_app msg → handle (FrameReceived msg) c = (Ok acts, c1) →
  deserialize_encrypted_message (Frame.payload msg) = Ok m → app.msg_generation m ≤ 1000 →
  is_commit other → FrameHeader.room_id (Frame.header other) = id →
  handle (FrameReceived other) c1 = (Ok acts', c2) →
  rooms c2 !! id = Some r2 → same_view (mls_group r) (mls_group r2) →
  fst (handle (FrameReceived msg) c2) = Ok acts.
Proof.
  intros id [Hc _]%reachable_cinv Hr (Hke & secret & Hder & Hsec) Happ Ho Hm Hgen Hcm Hid Ho2 Hr2 Hview.
  destruct (handle_app_Ok _ _ _ _ Happ Ho) as (r' & m' & p & k & Hr' & Hadm & Hdec & -> & ->). fold id in Hr' |- *.
  rewrite Hr in Hr'. injection Hr' as <-. destruct Hadm as (He & Hmem & Hau & Hd & Hleaf).
  assert (m' = m) as -> by congruence.
  set (c1 := with_rooms _ c) in Ho2.
  assert (rooms c1 !! FrameHeader.room_id (Frame.header other) = Some (with_keys k r)) as Hr1
    by (rewrite Hid; apply lookup_insert_eq).
  destruct (handle_commit_Ok other c1 _ _ _ Hcm Hr1 Ho2) as (g2 & keys & _ & Hinit & Hr2').
  rewrite Hid, Hr2 in Hr2'. injection Hr2' as ->. cbn [mls_group new_room] in *.
  apply initialize_sender_keys_Ok in Hinit as (_ & secret2 & _ & Hsec2 & ->).
  pose proof Hview as (Hve & Hvm & Hvs). assert (secret2 = secret) as -> by congruence.
  rewrite handle_app by done. unfold on_room. fold id. rewrite Hr2.
  assert (admissible msg g2 m) as Hadm2 by (eapply admissible_view; [exact Hview|done]).
  rewrite (app_message_admissible id msg (new_room g2 _) m Hadm2).
  assert (0 ≤ EncryptedMessage.generation (proto_to_crypto_encrypted m) ≤ U32_MAX) as Hg.
  { apply (deserialize_generation (Frame.payload msg)). by rewrite Hm. }
  apply (SenderKeyStore.decrypt_Ok secret) in Hdec as (Hee & _ & Hopen); [|done..].
  cbn [sender_keys new_room].
  pose proof (SenderKeyStore.decrypt_fresh secret (MlsGroup.epoch g2) (MlsGroup.member_leaf_indices g2)
    (proto_to_crypto_encrypted m)) as Hfresh.
  destruct (SenderKeyStore.decrypt _ _) as [x k2]. cbn [fst] in Hfresh |- *. rewrite Hfresh.
  - unfold SenderKeyStore.seed_of in Hopen. rewrite Hke, <-Hve in Hopen. by rewrite Hopen.
  - by rewrite Hee, Hke.
  - eapply leaf_of_member. destruct Hadm2 as (_ & _ & _ & _ & Hl). exact Hl.
  - unfold SymmetricRatchet.MAX_SKIP. cbn in Hg |- *. lia.
Qed.
End invariant.

(** The commit timeout.  A tick never fails.  It asks for a sync from the
    current epoch exactly for the rooms whose own commit has been pending for 30
    seconds; those rooms have nothing pending afterwards, the others are
    unchanged, and a second tick at the same time does nothing. *)
Theorem tick_exact now c :
  let timed_out r := MlsGroup.is_commit_timeout now COMMIT_TIMEOUT (mls_group r) in
  ∃ acts c', handle (Tick now) c = (Ok acts, c')
  ∧ (∀ id, rooms c' !! id = (λ r, if timed_out r
             then with_group (MlsGroup.clear_pending_commit (mls_group r)) r else r) <$> rooms c !! id)
  ∧ (∀ id from to, RequestSync id from to ∈ acts ↔
       ∃ r, rooms c !! id = Some r ∧ timed_out r = true ∧ from = MlsGroup.epoch (mls_group r)
            ∧ to = Z.min (from + 1) U64_MAX)
  ∧ fst (handle (Tick now) c') = Ok [].
Proof.
  intros timed_out. eexists _, _. split; [reflexivity|].
  assert (∀ id r, snd (tick_room now id r) = if timed_out r
    then with_group (MlsGroup.clear_pending_commit (mls_group r)) r else r) as Hsnd.
  { intros id r. unfold tick_room, timed_out. by destruct (MlsGroup.is_commit_timeout _ _ _). }
  split_and!.
  - intros id. cbn. rewrite map_lookup_imap. destruct (rooms c !! id) as [r|]; [|done]. cbn. by rewrite Hsnd.
  - intros id from to. rewrite list_elem_of_In, in_concat. split.
    + intros (l & ((id' & r) & <- & Hr%list_elem_of_In%elem_of_map_to_list)%in_map_iff & Hin%list_elem_of_In).
      exists r. revert Hin. unfold tick_room, timed_out.
      destruct (MlsGroup.is_commit_timeout _ _ _); cbn; [|set_solver].
      intros [Heq|[Heq|Hf]%elem_of_cons]%elem_of_cons; [|done|set_solver]. by simplify_eq.
    + intros (r & Hr & Ht & -> & ->). exists (fst (tick_room now id r)). split.
      * apply in_map_iff. exists (id, r). split; [done|]. by apply list_elem_of_In, elem_of_map_to_list.
      * unfold tick_room. unfold timed_out in Ht. rewrite Ht. cbn. by left.
  - cbn [handle]. unfold handle_tick. cbn [fst rooms with_rooms]. f_equal.
    apply concat_nil_Forall. apply Forall_forall.
    intros l ((id & r) & <- & Hr%list_elem_of_In%elem_of_map_to_list)%in_map_iff.
    rewrite map_lookup_imap in Hr.
    destruct (rooms c !! id) as [r0|]; [|done]. cbn in Hr. injection Hr as <-. rewrite Hsnd.
    unfold tick_room. destruct (timed_out r0) eqn:Ht; [done|]. unfold timed_out in Ht. by rewrite Ht.
Qed.
End client.
End Client.

(** ** Witnesses *)
Module ToyClient.
(** A codec for the two types that the client decodes itself: the fields of a
    message in a row, and a sync response whose only frame is the rest of the
    payload. *)
#[local] Existing Instance ToyCodec.codec.
Definition message_cbor : Cbor app.EncryptedMessage := {|
  cbor_ser m := Ok (to_be_bytes 8 (app.msg_epoch m) ++ to_be_bytes 4 (app.msg_sender_index m)
    ++ to_be_bytes 4 (app.msg_generation m) ++ app.msg_nonce m ++ app.msg_ciphertext m);
  cbor_de p :=
    if (length p <? 40)%nat then Err "short"
    else Ok {| app.msg_epoch := from_be_bytes (take 8 p);
               app.msg_sender_index := from_be_bytes (take 4 (drop 8 p));
               app.msg_generation := from_be_bytes (take 4 (drop 12 p));
               app.msg_nonce := take 24 (drop 16 p); app.msg_ciphertext := drop 40 p;
               app.msg_push_keys := None |};
|}.
Definition sync_cbor : Cbor session.SyncResponse := {|
  cbor_ser r := Ok (Byte.x01 :: concat (session.sync_frames r));
  cbor_de p :=
    match p with
    | [] => Err "short"
    | _ :: p => Ok {| session.sync_frames := [p]; session.sync_has_more := false;
                      session.sync_server_epoch := 0 |}
    end;
|}.
Definition codec : PayloadCodec := {|
  cbor_Hello := cbor_Hello; cbor_HelloReply := cbor_HelloReply; cbor_Goodbye := cbor_Goodbye;
  cbor_SyncRequest := cbor_SyncRequest; cbor_SyncResponse := sync_cbor;
  cbor_KeyPackageData := cbor_KeyPackageData; cbor_ProposalData := cbor_ProposalData;
  cbor_CommitData := cbor_CommitData; cbor_WelcomeData := cbor_WelcomeData;
  cbor_EncryptedMessage := message_cbor; cbor_Receipt := cbor_Receipt; cbor_Reaction := cbor_Reaction;
  cbor_Redact := cbor_Redact; cbor_Ban := cbor_Ban; cbor_Kick := cbor_Kick;
  cbor_ErrorPayload := cbor_ErrorPayload;
|}.
Lemma codec_ok : Client.ClientCodecOk (H := codec).
Proof.
  split.
  - intros p m. cbn. case_match eqn:E; intros [= <-]. cbn. apply Nat.leb_gt in E.
    pose proof (from_be_bytes_range (take 4 (drop 12 p))) as Hr.
    replace (length (take 4 (drop 12 p))) with 4%nat in Hr by (rewrite length_take, length_drop; lia).
    change (U8_MOD ^ Z.of_nat 4) with U32_MOD in Hr. lia.
  - intros p r b. cbn. destruct p as [|x p]; intros [= <-]. cbn. intros ->%list_elem_of_singleton. lia.
Qed.
(** Signatures of 64 bytes that begin with the signed data. *)
Definition ed : Ed25519 := {|
  ed_key_valid _ := true;
  ed_verify _ m s := bool_decide (take 56 s = m);
  ed_sign _ m := m ++ replicate 8 Byte.x00;
  ed_public k := k;
|}.
Lemma mls_total : Client.ReceiveTotal (H := codec) (T := ToyEnv.T) (H1 := ToyMls.ops _).
Proof.
  split; [exact (ToyMls.process_total _)|..]; try by intros.
  - intros p. cbn. by case_match.
  - intros p. cbn. by destruct p.
Qed.
End ToyClient.

Section client_witnesses.
#[local] Existing Instances ToyClient.codec ToyClient.codec_ok ToyPrimitives.prims ToyMls.ops ToyMls.ops_ok
  ToyClient.mls_total.
Import Client.

(** A client with member id 5 that has created room 9. *)
Definition demo_new : Client (T := ToyEnv.T) := new (0, 0) {| sender_id := 5 |}.
Definition demo_client : Client (T := ToyEnv.T) := snd (handle_create_room 9 demo_new).
Lemma demo_client_reachable `{Ed25519} : rtc step demo_new demo_client.
Proof. apply rtc_once. exact (step_event (CreateRoom 9) demo_new). Qed.

Definition demo_room : RoomState (T := ToyEnv.T) :=
  default (new_room (ToyMls.group 9 5) (SenderKeyStore.initialize_epoch [] 0 [])) (rooms demo_client !! 9).
Lemma demo_room_at : rooms demo_client !! 9 = Some demo_room.
Proof. vm_compute. reflexivity. Qed.

Lemma client_invariant_witness :
  ∃ r, rooms (snd (handle (H2 := ToyMls.ed) (Tick 7) demo_client)) !! 9 = Some r ∧ 0 ≤ MlsGroup.epoch (mls_group r).
Proof.
  destruct (client_invariant (H2 := ToyMls.ed) (0, 0) {| sender_id := 5 |} demo_client demo_client_reachable)
    as (_ & _ & Hk). exact (Hk (Tick 7) 9 demo_room demo_room_at ltac:(discriminate)).
Defined.

(** A sync response that holds a sync response. *)
Definition nest (payload : bytes) : Frame := Frame.new (FrameHeader.new Opcode.SyncResponse) payload.
Definition demo_nested : Frame :=
  let inner := nest [Byte.x01] in
  nest (Byte.x01 :: FrameHeader.to_bytes (Frame.header inner) ++ Frame.payload inner).

Lemma frame_handling_terminates_witness :
  fst (handle (H2 := ToyMls.ed) (FrameReceived demo_nested) demo_client) ≠ Panic
  ∧ handle_frame (H2 := ToyMls.ed) 1000 demo_nested demo_client
    = handle (H2 := ToyMls.ed) (FrameReceived demo_nested) demo_client.
Proof.
  destruct (frame_handling_terminates (H2 := ToyMls.ed) (0, 0) {| sender_id := 5 |} demo_client demo_nested
    demo_client_reachable) as [Hn Hd].
  split; [exact Hn|]. apply Hd. vm_compute. lia.
Defined.

(** A message of member 5, encrypted with the room's keys and signed over
    [signing_data]. *)
Definition demo_payload : bytes :=
  match fst (SenderKeyStore.encrypt 0 [Byte.x41] (replicate 8 Byte.x02) (sender_keys demo_room)) with
  | Ok m => default [] (match serialize_encrypted_message (crypto_to_proto_encrypted m) with
                        | Ok p => Some p | _ => None end)
  | _ => []
  end.
Definition demo_app_message : Frame :=
  let f := Frame.new (message_header 5 9 0) demo_payload in
  {| Frame.header := FrameHeader.set_signature
       (FrameHeader.signing_data (Frame.header f) ++ replicate 8 Byte.x00) (Frame.header f);
     Frame.payload := demo_payload |}.
#[local] Instance toy_ed : Ed25519 := ToyClient.ed.

Lemma delivered_messages_authentic_witness :
  is_ok (fst (handle (FrameReceived demo_app_message) demo_client)) = true
  ∧ is_ok (fst (handle (FrameReceived demo_app_message)
      (snd (handle (FrameReceived demo_app_message) demo_client)))) = false.
Proof.
  split; [vm_compute; reflexivity|].
  run_ok (handle (FrameReceived demo_app_message) demo_client) as acts c' E.
  pose proof (proj2 (delivered_messages_authentic (0, 0) {| sender_id := 5 |} demo_client demo_app_message
    acts c' demo_client_reachable eq_refl E)) as Hag.
  exact (Hag demo_app_message eq_refl eq_refl eq_refl).
Defined.

(** A frame with the Proposal opcode that holds a commit. *)
Definition demo_misfiled : Frame :=
  Frame.new (FrameHeader.set_room_id 9 (FrameHeader.new Opcode.Proposal)) (replicate 8 Byte.x00).
Definition demo_stranded : RoomState (T := ToyEnv.T) :=
  default demo_room (rooms (snd (handle (FrameReceived demo_misfiled) demo_client)) !! 9).

Lemma misfiled_commit_strands_room_witness :
  SenderKeyStore.epoch (sender_keys demo_stranded) < MlsGroup.epoch (mls_group demo_stranded).
Proof.
  apply (misfiled_commit_strands_room (0, 0) {| sender_id := 5 |} demo_client demo_misfiled demo_room demo_stranded
    demo_client_reachable I demo_room_at); vm_compute; reflexivity.
Defined.

(** A frame with the Commit opcode that holds a proposal. *)
Definition demo_uncommitted : Frame :=
  Frame.new (FrameHeader.set_room_id 9 (FrameHeader.new Opcode.Commit)) (replicate 8 Byte.xff).
Definition demo_delivered := handle (FrameReceived demo_app_message) demo_client.
Definition demo_rekeyed := handle (FrameReceived demo_uncommitted) (snd demo_delivered).
Definition demo_message : app.EncryptedMessage :=
  match deserialize_encrypted_message demo_payload with
  | Ok m => m
  | _ => crypto_to_proto_encrypted {| EncryptedMessage.epoch := 0; EncryptedMessage.sender_index := 0;
           EncryptedMessage.generation := 0; EncryptedMessage.nonce := []; EncryptedMessage.ciphertext := [] |}
  end.

Lemma commit_opcode_reopens_replay_witness :
  fst (handle (FrameReceived demo_app_message) (snd demo_rekeyed)) = fst demo_delivered.
Proof.
  run_ok demo_delivered as acts c1 E1.
  run_ok demo_rekeyed as acts' c2 E2.
  assert (rooms (snd demo_rekeyed) !! 9 = Some demo_room) as Hr2 by (vm_compute; reflexivity).
  rewrite E2 in Hr2. cbn [fst snd] in *. unfold demo_rekeyed in E2. rewrite E1 in E2. cbn [snd] in E2.
  refine (commit_opcode_reopens_replay (0, 0) {| sender_id := 5 |} demo_client c1 c2 demo_app_message
    demo_uncommitted acts acts' demo_room demo_room demo_message demo_client_reachable demo_room_at _ eq_refl E1
    _ _ eq_refl _ E2 Hr2 _).
  - split; [vm_compute; reflexivity|]. exists (replicate 32 Byte.x07).
    split; [apply SenderKeyStore.initialize_epoch_derived|vm_compute; reflexivity].
  - vm_compute. reflexivity.
  - vm_compute. discriminate.
  - vm_compute. reflexivity.
  - repeat split.
Defined.

Definition demo_sending := handle (H2 := ToyMls.ed) (SendMessage 9 [Byte.x41]) demo_client.
Definition demo_sent : Frame :=
  match fst demo_sending with Ok [ClientAction.Send f] => f | _ => Frame.sample end.

Lemma client_messages_rejected_witness :
  ∃ why, handle (H2 := ToyMls.ed) (FrameReceived (sequenced 3 demo_sent)) demo_client
         = (Err (ClientError.InvalidFrame why), demo_client).
Proof.
  refine (client_messages_rejected (H2 := ToyMls.ed) demo_client demo_client 9 [Byte.x41] demo_sent
    (snd demo_sending) demo_room demo_room
    (take 64 (FrameHeader.to_bytes (message_header 5 9 0))) (replicate 32 Byte.x01) 3
    _ demo_room_at demo_room_at _ _ _ eq_refl _ _ _ _).
  - vm_compute. reflexivity.
  - lia.
  - vm_compute. split; [discriminate|reflexivity].
  - vm_compute. split; [discriminate|reflexivity].
  - vm_compute. reflexivity.
  - vm_compute. reflexivity.
  - vm_compute. reflexivity.
  - intros msg Hv%bool_decide_eq_true. exact Hv.
Defined.
End client_witnesses.
