(* ===== verification/Model.v ===== *)
(** * The reference model of the harness ([lockframe-harness/src/model/])

    The harness keeps a model of clients and server without cryptography, as an
    oracle for the real implementation.  This file translates it
    ([operation.rs], [client.rs], [server.rs], [world.rs]); [ModelTheory.v] shows
    what makes it an oracle, and [Conformance.v] compares the real client with it.

    Hash maps and hash sets are [gmap] and [gset]; where the code iterates over
    one, the model takes the order of [elements], and [deliver_order_irrelevant]
    shows that the order does not matter. *)

From Stdlib Require Import ZArith Lia.
From S2P Require Import Prelude.
From stdpp Require Import sorting gmap sets list.

#[local] Open Scope Z_scope.
#[local] Open Scope lockframe_scope.

(** [ClientId] and [ModelRoomId] are [u8]. *)
Abbreviation ClientId := Z (only parsing).
Abbreviation ModelRoomId := Z (only parsing).

(** [z as u8]. *)
Definition as_u8 (z : Z) : Z := z mod U8_MOD.

(** ** Operations *)
Module SmallMessage.
Record SmallMessage : Type := { seed : Z; size_class : Z }.

(** The number of bytes a size class stands for. *)
Definition len (size_class : Z) : nat :=
  match (size_class mod 4)%Z with 0%Z => 0 | 1%Z => 8 | 2%Z => 64 | _ => 256 end%nat.

(** [(0..len).map(|i| seed.wrapping_add(i as u8))]. *)
Definition to_bytes (m : SmallMessage) : bytes :=
  (λ i, byte_of_Z (seed m + as_u8 (Z.of_nat i))) <$> seq 0 (len (size_class m)).

#[global] Instance eq_dec : EqDecision SmallMessage.
Proof. solve_decision. Defined.
End SmallMessage.
Export SmallMessage (SmallMessage).

Module OperationError.
Inductive OperationError : Type :=
| RoomAlreadyExists
| RoomNotFound
| NotMember
| InvalidClient
| AlreadyMember
| CannotRemoveSelf
| EpochMismatch (expected actual : Z).

Record ErrorProperties : Type := { is_fatal : bool; is_retryable : bool }.

Definition properties (e : OperationError) : ErrorProperties :=
  match e with
  | InvalidClient | NotMember | CannotRemoveSelf => {| is_fatal := true; is_retryable := false |}
  | RoomNotFound | RoomAlreadyExists | AlreadyMember => {| is_fatal := false; is_retryable := false |}
  | EpochMismatch _ _ => {| is_fatal := false; is_retryable := true |}
  end.

#[global] Instance eq_dec : EqDecision OperationError.
Proof. solve_decision. Defined.
End OperationError.
Export OperationError (OperationError).

Module OperationResult.
Inductive OperationResult : Type :=
| ROk
| RError (e : OperationError).

Definition is_ok (r : OperationResult) : bool := match r with ROk => true | RError _ => false end.
Definition is_err (r : OperationResult) : bool := negb (is_ok r).
Definition error_properties (r : OperationResult) : option OperationError.ErrorProperties :=
  match r with ROk => None | RError e => Some (OperationError.properties e) end.

#[global] Instance eq_dec : EqDecision OperationResult.
Proof. solve_decision. Defined.
End OperationResult.
Export OperationResult (OperationResult, ROk, RError).

Module Operation.
Inductive Operation : Type :=
| CreateRoom (client_id : ClientId) (room_id : ModelRoomId)
| SendMessage (client_id : ClientId) (room_id : ModelRoomId) (content : SmallMessage)
| LeaveRoom (client_id : ClientId) (room_id : ModelRoomId)
| AddMember (inviter_id invitee_id : ClientId) (room_id : ModelRoomId)
| RemoveMember (remover_id target_id : ClientId) (room_id : ModelRoomId)
| AdvanceTime (millis : Z)
| DeliverPending.

#[global] Instance eq_dec : EqDecision Operation.
Proof. solve_decision. Defined.
End Operation.
Export Operation (Operation).

(** ** The model client *)
Module ModelClient.
Import OperationError.

Record ModelMessage : Type := {
  sender_id : ClientId;
  content : bytes;
  log_index : Z;
  epoch : Z }.

#[global] Instance message_eq_dec : EqDecision ModelMessage.
Proof. solve_decision. Defined.

Record ModelRoomState : Type := {
  room_epoch : Z;
  room_messages : list ModelMessage;
  next_send_index : Z }.

Definition new_room : ModelRoomState :=
  {| room_epoch := 0; room_messages := []; next_send_index := 0 |}.

Record ModelClient : Type := { id : ClientId; rooms : gmap ModelRoomId ModelRoomState }.

Definition new (id : ClientId) : ModelClient := {| id := id; rooms := ∅ |}.
Definition with_rooms (rs : gmap ModelRoomId ModelRoomState) (c : ModelClient) : ModelClient :=
  {| id := id c; rooms := rs |}.

Definition is_member (r : ModelRoomId) (c : ModelClient) : bool := bool_decide (is_Some (rooms c !! r)).
Definition client_epoch (r : ModelRoomId) (c : ModelClient) : option Z := room_epoch <$> rooms c !! r.
Definition room_ids (c : ModelClient) : list ModelRoomId := elements (dom (rooms c)).
Definition messages (r : ModelRoomId) (c : ModelClient) : option (list ModelMessage) :=
  room_messages <$> rooms c !! r.

(** The body that [create_room], [join_room] and [join_room_at_epoch] share: the
    room must be new to the client. *)
Definition enter (r : ModelRoomId) (st : ModelRoomState) (c : ModelClient) : OperationResult * ModelClient :=
  if is_member r c then (RError RoomAlreadyExists, c)
  else (ROk, with_rooms (<[r := st]> (rooms c)) c).

Definition create_room (r : ModelRoomId) (c : ModelClient) : OperationResult * ModelClient :=
  enter r new_room c.
Definition join_room (r : ModelRoomId) (c : ModelClient) : OperationResult * ModelClient :=
  enter r new_room c.
Definition join_room_at_epoch (r : ModelRoomId) (e : Z) (c : ModelClient) : OperationResult * ModelClient :=
  enter r {| room_epoch := e; room_messages := []; next_send_index := 0 |} c.

Definition leave_room (r : ModelRoomId) (c : ModelClient) : OperationResult * ModelClient :=
  if is_member r c then (ROk, with_rooms (delete r (rooms c)) c)
  else (RError NotMember, c).

(** Counts the client's own sends; no operation of the world calls it. *)
Definition send_message (r : ModelRoomId) : M ModelClient OperationError Z := λ c,
  match rooms c !! r with
  | None => (Err NotMember, c)
  | Some st =>
      (Ok (next_send_index st),
       with_rooms (<[r := {| room_epoch := room_epoch st; room_messages := room_messages st;
                             next_send_index := next_send_index st ⊕64 1 |}]> (rooms c)) c)
  end.

Definition push (m : ModelMessage) (st : ModelRoomState) : ModelRoomState :=
  {| room_epoch := room_epoch st; room_messages := room_messages st ++ [m];
     next_send_index := next_send_index st |}.
Definition receive_message (r : ModelRoomId) (m : ModelMessage) (c : ModelClient) : ModelClient :=
  with_rooms (alter (push m) r (rooms c)) c.

Definition next_epoch (st : ModelRoomState) : ModelRoomState :=
  {| room_epoch := room_epoch st ⊕64 1; room_messages := room_messages st;
     next_send_index := next_send_index st |}.
Definition advance_epoch (r : ModelRoomId) (c : ModelClient) : ModelClient :=
  with_rooms (alter next_epoch r (rooms c)) c.
End ModelClient.
Export ModelClient (ModelMessage, ModelRoomState, ModelClient).

(** ** The model server *)
Module ModelServer.
Import OperationError.

Record ServerRoomState : Type := {
  creator : ClientId;
  members : gset ClientId;
  log : list ModelMessage;
  next_log_index : Z;
  epoch : Z }.

Definition new_room (creator : ClientId) : ServerRoomState :=
  {| creator := creator; members := {[ creator ]}; log := []; next_log_index := 0; epoch := 0 |}.

Definition with_members (ms : gset ClientId) (s : ServerRoomState) : ServerRoomState :=
  {| creator := creator s; members := ms; log := log s; next_log_index := next_log_index s;
     epoch := epoch s |}.
Definition next_epoch (s : ServerRoomState) : ServerRoomState :=
  {| creator := creator s; members := members s; log := log s; next_log_index := next_log_index s;
     epoch := epoch s ⊕64 1 |}.
(** The room after it has stored a message. *)
Definition append (m : ModelMessage) (s : ServerRoomState) : ServerRoomState :=
  {| creator := creator s; members := members s; log := log s ++ [m];
     next_log_index := next_log_index s ⊕64 1; epoch := epoch s |}.

Definition MAX_PENDING_DELIVERIES : Z := 1000.

Record PendingMessage : Type := {
  room_id : ModelRoomId;
  message : ModelMessage;
  recipients : list ClientId }.

Record ModelServer : Type := {
  rooms : gmap ModelRoomId ServerRoomState;
  pending_deliveries : list PendingMessage }.

Definition new : ModelServer := {| rooms := ∅; pending_deliveries := [] |}.
Definition with_rooms (rs : gmap ModelRoomId ServerRoomState) (s : ModelServer) : ModelServer :=
  {| rooms := rs; pending_deliveries := pending_deliveries s |}.

Definition pending_count (s : ModelServer) : Z := zlen (pending_deliveries s).
Definition take_pending (s : ModelServer) : list PendingMessage * ModelServer :=
  (pending_deliveries s, {| rooms := rooms s; pending_deliveries := [] |}).
Definition room_exists (r : ModelRoomId) (s : ModelServer) : bool := bool_decide (is_Some (rooms s !! r)).
Definition is_member (r : ModelRoomId) (c : ClientId) (s : ModelServer) : bool :=
  match rooms s !! r with Some room => bool_decide (c ∈ members room) | None => false end.
Definition room_members (r : ModelRoomId) (s : ModelServer) : option (list ClientId) :=
  (λ room, elements (members room)) <$> rooms s !! r.
Definition messages (r : ModelRoomId) (s : ModelServer) : option (list ModelMessage) :=
  log <$> rooms s !! r.
Definition room_epoch (r : ModelRoomId) (s : ModelServer) : option Z := epoch <$> rooms s !! r.

Definition create_room (r : ModelRoomId) (creator : ClientId) : M ModelServer OperationError unit := λ s,
  if room_exists r s then (Err RoomAlreadyExists, s)
  else (Ok tt, with_rooms (<[r := new_room creator]> (rooms s)) s).

(** The message that a room assigns to a sender's content. *)
Definition stamp (sender : ClientId) (content : bytes) (room : ServerRoomState) : ModelMessage :=
  {| ModelClient.sender_id := sender; ModelClient.content := content;
     ModelClient.log_index := next_log_index room; ModelClient.epoch := epoch room |}.

Definition process_message (r : ModelRoomId) (sender : ClientId) (content : bytes) :
    M ModelServer OperationError ModelMessage := λ s,
  match rooms s !! r with
  | None => (Err RoomNotFound, s)
  | Some room =>
      if bool_decide (sender ∈ members room) then
        let m := stamp sender content room in
        (Ok m,
         {| rooms := <[r := append m room]> (rooms s);
            pending_deliveries := pending_deliveries s ++
              [{| room_id := r; message := m; recipients := elements (members room) |}] |})
      else (Err NotMember, s)
  end.
(** The [debug_assert!] of [process_message] (debug builds only). *)
Definition process_message_debug_assert (s : ModelServer) : bool :=
  pending_count s <? MAX_PENDING_DELIVERIES.

Definition remove_member (r : ModelRoomId) (c : ClientId) : M ModelServer OperationError unit := λ s,
  match rooms s !! r with
  | None => (Err RoomNotFound, s)
  | Some room =>
      if bool_decide (c ∈ members room) then
        let room := with_members (members room ∖ {[ c ]}) room in
        (Ok tt, with_rooms (if bool_decide (members room = ∅) then delete r (rooms s)
                            else <[r := room]> (rooms s)) s)
      else (Err NotMember, s)
  end.

Definition add_member (r : ModelRoomId) (c : ClientId) (s : ModelServer) : ModelServer :=
  with_rooms (alter (λ room, with_members ({[ c ]} ∪ members room) room) r (rooms s)) s.
Definition advance_epoch (r : ModelRoomId) (s : ModelServer) : ModelServer :=
  with_rooms (alter next_epoch r (rooms s)) s.
End ModelServer.
Export ModelServer (ServerRoomState, PendingMessage, ModelServer).

(** ** The model world *)
Module ModelWorld.
Import OperationError Operation.

Record ModelWorld : Type := { clients : list ModelClient; server : ModelServer }.

Definition new (num_clients : nat) : ModelWorld :=
  {| clients := (λ i, ModelClient.new (as_u8 (Z.of_nat i))) <$> seq 0 num_clients;
     server := ModelServer.new |}.

Definition num_clients (w : ModelWorld) : Z := zlen (clients w).
Definition client (id : ClientId) (w : ModelWorld) : option ModelClient := clients w !! Z.to_nat id.

Definition with_clients (cs : list ModelClient) (w : ModelWorld) : ModelWorld :=
  {| clients := cs; server := server w |}.
Definition with_server (s : ModelServer) (w : ModelWorld) : ModelWorld :=
  {| clients := clients w; server := s |}.
(** Replaces the client at an index (a write through [get_mut] or [clients[id]]). *)
Definition put_client (id : ClientId) (c : ModelClient) (w : ModelWorld) : ModelWorld :=
  with_clients (<[Z.to_nat id := c]> (clients w)) w.

(** [for client in &mut self.clients { if client.is_member(room) { client.advance_epoch(room) } }]. *)
Definition advance_all (r : ModelRoomId) (w : ModelWorld) : ModelWorld :=
  with_clients ((λ c, if ModelClient.is_member r c then ModelClient.advance_epoch r c else c) <$> clients w) w.

Definition apply_create_room (c : ClientId) (r : ModelRoomId) (w : ModelWorld) : OperationResult * ModelWorld :=
  match client c w with
  | None => (RError InvalidClient, w)
  | Some cl =>
      let '(res, cl) := ModelClient.create_room r cl in
      let w := put_client c cl w in
      if OperationResult.is_err res then (res, w)
      else
        let s := snd (ModelServer.create_room r c (server w)) in
        (ROk, with_server (ModelServer.add_member r c s) w)
  end.

Definition apply_send_message (c : ClientId) (r : ModelRoomId) (content : bytes) (w : ModelWorld) :
    OperationResult * ModelWorld :=
  match client c w with
  | None => (RError InvalidClient, w)
  | Some cl =>
      if ModelClient.is_member r cl then
        let '(res, s) := ModelServer.process_message r c content (server w) in
        (match res with Err e => RError e | _ => ROk end, with_server s w)
      else (RError NotMember, w)
  end.

(** Delivery of one message to one recipient, if it is still a member. *)
Definition deliver_to (r : ModelRoomId) (m : ModelMessage) (cs : list ModelClient) (c : ClientId) : list ModelClient :=
  match cs !! Z.to_nat c with
  | Some cl =>
      if ModelClient.is_member r cl then <[Z.to_nat c := ModelClient.receive_message r m cl]> cs else cs
  | None => cs
  end.
Definition deliver (cs : list ModelClient) (p : PendingMessage) : list ModelClient :=
  foldl (deliver_to (ModelServer.room_id p) (ModelServer.message p)) cs (ModelServer.recipients p).
Definition apply_deliver_pending (w : ModelWorld) : ModelWorld :=
  let '(pending, s) := ModelServer.take_pending (server w) in
  {| clients := foldl deliver (clients w) pending; server := s |}.

Definition apply_leave_room (c : ClientId) (r : ModelRoomId) (w : ModelWorld) : OperationResult * ModelWorld :=
  match client c w with
  | None => (RError InvalidClient, w)
  | Some cl =>
      let '(res, cl) := ModelClient.leave_room r cl in
      let w := put_client c cl w in
      if OperationResult.is_err res then (res, w)
      else
        let s := snd (ModelServer.remove_member r c (server w)) in
        (ROk, advance_all r (with_server (ModelServer.advance_epoch r s) w))
  end.

Definition apply_add_member (inviter invitee : ClientId) (r : ModelRoomId) (w : ModelWorld) :
    OperationResult * ModelWorld :=
  match client inviter w with
  | None => (RError InvalidClient, w)
  | Some cl =>
      match client invitee w with
      | None => (RError InvalidClient, w)
      | Some cl' =>
          if negb (ModelClient.is_member r cl) then (RError NotMember, w)
          else if ModelClient.is_member r cl' then (RError AlreadyMember, w)
          else
            let s := ModelServer.advance_epoch r (server w) in
            let new_epoch := default 0 (ModelServer.room_epoch r s) in
            let w := advance_all r (with_server s w) in
            let w := with_server (ModelServer.add_member r invitee (server w)) w in
            (ROk, match client invitee w with
                  | Some cl' => put_client invitee (snd (ModelClient.join_room_at_epoch r new_epoch cl')) w
                  | None => w
                  end)
      end
  end.

Definition apply_remove_member (remover target : ClientId) (r : ModelRoomId) (w : ModelWorld) :
    OperationResult * ModelWorld :=
  match client remover w with
  | None => (RError InvalidClient, w)
  | Some cl =>
      match client target w with
      | None => (RError InvalidClient, w)
      | Some cl' =>
          if remover =? target then (RError CannotRemoveSelf, w)
          else if negb (ModelClient.is_member r cl) then (RError NotMember, w)
          else if negb (ModelClient.is_member r cl') then (RError NotMember, w)
          else
            let w := put_client target (snd (ModelClient.leave_room r cl')) w in
            let s := snd (ModelServer.remove_member r target (server w)) in
            (ROk, advance_all r (with_server (ModelServer.advance_epoch r s) w))
      end
  end.

Definition apply (op : Operation) (w : ModelWorld) : OperationResult * ModelWorld :=
  match op with
  | CreateRoom c r => apply_create_room c r w
  | SendMessage c r content => apply_send_message c r (SmallMessage.to_bytes content) w
  | LeaveRoom c r => apply_leave_room c r w
  | AddMember a b r => apply_add_member a b r w
  | RemoveMember a b r => apply_remove_member a b r w
  | AdvanceTime _ => (ROk, w)
  | DeliverPending => (ROk, apply_deliver_pending w)
  end.

Definition client_messages (c : ClientId) (r : ModelRoomId) (w : ModelWorld) : option (list ModelMessage) :=
  client c w ≫= ModelClient.messages r.
Definition client_rooms (c : ClientId) (w : ModelWorld) : list ModelRoomId :=
  default [] (ModelClient.room_ids <$> client c w).

(** What a comparison with the real system may look at. *)
Record ObservableState : Type := {
  obs_client_rooms : list (list ModelRoomId);
  obs_client_messages : list (list (ModelRoomId * list ModelMessage));
  obs_server_messages : list (ModelRoomId * list ModelMessage) }.

(** [rooms.sort()]. *)
Definition sort_ids : list ModelRoomId → list ModelRoomId := merge_sort Z.le.
(** [for r in rooms { if let Some(ms) = messages(r) { out.push((r, ms)) } }]. *)
Definition messages_of (get : ModelRoomId → option (list ModelMessage)) (rs : list ModelRoomId) :
    list (ModelRoomId * list ModelMessage) :=
  omap (λ r, pair r <$> get r) rs.

Definition observable_state (w : ModelWorld) : ObservableState :=
  let sorted_rooms c := sort_ids (ModelClient.room_ids c) in
  {| obs_client_rooms := sorted_rooms <$> clients w;
     obs_client_messages :=
       (λ c, messages_of (λ r, ModelClient.messages r c) (sorted_rooms c)) <$> clients w;
     obs_server_messages :=
       messages_of (λ r, ModelServer.messages r (server w))
         (sort_ids (elements (list_to_set (C := gset Z) (clients w ≫= ModelClient.room_ids)))) |}.

(** A sequence of operations, and the verdicts it gets. *)
Fixpoint run (ops : list Operation) (w : ModelWorld) : list OperationResult * ModelWorld :=
  match ops with
  | [] => ([], w)
  | op :: ops => let '(r, w) := apply op w in let '(rs, w) := run ops w in (r :: rs, w)
  end.
End ModelWorld.
Export ModelWorld (ModelWorld).
