(* ===== verification/ModelTheory.v ===== *)
(** * Theorems about the reference model of the harness

    [ModelView] reads a world as what each client and the server hold about each
    room; [Spec] is the plain membership relation, with the verdict every
    operation should get; [ModelInvariant] and [ModelRefinement] show that every
    operation of [Model.v] refines it; [ModelTheorems] lifts this to sequences of
    operations. *)

From Stdlib Require Import ZArith Lia.
From S2P Require Import Prelude.
From S2P Require Import Model.
From stdpp Require Import sorting gmap sets list.

#[local] Open Scope Z_scope.
#[local] Open Scope lockframe_scope.

(** ** Views of a world

    What client [i] holds about a room, and what the server holds; the lemmas
    give each write as an equation on views. *)
Module ModelView.
Import ModelWorld.

Definition cview (w : ModelWorld) (i : nat) (r : ModelRoomId) : option ModelRoomState :=
  clients w !! i ≫= λ c, ModelClient.rooms c !! r.
Definition sview (w : ModelWorld) (r : ModelRoomId) : option ServerRoomState :=
  ModelServer.rooms (server w) !! r.
Definition pending (w : ModelWorld) : list PendingMessage := ModelServer.pending_deliveries (server w).

Lemma cview_server s w i r : cview (with_server s w) i r = cview w i r.
Proof. done. Qed.

Lemma cview_put c cl cl' w i r :
  client c w = Some cl' →
  cview (put_client c cl w) i r =
    if decide (i = Z.to_nat c) then ModelClient.rooms cl !! r else cview w i r.
Proof.
  intros Hc. unfold cview, put_client; cbn. apply lookup_lt_Some in Hc.
  case_decide as E; [subst i|]; by rewrite ?list_lookup_insert_eq, ?list_lookup_insert_ne.
Qed.

Lemma cview_advance r w i r' :
  cview (advance_all r w) i r' =
    if decide (r' = r) then ModelClient.next_epoch <$> cview w i r' else cview w i r'.
Proof.
  unfold cview, advance_all; cbn. rewrite list_lookup_fmap.
  destruct (clients w !! i) as [c|]; [|by case_decide]. cbn. unfold ModelClient.is_member.
  case_decide as E; case_bool_decide as M; subst; cbn; rewrite ?lookup_alter_eq, ?lookup_alter_ne by done; auto.
  rewrite <-eq_None_not_Some in M. by rewrite M.
Qed.

Lemma client_cview c w cl r : client c w = Some cl → cview w (Z.to_nat c) r = ModelClient.rooms cl !! r.
Proof. unfold cview, client. by intros ->. Qed.

Lemma length_put c cl w : length (clients (put_client c cl w)) = length (clients w).
Proof. apply length_insert. Qed.
Lemma length_advance r w : length (clients (advance_all r w)) = length (clients w).
Proof. apply length_fmap. Qed.
End ModelView.
Import ModelView.
Create Rewrite HintDb model.
#[export] Hint Rewrite length_put length_advance cview_server cview_advance : model.

(** ** Membership, abstractly

    A room model reduced to who is in which room: the verdict of every operation
    is a function of this relation. *)
Module Spec.
Import OperationError Operation.

Abbreviation rel := (gset (ClientId * ModelRoomId)).
Definition known (n : nat) (c : ClientId) : bool := bool_decide (Z.to_nat c < n)%nat.
Definition inside (c : ClientId) (r : ModelRoomId) (mem : rel) : bool := bool_decide ((c, r) ∈ mem).

Definition apply (n : nat) (op : Operation) (mem : rel) : OperationResult * rel :=
  match op with
  | CreateRoom c r =>
      if negb (known n c) then (RError InvalidClient, mem)
      else if inside c r mem then (RError RoomAlreadyExists, mem)
      else (ROk, {[ (c, r) ]} ∪ mem)
  | SendMessage c r _ =>
      if negb (known n c) then (RError InvalidClient, mem)
      else if inside c r mem then (ROk, mem) else (RError NotMember, mem)
  | LeaveRoom c r =>
      if negb (known n c) then (RError InvalidClient, mem)
      else if inside c r mem then (ROk, mem ∖ {[ (c, r) ]}) else (RError NotMember, mem)
  | AddMember a b r =>
      if negb (known n a && known n b) then (RError InvalidClient, mem)
      else if negb (inside a r mem) then (RError NotMember, mem)
      else if inside b r mem then (RError AlreadyMember, mem)
      else (ROk, {[ (b, r) ]} ∪ mem)
  | RemoveMember a b r =>
      if negb (known n a && known n b) then (RError InvalidClient, mem)
      else if a =? b then (RError CannotRemoveSelf, mem)
      else if negb (inside a r mem && inside b r mem) then (RError NotMember, mem)
      else (ROk, mem ∖ {[ (b, r) ]})
  | AdvanceTime _ | DeliverPending => (ROk, mem)
  end.

Fixpoint run (n : nat) (ops : list Operation) (mem : rel) : list OperationResult * rel :=
  match ops with
  | [] => ([], mem)
  | op :: ops => let '(r, mem) := apply n op mem in let '(rs, mem) := run n ops mem in (r :: rs, mem)
  end.

(** The identifiers of an operation are [u8]s. *)
Definition op_ok (op : Operation) : Prop :=
  let u8 z := 0 ≤ z < U8_MOD in
  match op with
  | CreateRoom c r | SendMessage c r _ | LeaveRoom c r => u8 c ∧ u8 r
  | AddMember a b r | RemoveMember a b r => u8 a ∧ u8 b ∧ u8 r
  | AdvanceTime _ | DeliverPending => True
  end.
End Spec.

(** ** The invariant of the world *)
Module ModelInvariant.
Import OperationError Operation ModelWorld Spec.

Definition indexed (room : ServerRoomState) : Prop :=
  ModelServer.next_log_index room = zlen (ModelServer.log room) mod U64_MOD ∧
  ∀ k m, ModelServer.log room !! k = Some m → ModelClient.log_index m = Z.of_nat k mod U64_MOD.

(** The members of a room according to the server. *)
Definition mems (w : ModelWorld) (r : ModelRoomId) : gset ClientId :=
  match sview w r with Some room => ModelServer.members room | None => ∅ end.

Definition pending_ok (p : PendingMessage) : Prop :=
  NoDup (ModelServer.recipients p) ∧ Forall (λ c, 0 ≤ c) (ModelServer.recipients p).

Record winv (w : ModelWorld) : Prop := {
  winv_agree : ∀ i r, is_Some (cview w i r) ↔ Z.of_nat i ∈ mems w r;
  winv_room : ∀ r room, sview w r = Some room → ModelServer.members room ≠ ∅ ∧ indexed room;
  winv_valid : ∀ r c, c ∈ mems w r → 0 ≤ c < num_clients w;
  winv_pending : Forall pending_ok (pending w) }.

(** The relation [mem] is the membership of [w]. *)
Definition rep (w : ModelWorld) (mem : rel) : Prop := ∀ c r, (c, r) ∈ mem ↔ c ∈ mems w r.

(** [w'] is [w] with the members of room [r] set to [ms], on both sides. *)
Record change (w w' : ModelWorld) (r : ModelRoomId) (ms : gset ClientId) : Prop := {
  change_count : length (clients w') = length (clients w);
  change_pending : pending w' = pending w;
  change_others : ∀ r', r' ≠ r → sview w' r' = sview w r';
  change_room : match sview w' r with
                | Some room => ModelServer.members room = ms ∧ ms ≠ ∅ ∧ indexed room
                | None => ms = ∅
                end;
  change_clients : ∀ i r', r' ≠ r → is_Some (cview w' i r') ↔ is_Some (cview w i r');
  change_client : ∀ i, is_Some (cview w' i r) ↔ Z.of_nat i ∈ ms;
  change_valid : ∀ c, c ∈ ms → 0 ≤ c < num_clients w }.

Lemma change_mems w w' r ms : change w w' r ms → ∀ r', mems w' r' = if decide (r' = r) then ms else mems w r'.
Proof.
  intros C r'. unfold mems. case_decide as E; [subst|by rewrite (change_others _ _ _ _ C)].
  pose proof (change_room _ _ _ _ C) as R. by destruct (sview w' r) as [room|]; [destruct R|].
Qed.

Lemma change_winv w w' r ms : change w w' r ms → winv w → winv w'.
Proof.
  intros C [Ha Hr Hv Hp]. pose proof (change_mems _ _ _ _ C) as HM. destruct C.
  assert (num_clients w' = num_clients w) as Hn by (unfold num_clients, zlen; lia).
  split.
  - intros i r'. rewrite HM. case_decide; subst; [auto|]. rewrite change_clients0; auto.
  - intros r' room E. destruct (decide (r' = r)) as [->|N].
    + rewrite E in change_room0. by destruct change_room0 as (-> & ? & ?).
    + rewrite change_others0 in E by done. eauto.
  - intros r' c. rewrite HM, Hn. case_decide; eauto.
  - by rewrite change_pending0.
Qed.

Lemma change_rep w w' r ms mem mem' :
  change w w' r ms → rep w mem →
  (∀ c r', (c, r') ∈ mem' ↔ if decide (r' = r) then c ∈ ms else (c, r') ∈ mem) → rep w' mem'.
Proof.
  intros C Hrep H c r'. rewrite H, (change_mems _ _ _ _ C). case_decide; [done|apply Hrep].
Qed.

Lemma winv_new n : winv (new n).
Proof.
  split; unfold mems, sview; cbn.
  - intros i r. unfold cview; cbn. rewrite list_lookup_fmap.
    destruct (seq 0 n !! i); cbn; rewrite ?lookup_empty; split; set_unfold; by intros [].
  - intros r room. by rewrite lookup_empty.
  - intros r c. rewrite lookup_empty. set_solver.
  - constructor.
Qed.

Lemma rep_new n : rep (new n) ∅.
Proof. intros c r. unfold mems, sview; cbn. rewrite lookup_empty. set_solver. Qed.

(** What a verdict looks at. *)
Lemma known_client w c : known (length (clients w)) c = bool_decide (is_Some (client c w)).
Proof.
  unfold known, client. apply bool_decide_ext. symmetry. apply lookup_lt_is_Some.
Qed.

Lemma inside_client w mem c cl r :
  winv w → rep w mem → 0 ≤ c → client c w = Some cl → inside c r mem = ModelClient.is_member r cl.
Proof.
  intros W R Hc Hcl. unfold ModelClient.is_member, inside. apply bool_decide_ext.
  rewrite (R c r), <-(client_cview _ _ _ _ Hcl), (winv_agree _ W), Z2Nat.id; done.
Qed.
End ModelInvariant.

(** ** Every operation, against the abstract relation *)
Module ModelRefinement.
Import OperationError Operation ModelWorld Spec ModelInvariant.

Lemma server_enter r c s :
  let s' := ModelServer.add_member r c (snd (ModelServer.create_room r c s)) in
  ModelServer.pending_deliveries s' = ModelServer.pending_deliveries s ∧
  (∀ r', r' ≠ r → ModelServer.rooms s' !! r' = ModelServer.rooms s !! r') ∧
  ModelServer.rooms s' !! r =
    Some (match ModelServer.rooms s !! r with
          | Some room => ModelServer.with_members ({[ c ]} ∪ ModelServer.members room) room
          | None => ModelServer.with_members ({[ c ]} ∪ {[ c ]}) (ModelServer.new_room c)
          end).
Proof.
  unfold ModelServer.create_room, ModelServer.room_exists; cbn.
  destruct (ModelServer.rooms s !! r) as [room|] eqn:E; cbn; split_and!; auto;
    intros; rewrite ?lookup_alter_eq, ?lookup_alter_ne, ?lookup_insert_ne, ?lookup_insert_eq by done; auto.
  by rewrite E.
Qed.

Lemma server_exit r c s room :
  ModelServer.rooms s !! r = Some room → c ∈ ModelServer.members room →
  let s' := ModelServer.advance_epoch r (snd (ModelServer.remove_member r c s)) in
  let ms := ModelServer.members room ∖ {[ c ]} in
  ModelServer.pending_deliveries s' = ModelServer.pending_deliveries s ∧
  (∀ r', r' ≠ r → ModelServer.rooms s' !! r' = ModelServer.rooms s !! r') ∧
  ModelServer.rooms s' !! r =
    if decide (ms = ∅) then None else Some (ModelServer.next_epoch (ModelServer.with_members ms room)).
Proof.
  intros E Hc. unfold ModelServer.remove_member. rewrite E, bool_decide_true by done. cbn.
  repeat case_bool_decide; case_decide; try done; cbn; split_and!; auto; intros;
    rewrite ?lookup_alter_eq, ?lookup_alter_ne, ?lookup_insert_eq, ?lookup_insert_ne, ?lookup_delete_ne, ?lookup_delete_eq by done; auto.
Qed.

Lemma indexed_members ms room : indexed room → indexed (ModelServer.with_members ms room).
Proof. done. Qed.
Lemma indexed_epoch room : indexed room → indexed (ModelServer.next_epoch room).
Proof. done. Qed.
Lemma indexed_new c : indexed (ModelServer.new_room c).
Proof. split; [done|]. intros k m H. cbn in H. by rewrite lookup_nil in H. Qed.

Lemma indexed_append who content room :
  indexed room → indexed (ModelServer.append (ModelServer.stamp who content room) room).
Proof.
  intros [Hn Hl]. split; cbn.
  - unfold zlen. rewrite Hn, length_app, Nat2Z.inj_add; cbn. unfold zlen.
    by rewrite Zplus_mod_idemp_l.
  - intros k m Hk. apply lookup_app_Some in Hk as [Hk|[Hk1 Hk2]]; [eauto|].
    destruct (k - length (ModelServer.log room))%nat as [|j] eqn:Ej; cbn in Hk2; [|done].
    simplify_eq. cbn. rewrite Hn. unfold zlen. do 2 f_equal. lia.
Qed.

(** A room that client [c] enters, as the server and the clients see it. *)
Lemma change_enter w w' c cl r :
  winv w → 0 ≤ c → client c w = Some cl →
  length (clients w') = length (clients w) → pending w' = pending w →
  (∀ r', r' ≠ r → sview w' r' = sview w r') →
  (∃ room, sview w' r = Some room ∧ ModelServer.members room = {[ c ]} ∪ mems w r ∧ indexed room) →
  (∀ i r', is_Some (cview w' i r') ↔ (i = Z.to_nat c ∧ r' = r) ∨ is_Some (cview w i r')) →
  change w w' r ({[ c ]} ∪ mems w r).
Proof.
  intros W Hc Hcl Hlen Hp Ho (room & Er & Em & Hi) Hv.
  apply lookup_lt_Some in Hcl. split; auto.
  - rewrite Er. split_and!; auto. set_solver.
  - intros i r' N. rewrite Hv. naive_solver.
  - intros i. rewrite Hv, (winv_agree _ W), elem_of_union, elem_of_singleton. split.
    + intros [[-> _]|?]; [left; lia|auto].
    + intros [<-|?]; [left; split; [lia|done]|auto].
  - intros c' [Hc'%elem_of_singleton|Hc']%elem_of_union.
    + subst. unfold num_clients, zlen. lia.
    + by apply (winv_valid _ W) in Hc'.
Qed.

(** *** What the clients hold after an operation that succeeds *)
Lemma enter_cview w c cl r st s i r' :
  client c w = Some cl →
  cview (with_server s (put_client c (ModelClient.with_rooms (<[r := st]> (ModelClient.rooms cl)) cl) w)) i r' =
    if decide (i = Z.to_nat c ∧ r' = r) then Some st else cview w i r'.
Proof.
  intros Hcl. rewrite cview_server, (cview_put _ _ _ _ _ _ Hcl). cbn.
  destruct (decide (i = Z.to_nat c)) as [->|]; [|by rewrite decide_False by naive_solver].
  destruct (decide (r' = r)) as [->|].
  - by rewrite lookup_insert_eq, decide_True.
  - rewrite lookup_insert_ne, decide_False by naive_solver. by rewrite (client_cview _ _ _ _ Hcl).
Qed.

Lemma exit_cview w c cl r s i r' :
  client c w = Some cl →
  cview (advance_all r (with_server s
    (put_client c (ModelClient.with_rooms (delete r (ModelClient.rooms cl)) cl) w))) i r' =
    if decide (r' = r) then
      if decide (i = Z.to_nat c) then None else ModelClient.next_epoch <$> cview w i r
    else cview w i r'.
Proof.
  intros Hcl. rewrite cview_advance, cview_server, (cview_put _ _ _ _ _ _ Hcl). cbn.
  destruct (decide (r' = r)) as [->|]; destruct (decide (i = Z.to_nat c)) as [->|]; try done.
  - by rewrite lookup_delete_eq.
  - by rewrite lookup_delete_ne, (client_cview _ _ _ _ Hcl) by done.
Qed.

(** The world of [apply_add_member] when the invitee is about to join. *)
Definition invited (c : ClientId) (r : ModelRoomId) (w : ModelWorld) : ModelWorld :=
  let w1 := advance_all r (with_server (ModelServer.advance_epoch r (server w)) w) in
  with_server (ModelServer.add_member r c (server w1)) w1.

Lemma invited_client c cl r w :
  client c w = Some cl → ModelClient.is_member r cl = false → client c (invited c r w) = Some cl.
Proof.
  intros Hcl Hm. unfold client, invited; cbn. rewrite list_lookup_fmap.
  unfold client in Hcl. rewrite Hcl; cbn. by rewrite Hm.
Qed.

Lemma invited_sview c r w r' :
  sview (invited c r w) r' =
    if decide (r' = r) then
      (λ room, ModelServer.with_members ({[ c ]} ∪ ModelServer.members room) (ModelServer.next_epoch room)) <$> sview w r
    else sview w r'.
Proof.
  unfold sview, invited; cbn. case_decide; subst.
  - rewrite !lookup_alter_eq. by destruct (ModelServer.rooms (server w) !! r).
  - by rewrite !lookup_alter_ne.
Qed.

Lemma add_cview w c cl r e i r' :
  client c w = Some cl → ModelClient.is_member r cl = false →
  cview (put_client c (snd (ModelClient.join_room_at_epoch r e cl)) (invited c r w)) i r' =
    if decide (i = Z.to_nat c ∧ r' = r)
    then Some {| ModelClient.room_epoch := e; ModelClient.room_messages := []; ModelClient.next_send_index := 0 |}
    else if decide (r' = r) then ModelClient.next_epoch <$> cview w i r' else cview w i r'.
Proof.
  intros Hcl Hm. pose proof (invited_client _ _ _ _ Hcl Hm) as Hcl2.
  unfold ModelClient.join_room_at_epoch, ModelClient.enter. rewrite Hm. cbn [snd].
  change (put_client c ?cl ?w) with (with_server (server w) (put_client c cl w)).
  rewrite (enter_cview _ _ _ _ _ _ _ _ Hcl2). case_decide; [done|].
  unfold invited. by rewrite cview_server, cview_advance, cview_server.
Qed.

Lemma sview_member w c cl r :
  winv w → 0 ≤ c → client c w = Some cl → ModelClient.is_member r cl = true →
  ∃ room, sview w r = Some room ∧ c ∈ ModelServer.members room.
Proof.
  intros W Hc Hcl Hm. apply bool_decide_eq_true in Hm.
  rewrite <-(client_cview _ _ _ _ Hcl), (winv_agree _ W), Z2Nat.id in Hm by done.
  unfold mems in Hm. destruct (sview w r) as [room|]; [eauto|by apply elem_of_empty in Hm].
Qed.

Lemma create_change w c cl r :
  winv w → 0 ≤ c → client c w = Some cl → ModelClient.is_member r cl = false →
  let s := ModelServer.add_member r c (snd (ModelServer.create_room r c (server w))) in
  let cl' := ModelClient.with_rooms (<[r := ModelClient.new_room]> (ModelClient.rooms cl)) cl in
  change w (with_server s (put_client c cl' w)) r ({[ c ]} ∪ mems w r).
Proof.
  intros W Hc Hcl Hm s cl'. destruct (server_enter r c (server w)) as (Hp & Ho & Hr).
  apply (change_enter _ _ _ cl); auto.
  - apply length_put.
  - eexists. split; [exact Hr|]. unfold mems, sview.
    destruct (ModelServer.rooms (server w) !! r) as [room|] eqn:E; cbn.
    + split; [done|]. by destruct (winv_room _ W r room E).
    + split; [set_solver|]. apply (indexed_new c).
  - intros i r'. unfold cl'. rewrite (enter_cview _ _ _ _ _ _ _ _ Hcl). case_decide; naive_solver.
Qed.

Lemma exit_change w c cl r :
  winv w → 0 ≤ c → client c w = Some cl → ModelClient.is_member r cl = true →
  let s := ModelServer.advance_epoch r (snd (ModelServer.remove_member r c (server w))) in
  let cl' := ModelClient.with_rooms (delete r (ModelClient.rooms cl)) cl in
  change w (advance_all r (with_server s (put_client c cl' w))) r (mems w r ∖ {[ c ]}).
Proof.
  intros W Hc Hcl Hm s cl'. destruct (sview_member _ _ _ _ W Hc Hcl Hm) as (room & E & Hin).
  destruct (server_exit r c (server w) room E Hin) as (Hp & Ho & Hr).
  destruct (winv_room _ W _ _ E) as [_ Hi].
  assert (mems w r = ModelServer.members room) as Em by (unfold mems; by rewrite E).
  split; auto; cbn [pending server].
  - by rewrite length_advance, <-(length_put c cl' w).
  - change (sview (advance_all r _) r) with (ModelServer.rooms s !! r). unfold s. rewrite Hr, Em.
    case_decide; [done|]. split_and!; auto.
  - intros i r' N. unfold cl'. by rewrite (exit_cview _ _ _ _ _ _ _ Hcl), decide_False.
  - intros i. unfold cl'. rewrite (exit_cview _ _ _ _ _ _ _ Hcl), decide_True by done.
    destruct (decide (i = Z.to_nat c)) as [->|].
    + rewrite Z2Nat.id by done. split; [by intros []|set_solver].
    + rewrite fmap_is_Some, (winv_agree _ W), elem_of_difference, elem_of_singleton. intuition lia.
  - intros c' [Hc' _]%elem_of_difference. by apply (winv_valid _ W r).
Qed.

Lemma add_change w c cl r e room :
  winv w → 0 ≤ c → client c w = Some cl → ModelClient.is_member r cl = false → sview w r = Some room →
  change w (put_client c (snd (ModelClient.join_room_at_epoch r e cl)) (invited c r w)) r ({[ c ]} ∪ mems w r).
Proof.
  intros W Hc Hcl Hm E. apply (change_enter _ _ _ cl); auto.
  - by rewrite length_put, <-(length_advance r w).
  - intros r' N. change (sview (put_client c _ ?w) r') with (sview w r'). by rewrite invited_sview, decide_False.
  - change (sview (put_client c _ ?w) r) with (sview w r). rewrite invited_sview, decide_True, E by done. cbn.
    eexists. split; [done|]. unfold mems. rewrite E; cbn. split; [done|]. by destruct (winv_room _ W r room E).
  - intros i r'. rewrite (add_cview _ _ _ _ _ _ _ Hcl Hm).
    case_decide; [naive_solver|]. case_decide; rewrite ?fmap_is_Some; naive_solver.
Qed.

Lemma change_id w w' :
  length (clients w') = length (clients w) → (∀ r, mems w' r = mems w r) →
  (∀ r room, sview w' r = Some room → ModelServer.members room ≠ ∅ ∧ indexed room) →
  (∀ i r, is_Some (cview w' i r) ↔ is_Some (cview w i r)) → Forall pending_ok (pending w') →
  winv w → winv w' ∧ ∀ mem, rep w mem → rep w' mem.
Proof.
  intros Hl Hm Hr Hv Hp W. split; [split; auto|].
  - intros i r. rewrite Hv, Hm. apply (winv_agree _ W).
  - intros r c. rewrite Hm. intros Hc%(winv_valid _ W). unfold num_clients, zlen in *. by rewrite Hl.
  - intros mem R c r. by rewrite Hm.
Qed.

(** *** Sending *)
Lemma process_message_member w c r room content :
  sview w r = Some room → c ∈ ModelServer.members room →
  ModelServer.process_message r c content (server w) =
    let m := ModelServer.stamp c content room in
    (Ok m, {| ModelServer.rooms := <[r := ModelServer.append m room]> (ModelServer.rooms (server w));
              ModelServer.pending_deliveries := pending w ++
                [{| ModelServer.room_id := r; ModelServer.message := m;
                    ModelServer.recipients := elements (ModelServer.members room) |}] |}).
Proof. intros E Hc. unfold ModelServer.process_message. unfold sview in E. rewrite E. by rewrite bool_decide_true. Qed.

Lemma model_send_keeps w c r room content :
  sview w r = Some room → c ∈ ModelServer.members room → winv w →
  let w' := with_server (snd (ModelServer.process_message r c content (server w))) w in
  winv w' ∧ ∀ mem, rep w mem → rep w' mem.
Proof.
  intros E Hc W. rewrite (process_message_member _ _ _ _ _ E Hc). cbn [snd].
  pose proof (winv_room _ W _ _ E) as [Hne Hi].
  apply change_id; auto.
  - intros r'. unfold mems, sview; cbn. destruct (decide (r' = r)) as [->|].
    + rewrite lookup_insert_eq. unfold sview in E. by rewrite E.
    + by rewrite lookup_insert_ne.
  - intros r' room'. unfold sview; cbn. destruct (decide (r' = r)) as [->|].
    + rewrite lookup_insert_eq. intros [= <-]. split; [done|]. by apply indexed_append.
    + rewrite lookup_insert_ne by done. apply (winv_room _ W).
  - apply Forall_app; split; [apply (winv_pending _ W)|]. apply Forall_singleton. split; cbn.
    + apply NoDup_elements.
    + apply Forall_forall. intros c' Hc'%elem_of_elements.
      apply (winv_valid _ W r). unfold mems. by rewrite E.
Qed.

(** *** Delivery *)
Definition receive (ms : list ModelMessage) (st : ModelRoomState) : ModelRoomState :=
  {| ModelClient.room_epoch := ModelClient.room_epoch st;
     ModelClient.room_messages := ModelClient.room_messages st ++ ms;
     ModelClient.next_send_index := ModelClient.next_send_index st |}.

(** What the pending deliveries [ps] hold for client [i] in room [r]. *)
Definition inbox (i : nat) (r : ModelRoomId) (ps : list PendingMessage) : list ModelMessage :=
  ModelServer.message <$>
    filter (λ p, ModelServer.room_id p = r ∧ Z.of_nat i ∈ ModelServer.recipients p) ps.

Lemma receive_nil st : receive [] st = st.
Proof. unfold receive. rewrite app_nil_r. by destruct st. Qed.
Lemma receive_app ms ms' st : receive ms' (receive ms st) = receive (ms ++ ms') st.
Proof. unfold receive; cbn. by rewrite app_assoc. Qed.
Lemma receive_nil_fmap (o : option ModelRoomState) : receive [] <$> o = o.
Proof. destruct o; cbn; by rewrite ?receive_nil. Qed.

Definition lview (cs : list ModelClient) (i : nat) (r : ModelRoomId) : option ModelRoomState :=
  cs !! i ≫= λ c, ModelClient.rooms c !! r.

Lemma deliver_to_view r m cs c i r' :
  lview (deliver_to r m cs c) i r' =
    receive (if decide (i = Z.to_nat c ∧ r' = r) then [m] else []) <$> lview cs i r'.
Proof.
  unfold deliver_to, lview, ModelClient.is_member.
  destruct (decide (i = Z.to_nat c)) as [->|N]; swap 1 2.
  { rewrite (decide_False (P := _ ∧ _)), receive_nil_fmap by naive_solver.
    destruct (cs !! Z.to_nat c); [|done]. case_bool_decide; [|done].
    by rewrite list_lookup_insert_ne. }
  destruct (cs !! Z.to_nat c) as [cl|] eqn:E; cbn; [|by rewrite E].
  pose proof (lookup_lt_Some _ _ _ E).
  case_bool_decide as D; rewrite ?list_lookup_insert_eq, ?E by done; cbn.
  - case_decide as D'; [destruct D' as [_ ->]|].
    + by rewrite lookup_alter_eq.
    + rewrite receive_nil_fmap, lookup_alter_ne; naive_solver.
  - case_decide as D'; [destruct D' as [_ ->]|by rewrite receive_nil_fmap].
    apply eq_None_not_Some in D. by rewrite D.
Qed.

Lemma deliver_view p cs i r :
  pending_ok p → lview (deliver cs p) i r = receive (inbox i r [p]) <$> lview cs i r.
Proof.
  intros [Hnd Hpos]. unfold deliver, inbox. rewrite filter_cons, filter_nil.
  revert cs. induction (ModelServer.recipients p) as [|c cs' IH]; intros cs; cbn.
  { rewrite decide_False by (intros [_ H]; by apply elem_of_nil in H). by rewrite receive_nil_fmap. }
  apply NoDup_cons in Hnd as [Hnin Hnd]. apply Forall_cons in Hpos as [Hc Hpos].
  rewrite IH, deliver_to_view by done. rewrite <-option_fmap_compose.
  apply option_fmap_ext. intros st. cbn. rewrite receive_app. f_equal.
  repeat case_decide; cbn; try done; exfalso; set_unfold; try naive_solver lia.
  destruct_and!. subst. rewrite Z2Nat.id in * by done. done.
Qed.

Lemma inbox_app i r ps qs : inbox i r (ps ++ qs) = inbox i r ps ++ inbox i r qs.
Proof. unfold inbox. by rewrite filter_app, fmap_app. Qed.

Lemma deliver_all_view ps cs i r :
  Forall pending_ok ps → lview (foldl deliver cs ps) i r = receive (inbox i r ps) <$> lview cs i r.
Proof.
  revert cs. induction ps as [|p ps IH]; intros cs Hok; cbn; [by rewrite receive_nil_fmap|].
  apply Forall_cons in Hok as [Hp Hok]. rewrite IH, deliver_view by done.
  rewrite <-option_fmap_compose. apply option_fmap_ext. intros st. unfold compose.
  by rewrite receive_app, <-inbox_app.
Qed.

Lemma deliver_to_length r m cs c : length (deliver_to r m cs c) = length cs.
Proof. unfold deliver_to. repeat case_match; by rewrite ?length_insert. Qed.
Lemma deliver_length cs p : length (deliver cs p) = length cs.
Proof.
  unfold deliver. revert cs. induction (ModelServer.recipients p) as [|c l IH]; intros cs; cbn; [done|].
  by rewrite IH, deliver_to_length.
Qed.
Lemma deliver_all_length ps cs : length (foldl deliver cs ps) = length cs.
Proof. revert cs. induction ps as [|p ps IH]; intros cs; cbn; [done|]. by rewrite IH, deliver_length. Qed.

Lemma deliver_pending_view w i r :
  winv w → cview (apply_deliver_pending w) i r = receive (inbox i r (pending w)) <$> cview w i r.
Proof. intros W. apply deliver_all_view, (winv_pending _ W). Qed.

Lemma deliver_keeps w : winv w → winv (apply_deliver_pending w) ∧ ∀ mem, rep w mem → rep (apply_deliver_pending w) mem.
Proof.
  intros W. apply change_id; auto.
  - apply deliver_all_length.
  - apply (winv_room _ W).
  - intros i r. rewrite deliver_pending_view by done. by rewrite fmap_is_Some.
Qed.

(** *** One operation *)
Definition refines (n : nat) (mem : rel) (op : Operation) (out : OperationResult * ModelWorld) : Prop :=
  fst out = fst (Spec.apply n op mem) ∧ length (clients (snd out)) = n ∧
  winv (snd out) ∧ rep (snd out) (snd (Spec.apply n op mem)).

Lemma refines_change w w' mem mem' op r ms :
  Spec.apply (length (clients w)) op mem = (ROk, mem') → winv w → rep w mem → change w w' r ms →
  (∀ c r', (c, r') ∈ mem' ↔ if decide (r' = r) then c ∈ ms else (c, r') ∈ mem) →
  refines (length (clients w)) mem op (ROk, w').
Proof.
  intros E W R C H. unfold refines. rewrite E. cbn. split_and!; auto.
  - apply (change_count _ _ _ _ C).
  - by eapply change_winv.
  - by eapply change_rep.
Qed.

Lemma refines_keep w w' mem op res :
  Spec.apply (length (clients w)) op mem = (res, mem) → length (clients w') = length (clients w) →
  winv w' → rep w' mem → refines (length (clients w)) mem op (res, w').
Proof. intros E. unfold refines. rewrite E. done. Qed.

Lemma put_client_same c cl w : client c w = Some cl → put_client c cl w = w.
Proof.
  intros H. unfold put_client, with_clients. rewrite list_insert_id by done. by destruct w.
Qed.

(** Looks up the client [c] and tests its membership as the specification does. *)
Ltac see_client W R c cl Hcl :=
  let Hk := fresh "Hk" in
  lazymatch goal with
  | |- refines (length (clients ?w)) _ _ _ =>
      pose proof (known_client w c) as Hk;
      destruct (client c w) as [cl|] eqn:Hcl;
      [rewrite bool_decide_true in Hk by eauto|rewrite bool_decide_false in Hk by (by intros [])]
  end.
Ltac refused := try rewrite put_client_same by done; apply refines_keep; [cbn; repeat match goal with H : _ = _ |- _ => rewrite H; clear H end; done|done|done|done].

Lemma create_refines w mem c r :
  winv w → rep w mem → 0 ≤ c → refines (length (clients w)) mem (CreateRoom c r) (apply_create_room c r w).
Proof.
  intros W R Hc. unfold apply_create_room. see_client W R c cl Hcl; [|refused].
  unfold ModelClient.create_room, ModelClient.enter.
  pose proof (inside_client _ _ _ _ r W R Hc Hcl) as Hi.
  destruct (ModelClient.is_member r cl) eqn:Hm; cbn.
  { refused. }
  pose proof (create_change _ _ _ _ W Hc Hcl Hm) as C.
  eapply refines_change; [|done|done|exact C|].
  { cbn. by rewrite Hk, Hi. }
  intros c' r'. rewrite elem_of_union, elem_of_singleton. case_decide; subst.
  - rewrite elem_of_union, elem_of_singleton, (R c' r). naive_solver.
  - naive_solver.
Qed.

Lemma send_refines w mem c r content :
  winv w → rep w mem → 0 ≤ c →
  refines (length (clients w)) mem (SendMessage c r content) (apply_send_message c r (SmallMessage.to_bytes content) w).
Proof.
  intros W R Hc. unfold apply_send_message. see_client W R c cl Hcl; [|refused].
  pose proof (inside_client _ _ _ _ r W R Hc Hcl) as Hi.
  destruct (ModelClient.is_member r cl) eqn:Hm; [|refused].
  destruct (sview_member _ _ _ _ W Hc Hcl Hm) as (room & E & Hin).
  destruct (model_send_keeps _ _ _ _ (SmallMessage.to_bytes content) E Hin W) as [W' R'].
  destruct (ModelServer.process_message _ _ _ _) as [res s] eqn:Ep.
  rewrite (process_message_member _ _ _ _ _ E Hin) in Ep. injection Ep as <- Es. cbn in *.
  apply refines_keep; auto. cbn. by rewrite Hk, Hi.
Qed.

Lemma leave_refines w mem c r :
  winv w → rep w mem → 0 ≤ c → refines (length (clients w)) mem (LeaveRoom c r) (apply_leave_room c r w).
Proof.
  intros W R Hc. unfold apply_leave_room. see_client W R c cl Hcl; [|refused].
  unfold ModelClient.leave_room. pose proof (inside_client _ _ _ _ r W R Hc Hcl) as Hi.
  destruct (ModelClient.is_member r cl) eqn:Hm; cbn; swap 1 2.
  { refused. }
  pose proof (exit_change _ _ _ _ W Hc Hcl Hm) as C.
  eapply refines_change; [|done|done|exact C|].
  { cbn. by rewrite Hk, Hi. }
  intros c' r'. rewrite elem_of_difference, elem_of_singleton. case_decide; subst.
  - rewrite elem_of_difference, elem_of_singleton, (R c' r). naive_solver.
  - naive_solver.
Qed.

Lemma add_refines w mem a b r :
  winv w → rep w mem → 0 ≤ a → 0 ≤ b →
  refines (length (clients w)) mem (AddMember a b r) (apply_add_member a b r w).
Proof.
  intros W R Ha Hb. unfold apply_add_member. see_client W R a cl Hcl; [|refused].
  see_client W R b cl' Hcl'; [|refused].
  pose proof (inside_client _ _ _ _ r W R Ha Hcl) as Hia.
  pose proof (inside_client _ _ _ _ r W R Hb Hcl') as Hib.
  destruct (ModelClient.is_member r cl) eqn:Hm; [|refused].
  destruct (ModelClient.is_member r cl') eqn:Hm'; [refused|].
  destruct (sview_member _ _ _ _ W Ha Hcl Hm) as (room & E & Hin).
  pose proof (λ e, add_change _ _ _ _ e _ W Hb Hcl' Hm' E) as C.
  fold (invited b r w). cbn [negb]. cbv zeta. rewrite (invited_client _ _ _ _ Hcl' Hm').
  eapply refines_change; [|done|done|apply C|].
  { cbn. by rewrite Hk, Hk0, Hia, Hib. }
  intros c' r'. rewrite elem_of_union, elem_of_singleton. case_decide; subst.
  - rewrite elem_of_union, elem_of_singleton, (R c' r). naive_solver.
  - naive_solver.
Qed.

Lemma remove_refines w mem a b r :
  winv w → rep w mem → 0 ≤ a → 0 ≤ b →
  refines (length (clients w)) mem (RemoveMember a b r) (apply_remove_member a b r w).
Proof.
  intros W R Ha Hb. unfold apply_remove_member. see_client W R a cl Hcl; [|refused].
  see_client W R b cl' Hcl'; [|refused].
  pose proof (inside_client _ _ _ _ r W R Ha Hcl) as Hia.
  pose proof (inside_client _ _ _ _ r W R Hb Hcl') as Hib.
  destruct (a =? b) eqn:Hab; [refused|].
  destruct (ModelClient.is_member r cl) eqn:Hm; [|refused].
  destruct (ModelClient.is_member r cl') eqn:Hm'; [|refused].
  unfold ModelClient.leave_room. rewrite Hm'. cbn.
  pose proof (exit_change _ _ _ _ W Hb Hcl' Hm') as C.
  eapply refines_change; [|done|done|exact C|].
  { cbn. by rewrite Hk, Hk0, Hab, Hia, Hib. }
  intros c' r'. rewrite elem_of_difference, elem_of_singleton. case_decide; subst.
  - rewrite elem_of_difference, elem_of_singleton, (R c' r). naive_solver.
  - naive_solver.
Qed.

Lemma apply_refines op w mem :
  op_ok op → winv w → rep w mem → refines (length (clients w)) mem op (ModelWorld.apply op w).
Proof.
  intros Hop W R. destruct op; cbn in *; destruct_and?;
    auto using create_refines, send_refines, leave_refines, add_refines, remove_refines.
  - by apply refines_keep.
  - destruct (deliver_keeps _ W) as [W' R']. apply refines_keep; auto. apply deliver_all_length.
Qed.

(** Every world has a membership relation. *)
Lemma rep_exists w : ∃ mem, rep w mem.
Proof.
  exists (list_to_set (map_to_list (ModelServer.rooms (server w)) ≫=
    λ rr, (λ c, (c, fst rr)) <$> elements (ModelServer.members (snd rr)))).
  intros c r. rewrite elem_of_list_to_set, list_elem_of_bind. unfold mems, sview. split.
  - intros ([r' room] & (? & ? & Hin)%list_elem_of_fmap & Hm%elem_of_map_to_list). cbn in *. simplify_eq.
    apply elem_of_elements in Hin. by rewrite Hm.
  - destruct (ModelServer.rooms (server w) !! r) as [room|] eqn:E; [|intros []%elem_of_empty].
    intros Hin. exists (r, room). split; [|by apply elem_of_map_to_list].
    apply list_elem_of_fmap. exists c. by rewrite elem_of_elements.
Qed.

Lemma apply_winv op w : op_ok op → winv w → winv (snd (ModelWorld.apply op w)).
Proof. intros Hop W. destruct (rep_exists w) as [mem R]. by destruct (apply_refines _ _ _ Hop W R) as (_ & _ & ? & _). Qed.
End ModelRefinement.

(** ** Theorems about runs *)
Module ModelTheorems.
Import OperationError Operation ModelWorld Spec ModelInvariant ModelRefinement.
#[local] Abbreviation run := ModelWorld.run.
#[local] Abbreviation apply := ModelWorld.apply.

Lemma run_refines n ops : ∀ w mem,
  Forall op_ok ops → winv w → rep w mem → length (clients w) = n →
  fst (run ops w) = fst (Spec.run n ops mem) ∧ winv (snd (run ops w)) ∧
  rep (snd (run ops w)) (snd (Spec.run n ops mem)) ∧ length (clients (snd (run ops w))) = n.
Proof.
  induction ops as [|op ops IH]; intros w mem Hok W R Hn; [done|].
  apply Forall_cons in Hok as [Hop Hok]. subst n.
  destruct (apply_refines _ _ _ Hop W R) as (E & Hl & W' & R'). cbn.
  destruct (apply op w) as [res w'], (Spec.apply _ op mem) as [res' mem']. cbn in *. subst res'.
  destruct (IH _ _ Hok W' R' Hl) as (E1 & W1 & R1 & L1).
  destruct (run ops w') as [rs w1], (Spec.run _ ops mem') as [rs' mem1]. cbn in *. by subst.
Qed.

Lemma reached n ops : Forall op_ok ops → winv (snd (run ops (new n))).
Proof.
  intros Hok. eapply (run_refines n ops (new n) ∅); auto using winv_new, rep_new.
  cbn. by rewrite length_fmap, length_seq.
Qed.

Lemma run_snoc ops op w : snd (run (ops ++ [op]) w) = snd (apply op (snd (run ops w))).
Proof.
  revert w. induction ops as [|o ops IH]; intros w; cbn.
  - by destruct (apply op w).
  - destruct (apply o w) as [r w']. specialize (IH w').
    by destruct (run (ops ++ [op]) w'), (run ops w').
Qed.

(** C15: the model's verdicts are those of the membership relation [Spec]: for
    every sequence of operations, each result is the one that the plain relation
    gives, and at the end a client is in a room exactly if the relation says so.
    Epochs, logs and pending deliveries never influence a verdict. *)
Theorem model_refines_membership n ops :
  Forall op_ok ops →
  fst (run ops (new n)) = fst (Spec.run n ops ∅) ∧
  ∀ c cl r, 0 ≤ c → client c (snd (run ops (new n))) = Some cl →
    ModelClient.is_member r cl = inside c r (snd (Spec.run n ops ∅)).
Proof.
  intros Hok. destruct (run_refines n ops (new n) ∅) as (E & W & R & _);
    auto using winv_new, rep_new.
  { cbn. by rewrite length_fmap, length_seq. }
  split; [done|]. intros c cl r Hc Hcl. symmetry. by eapply inside_client.
Qed.

(** The oracle's own invariants hold after every sequence of operations: a
    client counts itself a member of a room exactly if the server does, every
    room the server keeps has a member, members are clients of the world, and
    the message at position [k] of a room's log carries log index [k], with the
    next index to assign equal to the length of the log. *)
Theorem model_invariants n ops :
  Forall op_ok ops →
  let w := snd (run ops (new n)) in
  (∀ i cl r, clients w !! i = Some cl →
     ModelClient.is_member r cl = ModelServer.is_member r (Z.of_nat i) (server w)) ∧
  (∀ r room, ModelServer.rooms (server w) !! r = Some room →
     ModelServer.members room ≠ ∅ ∧
     (∀ c, c ∈ ModelServer.members room → 0 ≤ c < num_clients w) ∧
     ModelServer.next_log_index room = zlen (ModelServer.log room) mod U64_MOD ∧
     ∀ k m, ModelServer.log room !! k = Some m → ModelClient.log_index m = Z.of_nat k mod U64_MOD).
Proof.
  intros Hok w. pose proof (reached n ops Hok) as W. fold w in W. split.
  - intros i cl r Hi. unfold ModelClient.is_member, ModelServer.is_member.
    pose proof (winv_agree _ W i r) as A. unfold cview, mems, sview in A. rewrite Hi in A. cbn in A.
    destruct (ModelServer.rooms (server w) !! r); [by apply bool_decide_ext|].
    apply bool_decide_eq_false. rewrite A. apply not_elem_of_empty.
  - intros r room E. destruct (winv_room _ W _ _ E) as [Hne [Hn Hl]]. split_and!; auto.
    intros c Hc. apply (winv_valid _ W r). unfold mems, sview. by rewrite E.
Qed.

(** What [DeliverPending] does, exactly: every client gets, in every room it
    is still in, the queued messages of that room that were addressed to it, in
    the order they were sent, and nothing else of it changes; the server keeps
    its rooms and its queue is empty. *)
Theorem delivery_exact n ops :
  Forall op_ok ops →
  let w := snd (run ops (new n)) in
  let w' := snd (apply DeliverPending w) in
  length (clients w') = length (clients w) ∧
  (∀ i r, cview w' i r = receive (inbox i r (ModelServer.pending_deliveries (server w))) <$> cview w i r) ∧
  server w' = {| ModelServer.rooms := ModelServer.rooms (server w); ModelServer.pending_deliveries := [] |}.
Proof.
  intros Hok w w'. pose proof (reached n ops Hok) as W. split_and!; [|intros i r|done].
  - apply deliver_all_length.
  - by apply deliver_pending_view.
Qed.

(** *** Invariants of runs that meet a condition at every step *)
Fixpoint always (P : Operation → ModelWorld → bool) (ops : list Operation) (w : ModelWorld) : bool :=
  match ops with [] => true | op :: ops => P op w && always P ops (snd (apply op w)) end.

Lemma always_inv (I : ModelWorld → Prop) P :
  (∀ op w, op_ok op → winv w → P op w = true → I w → I (snd (apply op w))) →
  ∀ ops w, Forall op_ok ops → winv w → always P ops w = true → I w → I (snd (run ops w)).
Proof.
  intros HI ops. induction ops as [|op ops IH]; intros w Hok W Hc H; [done|].
  apply Forall_cons in Hok as [Hop Hok]. cbn in Hc. apply andb_true_iff in Hc as [Hs Hc].
  specialize (IH _ Hok (apply_winv _ _ Hop W) Hc (HI _ _ Hop W Hs H)).
  cbn. destruct (apply op w) as [res w']. cbn in *. by destruct (run ops w').
Qed.

(** *** What clients have received *)
Definition msgs (w : ModelWorld) (i : nat) (r : ModelRoomId) : list ModelMessage :=
  from_option ModelClient.room_messages [] (cview w i r).

(** What a client has received and what waits for it is a part of the log. *)
Definition received_ok (w : ModelWorld) : Prop :=
  ∀ i r room, sview w r = Some room →
    (msgs w i r ++ inbox i r (pending w)) `sublist_of` ModelServer.log room.

(** A room is not created while messages of an earlier room of that name wait. *)
Definition settled (op : Operation) (w : ModelWorld) : bool :=
  match op with
  | CreateRoom _ r =>
      ModelServer.room_exists r (server w) ||
      forallb (λ p, negb (ModelServer.room_id p =? r)) (ModelServer.pending_deliveries (server w))
  | _ => true
  end.

(** [w'] differs from [w] in memberships and epochs only. *)
Record quiet (w w' : ModelWorld) : Prop := {
  quiet_pending : pending w' = pending w;
  quiet_msgs : ∀ i r, msgs w' i r = msgs w i r ∨ msgs w' i r = [];
  quiet_log : ∀ r room', sview w' r = Some room' →
    match sview w r with Some room => ModelServer.log room' = ModelServer.log room | None => ModelServer.log room' = [] end }.

Lemma quiet_refl w : quiet w w.
Proof. split; auto. by intros r room ->. Qed.

Lemma quiet_received w w' :
  winv w → quiet w w' → (∀ r, sview w r = None → is_Some (sview w' r) → ∀ i, inbox i r (pending w) = []) →
  received_ok w → received_ok w'.
Proof.
  intros W Q Hn H i r room' E. rewrite (quiet_pending _ _ Q). pose proof (quiet_log _ _ Q _ _ E) as L.
  destruct (sview w r) as [room|] eqn:Er.
  - rewrite L. transitivity (msgs w i r ++ inbox i r (pending w)); [|by apply H].
    destruct (quiet_msgs _ _ Q i r) as [->| ->]; [done|]. apply sublist_inserts_l. done.
  - rewrite (Hn r) by eauto. rewrite L, app_nil_r.
    assert (msgs w i r = []) as Hm.
    { unfold msgs. destruct (cview w i r) eqn:Ec; [|done].
      assert (is_Some (cview w i r)) as A by eauto. rewrite (winv_agree _ W) in A.
      unfold mems in A. rewrite Er in A. by apply elem_of_empty in A. }
    destruct (quiet_msgs _ _ Q i r) as [->| ->]; by rewrite ?Hm.
Qed.

Lemma msgs_epoch (o : option ModelRoomState) :
  from_option ModelClient.room_messages [] (ModelClient.next_epoch <$> o) = from_option ModelClient.room_messages [] o.
Proof. by destruct o. Qed.

Lemma model_create_quiet w c r : quiet w (snd (apply_create_room c r w)).
Proof.
  unfold apply_create_room. destruct (client c w) as [cl|] eqn:Hcl; [|apply quiet_refl].
  unfold ModelClient.create_room, ModelClient.enter. destruct (ModelClient.is_member r cl); cbn.
  { rewrite put_client_same by done. apply quiet_refl. }
  destruct (server_enter r c (server w)) as (Hp & Ho & Hr). split; [done| |].
  - intros i r'. unfold msgs. rewrite (enter_cview _ _ _ _ _ _ _ _ Hcl). case_decide; auto.
  - intros r' room'. destruct (decide (r' = r)) as [->|N].
    + unfold sview. cbn in Hr |- *. rewrite Hr. destruct (ModelServer.rooms (server w) !! r); by intros [= <-].
    + intros H. unfold sview in *. cbn in Ho, H |- *. rewrite Ho in H by done. by rewrite H.
Qed.

Lemma exit_quiet w c cl r :
  winv w → 0 ≤ c → client c w = Some cl → ModelClient.is_member r cl = true →
  quiet w (advance_all r (with_server (ModelServer.advance_epoch r (snd (ModelServer.remove_member r c (server w))))
    (put_client c (ModelClient.with_rooms (delete r (ModelClient.rooms cl)) cl) w))).
Proof.
  intros W Hc Hcl Hm. destruct (sview_member _ _ _ _ W Hc Hcl Hm) as (room & E & Hin).
  destruct (server_exit r c (server w) room E Hin) as (Hp & Ho & Hr). split; [done| |].
  - intros i r'. unfold msgs. rewrite (exit_cview _ _ _ _ _ _ _ Hcl).
    destruct (decide (r' = r)) as [->|]; [|auto]. destruct (decide (i = _)); rewrite ?msgs_epoch; auto.
  - intros r' room'. change (sview (advance_all r (with_server ?s _)) r') with (ModelServer.rooms s !! r').
    destruct (decide (r' = r)) as [->|N].
    + rewrite E, Hr. case_decide; [done|]. by intros [= <-].
    + rewrite Ho by done. unfold sview. by intros ->.
Qed.

Lemma model_leave_quiet w c r : winv w → 0 ≤ c → quiet w (snd (apply_leave_room c r w)).
Proof.
  intros W Hc. unfold apply_leave_room. destruct (client c w) as [cl|] eqn:Hcl; [|apply quiet_refl].
  unfold ModelClient.leave_room. destruct (ModelClient.is_member r cl) eqn:Hm; cbn -[advance_all].
  - by apply exit_quiet.
  - rewrite put_client_same by done. apply quiet_refl.
Qed.

Lemma model_remove_quiet w a b r : winv w → 0 ≤ b → quiet w (snd (apply_remove_member a b r w)).
Proof.
  intros W Hb. unfold apply_remove_member.
  destruct (client a w) as [cl|] eqn:Hcl; [|apply quiet_refl].
  destruct (client b w) as [cl'|] eqn:Hcl'; [|apply quiet_refl].
  repeat (case_match; [apply quiet_refl|]). unfold ModelClient.leave_room.
  destruct (ModelClient.is_member r cl') eqn:Hm; [|done]. exact (exit_quiet _ _ _ _ W Hb Hcl' Hm).
Qed.

Lemma model_add_quiet w a b r : winv w → 0 ≤ b → quiet w (snd (apply_add_member a b r w)).
Proof.
  intros W Hb. unfold apply_add_member.
  destruct (client a w) as [cl|] eqn:Hcl; [|apply quiet_refl].
  destruct (client b w) as [cl'|] eqn:Hcl'; [|apply quiet_refl].
  case_match; [apply quiet_refl|]. destruct (ModelClient.is_member r cl') eqn:Hm; [apply quiet_refl|].
  fold (invited b r w). cbv zeta. rewrite (invited_client _ _ _ _ Hcl' Hm). cbn [snd]. split; [done| |].
  - intros i r'. unfold msgs. rewrite (add_cview _ _ _ _ _ _ _ Hcl' Hm).
    case_decide; [auto|]. case_decide; subst; rewrite ?msgs_epoch; auto.
  - intros r' room'. change (sview (put_client b _ ?w) r') with (sview w r'). rewrite invited_sview.
    case_decide; subst.
    + destruct (sview w r); by intros [= <-].
    + by intros ->.
Qed.

Lemma quiet_rooms w w' :
  quiet w w' → (∀ r, sview w r = None → sview w' r = None) → winv w → received_ok w → received_ok w'.
Proof. intros Q Hn W. apply quiet_received; auto. intros r Hr H. apply Hn in Hr. rewrite Hr in H. by destruct H. Qed.

Lemma inbox_other i r ps : forallb (λ p, negb (ModelServer.room_id p =? r)) ps = true → inbox i r ps = [].
Proof.
  unfold inbox. induction ps as [|p ps IH]; cbn [forallb]; [done|]. intros [Hp H]%andb_true_iff.
  rewrite filter_cons, decide_False by (intros [? _]; subst; by rewrite Z.eqb_refl in Hp). by apply IH.
Qed.

Lemma create_sview w c r r' : r' ≠ r → sview (snd (apply_create_room c r w)) r' = sview w r'.
Proof.
  intros N. unfold apply_create_room. destruct (client c w) as [cl|]; [|done].
  unfold ModelClient.create_room, ModelClient.enter. destruct (ModelClient.is_member r cl); [done|].
  destruct (server_enter r c (server w)) as (_ & Ho & _). by apply Ho.
Qed.

Lemma leave_sview w c r r' :
  sview w r' = None →
  ModelServer.rooms (ModelServer.advance_epoch r (snd (ModelServer.remove_member r c (server w)))) !! r' = None.
Proof.
  unfold sview. intros E. cbn. apply lookup_alter_None.
  unfold ModelServer.remove_member. repeat (case_match; cbn; try done).
  - apply lookup_delete_None. auto.
  - destruct (decide (r' = r)) as [->|]; [congruence|]. by rewrite lookup_insert_ne.
Qed.

Lemma send_received w c r content : winv w → received_ok w → received_ok (snd (apply_send_message c r content w)).
Proof.
  intros W H. unfold apply_send_message. destruct (client c w) as [cl|]; [|done].
  destruct (ModelClient.is_member r cl); [|done]. unfold ModelServer.process_message.
  destruct (ModelServer.rooms (server w) !! r) as [room|] eqn:E; [|by destruct w as [? []]].
  case_bool_decide; [|by destruct w as [? []]]. intros i r' room'. unfold sview, pending.
  cbn [snd with_server server ModelServer.rooms ModelServer.pending_deliveries].
  rewrite inbox_app, app_assoc. change (msgs _ i r') with (msgs w i r').
  destruct (decide (r' = r)) as [->|N].
  - rewrite lookup_insert_eq. intros [= <-]. cbn [ModelServer.append ModelServer.log].
    apply sublist_app; [by apply H|].
    unfold inbox. rewrite filter_cons, filter_nil. case_decide; [done|apply sublist_nil_l].
  - rewrite lookup_insert_ne by done. intros E'.
    unfold inbox at 2. rewrite filter_cons, filter_nil, decide_False, app_nil_r by naive_solver.
    by apply H.
Qed.

Lemma deliver_received w : winv w → received_ok w → received_ok (apply_deliver_pending w).
Proof.
  intros W H i r room E. specialize (H i r room E). change (inbox i r (pending (apply_deliver_pending w))) with (@nil ModelMessage).
  unfold msgs in *. rewrite deliver_pending_view, app_nil_r by done.
  destruct (cview w i r); cbn in *; [done|apply sublist_nil_l].
Qed.

Lemma apply_received op w :
  op_ok op → winv w → settled op w = true → received_ok w → received_ok (snd (apply op w)).
Proof.
  intros Hok W Hs H. destruct op as [c r|c r m|c r|a b r|a b r|ms|]; cbn [op_ok] in Hok; destruct_and?; cbn [apply snd].
  - apply (quiet_received w); [done|apply model_create_quiet| |done].
    intros r' Hr Hr' i. destruct (decide (r' = r)) as [->|N].
    + cbn in Hs. unfold ModelServer.room_exists in Hs. unfold sview in Hr. rewrite Hr in Hs. by apply inbox_other.
    + rewrite create_sview, Hr in Hr' by done. by destruct Hr'.
  - by apply send_received.
  - apply (quiet_rooms w); auto using model_leave_quiet. intros r' Hr. unfold apply_leave_room.
    repeat case_match; try done; by apply leave_sview.
  - apply (quiet_rooms w); auto using model_add_quiet. intros r' Hr. unfold apply_add_member.
    repeat case_match; try done;
      first [change (sview (put_client b _ (invited b r w)) r' = None)|change (sview (invited b r w) r' = None)];
      rewrite invited_sview; case_decide; subst; by rewrite ?Hr.
  - apply (quiet_rooms w); auto using model_remove_quiet. intros r' Hr. unfold apply_remove_member.
    repeat case_match; try done; by apply leave_sview.
  - done.
  - by apply deliver_received.
Qed.

Lemma received_new n : received_ok (new n).
Proof. intros i r room E. unfold sview in E; cbn in E. by rewrite lookup_empty in E. Qed.


(** A part of a list is in the order of the list. *)
Lemma indices_sorted room ms :
  indexed room → zlen (ModelServer.log room) ≤ U64_MOD → ms `sublist_of` ModelServer.log room →
  StronglySorted Z.lt (ModelClient.log_index <$> ms).
Proof.
  intros [_ Hl] Hlen Hs.
  assert (∀ l k, (∀ j m, l !! j = Some m → ModelClient.log_index m = Z.of_nat (k + j)) →
    StronglySorted Z.lt (ModelClient.log_index <$> l)) as Hsorted.
  { induction l as [|m l IH]; intros k Hk; [constructor|]. cbn. constructor.
    - apply (IH (S k)). intros j m' Hj. rewrite (Hk (S j) m' Hj). f_equal. lia.
    - apply Forall_fmap, Forall_lookup. intros j m' Hj. cbn.
      rewrite (Hk 0%nat m eq_refl), (Hk (S j) m' Hj). lia. }
  specialize (Hsorted (ModelServer.log room) 0%nat).
  assert (StronglySorted Z.lt (ModelClient.log_index <$> ModelServer.log room)) as S0.
  { apply Hsorted. intros j m Hj. rewrite (Hl _ _ Hj). apply Z.mod_small.
    apply lookup_lt_Some in Hj. unfold zlen in Hlen. lia. }
  clear Hsorted Hl Hlen. induction Hs as [|m l1 l2 Hs IH|m l1 l2 Hs IH]; [constructor| |].
  - cbn in *. apply StronglySorted_inv in S0 as [S1 S2]. constructor; [auto|].
    rewrite Forall_fmap, Forall_forall in *. intros m' Hm'. apply S2.
    by eapply elem_of_sublist.
  - cbn in S0. apply StronglySorted_inv in S0 as [S1 _]. auto.
Qed.

(** What a client has received in a room is a part of the room's log, in log
    order: no message is invented, altered, duplicated or reordered.  This holds
    for every sequence of operations in which a room is not created again while
    messages of an earlier room of the same name wait for delivery. *)
Theorem received_is_logged n ops c r ms :
  Forall op_ok ops → always settled ops (new n) = true → 0 ≤ c →
  client_messages c r (snd (run ops (new n))) = Some ms →
  ∃ log, ModelServer.messages r (server (snd (run ops (new n)))) = Some log ∧
    ms `sublist_of` log ∧
    (zlen log ≤ U64_MOD → StronglySorted Z.lt (ModelClient.log_index <$> ms)).
Proof.
  intros Hok Hc Hpos Hm. pose proof (reached n ops Hok) as W.
  pose proof (always_inv _ _ apply_received _ _ Hok (winv_new n) Hc (received_new n)) as H.
  set (w := snd (run ops (new n))) in *.
  assert (∃ st, cview w (Z.to_nat c) r = Some st ∧ ModelClient.room_messages st = ms) as (st & Ev & <-).
  { unfold client_messages, ModelClient.messages, client in Hm. unfold cview.
    destruct (clients w !! Z.to_nat c); [|done]. cbn in *. by apply fmap_Some in Hm as (? & ? & ->); eauto. }
  assert (is_Some (cview w (Z.to_nat c) r)) as A by eauto.
  rewrite (winv_agree _ W) in A. unfold mems in A.
  destruct (sview w r) as [room|] eqn:E; [|by apply elem_of_empty in A].
  specialize (H (Z.to_nat c) r room E). unfold msgs in H. rewrite Ev in H. cbn in H.
  assert (ModelClient.room_messages st `sublist_of` ModelServer.log room) as S0.
  { etransitivity; [|exact H]. by apply sublist_inserts_r. }
  exists (ModelServer.log room). split_and!; [|done|].
  - unfold ModelServer.messages. unfold sview in E. by rewrite E.
  - intros Hlen. eapply indices_sorted; eauto. by apply (winv_room _ W r).
Qed.

(** Without that proviso it fails.  The last member of a room leaves while a
    message waits, which dissolves the room; it creates the room again, and the
    delivery that follows hands it the old message: the client has received a
    message that the room's log, which is empty, does not hold, and after one
    more message its list is not ordered by log index. *)
Theorem recreated_room_delivers_stale m m' :
  let w := snd (run [CreateRoom 0 1; SendMessage 0 1 m; LeaveRoom 0 1; CreateRoom 0 1] (new 1)) in
  let stamped m := {| ModelClient.sender_id := 0; ModelClient.content := SmallMessage.to_bytes m;
                      ModelClient.log_index := 0; ModelClient.epoch := 0 |} in
  let w1 := snd (apply DeliverPending w) in
  let w2 := snd (apply DeliverPending (snd (apply (SendMessage 0 1 m') w))) in
  client_messages 0 1 w1 = Some [stamped m] ∧ ModelServer.messages 1 (server w1) = Some [] ∧
  client_messages 0 1 w2 = Some [stamped m; stamped m'] ∧ ModelServer.messages 1 (server w2) = Some [stamped m'].
Proof. split_and!; vm_compute; reflexivity. Qed.

(** *** Epochs *)
Definition epochs_ok (w : ModelWorld) : Prop :=
  ∀ i r st room, cview w i r = Some st → sview w r = Some room → ModelClient.room_epoch st = ModelServer.epoch room.

(** A room is created only while the server does not have it. *)
Definition first_creation (op : Operation) (w : ModelWorld) : bool :=
  match op with CreateRoom _ r => negb (ModelServer.room_exists r (server w)) | _ => true end.

Lemma absent_cview w i r : winv w → sview w r = None → cview w i r = None.
Proof.
  intros W E. apply eq_None_not_Some. rewrite (winv_agree _ W). unfold mems. rewrite E. apply not_elem_of_empty.
Qed.

Lemma create_epochs w c r :
  winv w → first_creation (CreateRoom c r) w = true → epochs_ok w → epochs_ok (snd (apply_create_room c r w)).
Proof.
  intros W Hf H. cbn in Hf. unfold ModelServer.room_exists in Hf. fold (sview w r) in Hf.
  assert (sview w r = None) as Er by (destruct (sview w r); [done|done]).
  unfold apply_create_room. destruct (client c w) as [cl|] eqn:Hcl; [|done].
  unfold ModelClient.create_room, ModelClient.enter. destruct (ModelClient.is_member r cl); cbn.
  { by rewrite put_client_same. }
  destruct (server_enter r c (server w)) as (Hp & Ho & Hr).
  intros i r' st room'. rewrite (enter_cview _ _ _ _ _ _ _ _ Hcl).
  destruct (decide (r' = r)) as [->|N].
  - unfold sview in *. cbn in Hr |- *. rewrite Hr, Er. case_decide; [by intros [= <-] [= <-]|].
    by rewrite absent_cview.
  - rewrite decide_False by naive_solver. unfold sview. cbn in Ho |- *. rewrite Ho by done. apply H.
Qed.

Lemma exit_epochs w c cl r :
  winv w → 0 ≤ c → client c w = Some cl → ModelClient.is_member r cl = true → epochs_ok w →
  epochs_ok (advance_all r (with_server (ModelServer.advance_epoch r (snd (ModelServer.remove_member r c (server w))))
    (put_client c (ModelClient.with_rooms (delete r (ModelClient.rooms cl)) cl) w))).
Proof.
  intros W Hc Hcl Hm H. destruct (sview_member _ _ _ _ W Hc Hcl Hm) as (room & E & Hin).
  destruct (server_exit r c (server w) room E Hin) as (Hp & Ho & Hr).
  intros i r' st room'. rewrite (exit_cview _ _ _ _ _ _ _ Hcl).
  change (sview (advance_all r (with_server ?s _)) r') with (ModelServer.rooms s !! r').
  destruct (decide (r' = r)) as [->|N].
  - destruct (decide (i = _)); [done|]. rewrite Hr. intros (st0 & E0 & ->)%fmap_Some.
    case_decide; [done|]. intros [= <-]. cbn. by rewrite (H _ _ _ _ E0 E).
  - rewrite Ho by done. apply H.
Qed.

Lemma add_epochs w a b r : winv w → 0 ≤ a → epochs_ok w → epochs_ok (snd (apply_add_member a b r w)).
Proof.
  intros W Ha H. unfold apply_add_member.
  destruct (client a w) as [cl|] eqn:Hcl; [|done].
  destruct (client b w) as [cl'|] eqn:Hcl'; [|done].
  destruct (ModelClient.is_member r cl) eqn:Hma; [|done].
  destruct (ModelClient.is_member r cl') eqn:Hm; [done|].
  destruct (sview_member _ _ _ _ W Ha Hcl Hma) as (room & E & _).
  fold (invited b r w). cbn [negb snd]. cbv zeta. rewrite (invited_client _ _ _ _ Hcl' Hm).
  intros i r' st room'. rewrite (add_cview _ _ _ _ _ _ _ Hcl' Hm).
  change (sview (put_client b _ ?w) r') with (sview w r'). rewrite invited_sview.
  destruct (decide (r' = r)) as [->|]; [|rewrite decide_False by naive_solver; apply H].
  rewrite E. case_decide; cbn.
  - intros [= <-] [= <-]. unfold sview in E. unfold ModelServer.room_epoch. cbn.
    by rewrite lookup_alter_eq, E.
  - intros (st0 & E0 & ->)%fmap_Some [= <-]. cbn. by rewrite (H _ _ _ _ E0 E).
Qed.

Lemma apply_epochs op w :
  op_ok op → winv w → first_creation op w = true → epochs_ok w → epochs_ok (snd (apply op w)).
Proof.
  intros Hok W Hs H. destruct op as [c r|c r m|c r|a b r|a b r|ms|]; cbn [op_ok] in Hok; destruct_and?; cbn [apply snd].
  - by apply create_epochs.
  - unfold apply_send_message. destruct (client c w); [|done]. case_match; [|done].
    unfold ModelServer.process_message.
    destruct (ModelServer.rooms (server w) !! r) as [room|] eqn:E; [|done].
    case_bool_decide; [|done]. intros i r' st room' Hc. unfold sview; cbn.
    destruct (decide (r' = r)) as [->|N].
    + rewrite lookup_insert_eq. intros [= <-]. exact (H i r st room Hc E).
    + rewrite lookup_insert_ne by done. exact (H i r' st room' Hc).
  - unfold apply_leave_room. destruct (client c w) as [cl|] eqn:Hcl; [|done].
    unfold ModelClient.leave_room. destruct (ModelClient.is_member r cl) eqn:Hm; [by apply (exit_epochs w c cl r)|].
    cbn. by rewrite put_client_same.
  - by apply add_epochs.
  - unfold apply_remove_member. destruct (client a w) as [cl|]; [|done].
    destruct (client b w) as [cl'|] eqn:Hcl'; [|done]. do 2 (case_match; [done|]).
    unfold ModelClient.leave_room. destruct (ModelClient.is_member r cl') eqn:Hm; [|done].
    by apply (exit_epochs w b cl' r).
  - done.
  - intros i r st room. rewrite deliver_pending_view by done. intros (st0 & E0 & ->)%fmap_Some.
    exact (H i r st0 room E0).
Qed.

(** Client and server agree on the epoch of every room, if rooms are created
    only while the server does not have them. *)
Theorem epochs_agree n ops c r :
  Forall op_ok ops → always first_creation ops (new n) = true → 0 ≤ c →
  let w := snd (run ops (new n)) in
  ∀ cl, client c w = Some cl → ModelClient.is_member r cl = true →
  ModelClient.client_epoch r cl = ModelServer.room_epoch r (server w).
Proof.
  intros Hok Hf Hc w cl Hcl Hm. pose proof (reached n ops Hok) as W. fold w in W.
  assert (epochs_ok w) as H.
  { refine (always_inv _ _ apply_epochs _ _ Hok (winv_new n) Hf _).
    intros i r' st room _ E. unfold sview in E; cbn in E. by rewrite lookup_empty in E. }
  destruct (sview_member _ _ _ _ W Hc Hcl Hm) as (room & E & _).
  apply bool_decide_eq_true in Hm as [st Hst]. unfold ModelClient.client_epoch, ModelServer.room_epoch.
  unfold sview in E. rewrite Hst, E. cbn. f_equal. apply (H (Z.to_nat c) r); [|done].
  by rewrite (client_cview _ _ _ _ Hcl).
Qed.

(** With a second creation they do not agree.  Client 2 creates a room that
    clients 0 and 1 already share in epoch 1: its creation succeeds and it
    becomes a member of that room on the server, in epoch 0 by its own account,
    and it receives what client 0 sends there. *)
Theorem second_creation_splits_epochs m :
  let w := snd (run [CreateRoom 0 1; AddMember 0 1 1] (new 3)) in
  let w1 := snd (apply (CreateRoom 2 1) w) in
  let w2 := snd (run [SendMessage 0 1 m; DeliverPending] w1) in
  fst (apply (CreateRoom 2 1) w) = ROk ∧
  client 2 w1 ≫= ModelClient.client_epoch 1 = Some 0 ∧
  ModelServer.room_epoch 1 (server w1) = Some 1 ∧
  client_messages 2 1 w2 =
    Some [{| ModelClient.sender_id := 0; ModelClient.content := SmallMessage.to_bytes m;
             ModelClient.log_index := 0; ModelClient.epoch := 1 |}].
Proof. split_and!; vm_compute; reflexivity. Qed.

(** *** The delivery queue *)
(** The messages sent with success since the last delivery. *)
Definition backlog_step (n : Z) (x : Operation * OperationResult) : Z :=
  match x with
  | (DeliverPending, _) => 0
  | (SendMessage _ _ _, ROk) => n + 1
  | _ => n
  end.
Definition backlog (ops : list Operation) (rs : list OperationResult) : Z := foldl backlog_step 0 (zip ops rs).

Lemma apply_pending op w :
  op_ok op → winv w →
  ModelServer.pending_count (server (snd (apply op w))) =
    backlog_step (ModelServer.pending_count (server w)) (op, fst (apply op w)).
Proof.
  intros Hok W. unfold ModelServer.pending_count.
  destruct op as [c r|c r m|c r|a b r|a b r|ms|]; cbn [op_ok] in Hok; destruct_and?; cbn [apply backlog_step].
  - exact (f_equal zlen (quiet_pending _ _ (model_create_quiet w c r))).
  - unfold apply_send_message. destruct (client c w); [|done]. case_match; [|done].
    unfold ModelServer.process_message. destruct (ModelServer.rooms (server w) !! r); [|done].
    case_bool_decide; [|done]. cbn. unfold zlen. rewrite length_app. cbn. lia.
  - exact (f_equal zlen (quiet_pending _ _ (model_leave_quiet w c r W ltac:(done)))).
  - exact (f_equal zlen (quiet_pending _ _ (model_add_quiet w a b r W ltac:(done)))).
  - exact (f_equal zlen (quiet_pending _ _ (model_remove_quiet w a b r W ltac:(done)))).
  - done.
  - done.
Qed.

Lemma run_pending ops : ∀ w,
  Forall op_ok ops → winv w →
  ModelServer.pending_count (server (snd (run ops w))) =
    foldl backlog_step (ModelServer.pending_count (server w)) (zip ops (fst (run ops w))).
Proof.
  induction ops as [|op ops IH]; intros w Hok W; [done|].
  apply Forall_cons in Hok as [Hop Hok].
  specialize (IH _ Hok (apply_winv _ _ Hop W)). rewrite apply_pending in IH by done.
  cbn. destruct (apply op w) as [res w']. cbn in *. destruct (run ops w') as [rs w'']. cbn in *. done.
Qed.

Lemma backlog_le ops : ∀ rs n, foldl backlog_step n (zip ops rs) ≤ Z.max 0 n + zlen ops.
Proof.
  unfold zlen. induction ops as [|op ops IH]; intros rs n; [cbn; lia|].
  destruct rs as [|res rs]; cbn [zip zip_with foldl length]; [lia|]. etransitivity; [apply IH|].
  destruct op, res; cbn; lia.
Qed.

(** The queue of pending deliveries holds exactly the messages sent with
    success since the last [DeliverPending], so the assertion that bounds it by
    [MAX_PENDING_DELIVERIES] holds at every send of a sequence with at most 999
    operations before it, and fails at the first send after 1000 successful ones
    without a delivery. *)
Theorem pending_queue_bound n ops :
  Forall op_ok ops →
  let out := run ops (new n) in
  ModelServer.pending_count (server (snd out)) = backlog ops (fst out) ∧
  (zlen ops < ModelServer.MAX_PENDING_DELIVERIES →
     ModelServer.process_message_debug_assert (server (snd out)) = true) ∧
  (ModelServer.MAX_PENDING_DELIVERIES ≤ backlog ops (fst out) →
     ModelServer.process_message_debug_assert (server (snd out)) = false).
Proof.
  intros Hok out. pose proof (run_pending ops (new n) Hok (winv_new n)) as E.
  pose proof (backlog_le ops (fst out) 0) as B. fold out (backlog ops (fst out)) in E, B.
  change (ModelServer.pending_count (server (new n))) with 0 in E. fold (backlog ops (fst out)) in E.
  unfold ModelServer.process_message_debug_assert, ModelServer.MAX_PENDING_DELIVERIES in *.
  rewrite E. split_and!; [done|intros; apply Z.ltb_lt; lia|intros; apply Z.ltb_ge; lia].
Qed.

(** *** The observable state *)
Lemma sort_ids_spec l : NoDup l → StronglySorted Z.lt (sort_ids l) ∧ ∀ x, x ∈ sort_ids l ↔ x ∈ l.
Proof.
  intros Hnd. unfold sort_ids.
  pose proof (StronglySorted_merge_sort Z.le l) as Hs. pose proof (merge_sort_Permutation Z.le l) as Hp.
  split; [|intros x; by rewrite Hp].
  rewrite <-Hp in Hnd. clear Hp. induction Hs as [|x xs Hs IH Hx]; [constructor|].
  apply NoDup_cons in Hnd as [Hni Hnd]. constructor; [auto|].
  rewrite Forall_forall in *. intros y Hy. specialize (Hx y Hy). assert (x ≠ y) by set_solver. lia.
Qed.

Lemma room_ids_NoDup cl : NoDup (ModelClient.room_ids cl).
Proof. unfold ModelClient.room_ids. apply NoDup_elements. Qed.

Lemma messages_of_elem get rs r ms : (r, ms) ∈ messages_of get rs ↔ r ∈ rs ∧ get r = Some ms.
Proof.
  unfold messages_of. rewrite list_elem_of_omap. split.
  - intros (r' & Hr & E). destruct (get r') eqn:Eg; cbn in E; [|done]. by simplify_eq.
  - intros [Hr E]. exists r. by rewrite E.
Qed.

(** The observable state shows everything the comparison needs: for every
    client its rooms in increasing order and for each the messages it has
    received, and for the server the log of every room it keeps, although rooms
    are collected from the clients. *)
Theorem observable_complete n ops :
  Forall op_ok ops →
  let w := snd (run ops (new n)) in
  let obs := observable_state w in
  (∀ i rs, obs_client_rooms obs !! i = Some rs →
     StronglySorted Z.lt rs ∧ ∀ r, r ∈ rs ↔ ModelServer.is_member r (Z.of_nat i) (server w) = true) ∧
  (∀ i l r ms, obs_client_messages obs !! i = Some l →
     (r, ms) ∈ l ↔ ∃ cl, clients w !! i = Some cl ∧ ModelClient.messages r cl = Some ms) ∧
  (∀ r ms, (r, ms) ∈ obs_server_messages obs ↔ ModelServer.messages r (server w) = Some ms).
Proof.
  intros Hok w obs. pose proof (reached n ops Hok) as W. fold w in W.
  assert (∀ i cl r, clients w !! i = Some cl → r ∈ ModelClient.room_ids cl ↔ Z.of_nat i ∈ mems w r) as Hids.
  { intros i cl r Hi. unfold ModelClient.room_ids. rewrite elem_of_elements, elem_of_dom.
    rewrite <-(winv_agree _ W). unfold cview. by rewrite Hi. }
  assert (∀ i r, ModelServer.is_member r i (server w) = true ↔ i ∈ mems w r) as Hmem.
  { intros i r. unfold ModelServer.is_member, mems, sview. case_match; [by rewrite bool_decide_eq_true|].
    split; [done|by intros []%elem_of_empty]. }
  split_and!.
  - intros i rs Hrs. cbn in Hrs. apply list_lookup_fmap_Some in Hrs as (cl & -> & Hi).
    destruct (sort_ids_spec (ModelClient.room_ids cl)) as [Hs Hx]; [apply room_ids_NoDup|].
    split; [done|]. intros r. by rewrite Hx, Hmem, (Hids i cl).
  - intros i l r ms Hl. cbn [obs observable_state obs_client_messages] in Hl. apply list_lookup_fmap_Some in Hl as (cl & -> & Hi).
    rewrite messages_of_elem, (proj2 (sort_ids_spec _ (room_ids_NoDup cl))).
    split; [intros [_ ?]; eauto|]. intros (cl' & Hi' & E). simplify_eq. split; [|done].
    unfold ModelClient.messages in E. unfold ModelClient.room_ids.
    rewrite elem_of_elements, elem_of_dom. by apply fmap_Some in E as (st & -> & _).
  - intros r ms. cbn [obs observable_state obs_server_messages]. rewrite messages_of_elem, (proj2 (sort_ids_spec _ (NoDup_elements _))).
    split; [by intros [_ ?]|]. intros E. split; [|done].
    rewrite elem_of_elements, elem_of_list_to_set, list_elem_of_bind.
    unfold ModelServer.messages in E. apply fmap_Some in E as (room & E & _).
    destruct (winv_room _ W _ _ E) as [[c Hc]%set_choose_L _].
    assert (c ∈ mems w r) as Hin by (unfold mems, sview; by rewrite E).
    pose proof (winv_valid _ W _ _ Hin) as [H0 H1]. unfold num_clients, zlen in H1.
    destruct (lookup_lt_is_Some_2 (clients w) (Z.to_nat c)) as [cl Hcl]; [lia|].
    exists cl. split; [|by eapply list_elem_of_lookup_2].
    apply (Hids _ _ _ Hcl). by rewrite Z2Nat.id.
Qed.

(** *** The order of recipients does not matter *)
Lemma deliver_to_comm r m cs a b :
  deliver_to r m (deliver_to r m cs a) b = deliver_to r m (deliver_to r m cs b) a.
Proof.
  destruct (decide (Z.to_nat a = Z.to_nat b)) as [E|N].
  { unfold deliver_to. by rewrite E. }
  assert (∀ x y, Z.to_nat x ≠ Z.to_nat y → deliver_to r m cs x !! Z.to_nat y = cs !! Z.to_nat y) as Hd.
  { intros x y Hxy. unfold deliver_to. repeat case_match; rewrite ?list_lookup_insert_ne; done. }
  unfold deliver_to at 1 3. rewrite !Hd by done. unfold deliver_to.
  destruct (cs !! Z.to_nat a) eqn:Ea, (cs !! Z.to_nat b) eqn:Eb; try done;
    repeat case_match; try done. by rewrite list_insert_insert_ne.
Qed.

(** Delivering a message to its recipients in any order gives the same clients:
    the iteration order of the member set is irrelevant. *)
Lemma deliver_order_irrelevant r m l l' :
  l ≡ₚ l' → ∀ cs, foldl (deliver_to r m) cs l = foldl (deliver_to r m) cs l'.
Proof.
  induction 1 as [|x l l' _ IH|x y l|l1 l2 l3 _ IH1 _ IH2]; intros cs; cbn; [done|apply IH| |].
  - by rewrite deliver_to_comm.
  - by rewrite IH1.
Qed.

(** ** Witnesses *)
Definition hello_message : SmallMessage := {| SmallMessage.seed := 250; SmallMessage.size_class := 5 |}.
Definition demo_ops : list Operation :=
  [CreateRoom 0 7; SendMessage 1 7 hello_message; AddMember 0 1 7; SendMessage 1 7 hello_message;
   DeliverPending; RemoveMember 1 0 7; SendMessage 1 7 hello_message; CreateRoom 1 7].
Lemma demo_ops_ok : Forall op_ok demo_ops.
Proof. repeat constructor; cbn; lia. Qed.

Lemma model_refines_membership_witness :
  fst (run demo_ops (new 2)) = fst (Spec.run 2 demo_ops ∅) ∧
  ∀ c cl r, 0 ≤ c → client c (snd (run demo_ops (new 2))) = Some cl →
    ModelClient.is_member r cl = inside c r (snd (Spec.run 2 demo_ops ∅)).
Proof. apply (model_refines_membership 2 demo_ops). exact demo_ops_ok. Defined.

Lemma model_invariants_witness :
  let w := snd (run demo_ops (new 2)) in
  ModelServer.messages 7 (server w) =
    Some ((λ i, {| ModelClient.sender_id := 1; ModelClient.content := SmallMessage.to_bytes hello_message;
                   ModelClient.log_index := i; ModelClient.epoch := i + 1 |}) <$> [0; 1]) ∧
  ∀ i cl r, clients w !! i = Some cl →
    ModelClient.is_member r cl = ModelServer.is_member r (Z.of_nat i) (server w).
Proof.
  split; [vm_compute; reflexivity|]. apply (model_invariants 2 demo_ops). exact demo_ops_ok.
Defined.

Lemma delivery_exact_witness :
  let w := snd (run (take 4 demo_ops) (new 2)) in
  cview (snd (apply DeliverPending w)) 1 7 = receive (inbox 1 7 (pending w)) <$> cview w 1 7.
Proof.
  apply (delivery_exact 2 (take 4 demo_ops)). apply Forall_take. exact demo_ops_ok.
Defined.

Lemma received_is_logged_witness :
  ∃ log ms, ModelServer.messages 7 (server (snd (run demo_ops (new 2)))) = Some log ∧ ms `sublist_of` log ∧
    length ms = 1%nat.
Proof.
  destruct (received_is_logged 2 demo_ops 1 7
    [{| ModelClient.sender_id := 1; ModelClient.content := SmallMessage.to_bytes hello_message;
        ModelClient.log_index := 0; ModelClient.epoch := 1 |}]) as (log & E & S & _).
  - exact demo_ops_ok.
  - vm_compute; reflexivity.
  - lia.
  - vm_compute; reflexivity.
  - eauto.
Defined.

Lemma epochs_agree_witness :
  let w := snd (run (take 7 demo_ops) (new 2)) in
  (client 1 w ≫= ModelClient.client_epoch 7) = ModelServer.room_epoch 7 (server w) ∧
  ModelServer.room_epoch 7 (server w) = Some 2.
Proof.
  split; [|vm_compute; reflexivity].
  refine (epochs_agree 2 (take 7 demo_ops) 1 7 _ _ _ _ _ _).
  - apply Forall_take. exact demo_ops_ok.
  - vm_compute; reflexivity.
  - lia.
  - vm_compute; reflexivity.
  - vm_compute; reflexivity.
Defined.

Lemma pending_queue_bound_witness :
  ModelServer.pending_count (server (snd (run demo_ops (new 2)))) = 1 ∧
  ModelServer.process_message_debug_assert (server (snd (run demo_ops (new 2)))) = true.
Proof.
  destruct (pending_queue_bound 2 demo_ops demo_ops_ok) as (E & A & _). split.
  - rewrite E. vm_compute; reflexivity.
  - apply A. unfold zlen; cbn. done.
Defined.

Lemma observable_complete_witness :
  (7, []) ∈ obs_server_messages (observable_state (snd (run [CreateRoom 0 7] (new 2)))).
Proof.
  apply (observable_complete 2 [CreateRoom 0 7]).
  - repeat constructor; cbn; lia.
  - vm_compute; reflexivity.
Defined.
End ModelTheorems.
