(* ===== verification/Conformance.v ===== *)
(** * The real client against the reference model

    [tests/model_based_test.rs] drives real clients ([RealWorld]) and the model of
    [Model.v] with the same operations and expects the same verdicts.  This file
    translates that wrapper and settles the expectation: for operations that do
    not change memberships of others it holds for every sequence
    ([client_matches_model]); with [AddMember] or [RemoveMember] it does not
    ([invited_client_diverges], [removed_client_diverges]), because the wrapper
    records those memberships without telling the client.

    Every client has an environment of its own; verdicts do not depend on the
    random bytes it supplies. *)

From Stdlib Require Import ZArith Lia.
From S2P Require Import Prelude Opcodes Header Frame Payload Connection SenderKeys SenderKeyStore MlsState Validator MlsGroup Client.
From S2P Require Import Model ModelTheory.
From stdpp Require Import gmap sets list.

#[local] Open Scope Z_scope.
#[local] Open Scope lockframe_scope.

Module RealWorld.
Import OperationError.

Section real.
Context `{PayloadCodec} `{Primitives} {T : Type} `{Environment T} `{OpenMls T} `{Ed25519}.

(** [struct RealWorld]: the clients and the wrapper's own table of members. *)
Record RealWorld : Type := {
  clients : list (Client.Client (T := T));
  room_membership : gmap (ClientId * ModelRoomId) bool }.

(** [RealWorld::new]: the clients' sender ids start at 1. *)
Definition new (num_clients : nat) (env : T) : RealWorld :=
  {| clients := (λ i, Client.new env {| Client.sender_id := Z.of_nat i + 1 |}) <$> seq 0 num_clients;
     room_membership := ∅ |}.

(** [self.room_membership.get(&(c, r)).copied().unwrap_or(false)]. *)
Definition recorded (c : ClientId) (r : ModelRoomId) (w : RealWorld) : bool :=
  default false (room_membership w !! (c, r)).
Definition record (c : ClientId) (r : ModelRoomId) (b : bool) (w : RealWorld) : RealWorld :=
  {| clients := clients w; room_membership := <[(c, r) := b]> (room_membership w) |}.
Definition known (c : ClientId) (w : RealWorld) : bool := bool_decide (is_Some (clients w !! Z.to_nat c)).

(** [room_id as u128 + 1]. *)
Definition real_room_id (r : ModelRoomId) : Z := r + 1.

(** A call of [Client::handle] on client [c], which the world knows. *)
Definition on_client (c : ClientId) (event : ClientEvent) (cl : Client.Client (T := T)) (w : RealWorld) :
    outcome ClientError (list ClientAction) * RealWorld :=
  let '(res, cl) := Client.handle event cl in
  (res, {| clients := <[Z.to_nat c := cl]> (clients w); room_membership := room_membership w |}).

Definition RealM := M RealWorld Empty_set OperationResult.

Definition apply_create_room (c : ClientId) (r : ModelRoomId) : RealM := λ w,
  match clients w !! Z.to_nat c with
  | None => (Ok (RError InvalidClient), w)
  | Some cl =>
      if recorded c r w then (Ok (RError RoomAlreadyExists), w)
      else
        match on_client c (CreateRoom (real_room_id r)) cl w with
        | (Ok _, w) => (Ok ROk, record c r true w)
        | (Err _, w) => (Ok (RError RoomAlreadyExists), w)
        | (Panic, w) => (Panic, w)
        end
  end.

Definition apply_send_message (c : ClientId) (r : ModelRoomId) (content : SmallMessage) : RealM := λ w,
  match clients w !! Z.to_nat c with
  | None => (Ok (RError InvalidClient), w)
  | Some cl =>
      if negb (recorded c r w) then (Ok (RError NotMember), w)
      else
        match on_client c (SendMessage (real_room_id r) (SmallMessage.to_bytes content)) cl w with
        | (Ok _, w) => (Ok ROk, w)
        | (Err _, w) => (Ok (RError NotMember), w)
        | (Panic, w) => (Panic, w)
        end
  end.

Definition apply_leave_room (c : ClientId) (r : ModelRoomId) : RealM := λ w,
  match clients w !! Z.to_nat c with
  | None => (Ok (RError InvalidClient), w)
  | Some cl =>
      if negb (recorded c r w) then (Ok (RError NotMember), w)
      else
        match on_client c (LeaveRoom (real_room_id r)) cl w with
        | (Ok _, w) => (Ok ROk, record c r false w)
        | (Err _, w) => (Ok (RError NotMember), w)
        | (Panic, w) => (Panic, w)
        end
  end.

Definition apply_add_member (inviter invitee : ClientId) (r : ModelRoomId) : RealM := λ w,
  if negb (known inviter w) then (Ok (RError InvalidClient), w)
  else if negb (known invitee w) then (Ok (RError InvalidClient), w)
  else if negb (recorded inviter r w) then (Ok (RError NotMember), w)
  else if recorded invitee r w then (Ok (RError AlreadyMember), w)
  else (Ok ROk, record invitee r true w).

Definition apply_remove_member (remover target : ClientId) (r : ModelRoomId) : RealM := λ w,
  if negb (known remover w) then (Ok (RError InvalidClient), w)
  else if negb (known target w) then (Ok (RError InvalidClient), w)
  else if remover =? target then (Ok (RError CannotRemoveSelf), w)
  else if negb (recorded remover r w) then (Ok (RError NotMember), w)
  else if negb (recorded target r w) then (Ok (RError NotMember), w)
  else (Ok ROk, record target r false w).

Definition apply (op : Operation) : RealM :=
  match op with
  | Operation.CreateRoom c r => apply_create_room c r
  | Operation.SendMessage c r content => apply_send_message c r content
  | Operation.LeaveRoom c r => apply_leave_room c r
  | Operation.AddMember a b r => apply_add_member a b r
  | Operation.RemoveMember a b r => apply_remove_member a b r
  | Operation.AdvanceTime _ | Operation.DeliverPending => mret ROk
  end.

(** The verdicts of a sequence of operations. *)
Fixpoint run (ops : list Operation) : M RealWorld Empty_set (list OperationResult) :=
  match ops with
  | [] => mret []
  | op :: ops => r ← apply op; rs ← run ops; mret (r :: rs)
  end.
End real.
Arguments RealWorld T {_}.
End RealWorld.
Export RealWorld (RealWorld).

Module Conformance.
Section conformance.
Context `{PayloadCodec} `{Primitives} {T : Type} `{Environment T} `{OpenMls T} `{Ed25519}.
Abbreviation RClient := (Client.Client (T := T)).

(** The calls into other crates when a room is created and when a message is
    sent succeed: keys and a group with its creator as a member are made, the
    new group's exporter works, messages are sealed and serialized. *)
Class SendTotal : Prop := {
  keypair_ok : ∀ t, ∃ kp t', keypair_new t = (Ok kp, t');
  group_new_ok : ∀ pr kp cred t, ∃ g t', group_new pr kp cred t = (Ok g, t') ∧
    own_leaf_index g ∈ map m_index (group_members g) ∧
    ∀ label x n, ∃ s, group_export_secret g label x n = Ok s;
  serialize_ok : ∀ m : app.EncryptedMessage, ∃ b, cbor_ser m = Ok b;
  seal_ok : ∀ k n p, ∃ c, aead_encrypt k n p = Some c }.
Context `{!SendTotal}.

(** The room's own sender key is there and has been used [g ≤ k] times. *)
Definition usable (k : Z) (room : Client.RoomState (T := T)) : Prop :=
  let store := Client.sender_keys room in let me := Client.my_leaf_index room in
  ∃ secret g, 0 ≤ g ≤ k ∧
    SenderKeyStore.ratchets store !! me =
      Some (SymmetricRatchet.at_gen (SenderKeyStore.seed_of secret store me) g).

Lemma usable_le k k' room : k ≤ k' → usable k room → usable k' room.
Proof. intros ? (secret & g & ? & ?). exists secret, g. split; [lia|done]. Qed.

Lemma create_ok id (cl : RClient) :
  Client.is_member id cl = false →
  ∃ acts room, Client.handle (CreateRoom id) cl
    = (Ok acts, Client.with_rooms (<[id := room]> (Client.rooms cl)) cl) ∧ usable 0 room.
Proof.
  intros Hm. cbn. unfold Client.handle_create_room, MlsGroup.new, Client.initialize_sender_keys. munfold.
  rewrite Hm. destruct (keypair_ok (Client.env cl)) as (kp & t & ->). munfold.
  destruct (group_new_ok provider_default kp (to_le_bytes 8 (Client.client_sender_id cl)) t)
    as (g & t' & -> & Hleaf & Hexp). munfold.
  unfold MlsGroup.export_state, MlsGroup.export_secret; cbn.
  destruct (Hexp Client.SENDER_KEY_LABEL Client.SENDER_KEY_CONTEXT Client.SENDER_KEY_SECRET_SIZE) as (s1 & ->).
  munfold. destruct (Hexp "group_state"%string [] 64) as (s2 & ->). cbn.
  eexists _, _. split; [done|]. exists s1, 0. split; [lia|]. unfold Client.new_room.
  cbn [Client.sender_keys Client.my_leaf_index].
  rewrite SenderKeyStore.initialize_epoch_lookup, bool_decide_true; [done|]. exact Hleaf.
Qed.

Lemma send_ok k id p (cl : RClient) room :
  Client.rooms cl !! id = Some room → usable k room → k < U32_MAX →
  ∃ acts cl' room', Client.handle (SendMessage id p) cl = (Ok acts, cl') ∧
    Client.rooms cl' = <[id := room']> (Client.rooms cl) ∧ usable (k + 1) room'.
Proof.
  intros Hr (secret & g & Hg & Hk) Hlt. cbn. unfold Client.handle_send_message, Client.get_room, Client.env_random.
  munfold. rewrite Hr. cbn.
  destruct (Environment.random_bytes _ _) as [rnd e]. cbn. unfold Client.on_room; cbn. rewrite Hr.
  unfold Client.send_in_room, Client.on_keys. munfold.
  rewrite (SenderKeyStore.encrypt_at secret _ _ g) by (done || lia).
  unfold encryption.encrypt_message.
  destruct (seal_ok (MessageKey.key (SymmetricRatchet.key_at (SenderKeyStore.seed_of secret (Client.sender_keys room)
      (Client.my_leaf_index room)) g)) (encryption.build_nonce (SenderKeyStore.epoch (Client.sender_keys room))
      (Client.my_leaf_index room) (MessageKey.generation (SymmetricRatchet.key_at (SenderKeyStore.seed_of secret
      (Client.sender_keys room) (Client.my_leaf_index room)) g)) rnd) p) as (ct & ->). cbn.
  unfold Client.serialize_encrypted_message.
  match goal with |- context [cbor_ser ?m] => destruct (serialize_ok m) as (b & ->) end. cbn.
  eexists _, _, _. split; [done|]. split; [done|]. exists secret, (g + 1). split; [lia|]. cbn.
  by rewrite lookup_insert_eq.
Qed.

Lemma leave_ok id (cl : RClient) room :
  Client.rooms cl !! id = Some room →
  ∃ acts, Client.handle (LeaveRoom id) cl
    = (Ok acts, Client.with_rooms (delete id (Client.rooms cl)) cl).
Proof.
  intros Hr. cbn. unfold Client.handle_leave_room, Client.is_member. munfold.
  rewrite bool_decide_true by (rewrite Hr; eauto). cbn. eauto.
Qed.

(** The wrapper's table and the rooms of the real clients are the relation
    [mem], and every room is usable. *)
Record sim (n : nat) (k : Z) (w : RealWorld T) (mem : Spec.rel) : Prop := {
  sim_len : length (RealWorld.clients w) = n;
  sim_recorded : ∀ c r, RealWorld.recorded c r w = Spec.inside c r mem;
  sim_rooms : ∀ i cl r, RealWorld.clients w !! i = Some cl → 0 ≤ r →
    Client.is_member (RealWorld.real_room_id r) cl = Spec.inside (Z.of_nat i) r mem;
  sim_usable : ∀ i cl id room, RealWorld.clients w !! i = Some cl → Client.rooms cl !! id = Some room →
    usable k room }.

Lemma sim_le n k k' w mem : k ≤ k' → sim n k w mem → sim n k' w mem.
Proof. intros Hk [L R Rm U]. split; eauto using usable_le. Qed.

Lemma sim_new n e : sim n 0 (RealWorld.new n e) ∅.
Proof.
  split.
  - cbn. by rewrite length_fmap, length_seq.
  - intros c r. unfold RealWorld.recorded; cbn. rewrite lookup_empty.
    unfold Spec.inside. rewrite bool_decide_false; [done|]. apply not_elem_of_empty.
  - intros i cl r Hi _. cbn in Hi. apply list_lookup_fmap_Some in Hi as (j & -> & _).
    unfold Client.is_member, Spec.inside; cbn. rewrite lookup_empty.
    rewrite !bool_decide_false; [done|apply not_elem_of_empty|by intros []].
  - intros i cl id room Hi. cbn in Hi. apply list_lookup_fmap_Some in Hi as (j & -> & _).
    cbn. by rewrite lookup_empty.
Qed.

Lemma recorded_record c r b c' r' (w : RealWorld T) :
  RealWorld.recorded c' r' (RealWorld.record c r b w) =
    if decide ((c', r') = (c, r)) then b else RealWorld.recorded c' r' w.
Proof.
  unfold RealWorld.recorded, RealWorld.record; cbn. case_decide as E.
  - injection E as -> ->. by rewrite lookup_insert_eq.
  - by rewrite lookup_insert_ne.
Qed.

Lemma inside_add (c r c' r' : Z) (mem : Spec.rel) :
  Spec.inside c' r' ({[ (c, r) ]} ∪ mem) = if decide ((c', r') = (c, r)) then true else Spec.inside c' r' mem.
Proof. unfold Spec.inside. case_decide; case_bool_decide; [done|set_solver| |]; case_bool_decide; set_solver. Qed.
Lemma inside_del (c r c' r' : Z) (mem : Spec.rel) :
  Spec.inside c' r' (mem ∖ {[ (c, r) ]}) = if decide ((c', r') = (c, r)) then false else Spec.inside c' r' mem.
Proof. unfold Spec.inside. case_decide; case_bool_decide; [set_solver|done| |]; case_bool_decide; set_solver. Qed.

(** Client [c] gets the rooms [rs] and the world records [b] about room [r]. *)
Lemma sim_step n k w mem mem' c r (cl cl' : RClient) (b : bool) m' :
  sim n k w mem → 0 ≤ c → 0 ≤ r → RealWorld.clients w !! Z.to_nat c = Some cl →
  (∀ c' r', Spec.inside c' r' mem' = if decide ((c', r') = (c, r)) then b else Spec.inside c' r' mem) →
  (∀ c' r', default false (m' !! (c', r')) = if decide ((c', r') = (c, r)) then b else RealWorld.recorded c' r' w) →
  (∀ id, is_Some (Client.rooms cl' !! id) ↔
     if decide (id = RealWorld.real_room_id r) then b = true else is_Some (Client.rooms cl !! id)) →
  (∀ id room, Client.rooms cl' !! id = Some room → usable (k + 1) room) →
  sim n (k + 1) {| RealWorld.clients := <[Z.to_nat c := cl']> (RealWorld.clients w); RealWorld.room_membership := m' |} mem'.
Proof.
  intros [L R Rm U] Hc Hr Hcl Hin Hrec Hrooms Hus.
  pose proof (lookup_lt_Some _ _ _ Hcl) as Hlt. split.
  - cbn. by rewrite length_insert.
  - intros c' r'. unfold RealWorld.recorded at 1; cbn. rewrite Hrec, Hin. case_decide; auto.
  - intros i cl0 r' Hi Hr'. cbn in Hi. rewrite Hin. destruct (decide (i = Z.to_nat c)) as [->|N].
    + rewrite list_lookup_insert_eq in Hi by done. injection Hi as <-. rewrite Z2Nat.id by done.
      specialize (Rm _ _ r' Hcl Hr'). rewrite Z2Nat.id in Rm by done. unfold Client.is_member in *.
      specialize (Hrooms (RealWorld.real_room_id r')). unfold RealWorld.real_room_id in *.
      destruct (decide (r' = r)) as [->|Nr].
      * rewrite !decide_True in * by done. rewrite (bool_decide_ext _ _ Hrooms). by destruct b.
      * rewrite decide_False in Hrooms by lia. rewrite decide_False by congruence.
        by rewrite (bool_decide_ext _ _ Hrooms).
    + rewrite list_lookup_insert_ne in Hi by done. rewrite decide_False by (intros [= <- _]; lia). by apply Rm.
  - intros i cl0 id room Hi Hroom. cbn in Hi. destruct (decide (i = Z.to_nat c)) as [->|N].
    + rewrite list_lookup_insert_eq in Hi by done. injection Hi as <-. eauto.
    + rewrite list_lookup_insert_ne in Hi by done. eapply usable_le; [|by eapply U]. lia.
Qed.

(** Operations on one's own rooms. *)
Definition plain (op : Operation) : bool :=
  match op with Operation.AddMember _ _ _ | Operation.RemoveMember _ _ _ => false | _ => true end.

Lemma known_real n k w mem c :
  sim n k w mem → Spec.known n c = bool_decide (is_Some (RealWorld.clients w !! Z.to_nat c)).
Proof. intros S. unfold Spec.known. apply bool_decide_ext. rewrite lookup_lt_is_Some, (sim_len _ _ _ _ S). done. Qed.

Lemma plain_step n k w mem op :
  Spec.op_ok op → plain op = true → sim n k w mem → 0 ≤ k < U32_MAX →
  ∃ w', RealWorld.apply op w = (Ok (fst (Spec.apply n op mem)), w') ∧
    sim n (k + 1) w' (snd (Spec.apply n op mem)).
Proof.
  intros Hok Hp S Hk. pose proof (sim_le n k (k + 1) w mem ltac:(lia) S) as S1.
  destruct op as [c r|c r m|c r|a b r|a b r|ms|]; try done; cbn [Spec.op_ok] in Hok; destruct_and?;
    cbn [RealWorld.apply Spec.apply]; [| | |by eexists|by eexists].
  - unfold RealWorld.apply_create_room. rewrite (known_real _ _ _ _ c S), (sim_recorded _ _ _ _ S).
    destruct (RealWorld.clients w !! Z.to_nat c) as [cl|] eqn:Hcl; cbn; [|by eexists].
    pose proof (sim_rooms _ _ _ _ S _ _ r Hcl ltac:(done)) as Hm. rewrite Z2Nat.id in Hm by done.
    destruct (Spec.inside c r mem) eqn:Hi; [by eexists|].
    destruct (create_ok (RealWorld.real_room_id r) cl Hm) as (acts & room & E & Hu).
    unfold RealWorld.on_client. rewrite E. eexists. split; [done|].
    apply (sim_step n k w mem ({[ (c, r) ]} ∪ mem) c r cl _ true); auto using inside_add.
    + intros c' r'. exact (recorded_record c r true c' r' w).
    + intros id. cbn. case_decide; [subst; by rewrite lookup_insert_eq|]. by rewrite lookup_insert_ne.
    + intros id room'. cbn. rewrite lookup_insert_Some. intros [[<- <-]|[_ Hr]].
      * eapply usable_le; [|done]. lia.
      * eapply (sim_usable _ _ _ _ S1); eauto.
  - unfold RealWorld.apply_send_message. rewrite (known_real _ _ _ _ c S), (sim_recorded _ _ _ _ S).
    destruct (RealWorld.clients w !! Z.to_nat c) as [cl|] eqn:Hcl; cbn; [|by eexists].
    pose proof (sim_rooms _ _ _ _ S _ _ r Hcl ltac:(done)) as Hm. rewrite Z2Nat.id in Hm by done.
    destruct (Spec.inside c r mem) eqn:Hi; cbn; [|by eexists].
    apply bool_decide_eq_true in Hm as [room Hroom].
    destruct (send_ok k _ (SmallMessage.to_bytes m) cl room Hroom (sim_usable _ _ _ _ S _ _ _ _ Hcl Hroom) ltac:(lia))
      as (acts & cl' & room' & E & Hrooms & Hu).
    unfold RealWorld.on_client. rewrite E. eexists. split; [done|].
    apply (sim_step n k w mem mem c r cl cl' true); auto.
    + intros c' r'. case_decide as D; [by injection D as -> ->|done].
    + intros c' r'. case_decide as D; [|done]. injection D as -> ->.
      transitivity (RealWorld.recorded c r w); [done|]. by rewrite (sim_recorded _ _ _ _ S).
    + intros id. rewrite Hrooms. case_decide; [subst; by rewrite lookup_insert_eq|]. by rewrite lookup_insert_ne.
    + intros id room0. rewrite Hrooms, lookup_insert_Some. intros [[<- <-]|[_ Hr]]; [done|].
      eapply (sim_usable _ _ _ _ S1); eauto.
  - unfold RealWorld.apply_leave_room. rewrite (known_real _ _ _ _ c S), (sim_recorded _ _ _ _ S).
    destruct (RealWorld.clients w !! Z.to_nat c) as [cl|] eqn:Hcl; cbn; [|by eexists].
    pose proof (sim_rooms _ _ _ _ S _ _ r Hcl ltac:(done)) as Hm. rewrite Z2Nat.id in Hm by done.
    destruct (Spec.inside c r mem) eqn:Hi; cbn; [|by eexists].
    apply bool_decide_eq_true in Hm as [room Hroom].
    destruct (leave_ok _ cl room Hroom) as (acts & E).
    unfold RealWorld.on_client. rewrite E. eexists. split; [done|].
    apply (sim_step n k w mem (mem ∖ {[ (c, r) ]}) c r cl _ false); auto using inside_del.
    + intros c' r'. exact (recorded_record c r false c' r' w).
    + intros id. cbn. case_decide; [subst; rewrite lookup_delete_eq; by split; [intros []|]|]. by rewrite lookup_delete_ne.
    + intros id room'. cbn. rewrite lookup_delete_Some. intros [_ Hr]. eapply (sim_usable _ _ _ _ S1); eauto.
Qed.

Lemma plain_run n ops : ∀ k w mem,
  Forall Spec.op_ok ops → Forall (λ op, plain op = true) ops → sim n k w mem → 0 ≤ k → k + zlen ops < U32_MAX →
  ∃ w', RealWorld.run ops w = (Ok (fst (Spec.run n ops mem)), w') ∧
    sim n (k + zlen ops) w' (snd (Spec.run n ops mem)).
Proof.
  unfold zlen. induction ops as [|op ops IH]; intros k w mem Hok Hp S Hk Hlen.
  { exists w. split; [done|]. eapply sim_le; [|done]. cbn. lia. }
  apply Forall_cons in Hok as [Hop Hok]. apply Forall_cons in Hp as [Hp1 Hp].
  destruct (plain_step n k w mem op Hop Hp1 S) as (w1 & E1 & S1); [cbn [length] in Hlen; lia|].
  destruct (IH (k + 1) w1 _ Hok Hp S1) as (w2 & E2 & S2); [lia|cbn [length] in Hlen; lia|].
  cbn [RealWorld.run Spec.run]. destruct (Spec.apply n op mem) as [res mem1]. cbn [fst snd] in *.
  destruct (Spec.run n ops mem1) as [rs mem2]. cbn [fst snd] in *.
  exists w2. munfold. rewrite E1, E2. split; [done|]. eapply sim_le; [|done]. cbn [length]. lia.
Qed.

(** C14: real clients conform to the reference model: for every sequence of
    creations, messages and departures, the verdicts of the real clients are the
    model's verdicts, errors included, and afterwards each real client is in
    exactly the rooms that its model counterpart is in.  The bound is the number
    of messages a sender key can encrypt. *)
Theorem client_matches_model n e ops :
  Forall Spec.op_ok ops → Forall (λ op, plain op = true) ops → zlen ops < U32_MAX →
  let real := RealWorld.run ops (RealWorld.new n e) in
  let model := ModelWorld.run ops (ModelWorld.new n) in
  fst real = Ok (fst model) ∧
  ∀ i cl mcl r, RealWorld.clients (snd real) !! i = Some cl →
    ModelWorld.clients (snd model) !! i = Some mcl → 0 ≤ r →
    Client.is_member (RealWorld.real_room_id r) cl = ModelClient.is_member r mcl.
Proof.
  intros Hok Hp Hlen real model.
  destruct (plain_run n ops 0 _ _ Hok Hp (sim_new n e)) as (w' & E & S); [lia|lia|].
  destruct (ModelTheorems.run_refines n ops (ModelWorld.new n) ∅) as (Em & W & R & L);
    auto using ModelInvariant.winv_new, ModelInvariant.rep_new.
  { cbn. by rewrite length_fmap, length_seq. }
  unfold real, model. rewrite E, Em. split; [done|]. intros i cl mcl r Hi Hmi Hr. cbn [snd] in Hi.
  rewrite (sim_rooms _ _ _ _ S _ _ r Hi Hr).
  apply (ModelInvariant.inside_client _ _ _ _ r W R); [lia|]. unfold ModelWorld.client. by rewrite Nat2Z.id.
Qed.

(** *** Where they part *)
Lemma new_client n e c : 0 ≤ c < Z.of_nat n →
  RealWorld.clients (RealWorld.new n e) !! Z.to_nat c = Some (Client.new e {| Client.sender_id := c + 1 |}).
Proof.
  intros Hc. cbn. rewrite list_lookup_fmap, lookup_seq_lt by lia. cbn. by rewrite Z2Nat.id by lia.
Qed.

Lemma model_verdicts n ops :
  Forall Spec.op_ok ops → fst (ModelWorld.run ops (ModelWorld.new n)) = fst (Spec.run n ops ∅).
Proof.
  intros Hok. apply ModelTheorems.run_refines; auto using ModelInvariant.winv_new, ModelInvariant.rep_new.
  cbn. by rewrite length_fmap, length_seq.
Qed.

(** The world after client [a] has created room [r]. *)
Lemma first_create n e a r :
  0 ≤ a < Z.of_nat n → 0 ≤ r →
  ∃ cl, RealWorld.apply (Operation.CreateRoom a r) (RealWorld.new n e) =
    (Ok ROk, RealWorld.record a r true
       {| RealWorld.clients := <[Z.to_nat a := cl]> (RealWorld.clients (RealWorld.new n e));
          RealWorld.room_membership := ∅ |}).
Proof.
  intros Ha Hr. cbn. unfold RealWorld.apply_create_room. rewrite new_client by done.
  unfold RealWorld.recorded; cbn. rewrite lookup_empty; cbn. unfold RealWorld.on_client.
  destruct (create_ok (RealWorld.real_room_id r) (Client.new e {| Client.sender_id := a + 1 |})) as (acts & room & -> & _).
  { unfold Client.is_member; cbn. rewrite lookup_empty. by apply bool_decide_eq_false; intros []. }
  by eexists.
Qed.

Lemma inside_empty c r : Spec.inside c r ∅ = false.
Proof. unfold Spec.inside. apply bool_decide_eq_false, not_elem_of_empty. Qed.
Lemma known_true n c : 0 ≤ c < Z.of_nat n → Spec.known n c = true.
Proof. intros. unfold Spec.known. apply bool_decide_eq_true. lia. Qed.
Lemma pair_ne (a b r : Z) : a ≠ b → (b, r) ≠ (a, r).
Proof. intros N [= E]. by apply N. Qed.

(** Evaluates the abstract relation along a sequence of operations. *)
Ltac spec_eval :=
  cbn; repeat (first
    [ rewrite known_true by done | rewrite inside_empty | rewrite inside_add | rewrite inside_del
    | rewrite (decide_True (P := _ = _)) by done | rewrite (decide_False (P := _ = _)) by auto using pair_ne ]; cbn).

(** A client that was invited only on paper cannot send.  After [AddMember]
    the model lets the new member send, while the wrapper has only noted the
    membership: the real client has no such room and refuses. *)
Theorem invited_client_diverges n e a b r m :
  0 ≤ a < Z.of_nat n → 0 ≤ b < Z.of_nat n → a ≠ b → Z.of_nat n ≤ U8_MOD → 0 ≤ r < U8_MOD →
  let ops := [Operation.CreateRoom a r; Operation.AddMember a b r; Operation.SendMessage b r m] in
  fst (ModelWorld.run ops (ModelWorld.new n)) = [ROk; ROk; ROk] ∧
  fst (RealWorld.run ops (RealWorld.new n e)) = Ok [ROk; ROk; RError OperationError.NotMember].
Proof.
  intros Ha Hb Hab Hn Hr ops. split.
  - rewrite model_verdicts by (repeat constructor; cbn; lia). by spec_eval.
  - destruct (first_create n e a r) as (cl & E); [done|lia|].
    cbn [ops RealWorld.run]. munfold. rewrite E. cbn [RealWorld.apply].
    unfold RealWorld.apply_add_member, RealWorld.known. cbn [RealWorld.clients RealWorld.record].
    rewrite list_lookup_insert_eq by (cbn; rewrite length_fmap, length_seq; lia).
    rewrite list_lookup_insert_ne, new_client by lia. rewrite !bool_decide_true by eauto. cbn [negb].
    rewrite !recorded_record, decide_True, decide_False by auto using pair_ne. cbn [negb].
    unfold RealWorld.recorded at 1. cbn [RealWorld.room_membership]. rewrite lookup_empty. cbn [default].
    unfold RealWorld.apply_send_message. cbn [RealWorld.clients RealWorld.record].
    rewrite list_lookup_insert_ne, new_client by lia. rewrite recorded_record, decide_True by done. cbn [negb].
    unfold RealWorld.on_client. cbn. done.
Qed.

(** Nor does a client that was removed only on paper leave.  After
    [RemoveMember] the model lets the removed client create the room again, while
    the real client still has the room and refuses. *)
Theorem removed_client_diverges n e a b r :
  0 ≤ a < Z.of_nat n → 0 ≤ b < Z.of_nat n → a ≠ b → Z.of_nat n ≤ U8_MOD → 0 ≤ r < U8_MOD →
  let ops := [Operation.CreateRoom a r; Operation.CreateRoom b r; Operation.RemoveMember a b r;
              Operation.CreateRoom b r] in
  fst (ModelWorld.run ops (ModelWorld.new n)) = [ROk; ROk; ROk; ROk] ∧
  fst (RealWorld.run ops (RealWorld.new n e)) = Ok [ROk; ROk; ROk; RError OperationError.RoomAlreadyExists].
Proof.
  intros Ha Hb Hab Hn Hr ops. split.
  - rewrite model_verdicts by (repeat constructor; cbn; lia).
    spec_eval. rewrite (proj2 (Z.eqb_neq a b)) by done. by spec_eval.
  - destruct (plain_step n 0 (RealWorld.new n e) ∅ (Operation.CreateRoom a r)) as (w1 & E1 & S1);
      [cbn; lia|done|apply sim_new|lia|].
    assert (Spec.apply n (Operation.CreateRoom a r) ∅ = (ROk, {[ (a, r) ]} ∪ ∅)) as A1 by by spec_eval.
    rewrite A1 in E1, S1. cbn [fst snd] in *.
    destruct (plain_step n (0 + 1) w1 ({[ (a, r) ]} ∪ ∅) (Operation.CreateRoom b r)) as (w & E2 & S);
      [cbn; lia|done|done|lia|].
    assert (Spec.apply n (Operation.CreateRoom b r) ({[ (a, r) ]} ∪ ∅) = (ROk, {[ (b, r) ]} ∪ ({[ (a, r) ]} ∪ ∅)))
      as A2 by by spec_eval.
    rewrite A2 in E2, S. cbn [fst snd] in *. cbn [ops RealWorld.run]. munfold. rewrite E1, E2.
    pose proof (λ c, known_real _ _ _ _ c S) as Hk.
    assert (∃ cl, RealWorld.clients w !! Z.to_nat b = Some cl) as [cl Hcl].
    { specialize (Hk b). rewrite known_true in Hk by done. symmetry in Hk. by apply bool_decide_eq_true in Hk. }
    pose proof (sim_rooms _ _ _ _ S _ _ r Hcl ltac:(lia)) as Hm.
    rewrite Z2Nat.id in Hm by lia. rewrite inside_add, decide_True in Hm by done.
    cbn [RealWorld.apply]. unfold RealWorld.apply_remove_member, RealWorld.known.
    rewrite <-!Hk, !known_true, (proj2 (Z.eqb_neq a b)) by done. cbn [negb].
    rewrite !(sim_recorded _ _ _ _ S).
    assert (∀ c, c = a ∨ c = b → Spec.inside c r ({[ (b, r) ]} ∪ ({[ (a, r) ]} ∪ ∅)) = true) as Hin.
    { intros c [-> | ->]; by spec_eval. }
    rewrite !Hin by auto. cbn [negb]. unfold RealWorld.apply_create_room. cbn [RealWorld.clients RealWorld.record].
    rewrite Hcl, recorded_record, decide_True by done. unfold RealWorld.on_client. cbn.
    unfold Client.handle_create_room. munfold. by rewrite Hm.
Qed.
End conformance.
End Conformance.

(** ** Witnesses *)
Section conformance_witnesses.
#[local] Existing Instances ToyClient.codec ToyPrimitives.prims ToyMls.ops ToyClient.ed.
Import Conformance.

Lemma toy_send_total : SendTotal (T := ToyEnv.T) (H1 := ToyMls.ops _).
Proof.
  split; try (cbn; by eauto). intros pr kp cred t. cbn. eexists _, _. split; [done|]. cbn.
  split; [apply list_elem_of_here|eauto].
Qed.
#[local] Existing Instance toy_send_total.

Definition plain_demo : list Operation :=
  [Operation.CreateRoom 0 7; Operation.SendMessage 0 7 ModelTheorems.hello_message; Operation.CreateRoom 0 7;
   Operation.SendMessage 1 7 ModelTheorems.hello_message; Operation.LeaveRoom 0 7; Operation.LeaveRoom 9 7].

Lemma client_matches_model_witness :
  fst (RealWorld.run plain_demo (RealWorld.new 2 (0, 0))) =
  Ok [ROk; ROk; RError OperationError.RoomAlreadyExists; RError OperationError.NotMember; ROk;
      RError OperationError.InvalidClient].
Proof.
  destruct (client_matches_model 2 (0, 0) plain_demo) as [E _].
  - repeat constructor; cbn; lia.
  - by repeat constructor.
  - unfold zlen; cbn; lia.
  - exact E.
Defined.

Lemma invited_client_diverges_witness :
  fst (RealWorld.run [Operation.CreateRoom 0 7; Operation.AddMember 0 1 7;
                      Operation.SendMessage 1 7 ModelTheorems.hello_message] (RealWorld.new 2 (0, 0))) =
  Ok [ROk; ROk; RError OperationError.NotMember].
Proof. apply (invited_client_diverges 2 (0, 0) 0 1 7); cbn; lia. Defined.

Lemma removed_client_diverges_witness :
  fst (RealWorld.run [Operation.CreateRoom 0 7; Operation.CreateRoom 1 7; Operation.RemoveMember 0 1 7;
                      Operation.CreateRoom 1 7] (RealWorld.new 2 (0, 0))) =
  Ok [ROk; ROk; ROk; RError OperationError.RoomAlreadyExists].
Proof. apply (removed_client_diverges 2 (0, 0) 0 1 7); cbn; lia. Defined.
End conformance_witnesses.
