(* ===== verification/Scenario.v ===== *)
(** * Scenarios of the harness ([lockframe-harness/src/scenario/])

    A scenario runs a handshake between two connections, lets time pass, and asks
    an oracle about the result ([world.rs], [builder.rs], [oracle.rs]); the actors
    of [actor.rs] run the same handshake step by step.  The file translates them
    and determines the outcome of every scenario. *)

From Stdlib Require Import ZArith Lia.
From S2P Require Import Prelude Opcodes Header Frame Payload Connection.

Module World.
Import Connection ConnectionState.

(** A rate is kept by the bits of its [f64]. *)
Inductive NetworkEvent : Type :=
| Partition
| PartitionHealed
| PacketLoss (rate : Z)
| Latency (min_ms max_ms : Z).

Record World : Type := {
  client : option Connection;
  server : option Connection;
  client_frames_sent : Z;
  client_frames_received : Z;
  server_frames_sent : Z;
  server_frames_received : Z;
  network_events : list NetworkEvent }.

Definition new : World :=
  {| client := None; server := None; client_frames_sent := 0; client_frames_received := 0;
     server_frames_sent := 0; server_frames_received := 0; network_events := [] |}.

Definition with_client (c : option Connection) (w : World) : World :=
  {| client := c; server := server w; client_frames_sent := client_frames_sent w;
     client_frames_received := client_frames_received w; server_frames_sent := server_frames_sent w;
     server_frames_received := server_frames_received w; network_events := network_events w |}.
Definition with_server (c : option Connection) (w : World) : World :=
  {| client := client w; server := c; client_frames_sent := client_frames_sent w;
     client_frames_received := client_frames_received w; server_frames_sent := server_frames_sent w;
     server_frames_received := server_frames_received w; network_events := network_events w |}.
(** The four counters at once. *)
Definition with_counts (cs cr ss sr : Z) (w : World) : World :=
  {| client := client w; server := server w; client_frames_sent := cs; client_frames_received := cr;
     server_frames_sent := ss; server_frames_received := sr; network_events := network_events w |}.

Abbreviation WorldM := (M World string).

(** [set_client] and [set_server] assert that the side is not set yet. *)
Definition set_client (c : Connection) : WorldM unit := λ w,
  match client w with None => (Ok tt, with_client (Some c) w) | Some _ => (Panic, w) end.
Definition set_server (c : Connection) : WorldM unit := λ w,
  match server w with None => (Ok tt, with_server (Some c) w) | Some _ => (Panic, w) end.

(** [client()] and [server()]: [expect] that the side is set. *)
Definition get_client (w : World) : outcome string Connection :=
  match client w with Some c => Ok c | None => Panic end.
Definition get_server (w : World) : outcome string Connection :=
  match server w with Some c => Ok c | None => Panic end.

(** A method called on [client_mut()] or [server_mut()], its result returned as a
    value. *)
Definition on_client {E A} (m : M Connection E A) : WorldM (outcome E A) := λ w,
  match client w with
  | None => (Panic, w)
  | Some c => match m c with (Panic, c) => (Panic, with_client (Some c) w) | (r, c) => (Ok r, with_client (Some c) w) end
  end.
Definition on_server {E A} (m : M Connection E A) : WorldM (outcome E A) := λ w,
  match server w with
  | None => (Panic, w)
  | Some c => match m c with (Panic, c) => (Panic, with_server (Some c) w) | (r, c) => (Ok r, with_server (Some c) w) end
  end.

Definition record_client_frame_sent (w : World) : World :=
  with_counts (client_frames_sent w ⊕64 1) (client_frames_received w) (server_frames_sent w) (server_frames_received w) w.
Definition record_client_frame_received (w : World) : World :=
  with_counts (client_frames_sent w) (client_frames_received w ⊕64 1) (server_frames_sent w) (server_frames_received w) w.
Definition record_server_frame_sent (w : World) : World :=
  with_counts (client_frames_sent w) (client_frames_received w) (server_frames_sent w ⊕64 1) (server_frames_received w) w.
Definition record_server_frame_received (w : World) : World :=
  with_counts (client_frames_sent w) (client_frames_received w) (server_frames_sent w) (server_frames_received w ⊕64 1) w.
Definition record_network_event (e : NetworkEvent) (w : World) : World :=
  {| client := client w; server := server w; client_frames_sent := client_frames_sent w;
     client_frames_received := client_frames_received w; server_frames_sent := server_frames_sent w;
     server_frames_received := server_frames_received w; network_events := network_events w ++ [e] |}.

(** [all_authenticated]; the server is looked at only if the client is
    authenticated. *)
Definition all_authenticated (w : World) : outcome string bool :=
  c ← get_client w;
  if bool_decide (state c = Authenticated) then
    s ← get_server w; Ok (bool_decide (state s = Authenticated))
  else Ok false.
Definition session_ids_match (w : World) : outcome string bool :=
  c ← get_client w; s ← get_server w;
  Ok (match session_id c, session_id s with Some a, Some b => a =? b | _, _ => false end).
End World.
Export World (World).

Module oracle.
(** [OracleFn]. *)
Definition OracleFn : Type := World → outcome string unit.

Definition all_authenticated : OracleFn := λ w,
  b ← World.all_authenticated w; if (b : bool) then Ok tt else Err "Not all actors are authenticated".
Definition session_ids_match : OracleFn := λ w,
  b ← World.session_ids_match w; if (b : bool) then Ok tt else Err "Session IDs do not match across actors".
Fixpoint all_of (oracles : list OracleFn) : OracleFn := λ w,
  match oracles with
  | [] => Ok tt
  | o :: os => match o w with Ok _ => all_of os w | Err e => Err e | Panic => Panic end
  end.
End oracle.

Module Scenario.
Import Connection World.

Record Scenario : Type := {
  client_config : ConnectionConfig;
  server_config : ConnectionConfig;
  time_advance : option Z }.

Definition new : Scenario :=
  {| client_config := default_config; server_config := default_config; time_advance := None |}.
Definition with_client_config (c : ConnectionConfig) (s : Scenario) : Scenario :=
  {| client_config := c; server_config := server_config s; time_advance := time_advance s |}.
Definition with_server_config (c : ConnectionConfig) (s : Scenario) : Scenario :=
  {| client_config := client_config s; server_config := c; time_advance := time_advance s |}.
Definition with_time_advance (d : Z) (s : Scenario) : Scenario :=
  {| client_config := client_config s; server_config := server_config s; time_advance := Some d |}.

Record RunnableScenario : Type := { scenario : Scenario; the_oracle : oracle.OracleFn }.
Definition oracle (o : oracle.OracleFn) (s : Scenario) : RunnableScenario :=
  {| scenario := s; the_oracle := o |}.

Inductive Actor : Type := ActorClient | ActorServer.

(** The body of the loop in [process_actions]. *)
Definition process_action (actor : Actor) (a : ConnectionAction) (w : World) : World :=
  match a with
  | Close _ => w
  | SendFrame _ =>
      match actor with
      | ActorClient => record_client_frame_sent w
      | ActorServer => record_server_frame_sent w
      end
  end.
Definition process_actions (actor : Actor) (acts : list ConnectionAction) : WorldM unit :=
  m_modify (λ w, foldl (λ w a, process_action actor a w) w acts).

(** [Connection::tick] cannot fail. *)
Definition tick_m (now : Z) : M Connection Empty_set (list ConnectionAction) := λ c,
  let '(acts, c) := Connection.tick now c in (Ok acts, c).
Definition tick_connections (now : Z) : WorldM unit :=
  client_actions ← on_client (tick_m now);
  process_actions ActorClient (match client_actions with Ok a => a | _ => [] end);;
  server_actions ← on_server (tick_m now);
  process_actions ActorServer (match server_actions with Ok a => a | _ => [] end).

Section handshake.
Context `{PayloadCodec}.

(** [match actions.as_slice() { [SendFrame(frame)] => frame.clone(), _ => return Err(..) }]
    after [.map_err(..)?]. *)
Definition the_frame (who : string) (r : outcome ConnectionError (list ConnectionAction)) : outcome string Frame :=
  match r with
  | Ok [SendFrame frame] => Ok frame
  | Ok _ => Err (who +:+ " returned unexpected actions")
  | Err e => Err (who +:+ " failed: " +:+ ConnectionError.to_string e)
  | Panic => Panic
  end.

Definition execute_handshake (now : Z) : WorldM unit :=
  r ← on_client (send_hello now);
  hello_frame ← m_lift (the_frame "client send_hello" r);
  m_modify record_client_frame_sent;;
  m_modify record_server_frame_received;;
  r ← on_server (handle_frame hello_frame now);
  hello_reply_frame ← m_lift (the_frame "server handle_frame(Hello)" r);
  m_modify record_server_frame_sent;;
  m_modify record_client_frame_received;;
  r ← on_client (handle_frame hello_reply_frame now);
  match r with
  | Ok [] => mret tt
  | Ok _ => m_err "client handle_frame(HelloReply) returned unexpected actions"
  | Err e => m_err ("client handle_frame(HelloReply) failed: " +:+ ConnectionError.to_string e)
  | Panic => m_lift Panic
  end.

Definition SESSION_ID : Z := 0x1000000000000000.

(** [RunnableScenario::run] up to the oracle; [now] is the simulated clock. *)
Definition execute (s : Scenario) (now : Z) : WorldM unit :=
  set_client (Connection.new now (client_config s));;
  set_server (Connection.set_session_id SESSION_ID (Connection.new now (server_config s)));;
  execute_handshake now;;
  match time_advance s with
  | Some advance => tick_connections (now + advance)
  | None => mret tt
  end.
Definition run (s : RunnableScenario) (now : Z) : outcome string unit :=
  fst ((execute (scenario s) now;; w ← m_get; m_lift (the_oracle s w)) World.new).
End handshake.
End Scenario.
Export Scenario (Scenario, RunnableScenario).

(** ** Actors *)
Module Actors.
Import Connection ConnectionState.

(** [struct ClientActor] and [struct ServerActor] have the same fields. *)
Record Actor : Type := { name : string; connection : Connection; now : Z }.
Definition new (name : string) (c : Connection) (now : Z) : Actor :=
  {| name := name; connection := c; now := now |}.

Section actors.
Context `{PayloadCodec}.
Abbreviation ActorM := (M Actor string).

Definition on_connection {A} (what : string → string) (m : Z → M Connection ConnectionError A) : ActorM A := λ a,
  let '(r, c) := m (now a) (connection a) in
  (map_err (λ e, what (name a) +:+ ConnectionError.to_string e) r,
   {| name := name a; connection := c; now := now a |}).
(** The single frame among the actions of a step. *)
Definition single_frame (step : string) (actions : list ConnectionAction) : outcome string Frame :=
  match actions with
  | [SendFrame frame] => Ok frame
  | [_] => Err ("Expected SendFrame action from " +:+ step)
  | _ => Err ("Expected 1 action from " +:+ step +:+ ", got " +:+ fmt_int (zlen actions))
  end.

Definition client_send_hello : ActorM Frame :=
  actions ← on_connection (λ n, "Client " +:+ n +:+ " failed to send_hello: ") send_hello;
  m_lift (single_frame "send_hello" actions).
Definition client_handle_hello_reply (frame : Frame) : ActorM unit :=
  actions ← on_connection (λ n, "Client " +:+ n +:+ " failed to handle HelloReply: ") (handle_frame frame);
  match actions with
  | [] => mret tt
  | _ => m_err ("Unexpected actions from HelloReply: " +:+ fmt_int (zlen actions) +:+ " actions")
  end.
Definition server_handle_hello (frame : Frame) : ActorM Frame :=
  actions ← on_connection (λ n, "Server " +:+ n +:+ " failed to handle Hello: ") (handle_frame frame);
  m_lift (single_frame "handle_hello" actions).
(** [expect_authenticated] of both; [kind] is the word in the message. *)
Definition expect_authenticated (kind : string) (a : Actor) : outcome string unit :=
  if bool_decide (state (connection a) = Authenticated) then Ok tt
  else Err (kind +:+ " " +:+ name a +:+ " expected Authenticated, got " +:+ ConnectionState.debug (state (connection a))).
Definition client_expect_authenticated : Actor → outcome string unit := expect_authenticated "Client".
Definition server_expect_authenticated : Actor → outcome string unit := expect_authenticated "Server".
End actors.
End Actors.

(** ** The outcome of every scenario *)
Module ScenarioTheory.
Import Connection ConnectionState World Scenario.

Section outcome.
Context `{PayloadCodec} `{!PayloadCodecOk}.

(** The two handshake messages can be encoded. *)
Context (hello reply : Frame).
Context (Hhello : Payload.into_frame the_hello (FrameHeader.new Opcode.Hello) = Ok hello).
Context (Hreply : Payload.into_frame (hello_reply SESSION_ID) (FrameHeader.new Opcode.HelloReply) = Ok reply).
Context (Lhello : zlen (Frame.payload hello) ≤ FrameHeader.MAX_PAYLOAD_SIZE).
Context (Lreply : zlen (Frame.payload reply) ≤ FrameHeader.MAX_PAYLOAD_SIZE).

(** Either side after the handshake. *)
Definition established (now : Z) (cfg : ConnectionConfig) : Connection :=
  {| state := Authenticated; config := cfg; last_activity := now; last_heartbeat := None;
     session_id := Some SESSION_ID |}.
(** The world after the handshake. *)
Definition connected (now : Z) (s : Scenario) : World :=
  {| client := Some (established now (client_config s)); server := Some (established now (server_config s));
     client_frames_sent := 1; client_frames_received := 1; server_frames_sent := 1; server_frames_received := 1;
     network_events := [] |}.

Lemma hello_received now (c : Connection) :
  state c = Init → session_id c = Some SESSION_ID →
  handle_frame hello now c = (Ok [SendFrame reply], with_state Authenticated (with_last_activity now c)).
Proof.
  destruct (Payload.wire _ _ _ (FrameHeader.new_wf _) (FrameHeader.new_valid _) Hhello Lhello) as (? & _ & _ & Ho & Hp).
  intros Hs Hid. by eapply handle_frame_hello.
Qed.

Lemma reply_received now (c : Connection) :
  state c = Pending →
  handle_frame reply now c =
    (Ok [], with_session_id (Some SESSION_ID) (with_state Authenticated (with_last_activity now c))).
Proof.
  destruct (Payload.wire _ _ _ (FrameHeader.new_wf _) (FrameHeader.new_valid _) Hreply Lreply) as (? & _ & _ & Ho & Hp).
  intros Hs. apply (handle_frame_reply _ _ {| session.reply_session_id := SESSION_ID;
    session.reply_capabilities := []; session.reply_challenge := None |}); done.
Qed.

Lemma handshake_connected now s w :
  client w = Some (Connection.new now (client_config s)) →
  server w = Some (Connection.set_session_id SESSION_ID (Connection.new now (server_config s))) →
  w = with_server (server w) (with_client (client w) World.new) →
  execute_handshake now w = (Ok tt, connected now s).
Proof.
  intros Hc Hs ->. rewrite Hc, Hs. unfold execute_handshake, on_client, on_server. munfold. cbn.
  rewrite (send_hello_init _ _ hello) by done. cbn. rewrite hello_received by done. cbn.
  rewrite reply_received by done. done.
Qed.

(** Silence of length [d] has outlasted the idle timeout of [cfg]. *)
Definition expired (advance : option Z) (cfg : ConnectionConfig) : bool :=
  match advance with Some d => idle_timeout cfg <? d | None => false end.
(** The heartbeat that the tick sends. *)
Definition heartbeats (advance : option Z) (cfg : ConnectionConfig) : Z :=
  match advance with Some d => if idle_timeout cfg <? d then 0 else 1 | None => 0 end.

(** Either side after the tick. *)
Definition after (now d : Z) (cfg : ConnectionConfig) : Connection :=
  if idle_timeout cfg <? d then close (established now cfg)
  else with_last_activity (now + d) (with_last_heartbeat (Some (now + d)) (established now cfg)).

Lemma tick_established now d cfg :
  0 ≤ d → ∃ reason,
  Connection.tick (now + d) (established now cfg) =
    (if idle_timeout cfg <? d then [Close reason] else [SendFrame (Frame.new (FrameHeader.new Opcode.Ping) [])],
     after now d cfg).
Proof.
  intros Hd. exists ("idle timeout after " +:+ fmt_duration d)%string.
  unfold Connection.tick, check_timeout, after; cbn.
  replace (elapsed_since (now + d) now) with d by (unfold elapsed_since; lia).
  by destruct (idle_timeout cfg <? d).
Qed.

Lemma tick_connected now d s :
  0 ≤ d →
  tick_connections (now + d) (connected now s) =
    (Ok tt, {| client := Some (after now d (client_config s)); server := Some (after now d (server_config s));
               client_frames_sent := 1 + heartbeats (Some d) (client_config s); client_frames_received := 1;
               server_frames_sent := 1 + heartbeats (Some d) (server_config s); server_frames_received := 1;
               network_events := [] |}).
Proof.
  intros Hd. unfold tick_connections, on_client, on_server, tick_m, process_actions. munfold. cbn [client connected].
  destruct (tick_established now d (client_config s) Hd) as (r1 & ->).
  destruct (tick_established now d (server_config s) Hd) as (r2 & E2).
  unfold heartbeats. destruct (idle_timeout (client_config s) <? d), (idle_timeout (server_config s) <? d) eqn:E;
    cbn -[Connection.tick established]; rewrite E2; cbn -[established]; done.
Qed.

Lemma execute_exact s now :
  (∀ d, time_advance s = Some d → 0 ≤ d) →
  execute s now World.new =
    (Ok tt, match time_advance s with
            | None => connected now s
            | Some d => snd (tick_connections (now + d) (connected now s))
            end).
Proof.
  intros Hd. unfold execute, set_client, set_server. munfold. cbn -[execute_handshake tick_connections].
  rewrite (handshake_connected now s) by done. destruct (time_advance s) as [d|]; [|done].
  rewrite tick_connected by auto. done.
Qed.

(** The outcome of every scenario.  Whatever the configurations, the
    handshake takes exactly one frame in each direction and leaves both sides
    with the same session id; if time is then advanced by [d], a side whose idle
    timeout is shorter than [d] is closed and sends nothing, and a side whose
    timeout is at least [d] stays authenticated and sends one heartbeat, which
    is not delivered.  So the oracle [all_authenticated] accepts exactly if no
    side has expired, and [session_ids_match] accepts always. *)
Theorem scenario_outcome s now :
  (∀ d, time_advance s = Some d → 0 ≤ d) →
  let side cfg := if expired (time_advance s) cfg then Closed else Authenticated in
  (∃ w c srv,
    execute s now World.new = (Ok tt, w) ∧ client w = Some c ∧ server w = Some srv ∧
    state c = side (client_config s) ∧ state srv = side (server_config s) ∧
    session_id c = Some SESSION_ID ∧ session_id srv = Some SESSION_ID ∧
    client_frames_sent w = 1 + heartbeats (time_advance s) (client_config s) ∧
    server_frames_sent w = 1 + heartbeats (time_advance s) (server_config s) ∧
    client_frames_received w = 1 ∧ server_frames_received w = 1) ∧
  run (Scenario.oracle oracle.all_authenticated s) now =
    (if expired (time_advance s) (client_config s) || expired (time_advance s) (server_config s)
     then Err "Not all actors are authenticated"%string else Ok tt) ∧
  run (Scenario.oracle oracle.session_ids_match s) now = Ok tt.
Proof.
  intros Hd side. unfold run. munfold. cbn [scenario the_oracle Scenario.oracle].
  rewrite (execute_exact s now Hd).
  unfold side, expired, heartbeats, oracle.all_authenticated, oracle.session_ids_match,
    World.all_authenticated, World.session_ids_match, get_client, get_server.
  destruct (time_advance s) as [d|]; [|split; [eexists _, _, _; split_and!; done|done]].
  rewrite tick_connected by auto. cbn. unfold after, heartbeats.
  split; [eexists _, _, _; split_and!; try done|]; cbn;
    destruct (idle_timeout (client_config s) <? d), (idle_timeout (server_config s) <? d); done.
Qed.

(** The actors reach the same states step by step. *)
Theorem actors_authenticate ca sa :
  state (Actors.connection ca) = Init → state (Actors.connection sa) = Init →
  session_id (Actors.connection sa) = Some SESSION_ID →
  ∃ ca1 sa1 ca2,
    Actors.client_send_hello ca = (Ok hello, ca1) ∧ Actors.server_handle_hello hello sa = (Ok reply, sa1) ∧
    Actors.client_handle_hello_reply reply ca1 = (Ok tt, ca2) ∧
    Actors.client_expect_authenticated ca1 =
      Err ("Client " +:+ Actors.name ca +:+ " expected Authenticated, got Pending")%string ∧
    Actors.client_expect_authenticated ca2 = Ok tt ∧ Actors.server_expect_authenticated sa1 = Ok tt ∧
    session_id (Actors.connection ca2) = session_id (Actors.connection sa1).
Proof.
  intros Hc Hs Hid. eexists _, _, _.
  unfold Actors.client_send_hello, Actors.server_handle_hello, Actors.client_handle_hello_reply, Actors.on_connection.
  munfold. rewrite (send_hello_init _ _ hello), hello_received by done. cbn.
  split_and!; [done|done| | | | |]; [by rewrite reply_received|done..| ]; cbn; by rewrite Hid.
Qed.
End outcome.

(** An error of [all_of] is the error of the first oracle that refuses. *)
Lemma all_of_spec os w :
  oracle.all_of os w = Ok tt ↔ Forall (λ o, o w = Ok tt) os.
Proof.
  induction os as [|o os IH]; cbn; [by split|]. rewrite Forall_cons_iff, <-IH.
  destruct (o w) as [[]| |]; naive_solver.
Qed.
End ScenarioTheory.

Section scenario_witnesses.
#[local] Existing Instances ToyCodec.codec ToyCodec.codec_ok.
Import ScenarioTheory World Scenario.

(** At the idle timeout of 60 seconds both sides are still there; one nanosecond
    later they are not. *)
Lemma scenario_outcome_witness :
  run (Scenario.oracle oracle.all_authenticated (with_time_advance (from_secs 60) Scenario.new)) 5 = Ok tt ∧
  run (Scenario.oracle oracle.all_authenticated (with_time_advance (from_secs 60 + 1) Scenario.new)) 5 =
    Err "Not all actors are authenticated"%string.
Proof.
  split.
  - destruct (@scenario_outcome ToyCodec.codec ToyCodec.codec_ok _ _ eq_refl eq_refl ltac:(by vm_compute) ltac:(by vm_compute)
      (with_time_advance (from_secs 60) Scenario.new) 5) as (_ & E & _); [intros d [= <-]; done|exact E].
  - destruct (@scenario_outcome ToyCodec.codec ToyCodec.codec_ok _ _ eq_refl eq_refl ltac:(by vm_compute) ltac:(by vm_compute)
      (with_time_advance (from_secs 60 + 1) Scenario.new) 5) as (_ & E & _); [intros d [= <-]; done|exact E].
Defined.

Lemma actors_authenticate_witness :
  ∃ ca, Actors.client_expect_authenticated ca = Ok tt.
Proof.
  edestruct (@actors_authenticate ToyCodec.codec ToyCodec.codec_ok _ _ eq_refl eq_refl ltac:(by vm_compute) ltac:(by vm_compute)
    (Actors.new "alice" (Connection.new 0 Connection.default_config) 1)
    (Actors.new "server" (Connection.set_session_id SESSION_ID (Connection.new 0 Connection.default_config)) 1))
    as (_ & _ & ca2 & _ & _ & _ & _ & E & _); [done|done|done|]. exists ca2. exact E.
Defined.
End scenario_witnesses.
