(* ===== verification/SimServer.v ===== *)
(** * The simulated environment and server ([sim_env.rs], [sim_server.rs])

    The harness runs the same driver as the production server, with an
    environment that draws from a seeded generator, a storage in memory and
    simulated TCP.  Unlike the tasks of [lib.rs] it executes the actions of an
    event before it takes the next one, and it tells the driver about the
    connections it closes. *)

From Stdlib Require Import ZArith Lia.
From S2P Require Import Prelude Opcodes Header Frame Payload Connection MlsState Storage Sequencer.
From S2P Require Import Registry Validator MlsGroup RoomManager ServerDriver Server.

(** ** [SimEnv] *)
Module SimEnv.
(** The generator ([ChaCha20Rng]) is another crate's. *)
Class Rng (R : Type) : Type := {
  seed_from_u64 : Z → R;
  fill_bytes : nat → R → bytes * R }.

Section sim_env.
Context {R : Type} `{Rng R}.
(** Clones of a [SimEnv] share one generator behind a mutex, so the state that
    all clones read and write is one value: the simulated clock and the
    generator. *)
Record SimEnv : Type := { clock : Z; rng : R }.

Definition with_seed (clock seed : Z) : SimEnv := {| clock := clock; rng := seed_from_u64 seed |}.
Definition new (clock : Z) : SimEnv := with_seed clock 0.

Definition now (e : SimEnv) : Z * SimEnv := (clock e, e).
(** The virtual clock is what [sleep] advances. *)
Definition sleep (duration : Z) (e : SimEnv) : SimEnv := {| clock := clock e + duration; rng := rng e |}.
Definition random_bytes (n : nat) (e : SimEnv) : bytes * SimEnv :=
  let '(bs, r) := fill_bytes n (rng e) in (bs, {| clock := clock e; rng := r |}).

#[global] Instance sim_environment : Environment SimEnv := {|
  Environment.now := now;
  Environment.random_bytes := random_bytes |}.

(** The trait's guarantees, for a generator that fills what it is given. *)
#[program] Definition sim_environment_ok (Hfill : ∀ n r, length (fst (fill_bytes n r)) = n) :
  Environment.EnvironmentOk SimEnv := {| Environment.clock := clock |}.
Next Obligation. done. Qed.
Next Obligation. intros _ e. cbn. lia. Qed.
Next Obligation. intros _ n e. cbn. unfold random_bytes. destruct (fill_bytes n (rng e)); cbn. lia. Qed.
Next Obligation.
  intros Hfill n e. cbn. unfold random_bytes. specialize (Hfill n (rng e)).
  by destruct (fill_bytes n (rng e)).
Qed.
End sim_env.
Arguments SimEnv R : clear implicits.
End SimEnv.

(** ** [SimServer] *)
Module SimServer.
Import ServerAction.

(** [io::Error]s by where they come from. *)
Inductive SimError : Type :=
| OtherError (text : string)
| InvalidData (e : ProtocolError)
| WriteError (text : string).

Section server.
Context `{PayloadCodec} {T : Type} `{Environment T} `{OpenMls T} `{Ed25519} {S : Type} `{Storage S}.
(** The simulated network: whether a write and flush of a buffer to a session
    fails, given what was written before. *)
Context (write : list (Z * bytes) → Z → bytes → option string).
Abbreviation Driver := (ServerDriver (T := T) (S := S)).

(** [struct SimServer]: the table of connections holds the writers; [sent] is
    what has been written to them. *)
Record SimServer : Type := {
  driver : Driver;
  connections : gset Z;
  next_session_id : Z;
  sent : list (Z * bytes) }.

Definition with_driver (d : Driver) (s : SimServer) : SimServer :=
  {| driver := d; connections := connections s; next_session_id := next_session_id s; sent := sent s |}.
Definition with_connections (cs : gset Z) (s : SimServer) : SimServer :=
  {| driver := driver s; connections := cs; next_session_id := next_session_id s; sent := sent s |}.
Definition with_next (n : Z) (s : SimServer) : SimServer :=
  {| driver := driver s; connections := connections s; next_session_id := n; sent := sent s |}.
Definition with_sent (l : list (Z * bytes)) (s : SimServer) : SimServer :=
  {| driver := driver s; connections := connections s; next_session_id := next_session_id s; sent := l |}.

(** [bind_with_config] and [bind], once the listener is bound. *)
Definition bind_with_config (env : T) (storage : S) (config : ServerConfig) : SimServer :=
  {| driver := ServerDriver.new env storage config; connections := ∅; next_session_id := 1; sent := [] |}.
Definition bind (env : T) (storage : S) : SimServer := bind_with_config env storage default_server_config.

Abbreviation SimM := (M SimServer SimError).

(** [self.driver.process_event(event).map_err(..)?]. *)
Definition process_event (ev : ServerEvent) : SimM (list ServerAction) := λ s,
  let '(r, d) := ServerDriver.process_event ev (driver s) in
  (map_err (λ e, OtherError (ServerError.to_string e)) r, with_driver d s).
(** [self.driver.storage().store_..(..)]; an error is printed. *)
Definition on_storage {A} (op : M S StorageError A) : SimM unit := λ s,
  let '(r, st) := op (ServerDriver.storage (driver s)) in
  (match r with Panic => Panic | _ => Ok tt end, with_driver (Server.set_storage st (driver s)) s).

Definition send_frame (sid : Z) (frame : Frame) : SimM unit := λ s,
  if decide (sid ∈ connections s) then
    match Frame.encode frame [] with
    | (Ok _, buf) =>
        match write (sent s) sid buf with
        | None => (Ok tt, with_sent (sent s ++ [(sid, buf)]) s)
        | Some e => (Err (WriteError e), s)
        end
    | (Err e, _) => (Err (InvalidData e), s)
    | (Panic, _) => (Panic, s)
    end
  else (Ok tt, s).

(** The result of the driver is ignored ([let _ = ..]). *)
Definition close_connection (sid : Z) (reason : string) : SimM unit := λ s,
  let s := with_connections (connections s ∖ {[ sid ]}) s in
  let '(r, d) := ServerDriver.process_event (ConnectionClosed sid reason) (driver s) in
  (match r with Panic => Panic | _ => Ok tt end, with_driver d s).

(** One round of the loop in [execute_actions]. *)
Definition execute_action (a : ServerAction) : SimM unit :=
  match a with
  | SendToSession sid frame => send_frame sid frame
  | BroadcastToRoom room_id frame exclude =>
      s ← m_get;
      let sessions := ServerDriver.sessions_in_room room_id (driver s) in
      m_iter (λ sid, if decide (Some sid = exclude) then mret tt else send_frame sid frame) sessions
  | CloseConnection sid reason => close_connection sid reason
  | PersistFrame room_id log_index frame => on_storage (store_frame room_id log_index frame)
  | PersistMlsState room_id state => on_storage (store_mls_state room_id state)
  | Log _ _ _ => mret tt
  end.
Definition execute_actions (acts : list ServerAction) : SimM unit := m_iter execute_action acts.

(** [accept_connection], once the listener has a stream. *)
Definition accept_connection : SimM Z :=
  s ← m_get;
  let session_id := next_session_id s in
  m_modify (with_next (session_id ⊕64 1));;
  actions ← process_event (ConnectionAccepted session_id);
  m_modify (λ s, with_connections ({[ session_id ]} ∪ connections s) s);;
  execute_actions actions;;
  mret session_id.

Definition tick : SimM unit := actions ← process_event Tick; execute_actions actions.
Definition process_frame (sid : Z) (frame : Frame) : SimM unit :=
  actions ← process_event (FrameReceived sid frame); execute_actions actions.

(** [create_room]: of the actions only the log lines are looked at. *)
Definition create_room (room_id creator_session_id : Z) : SimM unit := λ s,
  let '(r, d) := ServerDriver.create_room room_id creator_session_id (driver s) in
  (map_err (λ e, OtherError (ServerError.to_string e)) ((λ _, tt) <$> r), with_driver d s).

Definition has_room (room_id : Z) (s : SimServer) : bool := ServerDriver.has_room room_id (driver s).
Definition connection_count (s : SimServer) : Z := ServerDriver.connection_count (driver s).
Definition subscribe_to_room (sid room_id : Z) : SimM bool := λ s,
  let '(r, d) := ServerDriver.subscribe_to_room sid room_id (driver s) in
  (map_err (λ e, OtherError (ServerError.to_string e)) r, with_driver d s).
Definition room_epoch (room_id : Z) (s : SimServer) : option Z := ServerDriver.room_epoch room_id (driver s).

(** ** Properties *)
#[local] Abbreviation DriverM := (M Driver ServerError).

(** *** What keeps the driver's set of connections *)
Definition same_dom (d d' : Driver) : Prop :=
  dom (ServerDriver.connections d') = dom (ServerDriver.connections d).
#[local] Instance same_dom_preorder : PreOrder same_dom.
Proof. split; unfold same_dom; [by intros d|intros d1 d2 d3; congruence]. Qed.

Lemma env_now_dom : respects same_dom (E := ServerError) (ServerDriver.env_now (T := T) (S := S)).
Proof. intros d. unfold ServerDriver.env_now. by destruct (Environment.now _). Qed.
Lemma on_rooms_dom {A} (op : M RoomManager.world RoomError A) : respects same_dom (ServerDriver.on_rooms op).
Proof. intros d. unfold ServerDriver.on_rooms, m_zoom, m_map_err. by destruct (op _). Qed.
Lemma on_registry_dom {A} (op : ConnectionRegistry → A * ConnectionRegistry) :
  respects same_dom (ServerDriver.on_registry (T := T) (S := S) op).
Proof. intros d. unfold ServerDriver.on_registry. by destruct (op _). Qed.
#[local] Hint Resolve env_now_dom on_rooms_dom on_registry_dom : respects.

Lemma convert_dom a sid : respects same_dom (ServerDriver.convert_room_action (T := T) (S := S) a sid).
Proof. destruct a; cbn; repeat case_match; auto with respects. Qed.
Lemma error_response_dom sid room e : respects same_dom (ServerDriver.make_error_response (T := T) (S := S) sid room e).
Proof. unfold ServerDriver.make_error_response. repeat case_match; auto with respects. Qed.
#[local] Hint Resolve convert_dom error_response_dom : respects.

Lemma sync_request_dom sid f : respects same_dom (ServerDriver.handle_sync_request (T := T) (S := S) sid f).
Proof.
  unfold ServerDriver.handle_sync_request. apply (respects_bind same_dom).
  - apply (respects_try same_dom), (respects_bind same_dom); [auto with respects|]. intros p.
    destruct p; auto with respects.
  - intros []; auto with respects.
Qed.
Lemma room_frame_dom sid f : respects same_dom (ServerDriver.process_room_frame (T := T) (S := S) sid f).
Proof. unfold ServerDriver.process_room_frame. auto 6 with respects. Qed.
#[local] Hint Resolve sync_request_dom room_frame_dom : respects.

Lemma set_connection_dom {A} sid c c' (k : DriverM A) d :
  ServerDriver.connections d !! sid = Some c → respects same_dom k →
  same_dom d (snd ((ServerDriver.set_connection sid c';; k) d)).
Proof.
  intros Hc Hk. unfold ServerDriver.set_connection. munfold. etransitivity; [|apply Hk].
  unfold same_dom; cbn. by rewrite dom_insert_lookup_L.
Qed.

Lemma frame_received_dom sid f : respects same_dom (ServerDriver.handle_frame_received (T := T) (S := S) sid f).
Proof.
  unfold ServerDriver.handle_frame_received. apply (respects_bind same_dom); [auto with respects|]. intros now d.
  match goal with |- same_dom d (snd ((m_get ≫= ?k) d)) => change (same_dom d (snd (k d d))) end. cbv beta.
  destruct (ServerDriver.connections d !! sid) as [conn|] eqn:Hc; [|done].
  repeat case_match; try (eapply set_connection_dom; [done|auto 6 with respects]); by apply sync_request_dom.
Qed.

Lemma tick_session_dom now sid : respects same_dom (ServerDriver.tick_session (T := T) (S := S) now sid).
Proof.
  intros d. unfold ServerDriver.tick_session. munfold.
  destruct (ServerDriver.connections d !! sid) as [c|] eqn:Hc; [|done].
  destruct (Connection.tick now c) as [acts c']. unfold same_dom; cbn. by rewrite dom_insert_lookup_L.
Qed.
Lemma tick_dom : respects same_dom (ServerDriver.handle_tick (T := T) (S := S)).
Proof.
  unfold ServerDriver.handle_tick. apply (respects_bind same_dom); [auto with respects|]. intros now d. munfold.
  apply (respects_concat_map same_dom). intros sid _. apply tick_session_dom.
Qed.
Lemma create_room_dom room sid : respects same_dom (ServerDriver.create_room (T := T) (S := S) room sid).
Proof.
  unfold ServerDriver.create_room. apply (respects_bind same_dom); [auto with respects|]. intros now d. munfold.
  destruct (_ !! sid) as [info|]; [|done].
  pose proof (on_rooms_dom (RoomManager.create_room room (default sid (SessionInfo.user_id info))) d) as H1'.
  destruct (ServerDriver.on_rooms _ d) as [[a|e|] d1]; cbn in *; [|done..].
  pose proof (on_registry_dom (ConnectionRegistry.subscribe sid room) d1) as H2'.
  destruct (ServerDriver.on_registry _ d1) as [[b|e|] d2]; cbn in *; congruence.
Qed.

Lemma closed_dom sid reason (d : Driver) :
  dom (ServerDriver.connections (snd (ServerDriver.process_event (ConnectionClosed sid reason) d)))
  = dom (ServerDriver.connections d) ∖ {[ sid ]}.
Proof.
  cbn. unfold ServerDriver.handle_connection_closed, ServerDriver.on_registry.
  destruct (ServerDriver.driver_now_spec d) as (t & e & Hn). munfold. rewrite Hn. cbn.
  destruct (ConnectionRegistry.unregister_session sid (ServerDriver.registry d)) as [[[info rooms]|] reg];
    cbn; by rewrite dom_delete_L.
Qed.

(** An accepted session is added, or the limit is reached and it is to be closed. *)
Lemma accepted_dom sid (d : Driver) :
  ∃ acts d', ServerDriver.process_event (ConnectionAccepted sid) d = (Ok acts, d') ∧
    ((∃ reason, acts = [CloseConnection sid reason]) ∧ dom (ServerDriver.connections d') = dom (ServerDriver.connections d)
     ∨ (∃ l m t, acts = [Log l m t]) ∧ dom (ServerDriver.connections d') = {[ sid ]} ∪ dom (ServerDriver.connections d)).
Proof.
  cbn. unfold ServerDriver.handle_connection_accepted.
  destruct (ServerDriver.driver_now_spec d) as (t & e & Hn). munfold. rewrite Hn. cbn.
  destruct (_ <=? _).
  - eexists _, _. split; [done|]. left. eauto.
  - unfold ServerDriver.on_registry; cbn. destruct (ConnectionRegistry.register_session _ _ _) as [b reg]. cbn.
    eexists _, _. split; [done|]. right. split; [eauto|]. cbn. by rewrite dom_insert_L.
Qed.

(** *** The two tables *)
Definition agree (s : SimServer) : Prop := dom (ServerDriver.connections (driver s)) = connections s.
Definition keeps_agree {A} (m : SimM A) : Prop := ∀ s, agree s → agree (snd (m s)).

Lemma agree_ret {A} (a : A) : keeps_agree (mret a).
Proof. by intros s. Qed.
Lemma agree_bind {A B} (m : SimM A) (f : A → SimM B) : keeps_agree m → (∀ a, keeps_agree (f a)) → keeps_agree (m ≫= f).
Proof.
  intros Hm Hf s Hs. munfold. specialize (Hm s Hs). destruct (m s) as [[a|e|] s']; cbn in *; [|done..]. by apply Hf.
Qed.
Lemma agree_iter {A} (f : A → SimM unit) l : (∀ a, keeps_agree (f a)) → keeps_agree (m_iter f l).
Proof.
  intros Hf. induction l as [|a l IH]; [apply agree_ret|]. cbn [m_iter]. apply agree_bind; [apply Hf|]. intros _. apply IH.
Qed.

Lemma send_frame_agree sid f : keeps_agree (send_frame sid f).
Proof. intros s Hs. unfold send_frame. repeat case_match; done. Qed.

Lemma close_agree sid reason : keeps_agree (close_connection sid reason).
Proof.
  intros s Hs. unfold close_connection, agree in *. pose proof (closed_dom sid reason (driver s)) as E. cbn [driver with_connections].
  destruct (ServerDriver.process_event _ (driver s)) as [r d']. cbn in *. by rewrite E, Hs.
Qed.

Lemma storage_agree {A} (op : M S StorageError A) : keeps_agree (on_storage op).
Proof. intros s Hs. unfold on_storage. by destruct (op _). Qed.

Lemma action_agree a : keeps_agree (execute_action a).
Proof.
  destruct a; cbn [execute_action]; auto using send_frame_agree, close_agree, storage_agree, agree_ret.
  apply agree_bind; [by intros s|]. intros s. apply agree_iter. intros sid. case_decide; auto using agree_ret, send_frame_agree.
Qed.
Lemma actions_agree acts : keeps_agree (execute_actions acts).
Proof. apply agree_iter, action_agree. Qed.

Lemma event_agree ev :
  respects same_dom (ServerDriver.process_event (T := T) (S := S) ev) → keeps_agree (process_event ev).
Proof.
  intros Hd s Hs. specialize (Hd (driver s)). unfold process_event, agree, same_dom in *.
  destruct (ServerDriver.process_event ev (driver s)) as [r d]. cbn in *. congruence.
Qed.

Lemma accept_agree : keeps_agree accept_connection.
Proof.
  intros s Hs. unfold accept_connection, process_event. munfold. cbn.
  destruct (accepted_dom (next_session_id s) (driver s)) as (acts & d & E & Hcase). cbn in E. rewrite E. cbn.
  unfold agree in *. destruct Hcase as [[[reason ->] Hd]|[(l & m & t & ->) Hd]].
  - unfold execute_actions; cbn. munfold. unfold close_connection. cbn.
    pose proof (closed_dom (next_session_id s) reason d) as Ec. cbn in Ec.
    destruct (ServerDriver.handle_connection_closed _ _ d) as [[a|e|] d']; cbn in *; rewrite Ec, Hd, Hs; set_solver.
  - unfold execute_actions; cbn. munfold. cbn. by rewrite Hd, Hs.
Qed.

(** One call of the server's interface. *)
Inductive step : SimServer → SimServer → Prop :=
| step_accept s : step s (snd (accept_connection s))
| step_tick s : step s (snd (tick s))
| step_frame sid f s : step s (snd (process_frame sid f s))
| step_create room sid s : step s (snd (create_room room sid s))
| step_subscribe sid room s : step s (snd (subscribe_to_room sid room s)).

Lemma step_agree s s' : step s s' → agree s → agree s'.
Proof.
  destruct 1 as [s|s|sid f s|room sid s|sid room s].
  - apply accept_agree.
  - apply agree_bind; [apply event_agree, tick_dom|apply actions_agree].
  - apply agree_bind; [apply event_agree, frame_received_dom|apply actions_agree].
  - intros Hs. unfold create_room, agree. pose proof (create_room_dom room sid (driver s)) as E.
    destruct (ServerDriver.create_room _ _ _) as [r d]. unfold same_dom in E. cbn in *. congruence.
  - intros Hs. unfold subscribe_to_room, ServerDriver.subscribe_to_room, agree.
    pose proof (on_registry_dom (ConnectionRegistry.subscribe sid room) (driver s)) as E.
    destruct (ServerDriver.on_registry _ _) as [r d]. unfold same_dom in E. cbn in *. congruence.
Qed.

(** The simulated server's table of connections is the driver's, after any
    calls and whatever the network does: a session is in the one exactly if it is
    in the other, so every broadcast finds its writers and [connection_count]
    counts the open streams.  In particular a session that the driver refuses
    for the connection limit, or that a tick closes, is dropped from both, also
    when a write fails on the way. *)
Theorem sim_tables_agree env st cfg s :
  rtc step (bind_with_config env st cfg) s →
  dom (ServerDriver.connections (driver s)) = connections s ∧
  connection_count s = Z.of_nat (size (connections s)).
Proof.
  intros Hr. assert (agree s) as Hs.
  { assert (agree (bind_with_config env st cfg)) as H0' by (unfold agree; cbn; apply dom_empty_L).
    induction Hr; eauto using step_agree. }
  split; [done|]. unfold connection_count, ServerDriver.connection_count, agree in *.
  by rewrite <-Hs, size_dom.
Qed.
End server.

Section ordering.
Context `{PayloadCodec} {T : Type} `{Environment T} `{OpenMls T} `{Ed25519} {S : Type} `{StorageOk S} `{!Sequencer.StorageReliable}.
Context (write : list (Z * bytes) → Z → bytes → option string).
Implicit Types s : SimServer (T := T) (S := S).

Definition room_log (room : Z) (s : SimServer (T := T) (S := S)) : list Frame := log (ServerDriver.storage (driver s)) room.
(** The index that the room's next frame gets. *)
Definition counter (room : Z) (s : SimServer (T := T) (S := S)) : Z :=
  let w := ServerDriver.world_of (driver s) in
  Sequencer.next_of room (RoomManager.sequencer (RoomManager.rm w), RoomManager.store w).

Lemma send_frame_driver sid f s : driver (snd (send_frame write sid f s)) = driver s.
Proof. unfold send_frame. repeat case_match; done. Qed.

Lemma broadcast_driver room f ex s : driver (snd (execute_action write (BroadcastToRoom room f ex) s)) = driver s.
Proof.
  cbn [execute_action]. munfold. generalize (ServerDriver.sessions_in_room room (driver s)) as l. intros l.
  revert s. induction l as [|sid l IH]; intros s; [done|]. cbn [m_iter]. munfold. case_decide; cbn; [apply IH|].
  pose proof (send_frame_driver sid f s) as E. destruct (send_frame write sid f s) as [[[]|e|] s']; cbn in *; [by rewrite IH|done..].
Qed.

(** Storing at an index: the end of the log, or refused. *)
Lemma sim_persist_action room i f s :
  ∃ s', execute_action write (PersistFrame room i f) s = (Ok tt, s')
    ∧ room_log room s' = room_log room s ++ (if decide (i = zlen (room_log room s)) then [f] else [])
    ∧ ServerDriver.room_manager (driver s') = ServerDriver.room_manager (driver s).
Proof.
  cbn [execute_action]. unfold on_storage, room_log.
  pose proof (store_frame_ok room i f (ServerDriver.storage (driver s))) as Hok.
  destruct (decide _) as [->|Hne].
  - destruct (Sequencer.store_reliable room f (ServerDriver.storage (driver s))) as [st Hs].
    rewrite Hs in *. eexists. split; [done|]. split; [apply Hok|done].
  - destruct (store_frame room i f _) as [[[]|e|] st]; [naive_solver| |done].
    eexists. split; [done|]. cbn. rewrite app_nil_r. split; [destruct e; apply Hok|done].
Qed.

(** The room manager and the log are left alone. *)
Definition quiet (room : Z) (s s' : SimServer (T := T) (S := S)) : Prop :=
  room_log room s' = room_log room s ∧
  ServerDriver.room_manager (driver s') = ServerDriver.room_manager (driver s).

Lemma rest_quiet room f rest s :
  (rest = [] ∨ ∃ st, rest = [PersistMlsState room st]) →
  quiet room s (snd (execute_actions write (BroadcastToRoom room f None :: rest) s)).
Proof.
  intros Hr. unfold execute_actions. cbn [m_iter]. munfold.
  pose proof (broadcast_driver room f None s) as Eb.
  destruct (execute_action write (BroadcastToRoom room f None) s) as [[[]|e|] s1]; cbn [snd] in *;
    try (unfold quiet, room_log; by rewrite Eb).
  destruct Hr as [->|[st ->]]; [unfold quiet, room_log; cbn; by rewrite Eb|].
  cbn [m_iter execute_action]. munfold. unfold on_storage.
  pose proof (store_mls_state_ok room st (ServerDriver.storage (driver s1))) as Hs.
  destruct (store_mls_state room st _) as [x s']. unfold quiet, room_log. cbn in *. rewrite <-Eb.
  destruct x; cbn; [split; [apply Hs|done]..|done].
Qed.

(** The simulated server loses no frame.  A room frame that the driver
    accepts is in the room's log when [process_frame] returns, at the index it
    was given, and the room's counter is again the length of the log, whether or
    not the writes to the receivers succeed: the next frame starts from the state
    this one started from.  (With the tasks of [lib.rs] this depends on the
    schedule.) *)
Theorem sim_accepted_frame_kept sid f s acts d' :
  let room := FrameHeader.room_id (Frame.header f) in
  let n := zlen (room_log room s) in
  RoomManager.winv (ServerDriver.world_of (driver s)) → counter room s = n →
  ServerDriver.session_opcode (FrameHeader.opcode_enum (Frame.header f)) = false → Sequencer.is_welcome f = false →
  ServerDriver.process_event (FrameReceived sid f) (driver s) = (Ok acts, d') →
  let s' := snd (process_frame write sid f s) in
  room_log room s' = room_log room s ++ [Sequencer.rebuild_frame_with_index f n] ∧ counter room s' = n + 1.
Proof.
  intros room n Hi Hn Ho Hw Hp.
  destruct (ServerDriver.room_frame_ordered _ _ _ _ _ Hi Ho Hw Hp) as (rest & Ha & Hx & _ & Hl & Hn1).
  fold room in Ha, Hx, Hn1. unfold counter, ServerDriver.world_of in Hn. cbn in Hn. rewrite Hn in Ha, Hn1.
  cbv zeta. unfold process_frame, process_event. munfold. rewrite Hp. cbn [map_err]. subst acts. cbn [app].
  set (g := Sequencer.rebuild_frame_with_index f n). set (s1 := with_driver d' s).
  assert (room_log room s1 = room_log room s) as Hl1 by apply Hl.
  destruct (sim_persist_action room n g s1) as (s2 & E2 & Hl2 & Hm2).
  destruct (sim_persist_action room n g s2) as (s3 & E3 & Hl3 & Hm3).
  pose proof (rest_quiet room g rest s3 Hx) as [Hl4 Hm4].
  assert (snd (execute_actions write (PersistFrame room n g :: PersistFrame room n g :: BroadcastToRoom room g None :: rest) s1)
    = snd (execute_actions write (BroadcastToRoom room g None :: rest) s3)) as ->.
  { unfold execute_actions. cbn [m_iter]. munfold. by rewrite E2, E3. }
  set (s4 := snd _) in *.
  assert (room_log room s4 = room_log room s ++ [g]) as Hlog.
  { rewrite Hl4, Hl3, Hl2, Hl1. fold n. rewrite decide_True, decide_False, app_nil_r; [done| |done].
    rewrite zlen_app. change (zlen [g]) with 1. fold n. lia. }
  split; [done|]. unfold counter, ServerDriver.world_of; cbn. unfold Sequencer.next_of in *. cbn in *.
  rewrite Hm4, Hm3, Hm2. cbn.
  destruct (Sequencer.rooms (RoomManager.sequencer (ServerDriver.room_manager d')) !! room); [exact Hn1|]. cbn.
  change (log (ServerDriver.storage (driver s4)) room) with (room_log room s4). by rewrite Hlog, zlen_app.
Qed.
End ordering.
End SimServer.

(** ** Witnesses *)
Section sim_witnesses.
#[local] Existing Instances ToyCodec.codec ToyMls.ops ToyMls.ed.
Import SimServer.

(** A network on which every write fails. *)
Definition broken (_ : list (Z * bytes)) (_ : Z) (_ : bytes) : option string := Some "connection reset"%string.

Lemma sim_tables_agree_witness :
  let s := bind_with_config (T := ToyEnv.T) (0, 0) MemoryStorage.new default_server_config in
  connection_count (snd (accept_connection broken s)) = 1.
Proof.
  cbv zeta.
  destruct (sim_tables_agree broken (T := ToyEnv.T) (0, 0) MemoryStorage.new default_server_config
    (snd (accept_connection broken (bind_with_config (0, 0) MemoryStorage.new default_server_config)))) as [_ E].
  - apply rtc_once, step_accept.
  - etransitivity; [exact E|]. vm_compute. reflexivity.
Defined.

(** Room 9 with an empty log, session 4 subscribed to nothing. *)
Definition demo_sim : SimServer (T := ToyEnv.T) (S := MemoryStorage) :=
  {| driver := Server.driver Server.demo_runtime; connections := {[ 4 ]}; next_session_id := 5; sent := [] |}.

Lemma sim_accepted_frame_kept_witness :
  length (room_log 9 (snd (process_frame broken 4 RoomManager.demo_msg demo_sim))) = 1%nat.
Proof.
  run_ok (ServerDriver.process_event (FrameReceived 4 RoomManager.demo_msg) (driver demo_sim)) as acts d' E.
  destruct (sim_accepted_frame_kept broken 4 RoomManager.demo_msg demo_sim acts d'
    (RoomManager.demo_winv _) eq_refl eq_refl eq_refl E) as [El _].
  exact (f_equal length El).
Defined.
End sim_witnesses.
