(* ===== verification/Tasks.v ===== *)
(** * The tasks of the production server

    [lockframe-server/src/lib.rs] runs one task per connection and one per stream
    over a driver behind a lock.  A task takes the lock to process a frame,
    releases it, and takes it again to execute the actions, so the steps of
    different tasks interleave.  Here a system is the shared state with the tasks'
    local states, and every turn of a task that holds the lock is a step; the
    theorems hold for every schedule. *)

From Stdlib Require Import ZArith Lia.
From S2P Require Import Prelude Opcodes Header Frame Payload Connection MlsState Storage Sequencer.
From S2P Require Import Registry Validator MlsGroup RoomManager ServerDriver Server.

Module Tasks.
Import ServerAction Server.

(** Reading does not change what a storage holds, in or out of range. *)
Class ReadOnly (S : Type) `{StorageOk S} : Prop :=
  load_keeps : ∀ room from limit (s : S), same s (snd (load_frames room from limit s)).

#[global] Instance memory_read_only : ReadOnly MemoryStorage.
Proof. intros room from limit s. cbn. unfold MemoryStorage.load_frames. repeat case_match; cbn; apply same_refl. Qed.

#[global] Instance chaotic_read_only {S : Type} `{ReadOnly S} : ReadOnly (ChaoticStorage S).
Proof.
  intros room from limit c. cbn. unfold ChaoticStorage.load_frames.
  destruct (ChaoticStorage.inject_spec (load_frames room from limit) c) as (?&?&?&[[? ->]| ->]); [by split|].
  exact (load_keeps room from limit (ChaoticStorage.inner c)).
Qed.

(** ** Systems *)
Section system.
Context `{PayloadCodec} {T : Type} `{Environment T} `{OpenMls T} `{Ed25519} {S : Type} `{Storage S}.
Abbreviation Rt := (Runtime (T := T) (S := S)).

(** A stream task: its session, the frames it has still to read, and the actions
    of the last frame while they wait for the lock. *)
Record Task : Type := { session : Z; unread : list Frame; todo : option (list ServerAction) }.

Record System : Type := { shared : Rt; tasks : gmap Z Task }.

(** The turn of [handle_connection] and of its end that holds the driver's lock. *)
Definition accept_turn (sid : Z) : M Rt RuntimeError unit :=
  acts ← process (ConnectionAccepted sid); execute_actions acts.
Definition close_turn (sid : Z) : M Rt RuntimeError unit :=
  acts ← process (ConnectionClosed sid "connection closed"); execute_actions acts.

(** The task after it has processed its next frame: an error skips the frame. *)
Definition processed (t : Task) (rest : list Frame) (r : outcome RuntimeError (list ServerAction)) : Task :=
  {| session := session t; unread := rest; todo := match r with Ok acts => Some acts | _ => None end |}.
(** The tasks after one has executed its actions: an error ends it. *)
Definition executed (tid : Z) (t : Task) (r : outcome RuntimeError unit) (ts : gmap Z Task) : gmap Z Task :=
  match r with
  | Ok _ => <[tid := {| session := session t; unread := unread t; todo := None |}]> ts
  | _ => delete tid ts
  end.

(** One turn.  A panic aborts the process, so there is no turn after it. *)
Inductive step : System → System → Prop :=
| step_insert sid c :
    step c {| shared := with_live ({[ sid ]} ∪ live (shared c)) (shared c); tasks := tasks c |}
| step_accept sid c r rt :
    accept_turn sid (shared c) = (r, rt) → r ≠ Panic → step c {| shared := rt; tasks := tasks c |}
| step_stream tid sid frames c :
    tasks c !! tid = None →
    step c {| shared := shared c; tasks := <[tid := {| session := sid; unread := frames; todo := None |}]> (tasks c) |}
| step_process tid t f fs c r rt :
    tasks c !! tid = Some t → todo t = None → unread t = f :: fs →
    process (FrameReceived (session t) f) (shared c) = (r, rt) → r ≠ Panic →
    step c {| shared := rt; tasks := <[tid := processed t fs r]> (tasks c) |}
| step_execute tid t acts c r rt :
    tasks c !! tid = Some t → todo t = Some acts →
    execute_actions acts (shared c) = (r, rt) → r ≠ Panic →
    step c {| shared := rt; tasks := executed tid t r (tasks c) |}
| step_end tid t c :
    tasks c !! tid = Some t → todo t = None → step c {| shared := shared c; tasks := delete tid (tasks c) |}
| step_remove sid c :
    step c {| shared := with_live (live (shared c) ∖ {[ sid ]}) (shared c); tasks := tasks c |}
| step_close sid c r rt :
    close_turn sid (shared c) = (r, rt) → r ≠ Panic → step c {| shared := rt; tasks := tasks c |}.
End system.

(** ** What a turn does to logs and counters *)
Section ordering.
Context `{PayloadCodec} {T : Type} `{Environment T} `{OpenMls T} `{Ed25519} {S : Type} `{StorageOk S} `{!ReadOnly S}.
Abbreviation RWorld := (RoomManager.world (T := T) (S := S)).
Abbreviation Driver := (ServerDriver (T := T) (S := S)).

Definition next (room : Z) (w : RWorld) : Z :=
  Sequencer.next_of room (RoomManager.sequencer (RoomManager.rm w), RoomManager.store w).

(** The invariant is kept, the logs are untouched and no counter goes back. *)
Definition ordered (w w' : RWorld) : Prop :=
  RoomManager.winv w →
  RoomManager.winv w' ∧ (∀ r, log (RoomManager.store w') r = log (RoomManager.store w) r) ∧ (∀ r, next r w ≤ next r w').
#[local] Instance ordered_preorder : PreOrder ordered.
Proof.
  split.
  - intros w Hw. split_and!; auto. intros r. lia.
  - intros w1 w2 w3 H12 H23 Hw. destruct (H12 Hw) as (Hw2 & Hl2 & Hn2). destruct (H23 Hw2) as (Hw3 & Hl3 & Hn3).
    split_and!; [done|intros r; by rewrite Hl3|intros r; specialize (Hn2 r); specialize (Hn3 r); lia].
Qed.

Lemma ordered_same (w w' : RWorld) :
  RoomManager.sequencer (RoomManager.rm w') = RoomManager.sequencer (RoomManager.rm w) →
  same (RoomManager.store w) (RoomManager.store w') → ordered w w'.
Proof.
  intros Hq Hs Hw. pose proof (proj1 Hs) as Hl. split_and!; [|done|].
  - unfold RoomManager.winv. rewrite Hq. by eapply Sequencer.inv_same.
  - intros r. unfold next, Sequencer.next_of; cbn. rewrite Hq, Hl. lia.
Qed.

Lemma room_now_ordered : respects ordered (RoomManager.env_now (T := T) (S := S)).
Proof.
  intros w. destruct (RoomManager.world_now_spec w) as (t & e & ->). apply ordered_same; [done|apply same_refl].
Qed.
Lemma on_store_ordered {A} (op : M S StorageError A) :
  (∀ s, same s (snd (op s))) → respects ordered (RoomManager.on_store (T := T) op).
Proof.
  intros Hop w. unfold RoomManager.on_store. specialize (Hop (RoomManager.store w)).
  destruct (op (RoomManager.store w)) as [r s]. by apply ordered_same.
Qed.
Lemma on_group_ordered {A} room (op : M MlsGroup MlsError A) : respects ordered (RoomManager.on_group (S := S) room op).
Proof.
  intros w. unfold RoomManager.on_group. case_match; [|apply ordered_same; [done|apply same_refl]].
  destruct (op _) as [r g]. apply ordered_same; [done|apply same_refl].
Qed.
Lemma load_mls_keeps room (s : S) : same s (snd (load_mls_state room s)).
Proof. pose proof (load_mls_state_ok room s) as Hok. destruct (load_mls_state room s) as [[]]; naive_solver. Qed.
Lemma latest_keeps room (s : S) : same s (snd (latest_log_index room s)).
Proof. pose proof (latest_log_index_ok room s) as Hok. destruct (latest_log_index room s) as [[]]; naive_solver. Qed.

Lemma sequencer_ordered f : respects ordered (RoomManager.on_sequencer (T := T) (S := S) (Sequencer.process_frame f)).
Proof.
  intros w Hw. unfold RoomManager.on_sequencer.
  pose proof (Sequencer.process_frame_inv f _ Hw) as Hi.
  pose proof (Sequencer.process_frame_spec f _ _ Hw) as Hspec. cbn zeta in Hspec.
  destruct (Sequencer.process_frame f _) as [r [q s]]. cbn in *.
  assert (same (RoomManager.store w) s) as Hs by (destruct r; naive_solver).
  split; [done|]. split; [apply Hs|]. intros room. unfold next, Sequencer.next_of; cbn. rewrite (proj1 Hs).
  set (me := FrameHeader.room_id (Frame.header f)) in *.
  assert (∀ n, n = Sequencer.next_log_index (default {| Sequencer.next_log_index := zlen (log (RoomManager.store w) me) |}
      (Sequencer.rooms (RoomManager.sequencer (RoomManager.rm w)) !! me)) →
    ∀ m, n ≤ m → Sequencer.rooms q = <[me := {| Sequencer.next_log_index := m |}]>
      (Sequencer.rooms (RoomManager.sequencer (RoomManager.rm w))) →
    Sequencer.next_log_index (default {| Sequencer.next_log_index := zlen (log (RoomManager.store w) room) |}
      (Sequencer.rooms (RoomManager.sequencer (RoomManager.rm w)) !! room)) ≤
    Sequencer.next_log_index (default {| Sequencer.next_log_index := zlen (log (RoomManager.store w) room) |}
      (Sequencer.rooms q !! room))) as Hins.
  { intros n -> m Hm ->. destruct (decide (room = me)) as [->|]; [by rewrite lookup_insert_eq|by rewrite lookup_insert_ne]. }
  destruct r as [acts|e|]; [| |done].
  - destruct Hspec as (_ & _ & Ha). destruct (Sequencer.is_welcome f); [by destruct Ha as [_ ->]|].
    destruct Ha as (i & _ & _ & _ & Hi' & Hq). apply (Hins i Hi' (i + 1)); [lia|done].
  - destruct Hspec as [_ [->|[Hn Hq]]]; [done|]. rewrite Hn in Hins. by apply (Hins _ eq_refl _ (Z.le_refl _)).
Qed.
#[local] Hint Resolve room_now_ordered on_group_ordered sequencer_ordered : respects.
#[local] Hint Extern 1 (respects ordered (RoomManager.on_store _)) =>
  apply on_store_ordered; auto using load_mls_keeps, latest_keeps, load_keeps : respects.

Lemma rm_process_frame_ordered f : respects ordered (RoomManager.process_frame (T := T) (S := S) f).
Proof.
  unfold RoomManager.process_frame. apply (respects_bind ordered); [auto with respects|]. intros now.
  apply (respects_bind ordered); [auto with respects|]. intros w. case_match; [|auto with respects].
  apply (respects_bind ordered); [auto with respects|]. intros st.
  apply (respects_bind ordered); [auto with respects|]. intros _.
  apply (respects_bind ordered); [auto with respects|]. intros sacts.
  apply (respects_bind ordered); [auto with respects|]. intros _.
  case_match; [|auto with respects]. apply (respects_bind ordered); [apply on_group_ordered|auto with respects].
Qed.

Lemma rm_sync_ordered room who from limit :
  respects ordered (RoomManager.handle_sync_request (T := T) (S := S) room who from limit).
Proof.
  unfold RoomManager.handle_sync_request. apply (respects_bind ordered); [auto with respects|]. intros now.
  apply (respects_bind ordered); [auto with respects|]. intros w. case_match; [|auto with respects].
  apply (respects_bind ordered); [auto with respects|]. intros fs.
  apply (respects_bind ordered); [auto with respects|]. intros bs.
  apply (respects_bind ordered); [auto with respects|]. auto with respects.
Qed.

(** *** The driver *)
Definition dordered (d d' : Driver) : Prop := ordered (ServerDriver.world_of d) (ServerDriver.world_of d').
#[local] Instance dordered_preorder : PreOrder dordered.
Proof. split; unfold dordered; [by intros d|intros d1 d2 d3; by transitivity (ServerDriver.world_of d2)]. Qed.

Lemma env_now_ordered : respects dordered (ServerDriver.env_now (T := T) (S := S)).
Proof.
  intros d. destruct (ServerDriver.driver_now_spec d) as (t & e & ->). apply ordered_same; [done|apply same_refl].
Qed.
Lemma on_rooms_ordered {A} (op : M RWorld RoomError A) : respects ordered op → respects dordered (ServerDriver.on_rooms op).
Proof.
  intros Hop d. specialize (Hop (ServerDriver.world_of d)). unfold ServerDriver.on_rooms, m_zoom, m_map_err, dordered.
  by destruct (op (ServerDriver.world_of d)) as [r []].
Qed.
Lemma on_registry_ordered {A} (op : ConnectionRegistry → A * ConnectionRegistry) :
  respects dordered (ServerDriver.on_registry (T := T) (S := S) op).
Proof. intros d. unfold ServerDriver.on_registry, dordered. by destruct (op _). Qed.
Lemma set_connection_ordered sid c : respects dordered (ServerDriver.set_connection (T := T) (S := S) sid c).
Proof. by intros d. Qed.
#[local] Hint Resolve env_now_ordered on_rooms_ordered on_registry_ordered set_connection_ordered
  rm_process_frame_ordered rm_sync_ordered : respects.

Lemma convert_ordered a sid : respects dordered (ServerDriver.convert_room_action (T := T) (S := S) a sid).
Proof. destruct a; cbn; repeat case_match; auto with respects. Qed.
Lemma error_response_ordered sid room e : respects dordered (ServerDriver.make_error_response (T := T) (S := S) sid room e).
Proof. unfold ServerDriver.make_error_response. repeat case_match; auto with respects. Qed.
#[local] Hint Resolve convert_ordered error_response_ordered : respects.
Lemma sync_ordered sid f : respects dordered (ServerDriver.handle_sync_request (T := T) (S := S) sid f).
Proof.
  unfold ServerDriver.handle_sync_request. apply (respects_bind dordered).
  - apply (respects_try dordered), (respects_bind dordered); [auto with respects|]. intros p.
    destruct p; auto with respects.
  - intros []; auto with respects.
Qed.
Lemma room_frame_ordered_d sid f : respects dordered (ServerDriver.process_room_frame (T := T) (S := S) sid f).
Proof. unfold ServerDriver.process_room_frame. auto 6 with respects. Qed.
#[local] Hint Resolve sync_ordered room_frame_ordered_d : respects.

Lemma event_ordered ev : respects dordered (ServerDriver.process_event (T := T) (S := S) ev).
Proof.
  destruct ev as [sid|sid f|sid reason|]; cbn.
  - unfold ServerDriver.handle_connection_accepted. apply (respects_bind dordered); [auto with respects|]. intros now.
    apply (respects_bind dordered); [auto with respects|]. intros d. case_match; auto 6 with respects.
  - unfold ServerDriver.handle_frame_received. apply (respects_bind dordered); [auto with respects|]. intros now.
    apply (respects_bind dordered); [auto with respects|]. intros d.
    repeat case_match; auto 8 with respects.
  - unfold ServerDriver.handle_connection_closed. apply (respects_bind dordered); [auto with respects|]. intros now.
    apply (respects_bind dordered); [by intros d|]. intros _.
    apply (respects_bind dordered); [auto with respects|]. intros r. repeat case_match; auto with respects.
  - unfold ServerDriver.handle_tick. apply (respects_bind dordered); [auto with respects|]. intros now.
    apply (respects_bind dordered); [auto with respects|]. intros d.
    apply (respects_concat_map dordered). intros sid _. unfold ServerDriver.tick_session.
    apply (respects_bind dordered); [auto with respects|]. intros d'. repeat case_match; auto with respects.
Qed.

(** *** The actions of a turn *)

(** A method whose actions store no frame. *)
Definition calm (m : M Driver ServerError (list ServerAction)) : Prop :=
  ∀ d acts d', m d = (Ok acts, d') → Forall quiet acts.

Lemma calm_ret acts : Forall quiet acts → calm (mret acts).
Proof. by intros Hq d ? ? [= <- <-]. Qed.
Lemma calm_fail r : (∀ acts, r ≠ Ok acts) → calm (m_lift r).
Proof. intros Hr d acts d' [= Hr' _]. by apply Hr in Hr'. Qed.
Lemma calm_err e : calm (m_err e).
Proof. by intros d acts d'. Qed.
Lemma calm_bind {A} (m : M Driver ServerError A) f : (∀ a, calm (f a)) → calm (m ≫= f).
Proof.
  intros Hf d acts d'. munfold. destruct (m d) as [[a|e|] d1]; [apply Hf|done..].
Qed.
Lemma calm_concat_map {A} (f : A → M Driver ServerError (list ServerAction)) l :
  (∀ a, calm (f a)) → calm (m_concat_map f l).
Proof.
  intros Hf. induction l as [|a l IH]; [by apply calm_ret|]. cbn [m_concat_map]. intros d acts d'. munfold.
  destruct (f a d) as [[ys|e|] d1] eqn:Ef; [|done..]. destruct (m_concat_map f l d1) as [[zs|e|] d2] eqn:Em; [|done..].
  intros [= <- <-]. apply Forall_app_2; [by eapply Hf|by eapply IH].
Qed.
Lemma conn_actions_quiet sid acts : Forall quiet (map (ServerDriver.conn_action sid) acts).
Proof. induction acts as [|[] acts IH]; cbn; constructor; done. Qed.
Create HintDb calm.
#[local] Hint Resolve calm_ret calm_err calm_bind calm_concat_map conn_actions_quiet : calm.
#[local] Hint Extern 1 (Forall quiet _) => repeat constructor : calm.
#[local] Hint Extern 1 (calm (m_lift Panic)) => by apply calm_fail : calm.

Lemma error_response_calm sid room e : calm (ServerDriver.make_error_response sid room e).
Proof. unfold ServerDriver.make_error_response. repeat case_match; auto with calm. Qed.

Lemma calm_bind_post {A} (P : A → Prop) (m : M Driver ServerError A) f :
  (∀ d a d', m d = (Ok a, d') → P a) → (∀ a, P a → calm (f a)) → calm (m ≫= f).
Proof.
  intros Hm Hf d acts d'. munfold. destruct (m d) as [[a|e|] d1] eqn:Em; [|done..]. apply Hf. by eapply Hm.
Qed.
Lemma calm_try {E'} (m : M Driver E' (list ServerAction)) k :
  (∀ d acts d', m d = (Ok acts, d') → Forall quiet acts) → (∀ r, (∀ acts, r ≠ Ok acts) → calm (k r)) →
  (∀ acts, k (Ok acts) = mret acts) → calm (m_try m ≫= k).
Proof.
  intros Hm Hk Hok d acts d'. unfold m_try. munfold. destruct (m d) as [[a|e|] d1] eqn:Em; [|by apply Hk|done].
  rewrite Hok. intros [= <- _]. by eapply Hm.
Qed.

Definition is_response (a : RoomAction) : Prop :=
  match a with RoomManager.SendSyncResponse _ _ _ _ _ _ => True | _ => False end.
Lemma sync_responds room who from limit (w : RWorld) a w' :
  RoomManager.handle_sync_request room who from limit w = (Ok a, w') → is_response a.
Proof.
  unfold RoomManager.handle_sync_request. munfold. intros Ea.
  repeat (case_match; simplify_eq/=; try done).
Qed.

(** A sync request is answered by a response, an error or a log line. *)
Lemma sync_calm sid f : calm (ServerDriver.handle_sync_request sid f).
Proof.
  unfold ServerDriver.handle_sync_request. apply calm_try.
  - apply calm_bind. intros p. destruct p; auto with calm.
    apply (calm_bind_post is_response).
    + intros d a d'. unfold ServerDriver.on_rooms, m_zoom, m_map_err.
      destruct (RoomManager.handle_sync_request _ _ _ _ _) as [[a0|e|] w] eqn:Ea; [|done..].
      intros [= <- _]. by eapply sync_responds.
    + intros [] Ha; try done. cbn. case_match; auto with calm.
  - intros [a|e|] Hr; [by destruct (Hr a)|apply error_response_calm|by apply calm_fail].
  - done.
Qed.
#[local] Hint Resolve error_response_calm sync_calm : calm.

(** A stored frame has the index its room had next, and the counter has moved
    past it. *)
Definition issued (d d' : Driver) (a : ServerAction) : Prop :=
  match a with
  | PersistFrame room i f =>
      i = next room (ServerDriver.world_of d) ∧ i < next room (ServerDriver.world_of d') ∧
      FrameHeader.log_index (Frame.header f) = i
  | _ => True
  end.
Lemma quiet_issued d d' acts : Forall quiet acts → Forall (issued d d') acts.
Proof. apply Forall_impl. by intros []. Qed.

Definition room_quiet (a : RoomAction) : Prop :=
  match a with RoomManager.PersistFrame _ _ _ _ => False | _ => True end.

Lemma welcome_quiet (w : RWorld) f acts w' :
  RoomManager.winv w → Sequencer.is_welcome f = true → RoomManager.process_frame f w = (Ok acts, w') →
  Forall room_quiet acts.
Proof.
  intros Hw Hwel Hp. destruct (RoomManager.process_frame_Ok _ _ _ _ Hw Hp)
    as (g & sacts & t & extra & _ & _ & _ & _ & -> & Hx & _ & _ & Ha).
  rewrite Hwel in Ha. subst sacts. destruct Hx as [->|[st ->]]; repeat constructor.
Qed.

Lemma convert_calm a sid : room_quiet a → calm (ServerDriver.convert_room_action a sid).
Proof. destruct a; intros Hq; cbn; repeat case_match; auto with calm; done. Qed.
Lemma convert_all_calm acts sid : Forall room_quiet acts → calm (m_concat_map (λ a, ServerDriver.convert_room_action a sid) acts).
Proof.
  induction 1 as [|a acts Ha _ IH]; [by apply calm_ret|]. cbn [m_concat_map]. intros d out d'. munfold.
  destruct (ServerDriver.convert_room_action a sid d) as [[ys|e|] d1] eqn:Ef; [|done..].
  destruct (m_concat_map _ acts d1) as [[zs|e|] d2] eqn:Em; [|done..].
  intros [= <- <-]. apply Forall_app_2; [by eapply convert_calm|by eapply IH].
Qed.

(** Frames that are not numbered lead to no store: those of the session layer, *)
Lemma session_frame_quiet sid f d acts d' :
  ServerDriver.session_opcode (FrameHeader.opcode_enum (Frame.header f)) = true →
  ServerDriver.process_event (FrameReceived sid f) d = (Ok acts, d') → Forall quiet acts.
Proof.
  intros Ho. apply (λ H, H d acts d'). cbn. change (calm (ServerDriver.handle_frame_received sid f)).
  unfold ServerDriver.handle_frame_received. apply calm_bind. intros now. apply calm_bind. intros d0.
  case_match; [|auto with calm].
  destruct (FrameHeader.opcode_enum (Frame.header f)) as [[]|]; try done;
    repeat case_match; auto 8 with calm; repeat (apply calm_bind; intros); auto with calm.
Qed.

(** and welcomes. *)
Lemma welcome_frame_quiet sid f d acts d' :
  RoomManager.winv (ServerDriver.world_of d) → Sequencer.is_welcome f = true →
  ServerDriver.process_event (FrameReceived sid f) d = (Ok acts, d') → Forall quiet acts.
Proof.
  intros Hw Hwel Hp. destruct (ServerDriver.connections d !! sid) as [c|] eqn:Hc; swap 1 2.
  { cbn in Hp. unfold ServerDriver.handle_frame_received in Hp.
    destruct (ServerDriver.driver_now_spec d) as (now & e & Hn). munfold. rewrite Hn in Hp. cbn in Hp. by rewrite Hc in Hp. }
  assert (ServerDriver.session_opcode (FrameHeader.opcode_enum (Frame.header f)) = false) as Ho.
  { unfold Sequencer.is_welcome in Hwel. by destruct (FrameHeader.opcode_enum _) as [[]|]. }
  destruct (ServerDriver.handle_room_frame sid f d c Hc Ho) as (now & e & _ & Heq). rewrite Hp in Heq. clear Hp.
  set (d1 := ServerDriver.with_world _ d) in *. unfold ServerDriver.route_room_frame in Heq. rewrite Hwel in Heq.
  munfold. unfold ServerDriver.on_registry in Heq.
  destruct (ConnectionRegistry.subscribe _ _ (ServerDriver.registry d1)) as [b reg]. cbn in Heq.
  destruct (ServerDriver.process_room_frame sid f (ServerDriver.with_registry reg d1)) as [[out|e'|] d2] eqn:Epr;
    cbn in Heq; [|by simplify_eq..]. injection Heq as -> _. constructor; [done|].
  unfold ServerDriver.process_room_frame, ServerDriver.on_rooms, m_zoom, m_map_err in Epr. munfold.
  destruct (RoomManager.process_frame f _) as [[racts|e'|] w'] eqn:Hpf; cbn in Epr; [|done..].
  eapply (convert_all_calm racts sid); [|exact Epr]. eapply welcome_quiet; [|exact Hwel|exact Hpf]. exact Hw.
Qed.

Lemma unordered_quiet sid f d acts d' :
  RoomManager.winv (ServerDriver.world_of d) →
  ¬ (ServerDriver.session_opcode (FrameHeader.opcode_enum (Frame.header f)) = false ∧ Sequencer.is_welcome f = false) →
  ServerDriver.process_event (FrameReceived sid f) d = (Ok acts, d') → Forall quiet acts.
Proof.
  intros Hw Hn. destruct (ServerDriver.session_opcode _) eqn:Ho; [by apply session_frame_quiet|].
  destruct (Sequencer.is_welcome f) eqn:Hwel; [by apply welcome_frame_quiet|naive_solver].
Qed.

(** A frame that is numbered. *)
Lemma ordered_frame_issued sid f d acts d' :
  RoomManager.winv (ServerDriver.world_of d) →
  ServerDriver.session_opcode (FrameHeader.opcode_enum (Frame.header f)) = false → Sequencer.is_welcome f = false →
  ServerDriver.process_event (FrameReceived sid f) d = (Ok acts, d') → Forall (issued d d') acts.
Proof.
  intros Hw Ho Hwel Hp.
  destruct (ServerDriver.room_frame_ordered _ _ _ _ _ Hw Ho Hwel Hp) as (rest & -> & Hx & Hw' & Hl & Hn).
  set (room := FrameHeader.room_id (Frame.header f)) in *.
  pose proof (Sequencer.next_of_bound room _ Hw') as Hb.
  assert (issued d d' (PersistFrame room (next room (ServerDriver.world_of d))
    (Sequencer.rebuild_frame_with_index f (next room (ServerDriver.world_of d))))) as Hi.
  { unfold issued, next, ServerDriver.world_of in *. cbn [RoomManager.rm RoomManager.store] in *.
    pose proof (Sequencer.next_of_bound room _ Hw) as Hb0. cbn in Hb0.
    pose proof (zlen_nonneg (log (ServerDriver.storage d) room)).
    split_and!; [done|lia|]. apply Sequencer.rebuild_log_index. lia. }
  constructor; [exact Hi|]. constructor; [exact Hi|]. constructor; [done|].
  destruct Hx as [->|[st ->]]; repeat constructor.
Qed.

Lemma event_issued ev d acts d' :
  RoomManager.winv (ServerDriver.world_of d) → ServerDriver.process_event ev d = (Ok acts, d') →
  Forall (issued d d') acts.
Proof.
  intros Hw Hp. destruct ev as [sid|sid f|sid reason|].
  - apply quiet_issued. revert Hp. apply (λ H, H d acts d'). cbn. change (calm (ServerDriver.handle_connection_accepted sid)).
    unfold ServerDriver.handle_connection_accepted. apply calm_bind. intros now. apply calm_bind. intros d0.
    case_match; auto 6 with calm.
  - destruct (decide (ServerDriver.session_opcode (FrameHeader.opcode_enum (Frame.header f)) = false ∧ Sequencer.is_welcome f = false))
      as [[Ho Hwel]|Hn]; [by eapply ordered_frame_issued|]. apply quiet_issued. by eapply unordered_quiet.
  - apply quiet_issued. revert Hp. apply (λ H, H d acts d'). cbn. change (calm (ServerDriver.handle_connection_closed sid reason)).
    unfold ServerDriver.handle_connection_closed. do 3 (apply calm_bind; intros). repeat case_match; auto with calm.
  - apply quiet_issued. revert Hp. apply (λ H, H d acts d'). cbn. change (calm ServerDriver.handle_tick).
    unfold ServerDriver.handle_tick. do 2 (apply calm_bind; intros). apply calm_concat_map. intros sid.
    unfold ServerDriver.tick_session. apply calm_bind. intros d0. repeat case_match; auto with calm.
Qed.

(** *** Executing actions *)
Abbreviation Runtime := (Server.Runtime (T := T) (S := S)).
Definition world (rt : Runtime) : RWorld := ServerDriver.world_of (driver rt).
Definition logs (rt : Runtime) (room : Z) : list Frame := log (RoomManager.store (world rt)) room.

(** An action whose index has been handed out, and that carries it. *)
Definition fresh (rt : Runtime) (a : ServerAction) : Prop :=
  match a with
  | PersistFrame room i f => i < next room (world rt) ∧ FrameHeader.log_index (Frame.header f) = i
  | _ => True
  end.

(** Logs grow at their ends, counters do not go back. *)
Record grown (rt rt' : Runtime) : Prop := {
  grown_winv : RoomManager.winv (world rt');
  grown_logs : ∀ r, logs rt r `prefix_of` logs rt' r;
  grown_next : ∀ r, next r (world rt) ≤ next r (world rt') }.

Lemma grown_refl rt : RoomManager.winv (world rt) → grown rt rt.
Proof. intros Hw. split; [done|done|intros r; lia]. Qed.
Lemma grown_trans rt1 rt2 rt3 : grown rt1 rt2 → grown rt2 rt3 → grown rt1 rt3.
Proof.
  intros [_ L1 N1] [W L2 N2]. split; [done|intros r; etransitivity; [apply L1|apply L2]|intros r; specialize (N1 r); specialize (N2 r); lia].
Qed.
Lemma grown_same rt rt' : RoomManager.winv (world rt) → ordered (world rt) (world rt') → grown rt rt'.
Proof. intros Hw Ho. destruct (Ho Hw) as (W & L & N). split; [done| |done]. intros r. unfold logs. by rewrite L. Qed.
Lemma fresh_grown rt rt' a : grown rt rt' → fresh rt a → fresh rt' a.
Proof. intros [_ _ N]. destruct a; cbn; try done. intros [? ?]. split; [|done]. specialize (N room_id). lia. Qed.

Lemma next_eq r (w w' : RWorld) :
  RoomManager.sequencer (RoomManager.rm w') = RoomManager.sequencer (RoomManager.rm w) →
  log (RoomManager.store w') r = log (RoomManager.store w) r → next r w' = next r w.
Proof. intros Hq Hl. unfold next, Sequencer.next_of; cbn. by rewrite Hq, Hl. Qed.

(** What an action does to the log of a room. *)
Definition effect (room : Z) (a : ServerAction) (rt rt' : Runtime) : Prop :=
  logs rt' room = logs rt room ∨
  ∃ f, a = PersistFrame room (zlen (logs rt room)) f ∧ logs rt' room = logs rt room ++ [f].

Lemma write_world sid buf (rt : Runtime) : world (write_to sid buf rt) = world rt.
Proof. unfold world. by rewrite write_to_driver. Qed.
Lemma broadcast_world (ex : option Z) buf ss (rt : Runtime) :
  world (foldl (λ rt sid, if decide (Some sid = ex) then rt else write_to sid buf rt) rt ss) = world rt.
Proof.
  revert rt. induction ss as [|sid ss IH]; intros rt; [done|]. cbn [foldl]. rewrite IH. case_decide; [done|apply write_world].
Qed.
Lemma quiet_world a rt :
  quiet a → RoomManager.sequencer (RoomManager.rm (world (snd (execute_action a rt)))) = RoomManager.sequencer (RoomManager.rm (world rt))
    ∧ ∀ r, logs (snd (execute_action a rt)) r = logs rt r.
Proof.
  intros Hq. split; [|intros r; exact (Server.quiet_action a rt r Hq)].
  destruct a as [sid f|r f ex|sid why|r i f|r st|l m t]; cbn [execute_action]; try done.
  - munfold. destruct (decide (sid ∈ live rt)); [|done]. destruct (encode_ f); [|done..]. cbn [snd]. by rewrite write_world.
  - munfold. destruct (encode_ f) as [buf| |]; [|done..]. cbn [snd]. by rewrite broadcast_world.
  - unfold on_storage. by destruct (store_mls_state r st _).
Qed.

Lemma execute_action_spec a rt :
  RoomManager.winv (world rt) → fresh rt a →
  grown rt (snd (execute_action a rt)) ∧ ∀ room, effect room a rt (snd (execute_action a rt)).
Proof.
  intros Hw Hf. destruct (match a with PersistFrame _ _ _ => false | _ => true end) eqn:Hq.
  - assert (quiet a) as Hqa by by destruct a. destruct (quiet_world a rt Hqa) as [Hs Hl].
    split; [|intros room; by left]. split.
    + destruct Hw as [I1 I2 I3]. unfold RoomManager.winv. rewrite Hs.
      split; cbn in *; intros room; unfold logs in Hl; rewrite Hl; auto.
    + intros r. by rewrite Hl.
    + intros r. apply Z.eq_le_incl. symmetry. apply next_eq; [done|apply Hl].
  - destruct a as [| | |room i f| |]; try done. destruct Hf as [Hlt Hix]. cbn [execute_action]. unfold on_storage.
    destruct (Sequencer.store_issued _ _ room i f Hw Hlt Hix) as (Hinv & Hnext & Hother & Hroom). cbn in Hinv, Hnext, Hother, Hroom.
    destruct (store_frame room i f _) as [r s']. cbn [snd] in *. split; [split|].
    + exact Hinv.
    + intros x. change (log (RoomManager.store (world rt)) x `prefix_of` log s' x).
      destruct (decide (x = room)) as [->|N]; [|by rewrite Hother]. destruct Hroom as [->|[_ ->]]; [done|by apply prefix_app_r].
    + intros x. unfold next. cbn. by rewrite Hnext.
    + intros x. destruct (decide (x = room)) as [->|N]; [|left; by apply Hother].
      destruct Hroom as [Hl|[-> Hl]]; [by left|right]. eauto.
Qed.

(** An action that would write to the log of [room] only past its end. *)
Definition late (room : Z) (rt : Runtime) (a : ServerAction) : Prop :=
  match a with PersistFrame r i _ => r = room → zlen (logs rt room) < i | _ => True end.

Lemma execute_actions_spec acts rt :
  RoomManager.winv (world rt) → Forall (fresh rt) acts →
  grown rt (snd (execute_actions acts rt)) ∧
  ∀ room, Forall (late room rt) acts → logs (snd (execute_actions acts rt)) room = logs rt room.
Proof.
  unfold execute_actions. revert rt. induction acts as [|a acts IH]; intros rt Hw Hf.
  { split; [by apply grown_refl|done]. }
  apply Forall_cons_iff in Hf as [Ha Hf]. destruct (execute_action_spec a rt Hw Ha) as [Hg He]. cbn [m_iter]. munfold.
  assert (∀ room, late room rt a → logs (snd (execute_action a rt)) room = logs rt room) as Hl.
  { intros room Hl. destruct (He room) as [?|(f & -> & _)]; [done|]. cbn in Hl. specialize (Hl eq_refl). lia. }
  destruct (execute_action a rt) as [[[]|e|] rt1]; cbn [snd] in *.
  - destruct (IH rt1 (grown_winv _ _ Hg)) as [Hg' Hl'].
    { eapply Forall_impl; [|exact Hf]. intros b. by apply fresh_grown. }
    split; [by eapply grown_trans|]. intros room [Hla Hlas]%Forall_cons_iff. rewrite Hl'; [by apply Hl|].
    eapply Forall_impl; [|exact Hlas]. intros []; cbn; rewrite ?(Hl room Hla); done.
  - split; [done|]. intros room [Hla _]%Forall_cons_iff. by apply Hl.
  - split; [done|]. intros room [Hla _]%Forall_cons_iff. by apply Hl.
Qed.

(** Executing never panics. *)
Lemma execute_no_panic acts rt : fst (execute_actions acts rt) ≠ Panic.
Proof.
  assert (∀ a rt, fst (execute_action a rt) ≠ Panic) as Ha.
  { clear acts rt. intros a rt. assert (∀ f, encode_ f ≠ Panic) as He.
    { intros f. unfold encode_, Frame.encode. by case_match; case_match; simplify_eq. }
    destruct a as [sid f|r f ex|sid why|r i f|r st|l m t]; cbn [execute_action]; munfold; try done.
    - specialize (He f). case_decide; [|done]. by destruct (encode_ f).
    - specialize (He f). by destruct (encode_ f).
    - unfold on_storage. pose proof (store_frame_ok r i f (ServerDriver.storage (driver rt))) as Hok.
      by destruct (store_frame r i f _) as [[]].
    - unfold on_storage. pose proof (store_mls_state_ok r st (ServerDriver.storage (driver rt))) as Hok.
      by destruct (store_mls_state r st _) as [[]]. }
  revert rt. unfold execute_actions. induction acts as [|a acts IH]; intros rt; [done|]. cbn [m_iter]. munfold.
  specialize (Ha a rt). destruct (execute_action a rt) as [[[]|e|] rt1]; [apply IH|done..].
Qed.

(** Processing: no log changes, and what is to be stored has just been numbered. *)
Lemma process_turn ev rt r rt' :
  RoomManager.winv (world rt) → process ev rt = (r, rt') →
  grown rt rt' ∧ (∀ room, logs rt' room = logs rt room) ∧
  ∀ acts, r = Ok acts → Forall (λ a, fresh rt' a ∧ ∀ room, zlen (logs rt room) < next room (world rt) → late room rt' a) acts.
Proof.
  intros Hw Hp. pose proof (event_ordered ev (driver rt)) as Ho. unfold process in Hp.
  destruct (ServerDriver.process_event ev (driver rt)) as [r0 d] eqn:He. cbn [snd] in Ho. injection Hp as Hr <-.
  assert (ordered (world rt) (world (with_driver d rt))) as Ho' by exact Ho.
  assert (∀ room, logs (with_driver d rt) room = logs rt room) as Hl by (destruct (Ho' Hw) as (_ & ? & _); done).
  split; [by apply grown_same|]. split; [done|].
  intros acts ->. destruct r0 as [acts'|e|]; [|done..]. injection Hr as <-.
  eapply Forall_impl; [|exact (event_issued ev _ _ _ Hw He)]. intros [| | |room i f| |] Hi; try done.
  destruct Hi as (-> & Hlt & Hix). split; [by split|]. intros x Hx ->. by rewrite Hl.
Qed.

(** *** Schedules *)
Abbreviation Sys := (System (T := T) (S := S)).

(** The actions that wait for the lock. *)
Definition pending (c : Sys) (a : ServerAction) : Prop :=
  ∃ tid t acts, tasks c !! tid = Some t ∧ todo t = Some acts ∧ a ∈ acts.

Record sound (c : Sys) : Prop := {
  sound_world : RoomManager.winv (world (shared c));
  sound_pending : ∀ a, pending c a → fresh (shared c) a }.

(** A room whose counter has passed the end of its log, where no waiting action can
    close the gap. *)
Record wedged (room : Z) (c : Sys) : Prop := {
  wedged_gap : zlen (logs (shared c) room) < next room (world (shared c));
  wedged_pending : ∀ a, pending c a → late room (shared c) a }.

(** A turn, with the actions it adds to those that wait. *)
Definition turn (c c' : Sys) : Prop :=
  grown (shared c) (shared c') ∧
  (∀ a, pending c' a → pending c a ∨ fresh (shared c') a) ∧
  ∀ room, wedged room c →
    logs (shared c') room = logs (shared c) room ∧ ∀ a, pending c' a → pending c a ∨ late room (shared c') a.

Lemma pending_insert tid t c rt a :
  pending {| shared := rt; tasks := <[tid := t]> (tasks c) |} a →
  pending c a ∨ ∃ acts, todo t = Some acts ∧ a ∈ acts.
Proof.
  intros (tid' & t' & acts & Ht & Ha & Hin). cbn in Ht.
  apply lookup_insert_Some in Ht as [[_ <-]|[_ Ht]]; [right; eauto|left; by exists tid', t', acts].
Qed.
Lemma pending_delete tid c rt a : pending {| shared := rt; tasks := delete tid (tasks c) |} a → pending c a.
Proof.
  intros (tid' & t' & acts & Ht & Ha & Hin). cbn in Ht. apply lookup_delete_Some in Ht as [_ Ht]. by exists tid', t', acts.
Qed.

Lemma turn_idle (c c' : Sys) :
  RoomManager.winv (world (shared c)) → driver (shared c') = driver (shared c) →
  (∀ a, pending c' a → pending c a) → turn c c'.
Proof.
  intros Hw Hd Hp. assert (world (shared c') = world (shared c)) as Hwd by (unfold world; by rewrite Hd).
  split_and!; [|by eauto|].
  - split; [by rewrite Hwd|intros r; unfold logs; by rewrite Hwd|intros r; rewrite Hwd; lia].
  - intros room _. split; [unfold logs; by rewrite Hwd|by eauto].
Qed.

Lemma turn_both ev (c : Sys) r rt :
  RoomManager.winv (world (shared c)) →
  (acts ← process ev; execute_actions acts) (shared c) = (r, rt) → turn c {| shared := rt; tasks := tasks c |}.
Proof.
  intros Hw. munfold. destruct (process ev (shared c)) as [r1 rt1] eqn:Hp.
  destruct (process_turn _ _ _ _ Hw Hp) as (Hg & Hl & Ha). intros Hx.
  assert (turn c {| shared := rt1; tasks := tasks c |}) as Hstop.
  { split_and!; [done|intros a Hpa; by left|]. intros room _. split; [apply Hl|intros a Hpa; by left]. }
  destruct r1 as [acts|e|]; [|injection Hx as _ <-; exact Hstop..].
  specialize (Ha acts eq_refl). destruct (execute_actions_spec acts rt1 (grown_winv _ _ Hg)) as [Hg' Hl'].
  { eapply Forall_impl; [|exact Ha]. by intros a [? _]. }
  rewrite Hx in *. cbn in *. split_and!; [by eapply grown_trans|intros a Hpa; by left|].
  intros room [Hgap _]. split; [|intros a Hpa; by left]. cbn. rewrite Hl'; [apply Hl|].
  eapply Forall_impl; [|exact Ha]. intros a [_ Hlate]. by apply Hlate.
Qed.

Lemma step_turn c c' : sound c → step c c' → turn c c'.
Proof.
  intros [Hw Hf] Hs. destruct Hs as [sid c|sid c r rt Hr _|tid sid frames c Hn|tid t f fs c r rt Ht Hto Hu Hp _
    |tid t acts c r rt Ht Hto He _|tid t c Ht Hto|sid c|sid c r rt Hr _].
  - by apply turn_idle.
  - by eapply turn_both.
  - apply turn_idle; [done..|]. intros a [?|(acts & [=] & _)]%pending_insert. done.
  - destruct (process_turn _ _ _ _ Hw Hp) as (Hg & Hl & Ha).
    assert (∀ a, pending {| shared := rt; tasks := <[tid := processed t fs r]> (tasks c) |} a →
      pending c a ∨ ∃ acts, r = Ok acts ∧ a ∈ acts) as Hpend.
    { intros a [?|(acts & Hac & Hin)]%pending_insert; [by left|right]. destruct r; simplify_eq/=. eauto. }
    split_and!; [done| |].
    + intros a [?|(acts & -> & Hin)]%Hpend; [by left|right]. specialize (Ha _ eq_refl).
      rewrite list.Forall_forall in Ha. by apply Ha.
    + intros room [Hgap _]. split; [apply Hl|]. intros a [?|(acts & -> & Hin)]%Hpend; [by left|right].
      specialize (Ha _ eq_refl). rewrite list.Forall_forall in Ha. by apply Ha.
  - assert (∀ a, a ∈ acts → pending c a) as Hin by (intros a Ha; by exists tid, t, acts).
    destruct (execute_actions_spec acts (shared c) Hw) as [Hg Hl]; [apply list.Forall_forall; auto|].
    assert (∀ a, pending {| shared := rt; tasks := executed tid t r (tasks c) |} a → pending c a) as Hpend.
    { intros a. destruct r; cbn; [|apply pending_delete..]. intros [?|(? & [=] & _)]%pending_insert. done. }
    rewrite He in *. cbn in *. split_and!; [done|by eauto|].
    intros room [_ Hlate]. split; [|by eauto]. apply Hl. apply list.Forall_forall. auto.
  - apply turn_idle; [done..|]. intros a. apply pending_delete.
  - by apply turn_idle.
  - by eapply turn_both.
Qed.

Lemma sound_turn c c' : sound c → turn c c' → sound c'.
Proof.
  intros [Hw Hf] (Hg & Hp & _). split; [apply Hg|]. intros a [Ha|]%Hp; [|done]. eapply fresh_grown; eauto.
Qed.
Lemma wedged_turn room c c' : wedged room c → turn c c' → wedged room c' ∧ logs (shared c') room = logs (shared c) room.
Proof.
  intros Hwg (Hg & _ & Hr). destruct (Hr room Hwg) as [Hl Hp]. destruct Hwg as [Hgap Hlate]. split; [|done]. split.
  - rewrite Hl. pose proof (grown_next _ _ Hg room). lia.
  - intros a [Ha|]%Hp; [|done]. specialize (Hlate a Ha). destruct a; cbn in *; by rewrite ?Hl.
Qed.

Lemma schedule_sound c c' :
  rtc step c c' → sound c → sound c' ∧ grown (shared c) (shared c').
Proof.
  induction 1 as [c|c1 c2 c3 Hs _ IH]; intros Hc; [split; [done|apply grown_refl, Hc]|].
  pose proof (step_turn _ _ Hc Hs) as Ht. destruct (IH (sound_turn _ _ Hc Ht)) as [Hc3 Hg].
  split; [done|]. eapply grown_trans; [apply Ht|done].
Qed.
Lemma schedule_wedged room c c' :
  rtc step c c' → sound c → wedged room c → wedged room c' ∧ logs (shared c') room = logs (shared c) room.
Proof.
  induction 1 as [c|c1 c2 c3 Hs _ IH]; intros Hc Hwg; [done|].
  pose proof (step_turn _ _ Hc Hs) as Ht. destruct (wedged_turn _ _ _ Hwg Ht) as [Hwg2 Hl].
  destruct (IH (sound_turn _ _ Hc Ht) Hwg2) as [? ->]. done.
Qed.

(** C12: every schedule keeps the log safe.  Whatever turns the tasks take, in
    whatever order, the invariant of sequencer and storage holds after them (every
    log is numbered without gap from 0 and no counter is behind its log), each log is
    an extension of what it was, no counter goes back, and every frame that waits
    to be stored carries an index that was handed out. *)
Theorem schedule_log_safe c c' room :
  sound c → rtc step c c' →
  sound c'
  ∧ logs (shared c) room `prefix_of` logs (shared c') room
  ∧ Sequencer.indexed (logs (shared c') room)
  ∧ next room (world (shared c)) ≤ next room (world (shared c'))
  ∧ zlen (logs (shared c') room) ≤ next room (world (shared c')).
Proof.
  intros Hc Hs. destruct (schedule_sound _ _ Hs Hc) as [Hc' [Hw Hl Hn]].
  split_and!; [done|apply Hl|apply (Sequencer.inv_indexed _ Hw)|apply Hn|].
  exact (proj1 (Sequencer.next_of_bound room _ Hw)).
Qed.

(** A wedged room stays wedged.  Once a room's counter is past the end of its
    log and no waiting action can write at the end, no schedule of any number of
    tasks, connections and frames ever stores a frame of that room again. *)
Theorem wedged_for_good c c' room :
  sound c → wedged room c → rtc step c c' →
  wedged room c' ∧ logs (shared c') room = logs (shared c) room.
Proof. intros Hc Hwg Hs. by apply schedule_wedged. Qed.

(** *** The race *)

Definition idle (c : Sys) : Prop := ∀ tid t, tasks c !! tid = Some t → todo t = None.
Lemma idle_not_pending c a : idle c → ¬ pending c a.
Proof. intros Hi (tid & t & acts & Ht & Ha & _). rewrite (Hi _ _ Ht) in Ha. done. Qed.

Lemma idle_executed (c : Sys) rt tid t r ts :
  (∀ x t', x ≠ tid → ts !! x = Some t' → todo t' = None) → idle {| shared := rt; tasks := executed tid t r ts |}.
Proof.
  intros Hi x t'. destruct r; cbn; rewrite ?lookup_insert_Some, ?lookup_delete_Some; naive_solver.
Qed.
Lemma executed_ne tid t r ts x : x ≠ tid → executed tid t r ts !! x = ts !! x.
Proof. intros Hx. destruct r; cbn; by rewrite ?lookup_insert_ne, ?lookup_delete_ne. Qed.

(** Two tasks take the lock in turn to process, and again in the other order to
    execute. *)
Lemma race_schedule (c : Sys) x y t1 t2 f1 fs1 f2 fs2 a1 a2 rt1 rt2 :
  x ≠ y → idle c → tasks c !! x = Some t1 → tasks c !! y = Some t2 → unread t1 = f1 :: fs1 → unread t2 = f2 :: fs2 →
  process (FrameReceived (session t1) f1) (shared c) = (Ok a1, rt1) →
  process (FrameReceived (session t2) f2) rt1 = (Ok a2, rt2) →
  ∃ ts2 ts, rtc step c {| shared := rt2; tasks := ts2 |}
    ∧ rtc step {| shared := rt2; tasks := ts2 |}
        {| shared := snd (execute_actions a1 (snd (execute_actions a2 rt2))); tasks := ts |}
    ∧ idle {| shared := snd (execute_actions a1 (snd (execute_actions a2 rt2))); tasks := ts |}.
Proof.
  intros Hne Hi Ht1 Ht2 Hu1 Hu2 Hp1 Hp2.
  pose proof (execute_no_panic a2 rt2) as N2. destruct (execute_actions a2 rt2) as [r2 rt3] eqn:E2. cbn [fst snd] in *.
  pose proof (execute_no_panic a1 rt3) as N1. destruct (execute_actions a1 rt3) as [r1 rt4] eqn:E1. cbn [fst snd] in *.
  set (p1 := processed t1 fs1 (Ok a1)). set (p2 := processed t2 fs2 (Ok a2)).
  set (ts2 := <[y := p2]> (<[x := p1]> (tasks c))).
  exists ts2, (executed x p1 r1 (executed y p2 r2 ts2)). split_and!.
  - eapply rtc_l; [eapply (step_process x t1 f1 fs1); [done|by eapply Hi|done|exact Hp1|done]|].
    eapply rtc_once.
    eapply (step_process y t2 f2 fs2); cbn; [by rewrite lookup_insert_ne|by eapply Hi|done|exact Hp2|done].
  - eapply rtc_l; [eapply (step_execute y p2 a2); cbn; [apply lookup_insert_eq|done|exact E2|done]|].
    eapply rtc_once. eapply (step_execute x p1 a1); cbn; [|done|exact E1|done].
    rewrite executed_ne by done. unfold ts2. rewrite lookup_insert_ne by done. apply lookup_insert_eq.
  - apply (idle_executed c). intros z t Hz. destruct (decide (z = y)) as [->|Hzy].
    + destruct r2; cbn; [rewrite lookup_insert_eq; by intros [= <-]|by rewrite lookup_delete_eq..].
    + rewrite executed_ne by done. unfold ts2. rewrite !lookup_insert_ne by done. apply Hi.
Qed.

(** C35: the order in which two stream tasks get the lock back decides the fate of a
    frame and of its room.  Two tasks have a frame of the same room each, the room
    is in order, and both frames are accepted when processed one after the other.
    There is a schedule after which, in every further schedule, the log of the room
    is what it was with only the first of the two frames appended: the later frame
    was accepted and broadcast, is not stored, and nothing is stored in the room
    again. *)
Theorem race_loses_frame `{!Sequencer.StorageReliable} (c : Sys) x y t1 t2 f1 fs1 f2 fs2 a1 a2 rt1 rt2 :
  let room := FrameHeader.room_id (Frame.header f1) in
  let n := zlen (logs (shared c) room) in
  sound c → idle c → next room (world (shared c)) = n →
  x ≠ y → tasks c !! x = Some t1 → tasks c !! y = Some t2 → unread t1 = f1 :: fs1 → unread t2 = f2 :: fs2 →
  FrameHeader.room_id (Frame.header f2) = room →
  Forall (λ f, ServerDriver.session_opcode (FrameHeader.opcode_enum (Frame.header f)) = false
               ∧ Sequencer.is_welcome f = false) [f1; f2] →
  process (FrameReceived (session t1) f1) (shared c) = (Ok a1, rt1) →
  process (FrameReceived (session t2) f2) rt1 = (Ok a2, rt2) →
  BroadcastToRoom room (Sequencer.rebuild_frame_with_index f2 (n + 1)) None ∈ a2
  ∧ ∃ c', rtc step c c' ∧ ∀ c'', rtc step c' c'' →
      logs (shared c'') room = logs (shared c) room ++ [Sequencer.rebuild_frame_with_index f1 n].
Proof.
  intros room n Hc Hi Hn Hne Ht1 Ht2 Hu1 Hu2 Hr Hf Hp1 Hp2.
  destruct (Server.two_frames _ _ _ _ _ _ _ _ _ (sound_world _ Hc) Hn Hr Hf Hp1 Hp2) as (Ha & _ & Hl & Hcnt). split; [done|].
  destruct (race_schedule c x y t1 t2 f1 fs1 f2 fs2 a1 a2 rt1 rt2) as (ts2 & ts & Hs2 & Hs & Hidle); try done.
  set (c' := {| shared := _; tasks := ts |}) in *. exists c'.
  destruct (schedule_sound _ _ Hs2 Hc) as [Hc2 _]. destruct (schedule_sound _ _ Hs Hc2) as [Hc' Hg].
  assert (n + 2 ≤ next room (world (shared c'))) as Hnx.
  { etransitivity; [apply Z.eq_le_incl; symmetry; exact Hcnt|exact (grown_next _ _ Hg room)]. }
  split; [by etransitivity|]. intros c'' Hs'.
  destruct (schedule_wedged room _ _ Hs' Hc') as [_ ->]; [|exact Hl]. split.
  - replace (logs (shared c') room) with (logs (shared c) room ++ [Sequencer.rebuild_frame_with_index f1 n]) by done.
    rewrite zlen_app. change (zlen [_]) with 1. unfold n in Hnx. lia.
  - intros a Hpa. by destruct (idle_not_pending c' a Hidle).
Qed.
End ordering.

(** ** Witnesses *)
Section witnesses.
#[local] Existing Instances ToyCodec.codec ToyMls.ops ToyMls.ed.

(** Two streams of session 4, each with a message of room 9 to read. *)
Definition demo_task : Task := {| session := 4; unread := [demo_msg]; todo := None |}.
Definition demo_system : System (T := ToyEnv.T) (S := MemoryStorage) :=
  {| shared := demo_runtime; tasks := {[ 1 := demo_task; 2 := demo_task ]} |}.
Lemma demo_idle : idle demo_system.
Proof. intros x t. cbn. rewrite lookup_insert_Some, lookup_singleton_Some. naive_solver. Qed.
Lemma demo_sound : sound demo_system.
Proof. split; [apply demo_winv|]. intros a Ha. by destruct (idle_not_pending _ _ demo_idle Ha). Qed.

(** The system after the first task has processed its frame. *)
Definition demo_next : System (T := ToyEnv.T) (S := MemoryStorage) :=
  {| shared := snd demo_first; tasks := <[1 := processed demo_task [] (fst demo_first)]> (tasks demo_system) |}.
Lemma demo_step : step demo_system demo_next.
Proof.
  apply (step_process 1 demo_task demo_msg [] demo_system); [done..|by vm_compute|by vm_compute].
Qed.

Lemma schedule_log_safe_witness :
  next 9 (world (shared demo_system)) = 0 ∧ next 9 (world (shared demo_next)) = 1
  ∧ sound demo_next ∧ Sequencer.indexed (logs (shared demo_next) 9).
Proof.
  split; [done|]. split; [by vm_compute|].
  destruct (schedule_log_safe demo_system demo_next 9 demo_sound (rtc_once _ _ demo_step)) as (Hs & _ & Hi & _).
  by split.
Defined.

(** The first frame has been processed and is not going to be stored: the room's
    counter is 1 and its log is empty. *)
Definition demo_wedged : System (T := ToyEnv.T) (S := MemoryStorage) := {| shared := snd demo_first; tasks := ∅ |}.
Definition demo_wedged' : System (T := ToyEnv.T) (S := MemoryStorage) :=
  {| shared := snd demo_first; tasks := {[ 7 := demo_task ]} |}.

Lemma wedged_for_good_witness : logs (shared demo_wedged') 9 = [] ∧ wedged 9 demo_wedged'.
Proof.
  assert (idle demo_wedged) as Hi by (intros x t; cbn; by rewrite lookup_empty).
  destruct (wedged_for_good demo_wedged demo_wedged' 9) as [Hw Hl].
  - split; [|intros a Ha; by destruct (idle_not_pending _ _ Hi Ha)].
    exact (sound_world _ (proj1 (schedule_sound _ _ (rtc_once _ _ demo_step) demo_sound))).
  - split; [by vm_compute|intros a Ha; by destruct (idle_not_pending _ _ Hi Ha)].
  - apply rtc_once. by apply (step_stream 7 4 [demo_msg]).
  - split; [|done]. rewrite Hl. by vm_compute.
Defined.

Lemma race_loses_frame_witness :
  ∃ c', rtc step demo_system c' ∧ ∀ c'', rtc step c' c'' → length (logs (shared c'') 9) = 1%nat.
Proof.
  run_ok demo_first as a1 rt1 E1.
  run_ok demo_second as a2 rt2 E2. unfold demo_second in E2. rewrite E1 in E2. cbn [snd] in E2.
  destruct (race_loses_frame demo_system 1 2 demo_task demo_task demo_msg [] demo_msg [] a1 a2 rt1 rt2
    demo_sound demo_idle ltac:(by vm_compute) ltac:(done) ltac:(done) ltac:(done) ltac:(done) ltac:(done) ltac:(done)
    ltac:(by repeat constructor) E1 E2) as (_ & c' & Hs & Hall).
  exists c'. split; [done|]. intros c'' Hs''. exact (f_equal length (Hall c'' Hs'')).
Defined.
End witnesses.
End Tasks.
