(* ===== verification/Lifecycle.v ===== *)
(** * The life of a connection

    [handle_connection] of [lockframe-server/src/lib.rs] as the code runs it: the
    connection is entered in the table, accepted by the driver, spawns a task for
    every stream that the peer opens, and, when no more streams can be accepted, is
    taken out of the table and reported closed.  The tasks of its streams run beside
    it and beside those of all other connections, and may outlive it.

    A world is the task system of [Tasks.v] with the place that each connection has
    reached in this code; every turn of the world is a turn of the task system, so
    that what holds of all schedules holds here.  Session ids are drawn at random
    from 64 bits; the model takes a new connection's id not to have been drawn
    before. *)

From Stdlib Require Import ZArith Lia.
From S2P Require Import Prelude Opcodes Header Frame Payload Connection MlsState Storage Sequencer.
From S2P Require Import Registry Validator MlsGroup RoomManager ServerDriver Server Tasks.

Module Lifecycle.
Import ServerAction Server Tasks.

(** ** Worlds *)

(** Where the code of a connection is: its entry made; accepted, taking streams;
    ended by an error of the driver; out of the table; done. *)
Inductive Phase : Type := Inserted | Accepted | Failed | Removed | Closed.

Section world.
Context `{PayloadCodec} {T : Type} `{Environment T} `{OpenMls T} `{Ed25519} {S : Type} `{Storage S}.
Abbreviation Rt := (Runtime (T := T) (S := S)).
Abbreviation Sys := (System (T := T) (S := S)).

Record World : Type := { system : Sys; phases : gmap Z Phase }.
Definition runtime (w : World) : Rt := shared (system w).
(** A server that has not accepted anything. *)
Definition start (env : T) (storage : S) (config : ServerConfig) : World :=
  {| system := {| shared := {| driver := ServerDriver.new env storage config; live := ∅; sent := [] |}; tasks := ∅ |};
     phases := ∅ |}.
Definition put (rt : Rt) (ts : gmap Z Task) (ps : gmap Z Phase) : World :=
  {| system := {| shared := rt; tasks := ts |}; phases := ps |}.

(** One turn: of a connection's code, or of the task of a stream.  A panic aborts
    the process. *)
Inductive step (w : World) : World → Prop :=
| step_insert sid :
    phases w !! sid = None →
    step w (put (with_live ({[ sid ]} ∪ live (runtime w)) (runtime w)) (tasks (system w)) (<[sid := Inserted]> (phases w)))
| step_accept sid r rt :
    phases w !! sid = Some Inserted → accept_turn sid (runtime w) = (r, rt) → r ≠ Panic →
    step w (put rt (tasks (system w)) (<[sid := if is_ok r then Accepted else Failed]> (phases w)))
| step_accept_bi sid tid input frames why :
    phases w !! sid = Some Accepted → tasks (system w) !! tid = None →
    read_frames (Datatypes.S (length input)) input = Some (frames, why) → why ≠ DecodePanic →
    step w (put (runtime w) (<[tid := {| session := sid; unread := frames; todo := None |}]> (tasks (system w))) (phases w))
| step_process tid t f fs r rt :
    tasks (system w) !! tid = Some t → todo t = None → unread t = f :: fs →
    process (FrameReceived (session t) f) (runtime w) = (r, rt) → r ≠ Panic →
    step w (put rt (<[tid := processed t fs r]> (tasks (system w))) (phases w))
| step_execute tid t acts r rt :
    tasks (system w) !! tid = Some t → todo t = Some acts →
    execute_actions acts (runtime w) = (r, rt) → r ≠ Panic →
    step w (put rt (executed tid t r (tasks (system w))) (phases w))
| step_end tid t :
    tasks (system w) !! tid = Some t → todo t = None →
    step w (put (runtime w) (delete tid (tasks (system w))) (phases w))
| step_remove sid :
    phases w !! sid = Some Accepted →
    step w (put (with_live (live (runtime w) ∖ {[ sid ]}) (runtime w)) (tasks (system w)) (<[sid := Removed]> (phases w)))
| step_close sid r rt :
    phases w !! sid = Some Removed → close_turn sid (runtime w) = (r, rt) → r ≠ Panic →
    step w (put rt (tasks (system w)) (<[sid := Closed]> (phases w))).

(** Every turn is one of the task system. *)
Lemma step_schedule w w' : step w w' → Tasks.step (system w) (system w').
Proof.
  destruct 1; unfold put; cbn [system]; [apply Tasks.step_insert|by eapply Tasks.step_accept|by apply Tasks.step_stream
    |by eapply Tasks.step_process|by eapply Tasks.step_execute|by eapply Tasks.step_end|apply Tasks.step_remove|by eapply Tasks.step_close].
Qed.
Lemma steps_schedule w w' : rtc step w w' → rtc Tasks.step (system w) (system w').
Proof. induction 1; [done|]. eapply rtc_l; [by apply step_schedule|done]. Qed.

(** ** What the turns do to connections and table *)
Abbreviation Drv := (ServerDriver (T := T) (S := S)).
Definition known (d : Drv) : gset Z := dom (ServerDriver.connections d).

(** The same sessions are known. *)
Definition knows (d d' : Drv) : Prop := known d' = known d.
#[local] Instance knows_preorder : PreOrder knows.
Proof. split; unfold knows; [by intros d|intros d1 d2 d3; congruence]. Qed.

Lemma same_knows (d d' : Drv) : ServerDriver.connections d' = ServerDriver.connections d → knows d d'.
Proof. intros E. unfold knows, known. by rewrite E. Qed.
Lemma env_now_knows : respects knows (ServerDriver.env_now (T := T) (S := S)).
Proof. intros d. destruct (ServerDriver.driver_now_spec d) as (t & e & ->). by apply same_knows. Qed.
Lemma on_rooms_knows {A} (op : M RoomManager.world RoomError A) : respects knows (ServerDriver.on_rooms (S := S) op).
Proof. intros d. unfold ServerDriver.on_rooms, m_zoom, m_map_err. destruct (op (ServerDriver.world_of d)). by apply same_knows. Qed.
Lemma on_registry_knows {A} (op : ConnectionRegistry → A * ConnectionRegistry) :
  respects knows (ServerDriver.on_registry (T := T) (S := S) op).
Proof. intros d. unfold ServerDriver.on_registry. destruct (op _). by apply same_knows. Qed.
#[local] Hint Resolve env_now_knows on_rooms_knows on_registry_knows : respects.

Lemma convert_knows a sid : respects knows (ServerDriver.convert_room_action (T := T) (S := S) a sid).
Proof. destruct a; cbn; repeat case_match; auto with respects. Qed.
Lemma error_response_knows sid room e : respects knows (ServerDriver.make_error_response (T := T) (S := S) sid room e).
Proof. unfold ServerDriver.make_error_response. repeat case_match; auto 6 with respects. Qed.
#[local] Hint Resolve convert_knows error_response_knows : respects.
Lemma sync_knows sid f : respects knows (ServerDriver.handle_sync_request (T := T) (S := S) sid f).
Proof.
  unfold ServerDriver.handle_sync_request. apply (respects_bind knows).
  - apply (respects_try knows), (respects_bind knows); [auto with respects|]. intros p. destruct p; auto with respects.
  - intros []; auto with respects.
Qed.
Lemma room_frame_knows sid f : respects knows (ServerDriver.process_room_frame (T := T) (S := S) sid f).
Proof. unfold ServerDriver.process_room_frame. auto 6 with respects. Qed.
#[local] Hint Resolve sync_knows room_frame_knows : respects.
Lemma frame_knows sid f : respects knows (ServerDriver.handle_frame_received (T := T) (S := S) sid f).
Proof.
  unfold ServerDriver.handle_frame_received. apply (respects_bind knows); [auto with respects|]. intros now d.
  match goal with |- knows _ (snd ((m_get ≫= ?k) d)) => change (knows d (snd (k d d))) end. cbv beta.
  destruct (ServerDriver.connections d !! sid) as [conn|] eqn:Hc; [|done].
  assert (∀ conn' A (k : M Drv ServerError A), respects knows k → knows d (snd ((ServerDriver.set_connection sid conn';; k) d))) as Hset.
  { intros conn' A k Hk. unfold ServerDriver.set_connection. munfold.
    etransitivity; [|apply Hk]. unfold knows, known. cbn. by rewrite dom_insert_lookup_L. }
  repeat case_match; try (apply Hset; auto 6 with respects); apply sync_knows.
Qed.

(** Executing actions leaves connections and registry, shortens the table, and writes
    to nobody who is not in it. *)
Definition written (sid : Z) (rt : Rt) : list (Z * bytes) := filter (λ p, p.1 = sid) (sent rt).
Record executes (rt rt' : Rt) : Prop := {
  ex_connections : ServerDriver.connections (driver rt') = ServerDriver.connections (driver rt);
  ex_registry : ServerDriver.registry (driver rt') = ServerDriver.registry (driver rt);
  ex_config : ServerDriver.config (driver rt') = ServerDriver.config (driver rt);
  ex_live : live rt' ⊆ live rt;
  ex_written : ∀ sid, sid ∉ live rt → written sid rt' = written sid rt;
}.
#[local] Instance executes_preorder : PreOrder executes.
Proof.
  split; [by intros rt; split|]. intros r1 r2 r3 [A1 B1 C1 D1 E1] [A2 B2 C2 D2 E2].
  split; [congruence..|set_solver|]. intros sid Hn. rewrite E2 by set_solver. by apply E1.
Qed.
Lemma write_executes sid buf (rt : Rt) : executes rt (write_to sid buf rt).
Proof.
  unfold write_to. case_decide as Hin; [|done]. split; [done..|]. intros x Hx. unfold written. cbn.
  rewrite list.filter_app, list.filter_cons_False, list.filter_nil, app_nil_r; [done|]. cbn. by intros ->.
Qed.
Lemma on_storage_executes {A} (op : M S StorageError A) : respects executes (on_storage (T := T) op).
Proof. intros rt. unfold on_storage. destruct (op _). by split. Qed.
Lemma execute_action_executes a : respects executes (execute_action (T := T) (S := S) a).
Proof.
  intros rt. destruct a as [sid f|room f ex|sid why|room i f|room st|l m t]; cbn [execute_action].
  - munfold. case_decide; [|done]. destruct (encode_ f); [apply write_executes|done..].
  - munfold. destruct (encode_ f) as [buf| |]; [|done..]. cbn [snd].
    generalize (ServerDriver.sessions_in_room room (driver rt)) as ss. intros ss. revert rt. induction ss as [|sid ss IH]; intros rt; [done|].
    cbn [foldl]. etransitivity; [|apply IH]. case_decide; [done|apply write_executes].
  - munfold. split; try done. cbn. set_solver.
  - apply on_storage_executes.
  - apply on_storage_executes.
  - done.
Qed.
Lemma execute_executes acts : respects executes (execute_actions (T := T) (S := S) acts).
Proof.
  unfold execute_actions. induction acts as [|a acts IH]; [by intros rt|]. cbn [m_iter].
  apply (respects_bind executes); [apply execute_action_executes|done].
Qed.

(** Processing an event leaves table and outbox. *)
Lemma process_driver ev (rt : Rt) r rt' : process ev rt = (r, rt') →
  driver rt' = snd (ServerDriver.process_event ev (driver rt)) ∧ live rt' = live rt ∧ sent rt' = sent rt.
Proof. unfold process. destruct (ServerDriver.process_event ev (driver rt)). by intros [= <- <-]. Qed.

(** The turn that accepts a connection succeeds: it makes the connection known, or,
    beyond the limit, takes it out of the table again. *)
Lemma accept_turn_spec sid (rt : Rt) :
  ∃ rt', accept_turn sid rt = (Ok tt, rt')
    ∧ (known (driver rt') = {[ sid ]} ∪ known (driver rt) ∧ live rt' = live rt
       ∨ known (driver rt') = known (driver rt) ∧ live rt' = live rt ∖ {[ sid ]})
    ∧ sent rt' = sent rt ∧ (ServerDriver.dinv (driver rt) → ServerDriver.dinv (driver rt')).
Proof.
  unfold accept_turn. munfold. unfold process. pose proof (ServerDriver.accepted_preserves sid (driver rt)) as Hd.
  cbn [ServerDriver.process_event]. unfold ServerDriver.handle_connection_accepted in *.
  destruct (ServerDriver.driver_now_spec (driver rt)) as (t & e & Hn). munfold. rewrite Hn in *. clear Hn.
  destruct (_ <=? _); cbn in *.
  - eexists. split_and!; [done|by right|done|exact Hd].
  - unfold ServerDriver.on_registry in *. cbn in *. destruct (ConnectionRegistry.register_session _ _ _) as [b reg]. cbn in *.
    eexists. split_and!; [done| |done|exact Hd]. left. unfold known. cbn. by rewrite dom_insert_L.
Qed.
(** The turn that reports it closed succeeds, and leaves nothing of it. *)
Lemma close_turn_spec sid (rt : Rt) : ServerDriver.dinv (driver rt) →
  ∃ rt', close_turn sid rt = (Ok tt, rt') ∧ known (driver rt') = known (driver rt) ∖ {[ sid ]}
    ∧ live rt' = live rt ∧ sent rt' = sent rt ∧ ServerDriver.dinv (driver rt').
Proof.
  intros Hd. pose proof (ServerDriver.closed_preserves sid "connection closed" (driver rt) Hd) as Hd'.
  unfold close_turn. munfold. unfold process. cbn [ServerDriver.process_event]. unfold ServerDriver.handle_connection_closed in *.
  destruct (ServerDriver.driver_now_spec (driver rt)) as (t & e & Hn). munfold. rewrite Hn in *. clear Hn. cbn in *.
  unfold ServerDriver.on_registry in *. cbn in *.
  destruct (ConnectionRegistry.unregister_session _ _) as [[[info rooms]|] reg]; cbn in *;
    (eexists; split_and!; [done| |done|done|exact Hd']; unfold known; cbn; by rewrite dom_delete_L).
Qed.

(** ** The invariant *)
Record linv (w : World) : Prop := {
  linv_driver : ServerDriver.dinv (driver (runtime w));
  linv_live : ∀ sid, sid ∈ live (runtime w) → phases w !! sid = Some Inserted ∨ phases w !! sid = Some Accepted;
  linv_known : ∀ sid, sid ∈ known (driver (runtime w)) → phases w !! sid = Some Accepted ∨ phases w !! sid = Some Removed;
  linv_task : ∀ tid t, tasks (system w) !! tid = Some t →
    phases w !! session t = Some Accepted ∨ phases w !! session t = Some Removed ∨ phases w !! session t = Some Closed;
  linv_accepted : ∀ sid, phases w !! sid = Some Accepted → sid ∈ live (runtime w) → sid ∈ known (driver (runtime w));
  linv_failed : ∀ sid, phases w !! sid ≠ Some Failed;
}.
Lemma linv_start e st cfg : 0 ≤ max_connections cfg → linv (start e st cfg).
Proof.
  intros Hm. split; cbn; try set_solver.
  apply (ServerDriver.reachable_dinv e st cfg); [done|apply rtc_refl].
Qed.

(** A turn of a stream's task: the phases stay, and so does every bound. *)
Lemma linv_turn w rt ts :
  linv w → ServerDriver.dinv (driver rt) → live rt ⊆ live (runtime w) → known (driver rt) = known (driver (runtime w)) →
  (∀ tid t, ts !! tid = Some t → ∃ tid' t', tasks (system w) !! tid' = Some t' ∧ session t' = session t) →
  linv (put rt ts (phases w)).
Proof.
  intros [Hd Hl Hk Ht Ha Hf] Hd' Hl' Hk' Hts. split; cbn; [done|set_solver|set_solver| |set_solver|done].
  intros tid t Hin. destruct (Hts tid t Hin) as (tid' & t' & Hin' & <-). by eapply Ht.
Qed.
(** A turn of a connection's code: its own phase moves, and nothing of the others. *)
Lemma linv_phase w rt sid p :
  linv w → ServerDriver.dinv (driver rt) → p ≠ Failed →
  (∀ x, x ≠ sid → x ∈ live rt ↔ x ∈ live (runtime w)) →
  (∀ x, x ≠ sid → x ∈ known (driver rt) ↔ x ∈ known (driver (runtime w))) →
  (sid ∈ live rt → p = Inserted ∨ p = Accepted) → (sid ∈ known (driver rt) → p = Accepted ∨ p = Removed) →
  (p = Inserted → phases w !! sid = None) → (p = Accepted → sid ∈ live rt → sid ∈ known (driver rt)) →
  linv (put rt (tasks (system w)) (<[sid := p]> (phases w))).
Proof.
  intros [Hd Hl Hk Ht Ha Hf] Hd' Hp Hlx Hkx Hls Hks Hi Hac. split; cbn; [done|intros x..].
  - destruct (decide (sid = x)) as [<-|]; [rewrite lookup_insert_eq; naive_solver|rewrite lookup_insert_ne by done; naive_solver].
  - destruct (decide (sid = x)) as [<-|]; [rewrite lookup_insert_eq; naive_solver|rewrite lookup_insert_ne by done; naive_solver].
  - intros t Hx. destruct (decide (sid = session t)) as [->|]; [|rewrite lookup_insert_ne by done; by eapply Ht].
    rewrite lookup_insert_eq. specialize (Ht _ _ Hx). destruct p; naive_solver congruence.
  - destruct (decide (sid = x)) as [<-|]; [rewrite lookup_insert_eq; naive_solver|rewrite lookup_insert_ne by done; naive_solver].
  - destruct (decide (sid = x)) as [<-|]; [rewrite lookup_insert_eq; naive_solver|rewrite lookup_insert_ne by done; naive_solver].
Qed.
Lemma task_insert (w : World) tid t t' : tasks (system w) !! tid = Some t → session t' = session t →
  ∀ i x, <[tid := t']> (tasks (system w)) !! i = Some x → ∃ tid' x', tasks (system w) !! tid' = Some x' ∧ session x' = session x.
Proof. intros Ht Hs i x [[<- <-]|[_ Hx]]%lookup_insert_Some; eauto. Qed.
Lemma dinv_executes (rt rt' : Rt) : executes rt rt' → ServerDriver.dinv (driver rt) → ServerDriver.dinv (driver rt').
Proof. intros [E1 E2 E3 _ _] [D1 D2 D3]. split; by rewrite ?E1, ?E2, ?E3. Qed.

Lemma step_linv w w' : step w w' → linv w → linv w'.
Proof.
  intros Hs Hw. pose proof Hw as [Hd Hl Hk Ht Ha Hf]. destruct Hs as [sid Hp|sid r rt Hp Hac _|sid tid input fs why Hp Hn Hr _
    |tid t f fs r rt Hin Hto Hu Hp _|tid t acts r rt Hin Hto He _|tid t Hin Hto|sid Hp|sid r rt Hp Hc _].
  - apply linv_phase; cbn; try done; [set_solver|by left|]. intros Hx. destruct (Hk _ Hx); congruence.
  - destruct (accept_turn_spec sid (runtime w)) as (rt' & Hac' & Hch & _ & Hd'). rewrite Hac' in Hac. injection Hac as <- <-.
    apply linv_phase; cbn; try done; [by apply Hd'|..]; try (by auto); try (intros x Hx); destruct Hch as [[Ek El]|[Ek El]]; rewrite ?Ek, ?El; set_solver.
  - split; cbn; [done..| |done|done]. intros x t [[<- <-]|[_ Hx]]%lookup_insert_Some; [by left|by eapply Ht].
  - destruct (process_driver _ _ _ _ Hp) as (Ed & El & _). apply linv_turn; [done|..].
    + rewrite Ed. by apply ServerDriver.process_event_preserves.
    + by rewrite El.
    + rewrite Ed. apply frame_knows.
    + by eapply task_insert.
  - pose proof (execute_executes acts (runtime w)) as Hx. rewrite He in Hx. cbn in Hx. apply linv_turn; [done|..].
    + by eapply dinv_executes.
    + apply Hx.
    + unfold known. by rewrite (ex_connections _ _ Hx).
    + destruct r; cbn [executed]; [by eapply task_insert|..]; intros i x [_ Hi]%lookup_delete_Some; eauto.
  - apply linv_turn; [done..|]. intros i x [_ Hi]%lookup_delete_Some; eauto.
  - apply linv_phase; cbn; try done; [set_solver|set_solver|by right].
  - destruct (close_turn_spec sid (runtime w) Hd) as (rt' & Hc' & Hk' & Hl' & _ & Hd'). rewrite Hc' in Hc. injection Hc as <- <-.
    apply linv_phase; cbn; try done; rewrite ?Hl', ?Hk'; [done|set_solver| |set_solver].
    intros Hx. destruct (Hl _ Hx); congruence.
Qed.
Lemma reachable_linv e st cfg w : 0 ≤ max_connections cfg → rtc step (start e st cfg) w → linv w.
Proof. intros Hm Hr. assert (linv (start e st cfg)) as H0' by by apply linv_start. induction Hr; eauto using step_linv. Qed.

(** ** After the end *)

(** A connection whose code has left the loop is not written to again. *)
Definition over (sid : Z) (w : World) : Prop := phases w !! sid = Some Removed ∨ phases w !! sid = Some Closed.
Lemma over_not_live w sid : linv w → over sid w → sid ∉ live (runtime w).
Proof. intros Hw Ho Hl. destruct (linv_live _ Hw _ Hl), Ho; congruence. Qed.
Lemma step_over w w' sid : step w w' → linv w → over sid w →
  over sid w' ∧ (phases w !! sid = Some Closed → phases w' !! sid = Some Closed) ∧ written sid (runtime w') = written sid (runtime w).
Proof.
  intros Hs Hw Ho. pose proof (over_not_live _ _ Hw Ho) as Hn. unfold over in *.
  assert (∀ x p, phases w !! x ≠ Some Removed → phases w !! x ≠ Some Closed →
    <[x := p]> (phases w) !! sid = phases w !! sid) as Hother.
  { intros x p H1' H2'. apply lookup_insert_ne. intros ->. by destruct Ho. }
  destruct Hs as [x Hp|x r rt Hp Hac _|x tid input fs why Hp Hnone Hr _
    |tid t f fs r rt Hin Hto Hu Hp _|tid t acts r rt Hin Hto He _|tid t Hin Hto|x Hp|x r rt Hp Hc _]; cbn.
  - by rewrite Hother by congruence.
  - rewrite Hother by congruence. destruct (accept_turn_spec x (runtime w)) as (rt' & E & _ & Es & _).
    rewrite E in Hac. injection Hac as <- <-. unfold written. by rewrite Es.
  - done.
  - destruct (process_driver _ _ _ _ Hp) as (_ & _ & Es). unfold written. by rewrite Es.
  - pose proof (execute_executes acts (runtime w)) as Hx. rewrite He in Hx. by rewrite (ex_written _ _ Hx).
  - done.
  - by rewrite Hother by congruence.
  - destruct (close_turn_spec x (runtime w) (linv_driver _ Hw)) as (rt' & E & _ & _ & Es & _).
    rewrite E in Hc. injection Hc as <- <-. unfold written. rewrite Es.
    destruct (decide (x = sid)) as [->|]; [rewrite lookup_insert_eq; auto|by rewrite lookup_insert_ne].
Qed.
Lemma steps_over w w' sid : rtc step w w' → linv w → over sid w →
  over sid w' ∧ (phases w !! sid = Some Closed → phases w' !! sid = Some Closed) ∧ written sid (runtime w') = written sid (runtime w).
Proof.
  induction 1 as [|w w1 w2 Hs Hr IH]; intros Hw Ho; [done|]. destruct (step_over _ _ _ Hs Hw Ho) as (Ho1 & Hc1 & Hw1).
  destruct (IH (step_linv _ _ Hs Hw) Ho1) as (Ho2 & Hc2 & Hw2). rewrite Hw2. auto.
Qed.

(** From every place the code can run to its end. *)
Lemma run_removed w sid : linv w → phases w !! sid = Some Removed → ∃ w', step w w' ∧ phases w' !! sid = Some Closed.
Proof.
  intros Hw Hp. destruct (close_turn_spec sid (runtime w) (linv_driver _ Hw)) as (rt & E & _).
  eexists. split; [by eapply step_close|]. apply lookup_insert_eq.
Qed.
Lemma run_accepted w sid : phases w !! sid = Some Accepted → ∃ w', step w w' ∧ phases w' !! sid = Some Removed.
Proof. intros Hp. eexists. split; [by apply step_remove|]. apply lookup_insert_eq. Qed.
Lemma run_inserted w sid : phases w !! sid = Some Inserted → ∃ w', step w w' ∧ phases w' !! sid = Some Accepted.
Proof.
  intros Hp. destruct (accept_turn_spec sid (runtime w)) as (rt & E & _).
  eexists. split; [by eapply step_accept|]. apply lookup_insert_eq.
Qed.
Lemma runs_to_end w sid : linv w → is_Some (phases w !! sid) → ∃ w', rtc step w w' ∧ phases w' !! sid = Some Closed.
Proof.
  intros Hw [p Hp].
  assert (∀ w1, linv w1 → phases w1 !! sid = Some Removed → ∃ w', rtc step w1 w' ∧ phases w' !! sid = Some Closed) as Hrem.
  { intros w1 Hw1 H1'. destruct (run_removed _ _ Hw1 H1') as (w2 & Hs & H2'). exists w2. split; [by apply rtc_once|done]. }
  assert (∀ w1, linv w1 → phases w1 !! sid = Some Accepted → ∃ w', rtc step w1 w' ∧ phases w' !! sid = Some Closed) as Hacc.
  { intros w1 Hw1 H1'. destruct (run_accepted _ _ H1') as (w2 & Hs & H2').
    destruct (Hrem w2 (step_linv _ _ Hs Hw1) H2') as (w' & Hr & Hc). exists w'. split; [by eapply rtc_l|done]. }
  destruct p; [|by apply Hacc|by destruct (linv_failed _ Hw sid)|by apply Hrem|by exists w].
  destruct (run_inserted _ _ Hp) as (w2 & Hs & H2').
  destruct (Hacc w2 (step_linv _ _ Hs Hw) H2') as (w' & Hr & Hc). exists w'. split; [by eapply rtc_l|done].
Qed.

(** ** Streams *)

(** A stream of an accepted connection that is read with no other turn in between
    leaves what [handle_stream] does, and no task. *)
Lemma frames_run tid sid fs (rt : Rt) ts ps r rt' :
  ts !! tid = None → handle_frames sid fs rt = (r, rt') → r ≠ Panic →
  rtc step (put rt (<[tid := {| session := sid; unread := fs; todo := None |}]> ts) ps) (put rt' ts ps).
Proof.
  intros Hn. revert rt. induction fs as [|f fs IH]; intros rt Hf Hr.
  { injection Hf as <- <-. eapply rtc_l; [eapply (step_end _ tid); cbn; [apply lookup_insert_eq|done]|]. cbn.
    by rewrite delete_insert_id. }
  cbn [handle_frames] in Hf. unfold m_try in Hf. munfold.
  destruct (process (FrameReceived sid f) rt) as [r1 rt1] eqn:Hp.
  assert (r1 ≠ Panic) as Hr1 by (intros ->; by injection Hf as <- <-).
  eapply rtc_l; [eapply (step_process _ tid); cbn; [apply lookup_insert_eq|done|done|exact Hp|done]|]. cbn.
  rewrite insert_insert_eq. destruct r1 as [acts|e|]; [|by apply IH|done].
  destruct (execute_actions acts rt1) as [r2 rt2] eqn:He.
  assert (r2 ≠ Panic) as Hr2 by (intros ->; by injection Hf as <- <-).
  eapply rtc_l; [eapply (step_execute _ tid); cbn; [apply lookup_insert_eq|done|exact He|done]|]. cbn.
  destruct r2 as [[]|e|]; cbn [executed]; [|injection Hf as <- <-; by rewrite delete_insert_id|done].
  rewrite insert_insert_eq. by apply IH.
Qed.
Lemma stream_run tid sid input w r rt' :
  phases w !! sid = Some Accepted → tasks (system w) !! tid = None →
  handle_stream sid input (runtime w) = (r, rt') → r ≠ Panic →
  rtc step w (put rt' (tasks (system w)) (phases w)).
Proof.
  intros Hp Hn. unfold handle_stream. intros Hs Hr.
  destruct (read_frames _ input) as [[fs why]|] eqn:Ef; [|by injection Hs as <- _].
  assert (why ≠ DecodePanic) as Hw by (intros ->; by injection Hs as <- _).
  eapply rtc_l; [by eapply (step_accept_bi _ sid tid)|]. eapply frames_run; [done| |exact Hr]. by destruct why.
Qed.

(** ** The theorem *)

(** A frame of a session that the driver does not know is refused. *)
Lemma unknown_refused sid f (rt : Rt) : sid ∉ known (driver rt) →
  fst (process (FrameReceived sid f) rt) = Err (Driver (ServerError.SessionNotFound sid)).
Proof.
  unfold known. intros Hk%not_elem_of_dom. unfold process. cbn [ServerDriver.process_event].
  unfold ServerDriver.handle_frame_received. munfold. destruct (ServerDriver.driver_now_spec (driver rt)) as (t & e & ->).
  cbn. by rewrite Hk.
Qed.
(** Nor does it belong to a room. *)
Lemma unknown_no_room sid room (d : ServerDriver (T := T) (S := S)) :
  ServerDriver.dinv d → sid ∉ known d → sid ∉ ServerDriver.sessions_in_room room d.
Proof.
  intros [Hdom Hreg _] Hk Hs. unfold ServerDriver.sessions_in_room, ConnectionRegistry.sessions_in_room in Hs.
  apply elem_of_elements, (ConnectionRegistry.subscribed_registered _ sid room Hreg), elem_of_dom in Hs.
  unfold known in Hk. by rewrite Hdom in Hk.
Qed.

(** C13: a connection lives as [handle_connection] says, under every interleaving of all
    connections and their streams.  In any world that a new server reaches: a
    connection that the table lists has been entered and its loop has not ended; one
    that the driver knows has been accepted and has not yet been reported closed, and
    one that is listed and accepted is known to the driver; only accepted connections
    have stream tasks; accepting never fails.  Every connection can run to its end.
    Once its loop has ended nothing is written to it again; once it is reported closed
    the driver holds no connection for it and lists it in no room, for ever, and
    refuses the frames that its remaining stream tasks still deliver. *)
Theorem connection_lifecycle e st cfg w sid :
  0 ≤ max_connections cfg → rtc step (start e st cfg) w →
  (sid ∈ live (runtime w) → phases w !! sid = Some Inserted ∨ phases w !! sid = Some Accepted)
  ∧ (is_Some (ServerDriver.connections (driver (runtime w)) !! sid) → phases w !! sid = Some Accepted ∨ phases w !! sid = Some Removed)
  ∧ (phases w !! sid = Some Accepted → sid ∈ live (runtime w) → is_Some (ServerDriver.connections (driver (runtime w)) !! sid))
  ∧ (∀ tid t, tasks (system w) !! tid = Some t →
       phases w !! session t = Some Accepted ∨ phases w !! session t = Some Removed ∨ phases w !! session t = Some Closed)
  ∧ phases w !! sid ≠ Some Failed
  ∧ (is_Some (phases w !! sid) → ∃ w', rtc step w w' ∧ phases w' !! sid = Some Closed)
  ∧ (phases w !! sid = Some Removed ∨ phases w !! sid = Some Closed →
       ∀ w', rtc step w w' → written sid (runtime w') = written sid (runtime w))
  ∧ (phases w !! sid = Some Closed → ∀ w', rtc step w w' →
       ServerDriver.connections (driver (runtime w')) !! sid = None
       ∧ (∀ room, sid ∉ ServerDriver.sessions_in_room room (driver (runtime w')))
       ∧ ∀ f, fst (process (FrameReceived sid f) (runtime w')) = Err (Driver (ServerError.SessionNotFound sid))).
Proof.
  intros Hm Hr. pose proof (reachable_linv _ _ _ _ Hm Hr) as Hw.
  split_and!; [apply Hw| |intros Hp Hl; apply elem_of_dom; by apply (linv_accepted _ Hw)|apply Hw|apply Hw|by apply runs_to_end| |].
  - intros Hs. by apply (linv_known _ Hw), elem_of_dom.
  - intros Ho w' Hr'. by apply steps_over.
  - intros Hc w' Hr'. assert (linv w') as Hw' by (eapply reachable_linv; [exact Hm|by etransitivity]).
    destruct (steps_over _ _ _ Hr' Hw (or_intror Hc)) as (_ & Hc' & _). specialize (Hc' Hc).
    assert (sid ∉ known (driver (runtime w'))) as Hk by (intros Hk; destruct (linv_known _ Hw' _ Hk); congruence).
    split_and!; [by apply not_elem_of_dom|intros room; by apply unknown_no_room; [apply Hw'|]|intros f; by apply unknown_refused].
Qed.
End world.

(** ** Witnesses *)
Section witnesses.
#[local] Existing Instances ToyCodec.codec ToyMls.ops ToyMls.ed.
Abbreviation DemoRt := (Runtime (T := ToyEnv.T) (S := MemoryStorage)).
Abbreviation DemoWorld := (World (T := ToyEnv.T) (S := MemoryStorage)).

(** Session 4 connects and says hello on a stream, which the server answers; a frame
    that follows it is still unread when the connection ends. *)
Definition demo_hello : Frame :=
  match Payload.into_frame Connection.the_hello (FrameHeader.new Opcode.Hello) with Ok f => f | _ => Frame.sample end.
Definition demo_task_at (unread : list Frame) (todo : option (list ServerAction)) : gmap Z Task :=
  {[ 1 := {| session := 4; unread := unread; todo := todo |} ]}.
Definition demo_begin : DemoWorld := start (0, 0) MemoryStorage.new default_server_config.
Definition demo_listed : DemoRt := with_live {[ 4 ]} (runtime demo_begin).
Definition demo_accepted := accept_turn 4 demo_listed.
Definition demo_heard := process (FrameReceived 4 demo_hello) (snd demo_accepted).
Definition demo_answers : list ServerAction := match fst demo_heard with Ok acts => acts | _ => [] end.
Definition demo_answered := execute_actions demo_answers (snd demo_heard).
Definition demo_unlisted : DemoRt := with_live (live (snd demo_answered) ∖ {[ 4 ]}) (snd demo_answered).
Definition demo_ended := close_turn 4 demo_unlisted.
Definition demo_over : DemoWorld := put (snd demo_ended) (demo_task_at [demo_msg] None) {[ 4 := Closed ]}.

Lemma demo_run : rtc step demo_begin demo_over.
Proof.
  eapply rtc_l; [by apply (step_insert _ 4)|].
  eapply rtc_l; [by apply (step_accept _ 4 (Ok tt) (snd demo_accepted)); [|vm_compute|]|].
  eapply rtc_l; [by apply (step_accept_bi _ 4 1 (wire [demo_hello; demo_msg]) [demo_hello; demo_msg] ReadError); [..|vm_compute|]|].
  eapply rtc_l; [by apply (step_process _ 1 {| session := 4; unread := [demo_hello; demo_msg]; todo := None |} demo_hello [demo_msg]
    (fst demo_heard) (snd demo_heard)); [..|vm_compute]|].
  eapply rtc_l; [by apply (step_execute _ 1 {| session := 4; unread := [demo_msg]; todo := Some demo_answers |} demo_answers
    (fst demo_answered) (snd demo_answered)); [vm_compute|..|vm_compute]|].
  eapply rtc_l; [by apply (step_remove _ 4)|].
  eapply rtc_l; [by apply (step_close _ 4 (fst demo_ended) (snd demo_ended)); [|vm_compute|vm_compute]|].
  apply rtc_refl.
Qed.

Lemma connection_lifecycle_witness :
  (∃ buf, written 4 (runtime demo_over) = [(4, buf)])
  ∧ ∀ w', rtc step demo_over w' → written 4 (runtime w') = written 4 (runtime demo_over)
      ∧ ServerDriver.connections (driver (runtime w')) !! 4 = None.
Proof.
  split; [eexists; vm_compute; reflexivity|]. intros w' Hw.
  destruct (connection_lifecycle (0, 0) MemoryStorage.new default_server_config demo_over 4 ltac:(by vm_compute) demo_run)
    as (_ & _ & _ & _ & _ & _ & Hquiet & Hgone).
  split; [apply Hquiet; [by right|done]|by apply Hgone].
Defined.
End witnesses.
End Lifecycle.
