(* ===== verification/EndToEnd.v ===== *)
(** * Clients and server together

    The parts are put together on the wire: frames that a client writes to a stream
    are cut, processed and executed by the server of [Server.v], and what it writes
    to the other sessions is decoded and handled by clients of [Client.v].

    Nothing here is a new operation of the program; the definitions name what
    travels between the operations of the other files. *)

From Stdlib Require Import ZArith Lia.
From S2P Require Import Prelude Opcodes Header Frame Payload Connection SenderKeys SenderKeyStore MlsState Storage Sequencer.
From S2P Require Import Registry Validator MlsGroup RoomManager ServerDriver Server Client Tasks.

(** ** What rewriting the log index means for a receiver *)
Module Relay.
Import ClientAction Client.
Section relay.
Context `{PayloadCodec} `{Primitives} {U : Type} `{Environment U} `{OpenMls U} `{Ed25519}.
Abbreviation Cl := (Client (T := U)).

(** The frame that the server hands on is the frame it got, under its index. *)
Lemma rebuild_sequenced f i : Frame.wf f → Sequencer.rebuild_frame_with_index f i = sequenced i f.
Proof.
  intros Hf. pose proof (MlsValidator.rebuild_header f i (Frame.wf_header _ Hf) (Frame.wf_size _ Hf)) as Hh.
  unfold Sequencer.rebuild_frame_with_index, sequenced in *. cbn in *. by rewrite <-Hh.
Qed.
Lemma sequenced_wf f i : Frame.wf f → Frame.wf (sequenced i f).
Proof. intros []. split; [by apply FrameHeader.set_log_index_wf|done|done]. Qed.
Lemma rebuild_wf f i : Frame.wf f → Frame.wf (Sequencer.rebuild_frame_with_index f i).
Proof. intros Hf. rewrite rebuild_sequenced by done. by apply sequenced_wf. Qed.

(** The log index in what a message frame leads to. *)
Definition relabel (i : Z) (a : ClientAction) : ClientAction :=
  match a with
  | DeliverMessage room_id sender_id plaintext _ timestamp => DeliverMessage room_id sender_id plaintext i timestamp
  | a => a
  end.

Lemma validate_sequenced i f (g : MlsGroup (T := U)) st :
  Frame.wf f → MlsGroup.validate_frame (sequenced i f) (Some st) g = MlsGroup.validate_frame f (Some st) g.
Proof.
  intros Hf. unfold MlsGroup.validate_frame, MlsValidator.validate_frame, MlsValidator.validate_signature.
  cbn [sequenced Frame.header]. by rewrite FrameHeader.set_log_index_signing_data by apply Hf.
Qed.

Lemma app_message_sequenced i f id (r : RoomState (T := U)) :
  Frame.wf f → 0 ≤ i < U64_MOD →
  app_message_in_room id (sequenced i f) r
  = (map (relabel i) <$> fst (app_message_in_room id f r), snd (app_message_in_room id f r)).
Proof.
  intros Hf Hi. unfold app_message_in_room, on_keys. munfold. rewrite validate_sequenced by done.
  change (FrameHeader.epoch (Frame.header (sequenced i f))) with (FrameHeader.epoch (Frame.header f)).
  change (FrameHeader.sender_id (Frame.header (sequenced i f))) with (FrameHeader.sender_id (Frame.header f)).
  change (FrameHeader.hlc_timestamp (Frame.header (sequenced i f))) with (FrameHeader.hlc_timestamp (Frame.header f)).
  change (Frame.payload (sequenced i f)) with (Frame.payload f).
  assert (FrameHeader.log_index (Frame.header (sequenced i f)) = i) as ->.
  { unfold FrameHeader.log_index. cbn. by apply from_to_be_bytes. }
  repeat (case_match; simplify_eq/=; try done).
Qed.

(** A receiver treats a relayed frame as the frame that was sent: the same verdict,
    the same new state and the same actions, with the index of the relay in a
    delivery. *)
Lemma handle_sequenced i f (c : Cl) :
  Frame.wf f → 0 ≤ i < U64_MOD →
  handle (FrameReceived (sequenced i f)) c
  = (if decide (is_app f) then map (relabel i) <$> fst (handle (FrameReceived f) c)
     else fst (handle (FrameReceived f) c), snd (handle (FrameReceived f) c)).
Proof.
  intros Hf Hi. case_decide as Ha.
  - rewrite !handle_app by done. unfold on_room.
    change (FrameHeader.room_id (Frame.header (sequenced i f))) with (FrameHeader.room_id (Frame.header f)).
    destruct (rooms c !! _) as [r|]; [|done]. rewrite app_message_sequenced by done.
    by destruct (app_message_in_room _ f r) as [x r'].
  - rewrite <-surjective_pairing. cbn [handle]. change (frame_depth (sequenced i f)) with (frame_depth f).
    unfold frame_depth. cbn [handle_frame]. unfold is_app in Ha.
    change (FrameHeader.room_id (Frame.header (sequenced i f))) with (FrameHeader.room_id (Frame.header f)).
    change (FrameHeader.opcode (Frame.header (sequenced i f))) with (FrameHeader.opcode (Frame.header f)).
    change (FrameHeader.opcode_enum (Frame.header (sequenced i f))) with (FrameHeader.opcode_enum (Frame.header f)).
    by destruct (FrameHeader.opcode_enum (Frame.header f)) as [[]|].
Qed.
End relay.
End Relay.

(** ** What the server writes to a session *)
Module Broadcasting.
Import ServerAction Server Tasks.
Section broadcasting.
Context `{PayloadCodec} {T : Type} `{Environment T} `{OpenMls T} `{Ed25519} {S : Type} `{StorageOk S} `{!ReadOnly S}.
Abbreviation Rt := (Runtime (T := T) (S := S)).
Abbreviation Driver := (ServerDriver (T := T) (S := S)).

(** The buffers written to a session, and the buffer of a frame. *)
Definition inbox (s : Z) (rt : Rt) : list bytes :=
  omap (λ '(sid, buf), if decide (sid = s) then Some buf else None) (sent rt).
Definition buffer (f : Frame) : bytes := FrameHeader.to_bytes (Frame.header f) ++ Frame.payload f.
Definition subscribers (room : Z) (rt : Rt) : list Z := ServerDriver.sessions_in_room room (driver rt).

Lemma encode_buffer f buf : encode_ f = Ok buf → buf = buffer f.
Proof. unfold encode_, Frame.encode, buffer. case_match; case_match; simplify_eq/=; by intros [= <-]. Qed.
Lemma encode_wf f : Frame.wf f → encode_ f = Ok (buffer f).
Proof. intros Hf. unfold encode_. by rewrite Frame.encode_Ok by by apply Frame.wf_bound. Qed.
Lemma decode_buffer f : Frame.wf f → Frame.decode (buffer f) = Ok f.
Proof. intros Hf. unfold buffer. rewrite <-(app_nil_r (Frame.payload f)). by apply Frame.decode_app. Qed.

Lemma write_inbox s sid buf rt :
  inbox s (write_to sid buf rt) = inbox s rt ++ (if decide (sid = s ∧ s ∈ live rt) then [buf] else []).
Proof.
  unfold inbox, write_to. case_decide as Hl; cbn [sent].
  - rewrite omap_app. cbn. destruct (decide (sid = s)) as [->|N].
    + by rewrite decide_True by done.
    + by rewrite decide_False by naive_solver.
  - rewrite decide_False by naive_solver. by rewrite app_nil_r.
Qed.
Lemma write_live sid buf (rt : Rt) : live (write_to sid buf rt) = live rt.
Proof. unfold write_to. by case_decide. Qed.

(** One buffer for every live session of the list that is not excluded. *)
Lemma broadcast_inbox s ex buf ss rt :
  NoDup ss →
  let rt' := foldl (λ rt sid, if decide (Some sid = ex) then rt else write_to sid buf rt) rt ss in
  live rt' = live rt ∧ driver rt' = driver rt
  ∧ inbox s rt' = inbox s rt ++ (if decide (s ∈ ss ∧ s ∈ live rt ∧ Some s ≠ ex) then [buf] else []).
Proof.
  intros Hnd. revert rt. induction Hnd as [|sid ss Hni _ IH]; intros rt; cbn [foldl].
  { split_and!; [done..|]. rewrite decide_False by set_solver. by rewrite app_nil_r. }
  set (rt1 := if decide (Some sid = ex) then rt else write_to sid buf rt).
  assert (live rt1 = live rt ∧ driver rt1 = driver rt) as [Hl Hd].
  { unfold rt1. destruct (decide (Some sid = ex)); [by split|]. by rewrite write_live, write_to_driver. }
  destruct (IH rt1) as (Hl' & Hd' & Hi). rewrite Hl', Hd', Hi, Hl, Hd. split_and!; [done..|].
  destruct (decide (sid = s)) as [->|N].
  - rewrite (decide_False (P := s ∈ ss ∧ _)) by naive_solver. rewrite app_nil_r. unfold rt1. destruct (decide (Some s = ex)) as [He|He].
    + rewrite decide_False by naive_solver. by rewrite app_nil_r.
    + rewrite write_inbox. f_equal. destruct (decide (s ∈ live rt)).
      * by rewrite !decide_True by set_solver.
      * by rewrite !decide_False by naive_solver.
  - assert (inbox s rt1 = inbox s rt) as ->.
    { unfold rt1. destruct (decide (Some sid = ex)); [done|]. rewrite write_inbox, decide_False by naive_solver. by rewrite app_nil_r. }
    f_equal. apply decide_ext. set_solver.
Qed.

(** *** Subscriptions only grow while a stream is read *)
Definition subs_grow (d d' : Driver) : Prop :=
  ∀ room, ServerDriver.sessions_in_room room d ⊆ ServerDriver.sessions_in_room room d'.
#[local] Instance subs_grow_preorder : PreOrder subs_grow.
Proof. split; [by intros d room|intros d1 d2 d3 G1 G2 room x Hx; by apply G2, G1]. Qed.

Lemma same_registry_grow d d' : ServerDriver.same_registry d d' → subs_grow d d'.
Proof. unfold subs_grow, ServerDriver.sessions_in_room. by intros ->. Qed.
Lemma keeps_grow {A} (m : M Driver ServerError A) : respects ServerDriver.same_registry m → respects subs_grow m.
Proof. intros Hm d. apply same_registry_grow, Hm. Qed.

Lemma subscribe_grow sid room :
  respects subs_grow (ServerDriver.on_registry (T := T) (S := S) (ConnectionRegistry.subscribe sid room)).
Proof.
  intros d r. unfold ServerDriver.on_registry, ConnectionRegistry.subscribe.
  destruct (ConnectionRegistry.sessions _ !! sid); [|done]. cbn. unfold ServerDriver.sessions_in_room, ConnectionRegistry.sessions_in_room. cbn.
  intros x. rewrite !elem_of_elements. unfold ConnectionRegistry.at_key.
  destruct (decide (r = room)) as [->|N]; [|by rewrite lookup_insert_ne].
  rewrite lookup_insert_eq. set_solver.
Qed.
Lemma mark_grow sid w :
  respects subs_grow (ServerDriver.on_registry (T := T) (S := S) (ConnectionRegistry.sessions_mut sid w)).
Proof.
  intros d r. unfold ServerDriver.on_registry, ConnectionRegistry.sessions_mut.
  by destruct (ConnectionRegistry.sessions _ !! sid).
Qed.
Lemma set_connection_grow sid c : respects subs_grow (ServerDriver.set_connection (T := T) (S := S) sid c).
Proof. by intros d r. Qed.

#[local] Hint Resolve subscribe_grow mark_grow set_connection_grow : respects.
Lemma rooms_grow {A} (op : M RoomManager.world RoomError A) : respects subs_grow (ServerDriver.on_rooms (T := T) (S := S) op).
Proof. apply keeps_grow, ServerDriver.keeps_on_rooms. Qed.
Lemma now_grow : respects subs_grow (ServerDriver.env_now (T := T) (S := S)).
Proof. apply keeps_grow, ServerDriver.keeps_env_now. Qed.
Lemma convert_grow a sid : respects subs_grow (ServerDriver.convert_room_action (T := T) (S := S) a sid).
Proof. apply keeps_grow, ServerDriver.keeps_convert. Qed.
Lemma room_frame_grow sid f : respects subs_grow (ServerDriver.process_room_frame (T := T) (S := S) sid f).
Proof. apply keeps_grow, ServerDriver.keeps_process_room_frame. Qed.
#[local] Hint Resolve rooms_grow now_grow convert_grow room_frame_grow : respects.

Lemma error_grow sid room e : respects subs_grow (ServerDriver.make_error_response (T := T) (S := S) sid room e).
Proof. unfold ServerDriver.make_error_response. repeat case_match; auto with respects. Qed.
Lemma sync_request_grow sid f : respects subs_grow (ServerDriver.handle_sync_request (T := T) (S := S) sid f).
Proof.
  unfold ServerDriver.handle_sync_request. apply (respects_bind subs_grow).
  - apply (respects_try subs_grow), (respects_bind subs_grow); [auto with respects|]. intros p. destruct p; auto with respects.
  - intros []; auto using error_grow with respects.
Qed.
#[local] Hint Resolve sync_request_grow : respects.

Lemma frame_received_grow sid f : respects subs_grow (ServerDriver.process_event (T := T) (S := S) (ServerDriver.FrameReceived sid f)).
Proof.
  cbn. unfold ServerDriver.handle_frame_received. apply (respects_bind subs_grow); [auto with respects|]. intros now.
  apply (respects_bind subs_grow); [auto with respects|]. intros d. case_match; [|auto with respects].
  destruct (FrameHeader.opcode_enum (Frame.header f)) as [[]|]; try destruct (Connection.handle_frame _ _ _);
    first [apply sync_request_grow|repeat (apply (respects_bind subs_grow); [auto with respects|]; intros); auto with respects].
Qed.

(** *** A session's view of a room's log *)

(** What happens to the log of [room] and to session [s]: the log gains [new], the
    session gets the buffers of [got], and if it is subscribed and stays connected,
    everything that was logged is among them, in order. *)
Definition gains (s room : Z) (new got : list Frame) (rt rt' : Rt) : Prop :=
  live rt' ⊆ live rt ∧ subs_grow (driver rt) (driver rt')
  ∧ logs rt' room = logs rt room ++ new ∧ inbox s rt' = inbox s rt ++ map buffer got
  ∧ Forall Frame.wf new
  ∧ (s ∈ live rt' → s ∈ subscribers room rt → new `sublist_of` got).
Definition seen (s room : Z) (rt rt' : Rt) : Prop := ∃ new got, gains s room new got rt rt'.

#[local] Instance seen_preorder s room : PreOrder (seen s room).
Proof.
  split.
  - intros rt. exists [], []. split_and!; [done|done|by rewrite app_nil_r..|done|done].
  - intros rt1 rt2 rt3 (n1 & g1 & L1 & B1 & E1 & I1 & W1 & V1) (n2 & g2 & L2 & B2 & E2 & I2 & W2 & V2).
    exists (n1 ++ n2), (g1 ++ g2). split_and!.
    + by etransitivity.
    + by etransitivity.
    + by rewrite E2, E1, app_assoc.
    + by rewrite I2, I1, map_app, app_assoc.
    + by apply Forall_app.
    + intros Hl Hs. apply sublist_app; [apply V1; [by apply L2|done]|apply V2; [done|by apply B1]].
Qed.

(** Steps that do not touch the log. *)
Lemma seen_quiet s room got rt rt' :
  live rt' ⊆ live rt → subs_grow (driver rt) (driver rt') → logs rt' room = logs rt room →
  inbox s rt' = inbox s rt ++ map buffer got → seen s room rt rt'.
Proof. intros Hl Hb Hr Hi. exists [], got. split_and!; try done; [by rewrite app_nil_r|intros; apply sublist_nil_l]. Qed.

Lemma quiet_action_seen s room a rt : quiet a → seen s room rt (snd (execute_action a rt)).
Proof.
  intros Hq. pose proof (proj2 (quiet_world a rt Hq) room) as Hr.
  destruct a as [sid f|r f ex|sid why|r i f|r st|l m t]; try done; cbn [execute_action] in *; munfold.
  - destruct (decide (sid ∈ live rt)); [|done]. destruct (encode_ f) as [buf| |] eqn:He; [|done..].
    apply encode_buffer in He as ->. cbn [snd] in *.
    apply (seen_quiet _ _ (if decide (sid = s ∧ s ∈ live rt) then [f] else [])); [by rewrite write_live|by rewrite write_to_driver|done|].
    rewrite write_inbox. by case_decide.
  - destruct (encode_ f) as [buf| |] eqn:He; [|done..]. apply encode_buffer in He as ->. cbn [snd] in *.
    change (ServerDriver.sessions_in_room r (driver rt)) with (subscribers r rt) in *.
    destruct (broadcast_inbox s ex (buffer f) (subscribers r rt) rt) as (Hl & Hd & Hi); [apply NoDup_elements|].
    eapply (seen_quiet _ _ (if decide (s ∈ subscribers r rt ∧ s ∈ live rt ∧ Some s ≠ ex) then [f] else []));
      [by rewrite Hl|by rewrite Hd|done|]. rewrite Hi. by case_decide.
  - apply (seen_quiet _ _ []); [cbn; set_solver|reflexivity|done|by rewrite app_nil_r].
  - unfold on_storage in *. destruct (store_mls_state r st _) as [x s']. cbn [snd] in *.
    apply (seen_quiet _ _ []); [done|by apply same_registry_grow|done|by rewrite app_nil_r].
Qed.

Lemma quiet_actions_seen s room acts rt : Forall quiet acts → seen s room rt (snd (execute_actions acts rt)).
Proof.
  unfold execute_actions. intros Hq. revert rt. induction Hq as [|a acts Ha _ IH]; intros rt; [done|].
  cbn [m_iter]. munfold. pose proof (quiet_action_seen s room a rt Ha) as Hs.
  destruct (execute_action a rt) as [[[]|e|] rt1]; cbn [snd] in *; [|done..]. by etransitivity.
Qed.

(** The actions of an ordered frame: it is stored at most once, and broadcast. *)
Lemma persist_inbox s room i f rt :
  let rt' := snd (execute_action (PersistFrame room i f) rt) in
  fst (execute_action (PersistFrame room i f) rt) = Ok tt
  ∧ live rt' = live rt ∧ ServerDriver.same_registry (driver rt) (driver rt') ∧ inbox s rt' = inbox s rt.
Proof.
  cbn [execute_action]. unfold on_storage.
  pose proof (store_frame_ok room i f (ServerDriver.storage (driver rt))) as Hok.
  by destruct (store_frame room i f _) as [[]].
Qed.

Lemma ordered_actions_seen s room r i f rest rt :
  RoomManager.winv (world rt) → fresh rt (PersistFrame r i f) → Frame.wf f → Forall quiet rest →
  seen s room rt (snd (execute_actions (PersistFrame r i f :: PersistFrame r i f :: BroadcastToRoom r f None :: rest) rt)).
Proof.
  intros Hw Hf Hwf Hq. unfold execute_actions. cbn [m_iter]. munfold.
  destruct (persist_inbox s r i f rt) as (Hok1 & Hl1 & Hr1 & Hi1).
  destruct (execute_action_spec _ rt Hw Hf) as [Hg1 He1]. specialize (He1 room).
  destruct (execute_action (PersistFrame r i f) rt) as [r1 rt1]. cbn [fst snd] in *. subst r1.
  destruct (persist_inbox s r i f rt1) as (Hok2 & Hl2 & Hr2 & Hi2).
  destruct (execute_action_spec _ rt1 (grown_winv _ _ Hg1) (fresh_grown _ _ _ Hg1 Hf)) as [_ He2]. specialize (He2 room).
  destruct (execute_action (PersistFrame r i f) rt1) as [r2 rt2]. cbn [fst snd] in *. subst r2.
  assert (∃ new, logs rt2 room = logs rt room ++ new ∧ (new = [] ∨ new = [f] ∧ r = room)) as (new & Hlog & Hnew).
  { destruct He1 as [E1|(f1 & [= Hr Hi <-] & E1)], He2 as [E2|(f2 & [= Hr' Hi' <-] & E2)]; rewrite E2, E1.
    - exists []. rewrite app_nil_r. auto.
    - eauto.
    - eauto.
    - exfalso. rewrite E1, zlen_app in Hi'. change (zlen [f]) with 1 in Hi'. lia. }
  transitivity (snd (execute_action (BroadcastToRoom r f None) rt2)); swap 1 2.
  { destruct (execute_action (BroadcastToRoom r f None) rt2) as [[[]|e|] rt3]; [|done..]. by apply quiet_actions_seen. }
  pose proof (proj2 (quiet_world (BroadcastToRoom r f None) rt2 I) room) as Hlog3.
  cbn [execute_action] in *. munfold. rewrite encode_wf in * by done. cbn [snd] in *.
  change (ServerDriver.sessions_in_room r (driver rt2)) with (subscribers r rt2) in *.
  destruct (broadcast_inbox s None (buffer f) (subscribers r rt2) rt2) as (Hl3 & Hd3 & Hi3); [apply NoDup_elements|].
  assert (subscribers r rt2 = subscribers r rt) as Hsub.
  { unfold subscribers, ServerDriver.sessions_in_room. by rewrite Hr2, Hr1. }
  exists new, (if decide (s ∈ subscribers r rt2 ∧ s ∈ live rt2 ∧ Some s ≠ None) then [f] else []). split_and!.
  - by rewrite Hl3, Hl2, Hl1.
  - rewrite Hd3. apply same_registry_grow. unfold ServerDriver.same_registry in *. congruence.
  - by rewrite Hlog3.
  - rewrite Hi3, Hi2, Hi1. by repeat case_decide.
  - destruct Hnew as [->|[-> _]]; auto.
  - rewrite Hl3, Hsub. intros Hlive Hs. destruct Hnew as [->|[-> ->]]; [apply sublist_nil_l|]. by rewrite decide_True by done.
Qed.

(** Processing writes nothing. *)
Lemma process_seen s room sid f rt r rt' :
  RoomManager.winv (world rt) → process (ServerDriver.FrameReceived sid f) rt = (r, rt') →
  grown rt rt' ∧ seen s room rt rt'.
Proof.
  intros Hw Hp. destruct (process_turn _ _ _ _ Hw Hp) as (Hg & Hl & _). split; [done|].
  pose proof (frame_received_grow sid f (driver rt)) as Hs. unfold process in Hp.
  destruct (ServerDriver.process_event _ (driver rt)) as [x d]. injection Hp as <- <-.
  apply (seen_quiet _ _ []); [done|done|apply Hl|by rewrite app_nil_r].
Qed.

(** One frame of a stream, processed and executed. *)
Lemma frame_seen s room sid f rt acts rt' :
  RoomManager.winv (world rt) → Frame.wf f → process (ServerDriver.FrameReceived sid f) rt = (Ok acts, rt') →
  RoomManager.winv (world (snd (execute_actions acts rt'))) ∧ seen s room rt' (snd (execute_actions acts rt')).
Proof.
  intros Hw Hf Hp. destruct (process_turn _ _ _ _ Hw Hp) as (Hg & Hl & Hfresh).
  specialize (Hfresh acts eq_refl). assert (Forall (fresh rt') acts) as Hfr by (eapply Forall_impl; [|exact Hfresh]; naive_solver).
  split; [apply (grown_winv rt'), execute_actions_spec; [apply Hg|done]|].
  pose proof (process_Ok _ _ _ _ Hp) as He.
  destruct (decide (ServerDriver.session_opcode (FrameHeader.opcode_enum (Frame.header f)) = false ∧ Sequencer.is_welcome f = false))
    as [[Ho Hwel]|Hn].
  - destruct (ServerDriver.room_frame_ordered _ _ _ _ _ Hw Ho Hwel He) as (rest & -> & Hx & _).
    apply Forall_cons_iff in Hfr as [Hfr _]. apply ordered_actions_seen; [apply Hg|done|by apply Relay.rebuild_wf|].
    destruct Hx as [->|[st ->]]; repeat constructor.
  - apply quiet_actions_seen. eapply unordered_quiet; [exact Hw|exact Hn|exact He].
Qed.

Lemma frames_seen s room sid fs rt :
  RoomManager.winv (world rt) → Forall Frame.wf fs → seen s room rt (snd (handle_frames sid fs rt)).
Proof.
  intros Hw Hfs. revert rt Hw. induction Hfs as [|f fs Hf _ IH]; intros rt Hw; [done|].
  cbn [handle_frames]. unfold m_try. munfold.
  destruct (process (ServerDriver.FrameReceived sid f) rt) as [r rt1] eqn:Hp.
  destruct (process_seen s room _ _ _ _ _ Hw Hp) as [Hg Hs1].
  destruct r as [acts|e|]; [|etransitivity; [done|by apply IH, Hg]|done].
  destruct (frame_seen s room _ _ _ _ _ Hw Hf Hp) as [Hw2 Hs2].
  transitivity rt1; [done|]. destruct (execute_actions acts rt1) as [[[]|e|] rt2]; cbn [snd] in *; [|done..].
  etransitivity; [exact Hs2|by apply IH].
Qed.

(** What the reader takes from a stream is well-formed. *)
Lemma read_frames_wf fuel input fs r : read_frames fuel input = Some (fs, r) → Forall Frame.wf fs.
Proof.
  revert input fs. induction fuel as [|fuel IH]; intros input fs; [done|]. cbn.
  destruct (read_frame input) as [|e| |f rest] eqn:Hr; try (intros [= <- _]; constructor).
  destruct (read_frames fuel rest) as [[fs' r']|] eqn:E; intros [= <- <-]. constructor; [|by eapply IH].
  unfold read_frame in Hr. repeat case_match; simplify_eq. by eapply Frame.decode_Ok.
Qed.

(** The actions of an ordered frame write one buffer to every live subscriber. *)
Lemma ordered_actions_inbox s r i f rest rt :
  Frame.wf f → (rest = [] ∨ ∃ st, rest = [PersistMlsState r st]) →
  let rt' := snd (execute_actions ([PersistFrame r i f; PersistFrame r i f; BroadcastToRoom r f None] ++ rest) rt) in
  inbox s rt' = inbox s rt ++ (if decide (s ∈ subscribers r rt ∧ s ∈ live rt) then [buffer f] else []).
Proof.
  intros Hwf Hrest. unfold execute_actions. cbn [m_iter app]. munfold.
  destruct (persist_inbox s r i f rt) as (Hok1 & Hl1 & Hr1 & Hi1).
  destruct (execute_action (PersistFrame r i f) rt) as [r1 rt1]. cbn [fst snd] in *. subst r1.
  destruct (persist_inbox s r i f rt1) as (Hok2 & Hl2 & Hr2 & Hi2).
  destruct (execute_action (PersistFrame r i f) rt1) as [r2 rt2]. cbn [fst snd] in *. subst r2.
  assert (subscribers r rt2 = subscribers r rt) as Hsub.
  { unfold subscribers, ServerDriver.sessions_in_room. by rewrite Hr2, Hr1. }
  destruct (broadcast_inbox s None (buffer f) (subscribers r rt2) rt2) as (_ & _ & Hi3); [apply NoDup_elements|].
  cbn [execute_action]. munfold. rewrite encode_wf by done.
  change (ServerDriver.sessions_in_room r (driver rt2)) with (subscribers r rt2). set (rt3 := foldl _ rt2 _) in *.
  assert (inbox s (snd (m_iter execute_action rest rt3)) = inbox s rt3) as Hrest3.
  { destruct Hrest as [->|[st ->]]; [done|]. cbn [m_iter execute_action]. munfold. unfold on_storage.
    by destruct (store_mls_state r st _) as [[[]| |] s']. }
  rewrite Hrest3, Hi3, Hi2, Hi1, Hsub, Hl2, Hl1. f_equal. apply decide_ext. naive_solver.
Qed.

(** C5: a subscriber sees the log.  Whatever bytes arrive on a stream (frames of any
    kind, valid or not, to any rooms, then garbage), the log of a room only gains
    frames, and every session that is subscribed to the room and still connected
    afterwards has been sent each of them, in log order, as a buffer that decodes to
    exactly the logged frame. *)
Theorem subscriber_sees_log s room sid input rt :
  RoomManager.winv (world rt) →
  let rt' := snd (handle_stream sid input rt) in
  ∃ new got, logs rt' room = logs rt room ++ new ∧ inbox s rt' = inbox s rt ++ map buffer got
    ∧ (s ∈ live rt' → s ∈ subscribers room rt → new `sublist_of` got)
    ∧ Forall (λ f, Frame.decode (buffer f) = Ok f) new.
Proof.
  intros Hw. assert (seen s room rt (snd (handle_stream sid input rt))) as (new & got & _ & _ & Hl & Hi & Hwf & Hs).
  { unfold handle_stream. destruct (read_frames _ input) as [[fs r]|] eqn:Hr; [|done].
    apply read_frames_wf in Hr. destruct r; try by apply frames_seen. done. }
  exists new, got. split_and!; [done..|]. eapply Forall_impl; [|exact Hwf]. apply decode_buffer.
Qed.

(** Processing a frame that is numbered changes no subscription. *)
Lemma process_ordered_same s sid f rt acts rt' :
  ServerDriver.session_opcode (FrameHeader.opcode_enum (Frame.header f)) = false → Sequencer.is_welcome f = false →
  process (ServerDriver.FrameReceived sid f) rt = (Ok acts, rt') →
  live rt' = live rt ∧ (∀ room, subscribers room rt' = subscribers room rt) ∧ inbox s rt' = inbox s rt.
Proof.
  intros Ho Hwel Hp. unfold process in Hp. destruct (ServerDriver.process_event _ (driver rt)) as [x d] eqn:He.
  injection Hp as Hx <-. destruct x as [acts'|e|]; [|done..].
  split_and!; [done| |done]. intros room. unfold subscribers, ServerDriver.sessions_in_room. cbn.
  destruct (ServerDriver.connections (driver rt) !! sid) as [c|] eqn:Hc; swap 1 2.
  { cbn in He. unfold ServerDriver.handle_frame_received in He.
    destruct (ServerDriver.driver_now_spec (driver rt)) as (now & e & Hn). munfold. rewrite Hn in He. cbn in He. by rewrite Hc in He. }
  destruct (ServerDriver.handle_room_frame sid f _ c Hc Ho) as (now & e & _ & Heq). rewrite He in Heq. injection Heq as _ ->.
  unfold ServerDriver.route_room_frame. rewrite Hwel. cbn. by rewrite ServerDriver.keeps_process_room_frame.
Qed.

(** An accepted frame of a room in order, from the stream of one session to the
    inbox of every other. *)
Lemma accepted_frame_relayed `{!Sequencer.StorageReliable} s sid f rt acts rt1 :
  let room := FrameHeader.room_id (Frame.header f) in
  let n := zlen (logs rt room) in
  RoomManager.winv (world rt) → next room (world rt) = n → Frame.wf f →
  ServerDriver.session_opcode (FrameHeader.opcode_enum (Frame.header f)) = false → Sequencer.is_welcome f = false →
  process (ServerDriver.FrameReceived sid f) rt = (Ok acts, rt1) →
  let rt' := snd (handle_stream sid (wire [f]) rt) in
  let g := Client.sequenced n f in
  logs rt' room = logs rt room ++ [g]
  ∧ inbox s rt' = inbox s rt ++ (if decide (s ∈ subscribers room rt ∧ s ∈ live rt) then [buffer g] else []).
Proof.
  intros room n Hw Hn Hf Ho Hwel Hp. cbv zeta. unfold handle_stream.
  rewrite read_wire by by constructor. cbn [handle_frames]. unfold m_try. munfold. rewrite Hp.
  destruct (ServerDriver.room_frame_ordered _ _ _ _ _ Hw Ho Hwel (process_Ok _ _ _ _ Hp)) as (rest & -> & Hx & _ & Hl & _).
  fold room in Hx, Hl |- *. change (Sequencer.next_of room _) with (next room (world rt)). rewrite Hn.
  rewrite Relay.rebuild_sequenced by done. set (g := Client.sequenced n f).
  pose proof (process_ordered_same s _ _ _ _ _ Ho Hwel Hp) as (Hlive & Hsub & Hin).
  pose proof (ordered_actions_inbox s room n g rest rt1 (Relay.sequenced_wf _ _ Hf) Hx) as Hi.
  assert (Forall quiet (BroadcastToRoom room g None :: rest)) as Hq by (destruct Hx as [->|[st ->]]; repeat constructor).
  pose proof (ordered_actions room n g _ rt1 Hq) as Hlog. cbn [app] in *.
  assert (logs rt1 room = logs rt room) as Hl1 by apply Hl.
  change (logs (snd (execute_actions (PersistFrame room n g :: PersistFrame room n g :: BroadcastToRoom room g None :: rest) rt1)) room
    = logs rt1 room ++ (if decide (n = zlen (logs rt1 room)) then [g] else [])) in Hlog.
  rewrite Hl1, decide_True in Hlog by done. rewrite Hin, Hsub, Hlive in Hi.
  destruct (execute_actions _ rt1) as [[[]|e|] rt2]; done.
Qed.
End broadcasting.
End Broadcasting.

(** ** Catch-up *)
Module CatchUp.
Import ClientAction Client Broadcasting.
Section client.
Context `{PayloadCodec} `{Primitives} {U : Type} `{Environment U} `{OpenMls U} `{Ed25519}.
Context `{!OpenMlsOk U, !ClientCodecOk, !ReceiveTotal (T := U), !CborOk session.SyncResponse}.
Abbreviation Cl := (Client (T := U)).

(** A client that receives frames one by one as they come: its results and its
    state at the end. *)
Fixpoint online (fs : list Frame) (c : Cl) : list (outcome ClientError (list ClientAction)) * Cl :=
  match fs with
  | [] => ([], c)
  | f :: fs =>
      let '(r, c) := handle (FrameReceived f) c in
      let '(rs, c) := online fs c in (r :: rs, c)
  end.

(** The messages that actions or results hand to the user. *)
Definition is_delivery (a : ClientAction) : bool := match a with DeliverMessage _ _ _ _ _ => true | _ => false end.
Definition deliveries (acts : list ClientAction) : list ClientAction := List.filter is_delivery acts.
Definition delivered (rs : list (outcome ClientError (list ClientAction))) : list ClientAction :=
  concat (map (λ r, match r with Ok acts => deliveries acts | _ => [] end) rs).

Lemma deliveries_app a b : deliveries (a ++ b) = deliveries a ++ deliveries b.
Proof. apply List.filter_app. Qed.

(** One frame of a response does what the frame does when it comes alone, except
    that an error is only logged. *)
Lemma sync_frame_online i b f (c : Cl) depth :
  cinv c → Frame.decode b = Ok f → (length (Frame.payload f) < depth)%nat →
  ∃ acts, sync_frame (handle_frame depth) (i, b) c = (Ok acts, snd (handle (FrameReceived f) c))
    ∧ deliveries acts = delivered [fst (handle (FrameReceived f) c)] ∧ cinv (snd (handle (FrameReceived f) c)).
Proof.
  intros Hc Hd Hlen. cbn [sync_frame]. munfold. rewrite Hd.
  assert (handle_frame depth f c = handle (FrameReceived f) c) as ->.
  { cbn [handle]. apply frame_depth_irrelevant; [done|unfold frame_depth; lia]. }
  assert (fst (handle (FrameReceived f) c) ≠ Panic) as Hp.
  { apply frame_safe; [unfold frame_depth; lia|done]. }
  assert (cinv (snd (handle (FrameReceived f) c))) as Hc' by apply (frame_keeps _ f c Hc).
  destruct (handle (FrameReceived f) c) as [[acts|e|] c']; cbn [fst snd] in *; [| |done].
  - eexists. split; [done|]. split; [|done]. unfold delivered; cbn. by rewrite app_nil_r.
  - eexists. by split.
Qed.

Lemma sync_frames_online bs fs k (c : Cl) depth :
  cinv c → Forall2 (λ b f, Frame.decode b = Ok f ∧ (length (Frame.payload f) < depth)%nat) bs fs →
  ∃ acts, m_concat_map (sync_frame (handle_frame depth)) (imap (λ i b, (Z.of_nat (k + i), b)) bs) c
          = (Ok acts, snd (online fs c)) ∧ deliveries acts = delivered (fst (online fs c)).
Proof.
  intros Hc Hbs. revert k c Hc. induction Hbs as [|b f bs fs [Hd Hlen] _ IH]; intros k c Hc; [by exists []|].
  cbn [imap m_concat_map online]. munfold.
  destruct (sync_frame_online (Z.of_nat (k + 0)) b f c depth Hc Hd Hlen) as (acts & -> & Ha & Hc').
  destruct (handle (FrameReceived f) c) as [r c1]. cbn [fst snd] in *.
  destruct (IH (Datatypes.S k) c1 Hc') as (acts' & E & Ha').
  assert (imap ((λ i b0, (Z.of_nat (k + i), b0)) ∘ Datatypes.S) bs = imap (λ i b0, (Z.of_nat (Datatypes.S k + i), b0)) bs) as ->.
  { apply imap_ext. intros. cbn. do 2 f_equal. lia. }
  rewrite E. destruct (online fs c1) as [rs c2]. cbn [fst snd] in *. eexists. split; [done|].
  rewrite deliveries_app, Ha, Ha'. unfold delivered. cbn. by rewrite app_nil_r.
Qed.

(** A response that holds the encodings of [fs]. *)
Lemma sync_response_online resp r fs (c : Cl) :
  cinv c → FrameHeader.opcode_enum (Frame.header resp) = Some Opcode.SyncResponse →
  cbor_ser (A := session.SyncResponse) r = Ok (Frame.payload resp) →
  Forall2 (λ b f, Frame.decode b = Ok f) (session.sync_frames r) fs →
  ∃ acts, handle (FrameReceived resp) c = (Ok acts, snd (online fs c)) ∧ deliveries acts = delivered (fst (online fs c)).
Proof.
  intros Hc Ho Hser%cbor_roundtrip Hfs. cbn [handle frame_depth handle_frame]. rewrite Ho.
  unfold handle_sync_response. munfold. rewrite Hser.
  destruct (sync_frames_online (session.sync_frames r) fs 0 c (length (Frame.payload resp)) Hc) as (acts & E & Ha).
  { apply Forall2_same_length_lookup_2; [by eapply Forall2_length|]. intros k b f Hb Hf.
    pose proof (Forall2_lookup_lr _ _ _ _ _ _ Hfs Hb Hf) as Hd. split; [done|].
    pose proof (decode_short _ _ Hd). apply list_elem_of_lookup_2 in Hb.
    pose proof (sync_frames_short _ _ _ Hser Hb). lia. }
  cbn [Nat.add] in E. rewrite E. eexists. split; [done|]. cbn [app deliveries List.filter is_delivery].
  change (List.filter is_delivery (acts ++ ?l)) with (deliveries (acts ++ l)).
  rewrite deliveries_app, Ha. destruct (session.sync_has_more r); cbn; by rewrite app_nil_r.
Qed.
End client.

Section server.
Context `{PayloadCodec} {T : Type} `{Environment T} `{OpenMls T} `{Ed25519} {S : Type} `{StorageOk S}.

(** A reply to a sync request that is one frame is a response with the range of the
    log that was asked for. *)
Lemma sync_reply_exact sid req q (d : ServerDriver (T := T) (S := S)) to resp d' :
  let room := FrameHeader.room_id (Frame.header req) in
  let from := session.sync_from_log_index q in
  let limit := session.sync_limit q in
  RoomManager.winv (ServerDriver.world_of d) → Forall Frame.wf (log (ServerDriver.storage d) room) →
  0 ≤ from → 1 ≤ limit → from + limit < U64_MOD →
  FrameHeader.opcode_enum (Frame.header req) = Some Opcode.SyncRequest →
  Payload.from_frame req = Ok (Payload.SyncRequest q) →
  ServerDriver.process_event (ServerDriver.FrameReceived sid req) d = (Ok [ServerAction.SendToSession to resp], d') →
  to = sid ∧ FrameHeader.opcode_enum (Frame.header resp) = Some Opcode.SyncResponse
  ∧ (zlen (Frame.payload resp) ≤ FrameHeader.MAX_PAYLOAD_SIZE → Frame.wf resp)
  ∧ ∃ r, cbor_ser (A := session.SyncResponse) r = Ok (Frame.payload resp)
    ∧ session.sync_has_more r = (from + limit <? zlen (log (ServerDriver.storage d) room))
    ∧ Forall2 (λ b f, Frame.decode b = Ok f) (session.sync_frames r)
        (take (Z.to_nat limit) (drop (Z.to_nat from) (log (ServerDriver.storage d) room))).
Proof.
  intros room from limit Hw Hwf Hf Hl Hb Ho Hp He. cbn [ServerDriver.process_event] in He.
  unfold ServerDriver.handle_frame_received, ServerDriver.handle_sync_request, ServerDriver.on_rooms in He.
  destruct (ServerDriver.driver_now_spec d) as (now & e & Hn). munfold. rewrite Hn in He.
  set (d1 := ServerDriver.with_world _ d) in *. destruct (ServerDriver.connections d1 !! sid); [|done].
  rewrite Ho, Hp in He. fold room from limit in He.
  destruct (RoomManager.handle_sync_request room sid from limit (ServerDriver.world_of d1)) as [[a|e1|] w] eqn:Hsync; [| |done].
  2: { exfalso. unfold ServerDriver.make_error_response in He. munfold.
       destruct (Payload.into_frame _ _); [|destruct (ServerDriver.driver_now_spec (ServerDriver.with_world w d1)) as (? & ? & E); by rewrite E in He|done].
       destruct (ServerDriver.driver_now_spec (ServerDriver.with_world w d1)) as (? & ? & E); by rewrite E in He. }
  destruct (RoomManager.sync_response_Ok room sid from limit (ServerDriver.world_of d1) a w Hw Hwf Hf Hl Hb Hsync)
    as (bs & group & t & -> & _ & Hbs).
  cbn [ServerDriver.convert_room_action] in He. munfold.
  set (r := {| session.sync_frames := bs; session.sync_has_more := _; session.sync_server_epoch := _ |}) in He.
  destruct (Payload.into_frame (Payload.SyncResponse r) _) as [frame|e1|] eqn:Hinto; [| |done]; cbn in He.
  2: { destruct (ServerDriver.driver_now_spec (ServerDriver.with_world w d1)) as (? & ? & E); by rewrite E in He. }
  injection He as <- <- _. split; [done|].
  pose proof (Payload.into_frame_opcode _ _ _ Hinto) as Hop. split; [exact Hop|]. split.
  - intros Hsz. destruct (Payload.into_frame_wf _ _ _ Hinto (FrameHeader.new_wf _) eq_refl eq_refl Hsz) as [W1 W2 W3].
    split; [by apply FrameHeader.set_room_id_wf|exact W2|exact W3].
  - apply Payload.into_frame_Ok in Hinto as (bytes & Hser & ->). by exists r.
Qed.
End server.

Section catch_up.
Context `{PayloadCodec} `{Primitives} `{Ed25519}.
Context {T : Type} `{Environment T} `{OpenMls T} {S : Type} `{StorageOk S}.
Context {U : Type} `{Environment U} `{OpenMls U}.
Context `{!OpenMlsOk U, !ClientCodecOk, !ReceiveTotal (T := U), !CborOk session.SyncResponse}.

(** C3: catching up is as good as having been there.  A client asks for a range of a
    room's log and the server answers; the answer survives the wire, and handling it
    leaves the client, whatever state it is in, exactly where handling the logged
    frames one by one as they were broadcast would have left it, with the same
    messages delivered in the same order. *)
Theorem catch_up_is_replay sid req q (d : ServerDriver (T := T) (S := S)) to resp d' e me (c : Client (T := U)) :
  let room := FrameHeader.room_id (Frame.header req) in
  let from := session.sync_from_log_index q in
  let limit := session.sync_limit q in
  let missed := take (Z.to_nat limit) (drop (Z.to_nat from) (log (ServerDriver.storage d) room)) in
  RoomManager.winv (ServerDriver.world_of d) → Forall Frame.wf (log (ServerDriver.storage d) room) →
  0 ≤ from → 1 ≤ limit → from + limit < U64_MOD →
  FrameHeader.opcode_enum (Frame.header req) = Some Opcode.SyncRequest →
  Payload.from_frame req = Ok (Payload.SyncRequest q) →
  ServerDriver.process_event (ServerDriver.FrameReceived sid req) d = (Ok [ServerAction.SendToSession to resp], d') →
  zlen (Frame.payload resp) ≤ FrameHeader.MAX_PAYLOAD_SIZE → rtc step (new e me) c →
  to = sid ∧ Frame.decode (buffer resp) = Ok resp
  ∧ ∃ acts, handle (FrameReceived resp) c = (Ok acts, snd (online missed c))
    ∧ deliveries acts = delivered (fst (online missed c)).
Proof.
  intros room from limit missed Hw Hwf Hf Hl Hb Ho Hp He Hsz [Hc _]%reachable_cinv.
  destruct (sync_reply_exact sid req q d to resp d' Hw Hwf Hf Hl Hb Ho Hp He) as (-> & Hop & Hrw & r & Hser & _ & Hbs).
  split; [done|]. split; [by apply decode_buffer, Hrw|]. by eapply sync_response_online.
Qed.
End catch_up.
End CatchUp.

(** ** From client to client *)
Module EndToEnd.
Import ClientAction Client Broadcasting Tasks.
Section end_to_end.
Context `{PayloadCodec} `{Primitives} `{Ed25519}.
Context {T : Type} `{Environment T} `{OpenMls T} {S : Type} `{StorageOk S} `{!ReadOnly S, !Sequencer.StorageReliable}.
Context {U : Type} `{Environment U} `{OpenMls U}.
Abbreviation Rt := (Server.Runtime (T := T) (S := S)).
Abbreviation Cl := (Client (T := U)).

Lemma app_routed f :
  is_app f → ServerDriver.session_opcode (FrameHeader.opcode_enum (Frame.header f)) = false ∧ Sequencer.is_welcome f = false.
Proof. unfold is_app, Sequencer.is_welcome. by intros ->. Qed.

(** C2: a message reaches every member as it was sent.  A message frame arrives on
    the stream of a session and the server accepts it, the room being in order.
    Then it is the next entry of the room's log; every other session that is
    connected and subscribed is sent one more buffer, which decodes to that entry;
    and a receiver that would deliver the frame coming straight from the sender
    delivers the same plaintext in the same sender's name, with the position in the
    log as its index, and is in the same state afterwards. *)
Theorem message_end_to_end s sid f (rt : Rt) acts rt1 (b b' : Cl) plaintext :
  let room := FrameHeader.room_id (Frame.header f) in
  let n := zlen (logs rt room) in
  RoomManager.winv (world rt) → next room (world rt) = n → Frame.wf f → is_app f →
  Server.process (ServerDriver.FrameReceived sid f) rt = (Ok acts, rt1) →
  s ∈ subscribers room rt → s ∈ Server.live rt →
  handle (FrameReceived f) b = (Ok (delivery room f plaintext), b') →
  let rt' := snd (Server.handle_stream sid (Server.wire [f]) rt) in
  ∃ g buf, logs rt' room = logs rt room ++ [g] ∧ inbox s rt' = inbox s rt ++ [buf] ∧ Frame.decode buf = Ok g
    ∧ handle (FrameReceived g) b
      = (Ok [DeliverMessage room (FrameHeader.sender_id (Frame.header f)) plaintext n
               (FrameHeader.hlc_timestamp (Frame.header f))], b').
Proof.
  intros room n Hw Hn Hf Ha Hp Hs Hl Hb rt'. destruct (app_routed f Ha) as [Ho Hwel].
  destruct (accepted_frame_relayed s sid f rt acts rt1 Hw Hn Hf Ho Hwel Hp) as [Hlog Hin].
  fold room n rt' in Hlog, Hin. rewrite decide_True in Hin by done.
  exists (sequenced n f), (buffer (sequenced n f)).
  split_and!; [done|done|by apply decode_buffer, Relay.sequenced_wf|].
  pose proof (Sequencer.next_of_bound room _ Hw) as Hbound. pose proof (zlen_nonneg (logs rt room)).
  rewrite Relay.handle_sequenced, Hb, decide_True; [done|done|done|].
  change (Sequencer.next_of room _) with (next room (world rt)) in Hbound. rewrite Hn in Hbound. fold n in Hbound. lia.
Qed.
End end_to_end.
End EndToEnd.

(** ** What becomes of a message that the client code sends *)
Module Sending.
Import ClientAction Client Broadcasting Tasks.
Section sending.
Context `{PayloadCodec} `{Primitives} `{Ed25519}.
Context {T : Type} `{Environment T} `{OpenMls T} {S : Type} `{StorageOk S} `{!ReadOnly S, !Sequencer.StorageReliable}.
Context {U : Type} `{Environment U} `{OpenMls U}.
Abbreviation Rt := (Server.Runtime (T := T) (S := S)).
Abbreviation Driver := (ServerDriver (T := T) (S := S)).
Abbreviation Cl := (Client (T := U)).

Lemma wf_accepts f :
  Frame.wf f → FrameHeader.room_id (Frame.header f) ≠ 0 → FrameHeader.epoch (Frame.header f) ≤ MAX_EPOCH →
  Sequencer.is_welcome f = false → Sequencer.accepts f = true.
Proof.
  intros [_ (Hm & Hv & _) Hs] Hr He Hw. unfold Sequencer.accepts, Sequencer.validate_frame_structure.
  rewrite Hm, Hv, Hs, !Z.eqb_refl, (proj2 (Z.eqb_neq _ _) Hr), (proj2 (Z.ltb_ge _ _) He), Hw. done.
Qed.

(** The world in which the room manager handles a frame. *)
Definition at_time (e : T) (d : Driver) : RoomManager.world (T := T) (S := S) :=
  {| RoomManager.rm := ServerDriver.room_manager d; RoomManager.env := e; RoomManager.store := ServerDriver.storage d |}.

(** The driver's verdict on a numbered frame is the room manager's. *)
Lemma room_frame_verdict sid f (d : Driver) c :
  ServerDriver.connections d !! sid = Some c →
  ServerDriver.session_opcode (FrameHeader.opcode_enum (Frame.header f)) = false → Sequencer.is_welcome f = false →
  ∃ now e, let d1 := ServerDriver.with_world (at_time e d) d in
    ServerDriver.process_event (ServerDriver.FrameReceived sid f) d
    = (fst (ServerDriver.process_room_frame sid f d1),
       ServerDriver.with_connections (<[sid := Connection.update_activity now c]> (ServerDriver.connections d))
         (snd (ServerDriver.process_room_frame sid f d1))).
Proof.
  intros Hc Ho Hw. destruct (ServerDriver.handle_room_frame sid f d c Hc Ho) as (now & e & _ & Heq).
  exists now, e. unfold ServerDriver.route_room_frame in Heq. by rewrite Hw in Heq.
Qed.

Lemma room_frame_Ok sid f (d : Driver) c :
  RoomManager.winv (ServerDriver.world_of d) → ServerDriver.connections d !! sid = Some c →
  ServerDriver.session_opcode (FrameHeader.opcode_enum (Frame.header f)) = false → Sequencer.is_welcome f = false →
  (∀ e, ∃ acts w, RoomManager.process_frame f (at_time e d) = (Ok acts, w)) →
  ∃ acts d', ServerDriver.process_event (ServerDriver.FrameReceived sid f) d = (Ok acts, d').
Proof.
  intros Hw Hc Ho Hwel Hrm. destruct (room_frame_verdict sid f d c Hc Ho Hwel) as (now & e & ->).
  destruct (Hrm e) as (acts & w & Hp). unfold ServerDriver.process_room_frame, ServerDriver.on_rooms. munfold.
  change (ServerDriver.world_of (ServerDriver.with_world (at_time e d) d)) with (at_time e d). rewrite Hp. cbn [map_err].
  destruct (RoomManager.process_frame_Ok f (at_time e d) acts w Hw Hp) as (g & sacts & t & extra & _ & _ & _ & _ & -> & Hx & _ & _ & Ha).
  rewrite Hwel in Ha. destruct Ha as (i & -> & _). destruct Hx as [->|[st ->]]; cbn; eauto.
Qed.

Lemma room_frame_Err sid f (d : Driver) c :
  ServerDriver.connections d !! sid = Some c →
  ServerDriver.session_opcode (FrameHeader.opcode_enum (Frame.header f)) = false → Sequencer.is_welcome f = false →
  (∀ e, ∃ err w, RoomManager.process_frame f (at_time e d) = (Err err, w)) →
  ∃ e err d', ServerDriver.process_event (ServerDriver.FrameReceived sid f) d = (Err (ServerError.Room err), d')
    ∧ RoomManager.process_frame f (at_time e d) = (Err err, ServerDriver.world_of d').
Proof.
  intros Hc Ho Hwel Hrm. destruct (room_frame_verdict sid f d c Hc Ho Hwel) as (now & e & ->).
  destruct (Hrm e) as (err & w & Hp). unfold ServerDriver.process_room_frame, ServerDriver.on_rooms. munfold.
  change (ServerDriver.world_of (ServerDriver.with_world (at_time e d) d)) with (at_time e d). rewrite Hp. cbn [map_err fst snd].
  eexists e, err, _. split; [done|]. rewrite Hp. by destruct w.
Qed.

(** A room that the server has created and for which it holds no group state yet:
    the state is stored with the first commit. *)
Record fresh_room (room : Z) (rt : Rt) : Prop := {
  fresh_counter : next room (world rt) = zlen (logs rt room);
  fresh_space : zlen (logs rt room) < U64_MAX;
  fresh_group : ∃ g, RoomManager.groups (RoomManager.rm (world rt)) !! room = Some g ∧ MlsGroup.epoch g = 0;
  fresh_state : ∃ s, load_mls_state room (RoomManager.store (world rt)) = (Ok None, s) }.

Lemma fresh_room_relays s sid f (rt : Rt) c :
  let room := FrameHeader.room_id (Frame.header f) in
  let g := sequenced (zlen (logs rt room)) f in
  RoomManager.winv (world rt) → fresh_room room rt → room ≠ 0 →
  ServerDriver.connections (Server.driver rt) !! sid = Some c →
  Frame.wf f → is_app f → FrameHeader.epoch (Frame.header f) = 0 →
  let rt' := snd (Server.handle_stream sid (Server.wire [f]) rt) in
  logs rt' room = logs rt room ++ [g]
  ∧ inbox s rt' = inbox s rt ++ (if decide (s ∈ subscribers room rt ∧ s ∈ Server.live rt) then [buffer g] else []).
Proof.
  intros room g Hw [Hn Hb (grp & Hg & Hge) [s1 Hst]] Hr Hc Hf Ha He. destruct (EndToEnd.app_routed f Ha) as [Ho Hwel].
  destruct (room_frame_Ok sid f (Server.driver rt) c Hw Hc Ho Hwel) as (acts & d' & Hp).
  { intros e. eapply (RoomManager.process_frame_unchecked f grp (at_time e (Server.driver rt)) s1); try done.
    - unfold RoomManager.is_commit. by rewrite Ha.
    - by apply wf_accepts; [..|rewrite He|]. }
  apply (accepted_frame_relayed s sid f rt acts (Server.with_driver d' rt)); try done.
  unfold Server.process. by rewrite Hp.
Qed.

(** C39: a fresh room is open to everybody.  As long as no group state is stored for a
    room, any connected session, authenticated or not, may post a message of epoch 0
    in any sender's name and with any signature: the frame becomes the next entry of
    the log and is sent to every connected subscriber. *)
Theorem fresh_room_accepts_anyone s sid sender sig f (rt : Rt) c :
  let room := FrameHeader.room_id (Frame.header f) in
  let forged := {| Frame.header := FrameHeader.set_signature sig (FrameHeader.set_sender_id sender (Frame.header f));
                   Frame.payload := Frame.payload f |} in
  let g := sequenced (zlen (logs rt room)) forged in
  RoomManager.winv (world rt) → fresh_room room rt → room ≠ 0 →
  ServerDriver.connections (Server.driver rt) !! sid = Some c →
  Frame.wf f → is_app f → FrameHeader.epoch (Frame.header f) = 0 → length sig = 64%nat →
  s ∈ subscribers room rt → s ∈ Server.live rt →
  let rt' := snd (Server.handle_stream sid (Server.wire [forged]) rt) in
  logs rt' room = logs rt room ++ [g] ∧ inbox s rt' = inbox s rt ++ [buffer g].
Proof.
  intros room forged g Hw Hfr Hr Hc [Hh Hv Hsz] Ha He Hsig Hs Hl rt'.
  assert (Frame.wf forged) as Hf.
  { split; [by apply FrameHeader.set_signature_wf, FrameHeader.set_sender_id_wf|exact Hv|exact Hsz]. }
  destruct (fresh_room_relays s sid forged rt c Hw Hfr Hr Hc Hf Ha He) as [Hlog Hin]. split; [exact Hlog|].
  fold rt' in Hin. by rewrite decide_True in Hin.
Qed.

(** C37: in a fresh room nobody can read what is sent.  A message that the client code
    produces arrives on the stream of a connected session of a room without stored
    group state.  The server logs it and sends it to every connected subscriber, and
    every client at the sender's epoch that has the sender's key refuses it and is
    left unchanged (for signatures that verify only what they were made for). *)
Theorem sent_message_unreadable s sid (rt : Rt) conn (a b a' : Cl) id p frame ra rb sig key :
  RoomManager.winv (world rt) → fresh_room id rt → 0 < id < U128_MOD →
  ServerDriver.connections (Server.driver rt) !! sid = Some conn → s ∈ subscribers id rt → s ∈ Server.live rt →
  handle (SendMessage id p) a = (Ok [Send frame], a') →
  rooms a !! id = Some ra → rooms b !! id = Some rb → 0 ≤ client_sender_id a < U64_MOD →
  MlsGroup.epoch (mls_group ra) = 0 → MlsGroup.epoch (mls_group rb) = 0 →
  keypair_sign (MlsGroup.signer (mls_group ra)) (signed_part a id ra) = Ok sig → length sig = 64%nat →
  MlsGroupState.member_key (client_sender_id a) (MlsGroup.export_validation_state (mls_group rb)) = Some key →
  (∀ msg, ed_verify key msg sig = true → msg = signed_part a id ra) →
  zlen (Frame.payload frame) ≤ FrameHeader.MAX_PAYLOAD_SIZE →
  let rt' := snd (Server.handle_stream sid (Server.wire [frame]) rt) in
  ∃ g buf why, logs rt' id = logs rt id ++ [g] ∧ inbox s rt' = inbox s rt ++ [buf] ∧ Frame.decode buf = Ok g
    ∧ handle (FrameReceived g) b = (Err (ClientError.InvalidFrame why), b).
Proof.
  intros Hw Hfr Hid Hc Hs Hl Hsend Hra Hrb Hme Hea Heb Hsig Hlen Hkey Honly Hsz rt'.
  assert (sent_by a id ra sig frame) as Hsent by (eapply handle_send_frame; eauto; lia).
  pose proof (sent_wf _ _ _ _ _ Hsent Hsz) as Hf. pose proof (sent_room _ _ _ _ _ Hsent) as Hroom.
  destruct (fresh_room_relays s sid frame rt conn Hw) as [Hlog Hin]; rewrite ?Hroom; try done; [lia|by apply Hsent| |].
  { by rewrite (sent_epoch _ _ _ _ _ Hsent). }
  rewrite Hroom in Hlog, Hin. fold rt' in Hlog, Hin. rewrite decide_True in Hin by done.
  destruct (sent_refused a b id ra rb sig frame key (zlen (logs rt id)) Hsent Hrb) as [why Hb]; [by rewrite Hea|done..|].
  eexists _, _, why. split_and!; [exact Hlog|exact Hin|by apply decode_buffer, Relay.sequenced_wf|exact Hb].
Qed.

(** C36: in an established room the first message closes the room.  The room has a
    stored group state that lists the sender with its key, and is in order; a task
    holds a message that the sender's client code produced.  Its turn is an error,
    and whatever tasks, connections and frames follow, in whatever order, no frame
    of the room is ever stored again. *)
Theorem honest_message_closes_room (c : System (T := T) (S := S)) x t fs conn grp st key s1 (a a' : Cl) id p frame ra sig :
  let rt := shared c in
  sound c → idle c → tasks c !! x = Some t → unread t = frame :: fs → 0 < id < U128_MOD →
  ServerDriver.connections (Server.driver rt) !! session t = Some conn →
  RoomManager.groups (RoomManager.rm (world rt)) !! id = Some grp →
  load_mls_state id (RoomManager.store (world rt)) = (Ok (Some st), s1) →
  next id (world rt) = zlen (logs rt id) → zlen (logs rt id) < U64_MAX →
  handle (SendMessage id p) a = (Ok [Send frame], a') → rooms a !! id = Some ra →
  0 ≤ client_sender_id a < U64_MOD → 0 ≤ MlsGroup.epoch (mls_group ra) ≤ MAX_EPOCH →
  MlsGroup.epoch grp = MlsGroup.epoch (mls_group ra) →
  MlsGroupState.is_member (client_sender_id a) st = true → MlsGroupState.member_key (client_sender_id a) st = Some key →
  keypair_sign (MlsGroup.signer (mls_group ra)) (signed_part a id ra) = Ok sig → length sig = 64%nat →
  (∀ msg, ed_verify key msg sig = true → msg = signed_part a id ra) →
  zlen (Frame.payload frame) ≤ FrameHeader.MAX_PAYLOAD_SIZE →
  ∃ e rt', Server.process (ServerDriver.FrameReceived (session t) frame) rt = (Err e, rt')
    ∧ let c' := {| shared := rt'; tasks := <[x := processed t fs (Err e)]> (tasks c) |} in
      step c c' ∧ ∀ c'', rtc step c' c'' → logs (shared c'') id = logs rt id.
Proof.
  intros rt Hc Hidle Ht Hu Hid Hconn Hg Hst Hn Hb Hsend Hra Hme Hep Hge Hmem Hkey Hsig Hlen Honly Hsz.
  assert (sent_by a id ra sig frame) as Hsent by (eapply handle_send_frame; eauto; unfold MAX_EPOCH in Hep; lia).
  pose proof (sent_wf _ _ _ _ _ Hsent Hsz) as Hf. pose proof (sent_room _ _ _ _ _ Hsent) as Hroom.
  pose proof (sent_app _ _ _ _ _ Hsent) as Ha. destruct (EndToEnd.app_routed frame Ha) as [Ho Hwel].
  pose proof (sound_world _ Hc) as Hw.
  assert (∀ e, ∃ why w, RoomManager.process_frame frame (at_time e (Server.driver rt))
    = (Err (RoomError.MlsValidation (MlsError.ValidationFailed why)), w)) as Hrm.
  { intros e. eapply (RoomManager.process_frame_refused frame grp st key (at_time e (Server.driver rt)) s1); rewrite ?Hroom; try done.
    - by rewrite (sent_epoch _ _ _ _ _ Hsent).
    - by rewrite (sent_sender _ _ _ _ _ Hsent).
    - by rewrite (sent_sender _ _ _ _ _ Hsent).
    - unfold RoomManager.signature_exempt. by rewrite Ha.
    - intros i. rewrite Relay.rebuild_sequenced by done. by eapply sent_not_authentic.
    - apply wf_accepts; [done|rewrite Hroom; lia|rewrite (sent_epoch _ _ _ _ _ Hsent); lia|done]. }
  destruct (room_frame_Err (session t) frame (Server.driver rt) conn Hconn Ho Hwel) as (e & err & d' & Hp & Hpf).
  { intros e. destruct (Hrm e) as (why & w & E). eauto. }
  destruct (Hrm e) as (why & w & E). rewrite Hpf in E. injection E as -> _.
  assert (RoomManager.is_commit frame = false) as Hnc by (unfold RoomManager.is_commit; by rewrite Ha).
  destruct (RoomManager.refusal_wedges frame (at_time e (Server.driver rt)) why _ Hw Hnc Hpf) as (Hlog & Hwg & _).
  assert (Server.process (ServerDriver.FrameReceived (session t) frame) (shared c)
    = (map_err Server.Driver (Err (ServerError.Room (RoomError.MlsValidation (MlsError.ValidationFailed why)))),
       Server.with_driver d' rt)) as Hproc by (unfold Server.process; fold rt; by rewrite Hp).
  rewrite Hroom in Hwg. eexists _, (Server.with_driver d' rt). split; [exact Hproc|].
  intros c'. assert (step c c') as Hs by (eapply step_process; [done|by eapply Hidle|done|exact Hproc|done]).
  split; [done|]. intros c'' Hs'. pose proof (sound_turn _ _ Hc (step_turn _ _ Hc Hs)) as Hc'.
  destruct (schedule_wedged id _ _ Hs' Hc') as [_ ->]; [|apply Hlog]. split; [exact Hwg|].
  intros act [Hp'|(acts & [=] & _)]%pending_insert. by destruct (idle_not_pending c act Hidle).
Qed.
End sending.
End Sending.

(** ** The handshake through the server *)
Module Handshake.
Import Broadcasting Tasks ConnectionState.
Section handshake.
Context `{PayloadCodec} `{!PayloadCodecOk} {T : Type} `{Environment T} `{OpenMls T} `{Ed25519} {S : Type} `{Storage S}.
Abbreviation Rt := (Server.Runtime (T := T) (S := S)).

(** A session of the server in a given state of its connection. *)
Record session_at (sid : Z) (st : ConnectionState) (info : SessionInfo) (rt : Rt) : Prop := {
  at_live : sid ∈ Server.live rt;
  at_conn : ∃ conn, ServerDriver.connections (Server.driver rt) !! sid = Some conn
              ∧ Connection.state conn = st ∧ Connection.session_id conn = Some sid;
  at_info : ConnectionRegistry.sessions (ServerDriver.registry (Server.driver rt)) !! sid = Some info }.

(** Accepting a connection while there is room. *)
Lemma open_connection_at sid (rt : Rt) :
  let d := Server.driver rt in
  Z.of_nat (size (ServerDriver.connections d)) < ServerDriver.max_connections (ServerDriver.config d) →
  ConnectionRegistry.sessions (ServerDriver.registry d) !! sid = None →
  ∃ rt', Server.open_connection sid rt = (Ok tt, rt') ∧ session_at sid Init SessionInfo.new rt'
    ∧ inbox sid rt' = inbox sid rt.
Proof.
  intros d Hroom Hnew. unfold Server.open_connection, Server.process. munfold. cbn [m_modify Server.driver Server.with_live].
  cbn [ServerDriver.process_event]. unfold ServerDriver.handle_connection_accepted.
  destruct (ServerDriver.driver_now_spec d) as (now & e & Hn). munfold. fold d. rewrite Hn.
  cbn [ServerDriver.config ServerDriver.with_world ServerDriver.connections].
  rewrite (proj2 (Z.leb_gt _ _) Hroom). unfold ServerDriver.set_connection, ServerDriver.on_registry, m_modify. munfold.
  cbn [ServerDriver.registry ServerDriver.with_connections ServerDriver.with_world].
  unfold ConnectionRegistry.register_session. rewrite Hnew. cbn.
  eexists. split; [done|]. split; [|done]. split; cbn.
  - set_solver.
  - eexists. rewrite lookup_insert_eq. split; [done|]. by split.
  - apply lookup_insert_eq.
Qed.

(** The turn of a hello. *)
Lemma hello_answered sid (rt : Rt) hello reply :
  session_at sid Init SessionInfo.new rt →
  Payload.into_frame Connection.the_hello (FrameHeader.new Opcode.Hello) = Ok hello → Frame.wf hello →
  Payload.into_frame (Connection.hello_reply sid) (FrameHeader.new Opcode.HelloReply) = Ok reply → Frame.wf reply →
  let rt' := snd (Server.handle_stream sid (Server.wire [hello]) rt) in
  session_at sid Authenticated {| SessionInfo.user_id := Some sid; SessionInfo.authenticated := true |} rt'
  ∧ inbox sid rt' = inbox sid rt ++ [buffer reply].
Proof.
  intros [Hl (conn & Hc & Hst & Hsid) Hi] Hh Hhw Hr Hrw rt'.
  destruct (Payload.wire _ _ _ (FrameHeader.new_wf _) (FrameHeader.new_valid _) Hh (Frame.wf_bound _ Hhw)) as (_ & _ & _ & Ho & Hp).
  unfold rt', Server.handle_stream. rewrite Server.read_wire by by constructor. cbn [Server.handle_frames].
  unfold m_try, Server.process. munfold. cbn [ServerDriver.process_event]. unfold ServerDriver.handle_frame_received.
  destruct (ServerDriver.driver_now_spec (Server.driver rt)) as (now & e & Hn). munfold. rewrite Hn.
  cbn [ServerDriver.connections ServerDriver.with_world]. rewrite Hc, Ho. cbn [Payload.opcode Connection.the_hello].
  rewrite (Connection.handle_frame_hello now conn sid _ hello reply Hst Hsid Ho Hp) by done.
  unfold ServerDriver.set_connection, ServerDriver.on_registry, m_modify, m_lift. cbn [map_err].
  cbn [ServerDriver.registry ServerDriver.with_connections ServerDriver.with_world].
  unfold ConnectionRegistry.sessions_mut. rewrite Hi. cbn [map ServerDriver.conn_action].
  unfold Server.execute_actions. cbn [m_iter Server.execute_action]. munfold. cbn [Server.live Server.with_driver].
  destruct (decide (sid ∈ Server.live rt)); [|done]. rewrite encode_wf by done. cbn. split.
  - split; rewrite ?write_live, ?Server.write_to_driver; cbn; [done| |rewrite lookup_insert_eq; by rewrite Hsid].
    eexists. rewrite lookup_insert_eq. by split.
  - by rewrite write_inbox, decide_True.
Qed.

(** C17: a new connection authenticates.  A server with room for one more connection
    accepts it; the Hello that the client's connection sends is read from the
    stream and answered on the session's own stream; the client decodes the answer
    and accepts it.  Both ends are then authenticated under the session id that the
    server chose, and the registry lists the session as authenticated. *)
Theorem connection_authenticates sid (rt : Rt) client t1 t2 hello reply :
  let d := Server.driver rt in
  Z.of_nat (size (ServerDriver.connections d)) < ServerDriver.max_connections (ServerDriver.config d) →
  ConnectionRegistry.sessions (ServerDriver.registry d) !! sid = None → Connection.state client = Init →
  Payload.into_frame Connection.the_hello (FrameHeader.new Opcode.Hello) = Ok hello →
  zlen (Frame.payload hello) ≤ FrameHeader.MAX_PAYLOAD_SIZE →
  Payload.into_frame (Connection.hello_reply sid) (FrameHeader.new Opcode.HelloReply) = Ok reply →
  zlen (Frame.payload reply) ≤ FrameHeader.MAX_PAYLOAD_SIZE →
  let rt1 := snd (Server.open_connection sid rt) in
  let rt2 := snd (Server.handle_stream sid (Server.wire [hello]) rt1) in
  ∃ client1 client2 buf,
    Connection.send_hello t1 client = (Ok [Connection.SendFrame hello], client1)
    ∧ inbox sid rt2 = inbox sid rt ++ [buf] ∧ Frame.decode buf = Ok reply
    ∧ Connection.handle_frame reply t2 client1 = (Ok [], client2)
    ∧ Connection.state client2 = Authenticated ∧ Connection.session_id client2 = Some sid
    ∧ session_at sid Authenticated {| SessionInfo.user_id := Some sid; SessionInfo.authenticated := true |} rt2.
Proof.
  intros d Hroom Hnew Hc Hh Hbh Hr Hbr rt1 rt2.
  assert (Frame.wf hello) as Hhw by by eapply Payload.into_frame_wf; [exact Hh|apply FrameHeader.new_wf|..].
  assert (Frame.wf reply) as Hrw by by eapply Payload.into_frame_wf; [exact Hr|apply FrameHeader.new_wf|..].
  destruct (open_connection_at sid rt Hroom Hnew) as (rt' & Ho & Hat & Hin).
  assert (rt1 = rt') as Hrt by (unfold rt1; by rewrite Ho).
  destruct (hello_answered sid rt' hello reply Hat Hh Hhw Hr Hrw) as [Hat' Hin']. rewrite <-Hrt in *. fold rt2 in Hat', Hin'.
  destruct (Payload.wire _ _ _ (FrameHeader.new_wf _) (FrameHeader.new_valid _) Hr Hbr) as (_ & _ & _ & Hor & Hpr).
  eexists _, _, (buffer reply). split; [by apply Connection.send_hello_init|].
  split; [by rewrite Hin', Hin|]. split; [by apply decode_buffer|].
  split; [by apply (Connection.handle_frame_reply t2 _ {| session.reply_session_id := sid;
    session.reply_capabilities := []; session.reply_challenge := None |})|]. by split_and!.
Qed.
End handshake.
End Handshake.

(** ** Witnesses *)
Section demo.
#[local] Existing Instances ToyClient.codec ToyMls.ops.
Context `{Ed25519}.
Import Broadcasting Tasks.

(** Session 4 is connected, session 5 is connected and subscribed to room 9. *)
Definition demo_pair (st : option MlsGroupState) : ServerDriver (T := ToyEnv.T) (S := MemoryStorage) :=
  snd (ServerDriver.process_event (ServerDriver.FrameReceived 5 demo_welcome)
    (snd (ServerDriver.process_event (ServerDriver.ConnectionAccepted 5)
      (ServerDriver.with_world (demo_world st) demo_connected)))).
Definition demo_server (st : option MlsGroupState) : Server.Runtime (T := ToyEnv.T) (S := MemoryStorage) :=
  {| Server.driver := demo_pair st; Server.live := {[4; 5]}; Server.sent := [] |}.
Lemma demo_server_winv st : RoomManager.winv (world (demo_server st)).
Proof.
  assert (RoomManager.winv (ServerDriver.world_of (ServerDriver.with_world (demo_world st) demo_connected))) as Hw by apply demo_winv.
  destruct (event_ordered (ServerDriver.ConnectionAccepted 5) _ Hw) as [Hw1 _].
  by destruct (event_ordered (ServerDriver.FrameReceived 5 demo_welcome) _ Hw1) as [Hw2 _].
Qed.
Lemma demo_live st : 5 ∈ Server.live (demo_server st).
Proof. cbn. set_solver. Qed.
End demo.

Lemma demo_app_message_wf : Frame.wf demo_app_message.
Proof. split; [split; vm_compute; reflexivity|split_and!; vm_compute; congruence|vm_compute; reflexivity]. Qed.

(** Member 5's message, sent by session 4, reaches a client in session 5. *)
Section delivery.
#[local] Existing Instances ToyClient.codec ToyPrimitives.prims ToyMls.ops ToyMls.ops_ok ToyClient.ed.
Import Broadcasting Tasks Client.

Lemma demo_subscribed : 5 ∈ subscribers 9 (demo_server None).
Proof. apply elem_of_elements. apply (bool_decide_unpack _). vm_compute. exact I. Qed.

Definition demo_processed := Server.process (ServerDriver.FrameReceived 4 demo_app_message) (demo_server None).
Definition demo_received := handle (FrameReceived demo_app_message) demo_client.

Lemma message_end_to_end_witness :
  let rt' := snd (Server.handle_stream 4 (Server.wire [demo_app_message]) (demo_server None)) in
  ∃ g buf, logs rt' 9 = [g] ∧ inbox 5 rt' = [buf] ∧ Frame.decode buf = Ok g
    ∧ fst (handle (FrameReceived g) demo_client) = Ok [ClientAction.DeliverMessage 9 5 [Byte.x41] 0 0].
Proof.
  run_ok demo_processed as acts rt1 Hp. run_ok demo_received as out b' Hb.
  assert (out = delivery 9 demo_app_message [Byte.x41]) as ->.
  { apply (f_equal fst) in Hb. vm_compute in Hb. injection Hb as <-. vm_compute. reflexivity. }
  destruct (EndToEnd.message_end_to_end 5 4 demo_app_message (demo_server None) acts rt1 demo_client b' [Byte.x41]
    (demo_server_winv _) ltac:(by vm_compute) demo_app_message_wf eq_refl Hp demo_subscribed (demo_live _) Hb)
    as (g & buf & Hl & Hi & Hd & Hg).
  exists g, buf. split_and!; [exact Hl|exact Hi|exact Hd|]. by rewrite Hg.
Defined.

Lemma demo_still_live :
  Server.live (snd (Server.handle_stream 4 (Server.wire [demo_app_message; demo_msg]) (demo_server None)))
  = Server.live (demo_server None).
Proof. vm_compute. reflexivity. Qed.

Lemma subscriber_sees_log_witness :
  let rt' := snd (Server.handle_stream 4 (Server.wire [demo_app_message; demo_msg]) (demo_server None)) in
  ∃ new got, length new = 2%nat ∧ inbox 5 rt' = map buffer got ∧ new `sublist_of` got.
Proof.
  destruct (subscriber_sees_log 5 9 4 (Server.wire [demo_app_message; demo_msg]) (demo_server None) (demo_server_winv _))
    as (new & got & Hl & Hi & Hs & _).
  exists new, got. split_and!; [|exact Hi|].
  - assert (length (logs (snd (Server.handle_stream 4 (Server.wire [demo_app_message; demo_msg]) (demo_server None))) 9) = 2%nat)
      as E by (vm_compute; reflexivity).
    rewrite Hl, length_app in E. exact E.
  - apply Hs; [|exact demo_subscribed]. exact (eq_rect_r (λ l, 5 ∈ l) (demo_live None) demo_still_live).
Defined.
End delivery.

(** A signature scheme that verifies exactly the bytes that were signed. *)
Section sending.
#[local] Existing Instances ToyClient.codec ToyPrimitives.prims ToyMls.ops ToyMls.ops_ok ToyMls.ed.
Import Broadcasting Client Tasks Sending.

Lemma demo_fresh : fresh_room 9 (demo_server None).
Proof. split; [by vm_compute|by vm_compute|eexists; vm_compute; by split|eexists; by vm_compute]. Qed.
Lemma demo_heard : 5 ∈ subscribers 9 (demo_server None).
Proof. apply elem_of_elements. apply (bool_decide_unpack _). vm_compute. exact I. Qed.
Definition demo_conn4 : Connection := default demo_conn (ServerDriver.connections (demo_pair None) !! 4).
Lemma demo_conn4_at : ServerDriver.connections (Server.driver (demo_server None)) !! 4 = Some demo_conn4.
Proof. vm_compute. reflexivity. Qed.

(** Sender 77 is nobody, and its signature is 64 zeros. *)
Lemma fresh_room_accepts_anyone_witness :
  let rt' := snd (Server.handle_stream 4 (Server.wire
    [{| Frame.header := FrameHeader.set_signature (replicate 64 Byte.x00) (FrameHeader.set_sender_id 77 (Frame.header demo_app_message));
        Frame.payload := Frame.payload demo_app_message |}]) (demo_server None)) in
  length (logs rt' 9) = 1%nat ∧ length (inbox 5 rt') = 1%nat.
Proof.
  destruct (fresh_room_accepts_anyone 5 4 77 (replicate 64 Byte.x00) demo_app_message (demo_server None) demo_conn4
    (demo_server_winv _) demo_fresh ltac:(by vm_compute) demo_conn4_at demo_app_message_wf eq_refl eq_refl eq_refl
    demo_heard (demo_live _)) as [Hl Hi].
  split; [exact (f_equal length Hl)|exact (f_equal length Hi)].
Defined.

Lemma demo_only msg :
  ed_verify (replicate 32 Byte.x01) msg (signed_part demo_client 9 demo_room) = true → msg = signed_part demo_client 9 demo_room.
Proof. by intros Hv%bool_decide_eq_true. Qed.

Lemma sent_message_unreadable_witness :
  let rt' := snd (Server.handle_stream 4 (Server.wire [demo_sent]) (demo_server None)) in
  ∃ g buf why, logs rt' 9 = [g] ∧ inbox 5 rt' = [buf] ∧ Frame.decode buf = Ok g
    ∧ handle (FrameReceived g) demo_client = (Err (ClientError.InvalidFrame why), demo_client).
Proof.
  refine (sent_message_unreadable 5 4 (demo_server None) demo_conn4 demo_client demo_client (snd demo_sending) 9 [Byte.x41]
    demo_sent demo_room demo_room (signed_part demo_client 9 demo_room) (replicate 32 Byte.x01) (demo_server_winv _) demo_fresh
    _ demo_conn4_at demo_heard (demo_live _) _ demo_room_at demo_room_at _ _ _ _ _ _ demo_only _).
  - lia.
  - vm_compute. reflexivity.
  - vm_compute. split; [discriminate|reflexivity].
  - vm_compute. reflexivity.
  - vm_compute. reflexivity.
  - vm_compute. reflexivity.
  - vm_compute. reflexivity.
  - vm_compute. reflexivity.
  - vm_compute. discriminate.
Defined.

(** The same message in a room whose group state is stored. *)
Definition demo_holder : Task := {| session := 4; unread := [demo_sent]; todo := None |}.
Definition demo_established : System (T := ToyEnv.T) (S := MemoryStorage) :=
  {| shared := demo_server (Some demo_state); tasks := {[ 1 := demo_holder ]} |}.
Lemma demo_established_idle : idle demo_established.
Proof. intros x t. cbn. rewrite lookup_singleton_Some. naive_solver. Qed.
Lemma demo_established_sound : sound demo_established.
Proof. split; [apply demo_server_winv|]. intros a Ha. by destruct (idle_not_pending _ _ demo_established_idle Ha). Qed.

Lemma honest_message_closes_room_witness :
  ∃ c', Tasks.step demo_established c' ∧ ∀ c'', rtc Tasks.step c' c'' → logs (shared c'') 9 = [].
Proof.
  destruct (honest_message_closes_room demo_established 1 demo_holder [] demo_conn4 (ToyMls.group 9 5) demo_state
    (replicate 32 Byte.x01) (RoomManager.store (world (shared demo_established))) demo_client (snd demo_sending) 9 [Byte.x41]
    demo_sent demo_room (signed_part demo_client 9 demo_room) demo_established_sound demo_established_idle)
    as (e & rt' & _ & Hs & Hall);
    [.. |eexists; split; [exact Hs|intros c'' Hc''; exact (Hall c'' Hc'')]];
    [reflexivity|reflexivity|lia|vm_compute..].
  all: first [reflexivity|discriminate|exact demo_only|split; [discriminate|first [reflexivity|discriminate]]].
Defined.
End sending.

Section handshake.
#[local] Existing Instances ToyCodec.codec ToyCodec.codec_ok ToyMls.ops ToyMls.ed.
Import Broadcasting Handshake.

Definition demo_idle_server : Server.Runtime (T := ToyEnv.T) (S := MemoryStorage) :=
  {| Server.driver := demo_driver; Server.live := ∅; Server.sent := [] |}.

Lemma connection_authenticates_witness :
  ∃ hello rt2 client1 client2 reply,
    Connection.send_hello 1 (Connection.new 0 Connection.default_config) = (Ok [Connection.SendFrame hello], client1)
    ∧ rt2 = snd (Server.handle_stream 4 (Server.wire [hello]) (snd (Server.open_connection 4 demo_idle_server)))
    ∧ Connection.handle_frame reply 2 client1 = (Ok [], client2) ∧ Connection.session_id client2 = Some 4
    ∧ length (inbox 4 rt2) = 1%nat.
Proof.
  destruct (connection_authenticates 4 demo_idle_server (Connection.new 0 Connection.default_config) 1 2 _ _
    ltac:(by vm_compute) ltac:(by vm_compute) eq_refl eq_refl ltac:(by vm_compute) eq_refl ltac:(by vm_compute))
    as (c1 & c2 & buf & Hh & Hi & _ & Hr & _ & Hs & _).
  eexists _, _, c1, c2, _. split_and!; [exact Hh|reflexivity|exact Hr|exact Hs|exact (f_equal length Hi)].
Defined.
End handshake.

(** ** A codec with length-prefixed frames *)
Module FramedCodec.
Fixpoint chunks (fuel : nat) (p : bytes) : list bytes :=
  match fuel, p with
  | Datatypes.S fuel, _ :: _ =>
      let n := Z.to_nat (from_be_bytes (take 4 p)) in take n (drop 4 p) :: chunks fuel (drop (4 + n) p)
  | _, _ => []
  end.
Definition read (p : bytes) : outcome string session.SyncResponse :=
  match p with
  | x :: p => Ok {| session.sync_frames := chunks (length p) (drop 8 p);
                    session.sync_has_more := bool_decide (x = Byte.x01);
                    session.sync_server_epoch := from_be_bytes (take 8 p) |}
  | [] => Err "short"
  end.
Definition write (r : session.SyncResponse) : bytes :=
  (if session.sync_has_more r then Byte.x01 else Byte.x00) :: to_be_bytes 8 (session.sync_server_epoch r)
  ++ concat (map (λ b, to_be_bytes 4 (zlen b) ++ b) (session.sync_frames r)).
#[local] Instance response_eq : EqDecision session.SyncResponse.
Proof. solve_decision. Defined.

(** A value that would not be read back is refused. *)
Definition sync_cbor : Cbor session.SyncResponse := {|
  cbor_ser r := match read (write r) with
                | Ok r' => if decide (r' = r) then Ok (write r) else Err "out of range"
                | _ => Err "out of range"
                end;
  cbor_de := read;
|}.
Definition codec : PayloadCodec := {|
  cbor_Hello := @cbor_Hello ToyClient.codec; cbor_HelloReply := @cbor_HelloReply ToyClient.codec;
  cbor_Goodbye := @cbor_Goodbye ToyClient.codec; cbor_SyncRequest := @cbor_SyncRequest ToyClient.codec;
  cbor_SyncResponse := sync_cbor; cbor_KeyPackageData := @cbor_KeyPackageData ToyClient.codec;
  cbor_ProposalData := @cbor_ProposalData ToyClient.codec; cbor_CommitData := @cbor_CommitData ToyClient.codec;
  cbor_WelcomeData := @cbor_WelcomeData ToyClient.codec; cbor_EncryptedMessage := ToyClient.message_cbor;
  cbor_Receipt := @cbor_Receipt ToyClient.codec; cbor_Reaction := @cbor_Reaction ToyClient.codec;
  cbor_Redact := @cbor_Redact ToyClient.codec; cbor_Ban := @cbor_Ban ToyClient.codec;
  cbor_Kick := @cbor_Kick ToyClient.codec; cbor_ErrorPayload := @cbor_ErrorPayload ToyClient.codec;
|}.
Lemma sync_ok : CborOk (H := sync_cbor) session.SyncResponse.
Proof.
  intros r bs. unfold cbor_ser, cbor_de, sync_cbor. destruct (read (write r)) as [r'| |] eqn:E; [|discriminate..].
  destruct (decide (r' = r)) as [->|]; [|discriminate]. intros Hs. injection Hs as <-. exact E.
Qed.
Lemma chunks_short fuel p b : b ∈ chunks fuel p → (length b ≤ length p)%nat.
Proof.
  revert p. induction fuel as [|fuel IH]; intros p; [by intros ?%elem_of_nil|].
  destruct p as [|x p]; [by intros ?%elem_of_nil|]. cbn [chunks]. intros [->|Hb%IH]%elem_of_cons.
  - rewrite length_take, length_drop. lia.
  - rewrite length_drop in Hb. lia.
Qed.
Lemma framed_ok : Client.ClientCodecOk (H := codec).
Proof.
  split; [exact (Client.generation_u32 (ClientCodecOk := ToyClient.codec_ok))|].
  intros p r b. cbn. destruct p as [|x p]; intros [= <-]. cbn. intros Hb%chunks_short. rewrite length_drop in Hb. lia.
Qed.
Lemma framed_total : Client.ReceiveTotal (H := codec) (T := ToyEnv.T) (H1 := ToyMls.ops _).
Proof.
  split; [exact (ToyMls.process_total _)|..]; try by intros.
  - intros p. cbn. by case_match.
  - intros p. cbn. by destruct p.
Qed.
End FramedCodec.

(** A client catches up on the message that is in the log of room 9. *)
Section catch_up.
#[local] Existing Instances FramedCodec.codec FramedCodec.framed_ok FramedCodec.sync_ok FramedCodec.framed_total
  ToyPrimitives.prims ToyMls.ops ToyMls.ops_ok ToyClient.ed.
Import Broadcasting Client CatchUp.

Definition demo_entry : Frame := sequenced 0 demo_app_message.
Definition demo_history : ServerDriver (T := ToyEnv.T) (S := MemoryStorage) :=
  ServerDriver.with_world {| RoomManager.rm := demo_rm; RoomManager.env := (0, 0);
    RoomManager.store := {| MemoryStorage.frames := {[9 := [demo_entry]]}; MemoryStorage.mls_states := ∅ |} |} demo_connected.
Lemma demo_history_log room : log (ServerDriver.storage demo_history) room = if decide (room = 9) then [demo_entry] else [].
Proof.
  cbn. unfold MemoryStorage.room_log. cbn. case_decide as E; [by subst; rewrite lookup_singleton_eq|by rewrite lookup_singleton_ne].
Qed.
Lemma demo_history_winv : RoomManager.winv (ServerDriver.world_of demo_history).
Proof.
  split.
  - intros room k f. change (log _ room) with (log (ServerDriver.storage demo_history) room). rewrite demo_history_log.
    case_decide; [|done]. destruct k; intros [= <-]. by vm_compute.
  - intros room. change (log _ room) with (log (ServerDriver.storage demo_history) room). rewrite demo_history_log. by case_decide.
  - done.
Qed.
Definition demo_query : session.SyncRequest := {| session.sync_from_log_index := 0; session.sync_limit := 10 |}.
Definition demo_request : Frame :=
  match Payload.into_frame (Payload.SyncRequest demo_query) (FrameHeader.set_room_id 9 (FrameHeader.new Opcode.SyncRequest)) with
  | Ok f => f | _ => demo_sync end.
Definition demo_reply := ServerDriver.process_event (ServerDriver.FrameReceived 4 demo_request) demo_history.
Definition demo_response : Frame :=
  match fst demo_reply with Ok [ServerAction.SendToSession _ f] => f | _ => demo_sync end.

Lemma catch_up_is_replay_witness :
  Frame.decode (buffer demo_response) = Ok demo_response
  ∧ ∃ acts, fst (handle (FrameReceived demo_response) demo_client) = Ok acts
      ∧ deliveries acts = [ClientAction.DeliverMessage 9 5 [Byte.x41] 0 0].
Proof.
  assert (demo_reply = (Ok [ServerAction.SendToSession 4 demo_response], snd demo_reply)) as Hreply by (vm_compute; reflexivity).
  destruct (catch_up_is_replay 4 demo_request demo_query demo_history 4 demo_response (snd demo_reply) (0, 0) {| sender_id := 5 |} demo_client
    demo_history_winv ltac:(rewrite demo_history_log; repeat constructor; apply Relay.sequenced_wf, demo_app_message_wf)
    ltac:(done) ltac:(done) ltac:(done) ltac:(by vm_compute) ltac:(by vm_compute) Hreply ltac:(by vm_compute)
    ltac:(apply rtc_once; exact (step_event (CreateRoom 9) demo_new))) as (_ & Hd & acts & Hh & Ha).
  split; [exact Hd|]. exists acts. split; [exact (f_equal fst Hh)|]. rewrite Ha. vm_compute. reflexivity.
Defined.
End catch_up.
