(* ===== verification/WireSafety.v ===== *)
(** * What the server writes

    Every buffer that the server of [lockframe-server] hands to a connection, over all
    interleavings of [Lifecycle.v], is the encoding of exactly one well-formed frame,
    and every frame in its logs is well-formed: the frames it relays come out of
    [Frame::decode] and keep their size when they are numbered, and the frames it makes
    itself are built by [Frame::new] and [Payload::into_frame].  So a peer that reads
    what the server writes never meets a frame that it cannot decode. *)

From Stdlib Require Import ZArith Lia.
From S2P Require Import Prelude Opcodes Header Frame Payload Connection MlsState Storage Sequencer.
From S2P Require Import Registry Validator MlsGroup RoomManager ServerDriver Server Tasks Lifecycle EndToEnd.

Module WireSafety.
Import ServerAction Server Tasks Lifecycle Broadcasting.

(** ** What a method returns *)
Section returns.
Context {S E : Type}.
Definition returns {A} (P : A → Prop) (m : M S E A) : Prop := ∀ s a s', m s = (Ok a, s') → P a.
Lemma returns_any {A} (m : M S E A) : returns (λ _, True) m.
Proof. by intros s a s' _. Qed.
Lemma returns_ret {A} (P : A → Prop) a : P a → returns P (mret a).
Proof. by intros Ha s b s' [= <- _]. Qed.
Lemma returns_err {A} (P : A → Prop) e : returns P (m_err e).
Proof. by intros s a s'. Qed.
Lemma returns_lift {A} (P : A → Prop) r : (∀ a, r = Ok a → P a) → returns P (m_lift r).
Proof. intros Hr s a s' [= Ha _]. by apply Hr. Qed.
Lemma returns_bind {A B} (P : B → Prop) (Q : A → Prop) (m : M S E A) f :
  returns Q m → (∀ a, Q a → returns P (f a)) → returns P (m ≫= f).
Proof.
  intros Hm Hf s b s'. munfold. destruct (m s) as [[a|e|] s1] eqn:Ea; [|done..]. intros Hb.
  exact (Hf a (Hm _ _ _ Ea) _ _ _ Hb).
Qed.
Lemma returns_after {A B} (P : B → Prop) (m : M S E A) f : (∀ a, returns P (f a)) → returns P (m ≫= f).
Proof. intros Hf. apply (returns_bind P _ _ _ (returns_any m)). auto. Qed.
Lemma returns_concat_map {A B} (P : B → Prop) (f : A → M S E (list B)) l :
  (∀ a, a ∈ l → returns (Forall P) (f a)) → returns (Forall P) (m_concat_map f l).
Proof.
  induction l as [|a l IH]; intros Hf; [by apply returns_ret|]. cbn [m_concat_map].
  apply (returns_bind _ (Forall P)); [apply Hf; set_solver|]. intros ys Hys.
  apply (returns_bind _ (Forall P)); [apply IH; set_solver|]. intros zs Hzs. by apply returns_ret, Forall_app_2.
Qed.
End returns.
Create HintDb returns.
#[export] Hint Resolve returns_ret returns_err returns_after : returns.

(** ** Frames the server makes and relays *)

(** A frame that is well-formed if it can be encoded at all. *)
Definition sendable (f : Frame) : Prop := zlen (Frame.payload f) ≤ FrameHeader.MAX_PAYLOAD_SIZE → Frame.wf f.
Lemma wf_sendable f : Frame.wf f → sendable f.
Proof. by intros Hf _. Qed.
Lemma new_sendable o p : sendable (Frame.new (FrameHeader.new o) p).
Proof. intros Hp. apply Frame.frame_new_wf; [apply FrameHeader.new_wf|apply (FrameHeader.new_valid o)..|done]. Qed.
Lemma into_frame_sendable `{PayloadCodec} p o f : Payload.into_frame p (FrameHeader.new o) = Ok f → sendable f.
Proof.
  intros (bs & _ & ->)%Payload.into_frame_Ok Hp. destruct (FrameHeader.new_valid o) as (Hm & Hv & _).
  by apply Frame.frame_new_wf; [apply FrameHeader.set_opcode_wf, FrameHeader.new_wf|..].
Qed.
Lemma addressed_sendable room f : sendable f →
  sendable {| Frame.header := FrameHeader.set_room_id room (Frame.header f); Frame.payload := Frame.payload f |}.
Proof. intros Hf Hp. destruct (Hf Hp) as [H1 H2 H3]. split; [by apply FrameHeader.set_room_id_wf|done|done]. Qed.

(** Actions whose frames are so; a frame to be stored is well-formed. *)
Definition fit (a : ServerAction) : Prop :=
  match a with
  | SendToSession _ f | BroadcastToRoom _ f _ => sendable f
  | PersistFrame _ _ f => Frame.wf f
  | _ => True
  end.
Definition room_fit (a : RoomAction) : Prop :=
  match a with RoomManager.Broadcast _ f _ _ | RoomManager.PersistFrame _ _ f _ => Frame.wf f | _ => True end.
Definition seq_fit (a : Sequencer.SequencerAction) : Prop :=
  match a with
  | Sequencer.AcceptFrame _ _ f | Sequencer.StoreFrame _ _ f | Sequencer.BroadcastToRoom _ f => Frame.wf f
  | _ => True
  end.
Definition conn_fit (a : Connection.ConnectionAction) : Prop :=
  match a with Connection.SendFrame f => sendable f | _ => True end.

Section methods.
Context `{PayloadCodec} {T : Type} `{Environment T} `{OpenMls T} `{Ed25519} {S : Type} `{Storage S}.

(** Connections. *)
Lemma into_frame_fit p o : returns sendable (Connection.into_frame_ p (FrameHeader.new o)).
Proof.
  apply returns_lift. intros f Hf. destruct (Payload.into_frame p (FrameHeader.new o)) as [f'|e|] eqn:E; [|done..].
  injection Hf as <-. by eapply into_frame_sendable.
Qed.
Lemma conn_frame_fit f now : returns (Forall conn_fit) (Connection.handle_frame f now).
Proof.
  assert (∀ p o rest, Forall conn_fit rest →
    returns (Forall conn_fit) (reply ← Connection.into_frame_ p (FrameHeader.new o); mret (Connection.SendFrame reply :: rest))) as Hr.
  { intros p o rest Hrest. apply (returns_bind _ sendable); [apply into_frame_fit|]. intros a Ha. apply returns_ret. by constructor. }
  assert (returns (E := ConnectionError) (S := Connection) (Forall conn_fit)
    (mret [Connection.SendFrame (Frame.new (FrameHeader.new Opcode.Pong) [])])) as Hpong.
  { apply returns_ret. constructor; [apply new_sendable|done]. }
  unfold Connection.handle_frame. do 2 (apply returns_after; intros).
  repeat case_match; repeat first
    [apply Hr|apply Hpong|apply returns_err|apply returns_ret|by repeat constructor|apply returns_after; intros; repeat case_match].
Qed.

(** Sequencer and rooms. *)
Lemma sequencer_fit f : Frame.wf f → returns (Forall seq_fit) (Sequencer.process_frame (S := S) f).
Proof.
  intros Hf. unfold Sequencer.process_frame. apply returns_after. intros _.
  case_match; [apply returns_ret; by constructor|]. do 2 (apply returns_after; intros). repeat case_match; auto with returns.
  - apply returns_after. intros _. apply returns_ret. repeat constructor; by apply Relay.rebuild_wf.
  - by apply returns_lift.
Qed.
Lemma room_frame_fit f : Frame.wf f → returns (Forall room_fit) (RoomManager.process_frame (T := T) (S := S) f).
Proof.
  intros Hf. unfold RoomManager.process_frame. do 2 (apply returns_after; intros). case_match; [|auto with returns].
  do 2 (apply returns_after; intros). apply (returns_bind _ (Forall seq_fit)).
  { intros w acts w'. unfold RoomManager.on_sequencer. pose proof (sequencer_fit f Hf) as Hs.
    destruct (Sequencer.process_frame f _) as [[sacts|e|] [q st]] eqn:E; [|done..]. intros [= <- _]. by eapply Hs. }
  intros sacts Hs. apply returns_after. intros _.
  assert (∀ now, Forall room_fit (map (RoomManager.to_room_action now) sacts)) as Hm.
  { intros now. apply Forall_map. eapply Forall_impl; [|exact Hs]. by intros []. }
  case_match; auto with returns. apply returns_after. intros st. apply returns_ret, Forall_app_2; [done|by repeat constructor].
Qed.

(** The driver. *)
Abbreviation DriverM := (M (ServerDriver (T := T) (S := S)) ServerError).
Lemma on_rooms_returns {A} (P : A → Prop) op : returns P op → returns P (ServerDriver.on_rooms (T := T) (S := S) op).
Proof.
  intros Hop d a d'. unfold ServerDriver.on_rooms, m_zoom, m_map_err.
  destruct (op (ServerDriver.world_of d)) as [[x|e|] w] eqn:E; [|done..]. intros [= <- _]. by eapply Hop.
Qed.
#[local] Hint Extern 1 (Forall fit _) => by repeat constructor : returns.
#[local] Hint Extern 1 (returns _ (m_lift Panic)) => by apply returns_lift : returns.
Ltac each_fit := repeat (apply Forall_nil_2 || apply Forall_cons_2); cbn [fit].
Lemma convert_fit a sid : room_fit a → returns (Forall fit) (ServerDriver.convert_room_action (T := T) (S := S) a sid).
Proof.
  intros Ha. destruct a; cbn [ServerDriver.convert_room_action]; 
    try (apply returns_ret; constructor; [by first [exact Ha|apply wf_sendable]|done]).
  all: match goal with |- context [Payload.into_frame ?p ?h] => destruct (Payload.into_frame p h) as [f'|e|] eqn:E end; auto with returns.
  all: apply into_frame_sendable in E; apply returns_ret; each_fit; auto using addressed_sendable.
Qed.
Lemma error_response_fit sid room e : returns (Forall fit) (ServerDriver.make_error_response (T := T) (S := S) sid room e).
Proof.
  unfold ServerDriver.make_error_response. cbv zeta.
  match goal with |- context [Payload.into_frame ?p ?h] => destruct (Payload.into_frame p h) as [f'|e'|] eqn:E end; auto with returns.
  apply into_frame_sendable in E. apply returns_after. intros now. apply returns_ret. each_fit; [|done]. by apply addressed_sendable.
Qed.
Lemma sync_fit sid f : returns (Forall fit) (ServerDriver.handle_sync_request (T := T) (S := S) sid f).
Proof.
  unfold ServerDriver.handle_sync_request. cbv zeta.
  match goal with |- returns _ (m_try ?m ≫= _) => assert (returns (Forall fit) m) as Hm end.
  { apply returns_after. intros p. destruct p; auto with returns. apply (returns_bind _ room_fit).
    - apply on_rooms_returns. intros w a w' Ha. apply sync_responds in Ha. by destruct a.
    - intros a Ha. by apply convert_fit. }
  apply (returns_bind _ (λ r, ∀ acts, r = Ok acts → Forall fit acts)).
  - intros d r d'. unfold m_try. revert Hm. match goal with |- returns _ ?m → _ => generalize m end. intros m Hm.
    destruct (m d) as [[acts|e|] d1] eqn:E; [|by intros [= <- _]|done]. intros [= <- _] ? [= <-]. by eapply Hm.
  - intros [acts|e|] Hr; [apply returns_ret; by apply Hr|apply error_response_fit|auto with returns].
Qed.
Lemma room_route_fit sid f : Frame.wf f → returns (Forall fit) (ServerDriver.process_room_frame (T := T) (S := S) sid f).
Proof.
  intros Hf. apply (returns_bind _ (Forall room_fit)); [by apply on_rooms_returns, room_frame_fit|].
  intros acts Ha. apply returns_concat_map. intros a Hin. apply convert_fit. rewrite list.Forall_forall in Ha. by apply Ha.
Qed.
Lemma conn_actions_fit sid acts : Forall conn_fit acts → Forall fit (map (ServerDriver.conn_action sid) acts).
Proof. intros Ha. apply Forall_map. eapply Forall_impl; [|exact Ha]. by intros []. Qed.
Lemma frame_fit sid f : Frame.wf f → returns (Forall fit) (ServerDriver.handle_frame_received (T := T) (S := S) sid f).
Proof.
  intros Hf. unfold ServerDriver.handle_frame_received. apply returns_after; intros t; apply returns_after; intros d. case_match; [|auto with returns].
  assert (∀ (o : DriverM unit) c0 res conn, Connection.handle_frame f t c0 = (res, conn) → returns (Forall fit)
    (ServerDriver.set_connection (T := T) (S := S) sid conn;;
     conn_actions ← m_lift (map_err (λ e, ServerError.ConnectionFailed sid (ConnectionError.to_string e)) res);
     o;; mret (map (ServerDriver.conn_action sid) conn_actions))) as Hc.
  { intros o c0 res conn E. apply returns_after. intros _. apply (returns_bind _ (Forall conn_fit)).
    - apply returns_lift. intros acts Ha. destruct res; [|done..]. injection Ha as <-. by eapply conn_frame_fit.
    - intros acts Ha. apply returns_after. intros _. by apply returns_ret, conn_actions_fit. }
  pose proof (room_route_fit sid f Hf) as Hroom.
  repeat case_match; try (by eapply Hc); try (apply returns_after; intros _; exact Hroom); [apply sync_fit|].
  do 2 (apply returns_after; intros _). apply (returns_bind _ (Forall fit)); [exact Hroom|]. intros acts Ha.
  apply returns_ret. by constructor.
Qed.
End methods.

(** ** What is written and stored *)
Section worlds.
Context `{PayloadCodec} {T : Type} `{Environment T} `{OpenMls T} `{Ed25519} {S : Type} `{StorageOk S} `{!ReadOnly S}.
Abbreviation Rt := (Runtime (T := T) (S := S)).
Abbreviation Wd := (World (T := T) (S := S)).

(** The buffer of a well-formed frame. *)
Definition framed (buf : bytes) : Prop := ∃ f, Frame.wf f ∧ buf = buffer f.
Record clean (rt : Rt) : Prop := {
  clean_sent : Forall (λ p, framed p.2) (sent rt);
  clean_logs : ∀ room, Forall Frame.wf (logs rt room) }.

Lemma encode_framed f buf : sendable f → encode_ f = Ok buf → framed buf.
Proof.
  intros Hf He. exists f. split; [|by apply encode_buffer]. apply Hf. revert He. unfold encode_, Frame.encode.
  destruct (FrameHeader.MAX_PAYLOAD_SIZE <? zlen (Frame.payload f)) eqn:E; [done|]. intros _. by apply Z.ltb_ge.
Qed.
Lemma write_clean sid buf rt : framed buf → clean rt → clean (write_to sid buf rt).
Proof.
  intros Hb [Hs Hl]. split; [|intros room; unfold logs; rewrite write_world; apply Hl].
  unfold write_to. case_decide; [|done]. cbn. apply Forall_app_2; [done|by repeat constructor].
Qed.
Lemma broadcast_clean (ex : option Z) buf ss rt : framed buf → clean rt →
  clean (foldl (λ rt sid, if decide (Some sid = ex) then rt else write_to sid buf rt) rt ss).
Proof.
  intros Hb. revert rt. induction ss as [|sid ss IH]; intros rt Hc; [done|]. cbn [foldl]. apply IH.
  case_decide; [done|by apply write_clean].
Qed.
Lemma execute_action_clean a rt : fit a → clean rt → clean (snd (execute_action a rt)).
Proof.
  intros Ha Hc. destruct a as [sid f|room f ex|sid why|room i f|room st|l m t]; cbn [execute_action fit] in *.
  - munfold. case_decide; [|done]. destruct (encode_ f) eqn:E; [|done..]. cbn. apply write_clean; [by eapply encode_framed|done].
  - munfold. destruct (encode_ f) eqn:E; [|done..]. cbn. apply broadcast_clean; [by eapply encode_framed|done].
  - munfold. by destruct Hc.
  - unfold on_storage. pose proof (store_frame_ok room i f (ServerDriver.storage (driver rt))) as Hok.
    destruct Hc as [Hs Hl]. unfold logs in Hl. cbn in Hl. destruct (store_frame room i f _) as [r s]. split; [done|]. intros x.
    unfold logs. cbn. destruct r as [[]|e|]; [| |done].
    + destruct Hok as (_ & Hroom & Hother & _). destruct (decide (x = room)) as [->|]; [|by rewrite Hother].
      rewrite Hroom. apply Forall_app_2; [apply Hl|by constructor].
    + assert (same (ServerDriver.storage (driver rt)) s) as [-> _] by (destruct e; try exact Hok; apply Hok). apply Hl.
  - unfold on_storage. pose proof (store_mls_state_ok room st (ServerDriver.storage (driver rt))) as Hok.
    destruct Hc as [Hs Hl]. unfold logs in Hl. cbn in Hl. destruct (store_mls_state room st _) as [r s]. split; [done|]. intros x.
    unfold logs. cbn. destruct r as [[]|e|]; [| |done]; destruct Hok as [-> _]; apply Hl.
  - done.
Qed.
Lemma execute_clean acts rt : Forall fit acts → clean rt → clean (snd (execute_actions acts rt)).
Proof.
  unfold execute_actions. intros Ha. revert rt. induction Ha as [|a acts Hf _ IH]; intros rt Hc; [done|]. cbn [m_iter]. munfold.
  pose proof (execute_action_clean a rt Hf Hc) as Hc'. destruct (execute_action a rt) as [[[]|e|] rt1]; [by apply IH|done..].
Qed.
Lemma process_clean ev rt r rt' : RoomManager.winv (world rt) → process ev rt = (r, rt') → clean rt → clean rt'.
Proof.
  intros Hw Hp [Hs Hl]. destruct (process_driver _ _ _ _ Hp) as (_ & _ & Es). destruct (process_turn _ _ _ _ Hw Hp) as (_ & El & _).
  split; [by rewrite Es|]. intros room. rewrite El. apply Hl.
Qed.
Lemma process_frame_turn_fit sid f rt acts rt' : Frame.wf f → process (FrameReceived sid f) rt = (Ok acts, rt') → Forall fit acts.
Proof.
  intros Hf. unfold process. cbn [ServerDriver.process_event]. pose proof (frame_fit sid f Hf (driver rt)) as Hx.
  destruct (ServerDriver.handle_frame_received sid f (driver rt)) as [[x|e|] d]; [|done..]. intros [= <- _]. by eapply Hx.
Qed.

(** Everything that waits is in order too. *)
Definition task_fit (t : Task) : Prop :=
  Forall Frame.wf (unread t) ∧ match todo t with Some acts => Forall fit acts | None => True end.
Record safe (w : Wd) : Prop := {
  safe_sound : sound (system w);
  safe_clean : clean (runtime w);
  safe_tasks : ∀ tid t, tasks (system w) !! tid = Some t → task_fit t }.

(** An event whose actions are executed in the same turn. *)
Lemma turn_clean ev rt r rt' :
  returns (Forall fit) (ServerDriver.process_event (T := T) (S := S) ev) → RoomManager.winv (world rt) →
  (acts ← process ev; execute_actions acts) rt = (r, rt') → clean rt → clean rt'.
Proof.
  intros Hx Hw. munfold. destruct (process ev rt) as [r1 rt1] eqn:Hp. intros Ht Hc.
  pose proof (process_clean _ _ _ _ Hw Hp Hc) as Hc1. destruct r1 as [acts|e|]; [|by injection Ht as _ <-..].
  assert (Forall fit acts) as Ha; [|pose proof (execute_clean acts rt1 Ha Hc1) as Hc2; by rewrite Ht in Hc2].
  specialize (Hx (driver rt)). unfold process in Hp. destruct (ServerDriver.process_event ev (driver rt)) as [[x|e|] d]; [|done..].
  injection Hp as <- _. by eapply Hx.
Qed.
Lemma accepted_fit sid : returns (Forall fit) (ServerDriver.handle_connection_accepted (T := T) (S := S) sid).
Proof.
  unfold ServerDriver.handle_connection_accepted. do 2 (apply returns_after; intros).
  case_match; repeat (apply returns_after; intros); apply returns_ret; by repeat constructor.
Qed.
Lemma closed_fit sid why : returns (Forall fit) (ServerDriver.handle_connection_closed (T := T) (S := S) sid why).
Proof.
  unfold ServerDriver.handle_connection_closed. do 3 (apply returns_after; intros).
  repeat case_match; apply returns_ret; by repeat constructor.
Qed.

Lemma step_safe w w' : step w w' → safe w → safe w'.
Proof.
  intros Hs [Hso Hc Ht]. pose proof (step_schedule _ _ Hs) as Hs'. pose proof (sound_world _ Hso) as Hw.
  split; [by eapply sound_turn; [|eapply step_turn]|clear Hs'..].
  - destruct Hs as [sid Hp|sid r rt Hp Ha _|sid tid input fs why Hp Hn Hr _|tid t f fs r rt Hin Hto Hu Hp _
      |tid t acts r rt Hin Hto He _|tid t Hin Hto|sid Hp|sid r rt Hp Hcl _]; cbn; try by destruct Hc.
    + by eapply (turn_clean (ConnectionAccepted sid)); [apply accepted_fit|..].
    + by eapply process_clean.
    + destruct (Ht _ _ Hin) as [_ Ha]. rewrite Hto in Ha. pose proof (execute_clean acts _ Ha Hc) as Hc'. by rewrite He in Hc'.
    + by eapply (turn_clean (ConnectionClosed sid _)); [apply closed_fit|..].
  - destruct Hs as [sid Hp|sid r rt Hp Ha _|sid tid input fs why Hp Hn Hr _|tid t f fs r rt Hin Hto Hu Hp _
      |tid t acts r rt Hin Hto He _|tid t Hin Hto|sid Hp|sid r rt Hp Hcl _]; cbn; try exact Ht.
    + intros i x [[_ <-]|[_ Hx]]%lookup_insert_Some; [|by eapply Ht]. split; [by eapply read_frames_wf|done].
    + intros i x [[_ <-]|[_ Hx]]%lookup_insert_Some; [|by eapply Ht]. destruct (Ht _ _ Hin) as [Hwf _]. rewrite Hu in Hwf.
      apply Forall_cons_iff in Hwf as [Hf Hwf]. split; [done|]. cbn. destruct r; [by eapply process_frame_turn_fit|done..].
    + intros i x. destruct r; cbn [executed]; [|intros [_ Hx]%lookup_delete_Some; by eapply Ht..].
      intros [[_ <-]|[_ Hx]]%lookup_insert_Some; [|by eapply Ht]. split; [apply (Ht _ _ Hin)|done].
    + intros i x [_ Hx]%lookup_delete_Some. by eapply Ht.
Qed.

End worlds.

(** ** Witnesses *)
Section witnesses.
#[local] Existing Instances ToyCodec.codec ToyMls.ops ToyMls.ed.

End witnesses.
End WireSafety.
