(* ===== verification/Invitation.v ===== *)
(** * Invitations over the wire

    What becomes of the frames with which a client adds members to a room: from
    [handle_add_members] of [client.rs] and [add_members] of [mls/group.rs] through
    the stream loop of the server to the receiving clients. *)

From Stdlib Require Import ZArith Lia.
From S2P Require Import Prelude Opcodes Header Frame Payload Connection SenderKeys SenderKeyStore MlsState Storage Sequencer.
From S2P Require Import Registry Validator MlsGroup MiniMls RoomManager ServerDriver Server Client Tasks EndToEnd.

Module Invitation.
Import ServerAction Client Broadcasting Tasks.

(** A frame whose size field says that nothing follows the header. *)
Definition bare (f : Frame) : Prop :=
  FrameHeader.wf (Frame.header f) ∧ FrameHeader.valid (Frame.header f) ∧ FrameHeader.payload_size (Frame.header f) = 0.
(** Its header alone. *)
Definition stripped (f : Frame) : Frame := {| Frame.header := Frame.header f; Frame.payload := [] |}.
Lemma stripped_wf f : bare f → Frame.wf (stripped f).
Proof. intros (Hw & Hv & Hs). by split. Qed.

(** The bytes do not begin with a frame. *)
Definition not_a_frame (p : bytes) : Prop := ∀ f rest, Server.read_frame p ≠ Server.Got f rest.

(** The two kinds of frames of an addition. *)
Definition invites (f : Frame) : Prop :=
  bare f ∧ (FrameHeader.opcode_enum (Frame.header f) = Some Opcode.Commit ∧ FrameHeader.room_id (Frame.header f) = 0
            ∨ FrameHeader.opcode_enum (Frame.header f) = Some Opcode.Welcome).

Section client.
Context `{PayloadCodec} `{Primitives} {U : Type} `{Environment U} `{OpenMls U} `{Ed25519}.
Abbreviation Cl := (Client (T := U)).

Lemma commit_invites p : invites (MlsGroup.commit_frame p).
Proof.
  split; [|by left]. split_and!; [apply FrameHeader.new_wf|vm_compute; split_and!; (reflexivity || discriminate)|reflexivity].
Qed.
Lemma welcome_invites (g : MlsGroup (T := U)) p kp a :
  MlsGroup.welcome_action g p kp = Ok a → ∃ r f, a = MlsGroup.SendWelcome r f ∧ invites f.
Proof.
  unfold MlsGroup.welcome_action. intros Ha. destruct (extract_member_id_from_credential _) as [id|e|]; [|done..].
  injection Ha as <-. eexists id, _. split; [done|]. split; [|by right]. split_and!; [|split_and!; done|done].
  by apply FrameHeader.set_sender_id_wf, FrameHeader.set_room_id_wf, FrameHeader.set_recipient_id_wf, FrameHeader.new_wf.
Qed.
Lemma welcomes_invite (g : MlsGroup (T := U)) p kps ws :
  MlsGroup.collect (MlsGroup.welcome_action g p) kps = Ok ws → Forall (λ a, ∃ r f, a = MlsGroup.SendWelcome r f ∧ invites f) ws.
Proof.
  revert ws. induction kps as [|kp kps IH]; intros ws Hc; cbn in Hc; [by injection Hc as <-|]. munfold.
  destruct (MlsGroup.welcome_action g p kp) as [a|e|] eqn:Ha; [|done..].
  destruct (MlsGroup.collect _ kps) as [ws'|e|]; [|done..]. injection Hc as <-.
  constructor; [by eapply welcome_invites|by apply IH].
Qed.

(** Everything that an addition sends. *)
Lemma addition_invites (g g' : MlsGroup (T := U)) kps acts room f :
  MlsGroup.add_members_from_bytes kps g = (Ok acts, g') → ClientAction.Send f ∈ convert_mls_actions room acts → invites f.
Proof.
  unfold MlsGroup.add_members_from_bytes, MlsGroup.add_members, MlsGroup.lift_err. intros Ha Hin. munfold.
  destruct (MlsGroup.collect _ kps) as [ks|e|]; [|done..]. repeat (case_match; simplify_eq/=).
  match goal with Hw : MlsGroup.collect (MlsGroup.welcome_action _ _) _ = Ok _ |- _ => apply welcomes_invite in Hw as Hws end.
  rewrite list.Forall_forall in Hws. apply elem_of_cons in Hin as [[= ->]|Hin]; [apply commit_invites|].
  apply list_elem_of_fmap in Hin as (act & Hf & Hin). apply elem_of_app in Hin as [Hin|Hin]; [|set_solver].
  destruct (Hws act Hin) as (r & f' & -> & Hi). by injection Hf as ->.
Qed.
Lemma added_invites room kps acts f (c c' : Cl) :
  handle (AddMembers room kps) c = (Ok acts, c') → ClientAction.Send f ∈ acts → invites f.
Proof.
  cbn [handle]. unfold handle_add_members, on_room, on_group. intros Ha Hin. munfold.
  repeat (case_match; simplify_eq/=). by eapply addition_invites.
Qed.

(** No client joins with an empty welcome, if MLS does not decode one. *)
Lemma empty_welcome_refused f (b : Cl) e :
  FrameHeader.opcode_enum (Frame.header f) = Some Opcode.Welcome → message_deserialize [] = Err e →
  ∃ why b', handle (FrameReceived (stripped f)) b = (Err why, b') ∧ rooms b' = rooms b.
Proof.
  intros Ho He. cbn [handle]. unfold frame_depth. cbn [handle_frame]. cbn [Frame.header stripped]. rewrite Ho.
  unfold handle_welcome, join, try_join_from_welcome. munfold. cbn [Frame.payload stripped].
  destruct (is_member _ b); [eauto|]. destruct (reverse (pending_joins b)) as [|pj older]; [eauto|].
  unfold MlsGroup.join_from_welcome. munfold. rewrite He. cbn. eauto.
Qed.
End client.

(** ** On the server *)
Section server.
Context `{PayloadCodec} {T : Type} `{Environment T} `{OpenMls T} `{Ed25519} {S : Type} `{StorageOk S} `{!ReadOnly S}.
Abbreviation Rt := (Server.Runtime (T := T) (S := S)).
Abbreviation Driver := (ServerDriver (T := T) (S := S)).

Lemma read_no_panic input : Server.read_frame input ≠ Server.DecodePanic.
Proof.
  unfold Server.read_frame. repeat case_match; try done. exfalso. by eapply Frame.decode_total.
Qed.
(** A bare frame is read without its payload, and then nothing more is read. *)
Lemma bare_read sid f (rt : Rt) :
  bare f → not_a_frame (Frame.payload f) →
  Server.handle_stream sid (Server.wire [f]) rt = Server.handle_frames sid [stripped f] rt.
Proof.
  intros Hb Hn. pose proof (stripped_wf f Hb) as Hf. unfold Server.handle_stream, Server.wire. cbn [map concat].
  rewrite app_nil_r. cbn [Server.read_frames]. pose proof (Server.read_frame_app _ (Frame.payload f) Hf) as Hr.
  cbn [stripped Frame.header Frame.payload app] in Hr. rewrite Hr.
  pose proof (FrameHeader.length_to_bytes _ (proj1 Hb)) as Hl. rewrite length_app, Hl. cbn [Nat.add Server.read_frames].
  pose proof (read_no_panic (Frame.payload f)). specialize (Hn : ∀ g rest, Server.read_frame (Frame.payload f) ≠ Server.Got g rest).
  destruct (Server.read_frame (Frame.payload f)) as [|e| |g rest]; [done|done|done|by destruct (Hn g rest)].
Qed.

(** A commit without room is refused. *)
Lemma roomless_commit_refused sid f (d : Driver) :
  FrameHeader.opcode_enum (Frame.header f) = Some Opcode.Commit → FrameHeader.room_id (Frame.header f) = 0 →
  RoomManager.groups (ServerDriver.room_manager d) !! 0 = None →
  ∃ e d', ServerDriver.process_event (ServerDriver.FrameReceived sid f) d = (Err e, d').
Proof.
  intros Ho Hr Hg. cbn [ServerDriver.process_event]. unfold ServerDriver.handle_frame_received, ServerDriver.env_now. munfold.
  destruct (Environment.now (ServerDriver.env d)) as [now env]. cbn [ServerDriver.connections ServerDriver.with_world].
  destruct (ServerDriver.connections d !! sid) as [c|]; [|eauto]. rewrite Ho.
  unfold ServerDriver.set_connection, ServerDriver.process_room_frame, ServerDriver.on_rooms, RoomManager.process_frame, RoomManager.env_now.
  munfold. cbn [ServerDriver.world_of ServerDriver.with_connections ServerDriver.with_world RoomManager.env RoomManager.rm
    RoomManager.store ServerDriver.env ServerDriver.room_manager ServerDriver.storage].
  destruct (Environment.now env) as [now' env']. cbn [RoomManager.rm]. rewrite Hr, Hg. cbn. eauto.
Qed.

(** A welcome is broadcast and not logged. *)
Lemma welcome_relayed sid f (d d' : Driver) acts :
  RoomManager.winv (ServerDriver.world_of d) → FrameHeader.opcode_enum (Frame.header f) = Some Opcode.Welcome →
  ServerDriver.process_event (ServerDriver.FrameReceived sid f) d = (Ok acts, d') →
  let room := FrameHeader.room_id (Frame.header f) in
  ∃ text now rest, acts = Log Debug text now :: BroadcastToRoom room f None :: rest
    ∧ (rest = [] ∨ ∃ st, rest = [PersistMlsState room st]).
Proof.
  intros Hw Ho Hp. assert (Sequencer.is_welcome f = true) as Hwel by (unfold Sequencer.is_welcome; by rewrite Ho).
  destruct (ServerDriver.connections d !! sid) as [c|] eqn:Hc; swap 1 2.
  { cbn [ServerDriver.process_event] in Hp. unfold ServerDriver.handle_frame_received, ServerDriver.env_now in Hp. munfold.
    destruct (Environment.now (ServerDriver.env d)). cbn in Hp. by rewrite Hc in Hp. }
  destruct (ServerDriver.handle_room_frame sid f d c Hc) as (now & e & _ & Heq); [by rewrite Ho|]. rewrite Heq in Hp.
  injection Hp as Hr _. unfold ServerDriver.route_room_frame in Hr. rewrite Hwel in Hr.
  unfold ServerDriver.on_registry, ServerDriver.process_room_frame, ServerDriver.on_rooms in Hr. munfold.
  destruct (ConnectionRegistry.subscribe _ _ _) as [ok reg]. cbn [fst snd] in Hr.
  match type of Hr with context [RoomManager.process_frame f ?w] =>
    destruct (RoomManager.process_frame f w) as [[racts|err|] w'] eqn:Hrm end; [|done..].
  apply RoomManager.process_frame_Ok in Hrm as (g & sacts & t & extra & _ & _ & _ & _ & -> & Hx & _ & _ & Ha); [|exact Hw].
  rewrite Hwel in Ha. subst sacts. destruct Hx as [->|[st ->]].
  - cbn in Hr. injection Hr as <-. eauto 6.
  - cbn in Hr. injection Hr as <-. eauto 8.
Qed.

(** What its execution writes. *)
Lemma relay_execution s text now room g rest (rt : Rt) :
  Frame.wf g → rest = [] ∨ (∃ st, rest = [PersistMlsState room st]) →
  let rt' := snd (Server.execute_actions (Log Debug text now :: BroadcastToRoom room g None :: rest) rt) in
  (∀ r, logs rt' r = logs rt r) ∧ ∃ bufs, inbox s rt' = inbox s rt ++ bufs ∧ ∀ buf, buf ∈ bufs → buf = buffer g.
Proof.
  intros Hg Hrest. unfold Server.execute_actions. cbn [m_iter]. pose proof (quiet_world (BroadcastToRoom room g None) rt I) as [_ Hq].
  cbn [Server.execute_action] in *. munfold. rewrite encode_wf in * by done. cbn [snd] in *.
  destruct (broadcast_inbox s None (buffer g) (subscribers room rt) rt) as (_ & _ & Hi); [apply NoDup_elements|].
  change (ServerDriver.sessions_in_room room (Server.driver rt)) with (subscribers room rt) in *.
  set (rt1 := foldl _ rt (subscribers room rt)) in *.
  assert (∃ bufs, inbox s rt1 = inbox s rt ++ bufs ∧ ∀ buf, buf ∈ bufs → buf = buffer g) as Hb.
  { eexists. split; [exact Hi|]. case_decide; set_solver. }
  destruct Hrest as [->|[st ->]]; cbn [m_iter]; munfold; [exact (conj Hq Hb)|].
  pose proof (quiet_world (PersistMlsState room st) rt1 I) as [_ Hq2]. cbn [Server.execute_action] in *. munfold.
  unfold Server.on_storage in *. destruct (store_mls_state room st _) as [x s']. cbn [snd] in *.
  split; [intros r; rewrite <-Hq, <-Hq2; by destruct x|]. by destruct x.
Qed.
End server.

(** ** Together *)
Section invitation.
Context `{PayloadCodec} `{Primitives} `{Ed25519}.
Context {T : Type} `{Environment T} `{OpenMls T} {S : Type} `{StorageOk S} `{!ReadOnly S}.
Context {U : Type} `{Environment U} `{OpenMls U}.

(** C38: an invitation never arrives.  A client adds members to a room, and a frame
    that it sends for this, commit or welcome, is written to the stream of any
    session.  The size field of these frames is zero: the server reads the header
    alone and ends the stream at the payload.  No log changes; whatever is written
    to any session is the header without its payload; and no client whose MLS
    library refuses an empty welcome joins a room on receiving it. *)
Theorem invitation_lost sid id kps acts f e (a a' : Client (T := U)) (rt : Server.Runtime (T := T) (S := S)) :
  handle (AddMembers id kps) a = (Ok acts, a') → ClientAction.Send f ∈ acts → not_a_frame (Frame.payload f) →
  RoomManager.winv (world rt) → RoomManager.groups (RoomManager.rm (world rt)) !! 0 = None →
  message_deserialize (T := U) [] = Err e →
  let rt' := snd (Server.handle_stream sid (Server.wire [f]) rt) in
  (∀ room, logs rt' room = logs rt room)
  ∧ ∀ s, ∃ bufs, inbox s rt' = inbox s rt ++ bufs
    ∧ ∀ buf, buf ∈ bufs → Frame.decode buf = Ok (stripped f)
      ∧ ∀ b : Client (T := U), ∃ why b', handle (FrameReceived (stripped f)) b = (Err why, b') ∧ rooms b' = rooms b.
Proof.
  intros Hadd Hin Hn Hw Hz He rt'. destruct (added_invites _ _ _ _ _ _ Hadd Hin) as [Hb Hkind]. pose proof (stripped_wf f Hb) as Hwf.
  unfold rt'. rewrite bare_read by done. cbn [Server.handle_frames]. unfold m_try. munfold.
  destruct (Server.process (ServerDriver.FrameReceived sid (stripped f)) rt) as [r rt1] eqn:Hp.
  destruct (process_turn _ _ _ _ Hw Hp) as (_ & Hl & _).
  assert (∀ s, inbox s rt1 = inbox s rt) as Hi.
  { intros s. unfold Server.process in Hp. destruct (ServerDriver.process_event _ _) as [x d]. by injection Hp as _ <-. }
  assert (∀ s, ∃ bufs, inbox s rt1 = inbox s rt ++ bufs ∧ ∀ buf, buf ∈ bufs → False) as Hnone.
  { intros s. exists []. rewrite app_nil_r. split; [done|set_solver]. }
  destruct r as [sacts|err|]; [|cbn [snd]; split; [done|]; intros s; destruct (Hnone s) as (bufs & ? & ?); naive_solver..].
  pose proof (Server.process_Ok _ _ _ _ Hp) as Hev. destruct Hkind as [[Ho Hr]|Ho].
  { destruct (roomless_commit_refused sid (stripped f) (Server.driver rt) Ho Hr Hz) as (e' & d' & E). congruence. }
  destruct (welcome_relayed sid (stripped f) _ _ _ Hw Ho Hev) as (text & now & rest & -> & Hrest).
  pose proof (λ s, relay_execution s text now _ (stripped f) rest rt1 Hwf Hrest) as Hx.
  set (acts' := Log Debug text now :: _) in *. destruct (Server.execute_actions acts' rt1) as [x rt2] eqn:Ex. cbn [snd] in Hx.
  destruct x as [[]|?|]; cbn [snd]; (split; [intros room; rewrite <-Hl; apply (Hx 0)|]; intros s;
    destruct (Hx s) as (_ & bufs & Hbufs & Hall); rewrite <-Hi; exists bufs; split; [exact Hbufs|];
    intros buf ->%Hall; split; [by apply decode_buffer|]; intros b; by eapply empty_welcome_refused).
Qed.
End invitation.
End Invitation.

(** ** Witness: member 5 invites member 7 to room 9 *)
Section invitation_witness.
#[local] Existing Instances ToyClient.codec ToyPrimitives.prims MiniMls.ops ToyClient.ed.
Import Broadcasting Client Tasks Invitation.

Definition demo_host : Client (T := ToyEnv.T) := snd (handle (CreateRoom 9) (new (0, 0) {| sender_id := 5 |})).
Definition demo_addition := handle (AddMembers 9 [to_le_bytes 8 7]) demo_host.
(** The welcome among what it sends. *)
Definition demo_invitation : Frame :=
  match fst demo_addition with Ok (_ :: ClientAction.Send f :: _) => f | _ => Frame.sample end.

Lemma invitation_lost_witness :
  let rt' := snd (Server.handle_stream 4 (Server.wire [demo_invitation]) (demo_server None)) in
  logs rt' 9 = [] ∧ FrameHeader.opcode_enum (Frame.header demo_invitation) = Some Opcode.Welcome
  ∧ Frame.payload demo_invitation ≠ [] ∧ ∃ bufs, inbox 5 rt' = bufs ∧ length bufs = 1%nat
  ∧ ∀ buf, buf ∈ bufs → ∃ g, Frame.decode buf = Ok g ∧ Frame.payload g = [].
Proof.
  assert (match fst demo_addition with Ok acts => acts !! 1%nat | _ => None end = Some (ClientAction.Send demo_invitation)) as Hin
    by (vm_compute; reflexivity).
  run_ok demo_addition as acts a' Ha. cbn [fst] in Hin. apply list_elem_of_lookup_2 in Hin.
  destruct (invitation_lost 4 9 [to_le_bytes 8 7] acts demo_invitation "toy" demo_host a' (demo_server None) Ha Hin)
    as [Hl Hi]; [vm_compute; discriminate|apply demo_server_winv|vm_compute; reflexivity|vm_compute; reflexivity|].
  split_and!; [exact (Hl 9)|vm_compute; reflexivity|vm_compute; discriminate|].
  destruct (Hi 5) as (bufs & Hb & Hall). exists bufs. split_and!; [exact Hb| |].
  - transitivity (length (inbox 5 (snd (Server.handle_stream 4 (Server.wire [demo_invitation]) (demo_server None)))));
      [by rewrite Hb|vm_compute; reflexivity].
  - intros buf Hbuf. exists (stripped demo_invitation). exact (conj (proj1 (Hall buf Hbuf)) eq_refl).
Defined.
End invitation_witness.
