(* ===== verification/Transport.v ===== *)
(** * Transport, environment and start-up

    [lockframe-core/src/transport.rs] and [mls/provider.rs],
    [lockframe-server/src/transport.rs], [system_env.rs], [main.rs] and the start-up
    part of [lib.rs], and [lockframe-harness/src/sim_transport.rs].

    What these files call is not in the repository: sockets, files and TLS (quinn,
    rustls, rcgen), the operating system's clock and randomness, and the turmoil
    simulator.  Each is a class of operations on the state of the outside world.
    The calls to [tracing] are recorded as a trace. *)

From Stdlib Require Import ZArith Lia.
From S2P Require Import Prelude Opcodes Header Frame Payload Connection MlsState Storage Sequencer.
From S2P Require Import Registry Validator MlsGroup RoomManager ServerDriver Server.

(** The outside world with what has been logged. *)
Record Host (W : Type) : Type := { system : W; trace : list (LogLevel * string) }.
Arguments system {W}. Arguments trace {W}.

Section host.
Context {W E : Type}.
(** A call that moves the outside world. *)
Definition on_system {A} (op : W → outcome string A * W) (err : string → E) : M (Host W) E A := λ h,
  let '(r, w) := op (system h) in (map_err err r, {| system := w; trace := trace h |}).
(** [tracing::info!] and the like. *)
Definition write_log (level : LogLevel) (message : string) : M (Host W) E unit :=
  m_modify (λ h, {| system := system h; trace := trace h ++ [(level, message)] |}).
End host.

(** ** The production environment *)
Module SystemEnv.
Section system_env.
Context {W : Type}.

(** [Instant::now] and [getrandom::fill]. *)
Class OperatingSystem : Type := {
  instant_now : W → Z * W;
  getrandom_fill : nat → W → (string + bytes) * W;
}.
Context `{OperatingSystem}.

(** [SystemEnv::now]. *)
Definition now (h : Host W) : Z * Host W :=
  let '(t, w) := instant_now (system h) in (t, {| system := w; trace := trace h |}).
(** [SystemEnv::random_bytes]: if the operating system fails, zeros and an error
    in the log. *)
Definition random_bytes (n : nat) (h : Host W) : bytes * Host W :=
  match getrandom_fill n (system h) with
  | (inr bs, w) => (bs, {| system := w; trace := trace h |})
  | (inl e, w) => (replicate n Byte.x00, {| system := w; trace := trace h ++ [(ErrorLevel, "getrandom failed: " +:+ e)] |})
  end.

#[global] Instance system_environment : Environment (Host W) := {|
  Environment.now := now;
  Environment.random_bytes := random_bytes |}.

(** What the operating system documents: a monotonic clock that reading it or
    drawing from the generator does not turn back, and a filled buffer. *)
Class OperatingSystemOk : Type := {
  os_clock : W → Z;
  instant_reads : ∀ w, fst (instant_now w) = os_clock w;
  instant_monotone : ∀ w, os_clock w ≤ os_clock (snd (instant_now w));
  fill_keeps_clock : ∀ n w, os_clock w ≤ os_clock (snd (getrandom_fill n w));
  fill_length : ∀ n w bs w', getrandom_fill n w = (inr bs, w') → length bs = n;
}.

(** The session id that [handle_connection] draws. *)
Definition new_session_id : M (Host W) RuntimeError Z :=
  buf ← on_system (λ w, let '(r, w) := getrandom_fill 8 w in (match r with inr bs => Ok bs | inl e => Err e end, w)) Internal;
  mret (from_le_bytes buf).
End system_env.
Arguments OperatingSystem : clear implicits.
Arguments OperatingSystemOk _ {_}.
End SystemEnv.

(** ** The provider for openmls *)
Module MlsProvider.
Section provider.
(** [RustCrypto] and the key store of openmls. *)
Context {Crypto KeyStore : Type} (crypto_default : Crypto) (key_store_default : KeyStore).
Context {T : Type} `{Environment T}.

(** [EnvironmentRng] is the environment it wraps. *)
Record MlsProvider : Type := { crypto_field : Crypto; rand_field : T; storage_field : KeyStore }.
Definition new (env : T) : MlsProvider :=
  {| crypto_field := crypto_default; rand_field := env; storage_field := key_store_default |}.
(** [OpenMlsProvider for MlsProvider]. *)
Definition crypto (p : MlsProvider) : Crypto := crypto_field p.
Definition rand (p : MlsProvider) : T := rand_field p.
Definition storage (p : MlsProvider) : KeyStore := storage_field p.
Definition with_rand (env : T) (p : MlsProvider) : MlsProvider :=
  {| crypto_field := crypto p; rand_field := env; storage_field := storage p |}.
Definition now (p : MlsProvider) : Z * MlsProvider :=
  let '(t, e) := Environment.now (rand p) in (t, with_rand e p).

(** [RngCore] and [OpenMlsRand] for [EnvironmentRng]. *)
Definition next_u32 (rng : T) : Z * T :=
  let '(bs, rng) := Environment.random_bytes 4 rng in (from_le_bytes bs, rng).
Definition next_u64 (rng : T) : Z * T := Environment.random_u64 rng.
Definition fill_bytes (n : nat) (rng : T) : bytes * T := Environment.random_bytes n rng.
Definition try_fill_bytes (n : nat) (rng : T) : outcome Empty_set bytes * T :=
  let '(bs, rng) := Environment.random_bytes n rng in (Ok bs, rng).
Definition random_array (n : nat) (rng : T) : outcome Empty_set bytes * T :=
  let '(bs, rng) := Environment.random_bytes n rng in (Ok bs, rng).
Definition random_vec (len : nat) (rng : T) : outcome Empty_set bytes * T :=
  let '(bs, rng) := Environment.random_bytes len rng in (Ok bs, rng).
End provider.
End MlsProvider.

(** ** QUIC *)

(** The configuration that rustls builds, with what the code chooses: whether peers
    must show a certificate, and the protocols it offers. *)
Record TlsConfig (Tls : Type) : Type := { tls : Tls; client_auth : bool; alpn_protocols : list bytes }.
Arguments tls {Tls}. Arguments client_auth {Tls}. Arguments alpn_protocols {Tls}.

(** quinn, rustls, rcgen, the file system and address parsing. *)
Class Quinn (W : Type) : Type := {
  SocketAddr : Type; CertDer : Type; KeyDer : Type; Tls : Type; QuicServerConfig : Type; QServerConfig : Type;
  Endpoint : Type; Incoming : Type; QConnection : Type; SendStream : Type; RecvStream : Type;
  addr_parse : string → outcome string SocketAddr;
  addr_to_string : SocketAddr → string;
  fs_read : string → W → outcome string bytes * W;
  pem_certs : bytes → list (outcome string CertDer);
  pem_private_key : bytes → outcome string (option KeyDer);
  (** [ServerConfig::builder().with_no_client_auth().with_single_cert(..)] *)
  with_single_cert : list CertDer → KeyDer → outcome string Tls;
  quic_try_from : TlsConfig Tls → outcome string QuicServerConfig;
  with_crypto : QuicServerConfig → QServerConfig;
  generate_simple_self_signed : list string → W → outcome string (CertDer * bytes) * W;
  pkcs8_key : bytes → KeyDer;
  endpoint_server : QServerConfig → SocketAddr → W → outcome string Endpoint * W;
  endpoint_accept : Endpoint → W → option Incoming * W;
  incoming_await : Incoming → W → outcome string QConnection * W;
  endpoint_local_addr : Endpoint → outcome string SocketAddr;
  connection_accept_bi : QConnection → W → outcome string (SendStream * RecvStream) * W;
  connection_open_uni : QConnection → W → outcome string SendStream * W;
  connection_remote_address : QConnection → SocketAddr;
  connection_close : QConnection → Z → bytes → W → W;
}.

Module QuinnTransport.
Section quinn.
Context {W : Type} `{Quinn W}.
Abbreviation HostM := (M (Host W) RuntimeError).

Record QuinnTransport : Type := { endpoint : Endpoint }.
Record QuinnConnection : Type := { connection : QConnection }.

(** [collect::<Result<Vec<_>, _>>()]. *)
Fixpoint collect {A} (rs : list (outcome string A)) : outcome string (list A) :=
  match rs with
  | [] => Ok []
  | r :: rs => a ← r; l ← collect rs; Ok (a :: l)
  end.

Definition ALPN : bytes := bytes_of_string "lockframe".

(** The end of both functions below: TLS without client authentication, the
    protocol name, and the QUIC configuration. *)
Definition finish_config (certs : list CertDer) (key : KeyDer) : outcome RuntimeError QServerConfig :=
  core ← map_err (λ e, Config ("invalid TLS config: " +:+ e)) (with_single_cert certs key);
  let tls_config := {| tls := core; client_auth := false; alpn_protocols := [ALPN] |} in
  quic ← map_err (λ e, Config ("QUIC config error: " +:+ e)) (quic_try_from tls_config);
  Ok (with_crypto quic).

(** [load_tls_config]. *)
Definition load_tls_config (cert_path key_path : string) : HostM QServerConfig :=
  cert_pem ← on_system (fs_read cert_path) (λ e, Config ("failed to read cert '" +:+ cert_path +:+ "': " +:+ e));
  key_pem ← on_system (fs_read key_path) (λ e, Config ("failed to read key '" +:+ key_path +:+ "': " +:+ e));
  certs ← m_lift (map_err (λ e, Config ("failed to parse certificates: " +:+ e)) (collect (pem_certs cert_pem)));
  found ← m_lift (map_err (λ e, Config ("failed to parse private key: " +:+ e)) (pem_private_key key_pem));
  key ← m_lift (ok_or found (Config "no private key found"));
  m_lift (finish_config certs key).

(** [generate_self_signed_config]. *)
Definition generate_self_signed_config : HostM QServerConfig :=
  cert ← on_system (generate_simple_self_signed ["localhost"]) (λ e, Config ("failed to generate self-signed cert: " +:+ e));
  server_config ← m_lift (finish_config [fst cert] (pkcs8_key (snd cert)));
  write_log Warn "Using self-signed certificate - not for production use!";;
  mret server_config.

(** The choice of the configuration in [bind]: the files count only if both are
    given. *)
Definition choose_config (cert_path key_path : option string) : HostM QServerConfig :=
  match cert_path, key_path with
  | Some cert, Some key => load_tls_config cert key
  | _, _ => generate_self_signed_config
  end.

(** [QuinnTransport::bind]. *)
Definition bind (address : string) (cert_path key_path : option string) : HostM QuinnTransport :=
  addr ← m_lift (map_err (λ e, Config ("invalid bind address '" +:+ address +:+ "': " +:+ e)) (addr_parse address));
  server_config ← choose_config cert_path key_path;
  endpoint ← on_system (endpoint_server server_config addr) (λ e, Transport ("failed to create endpoint: " +:+ e));
  write_log Info ("QUIC transport bound to " +:+ addr_to_string addr);;
  mret {| endpoint := endpoint |}.

(** [QuinnTransport::accept], [local_addr]. *)
Definition accept (t : QuinnTransport) : HostM QuinnConnection :=
  incoming ← on_system (λ w, let '(o, w) := endpoint_accept (endpoint t) w in (Ok o, w)) Transport;
  incoming ← m_lift (ok_or incoming (Transport "endpoint closed"));
  conn ← on_system (incoming_await incoming) (λ e, Transport ("connection failed: " +:+ e));
  mret {| connection := conn |}.
Definition local_addr (t : QuinnTransport) : outcome RuntimeError SocketAddr :=
  map_err (λ e, Transport ("failed to get local address: " +:+ e)) (endpoint_local_addr (endpoint t)).

(** [QuinnConnection]. *)
Definition accept_bi (c : QuinnConnection) : HostM (SendStream * RecvStream) :=
  on_system (connection_accept_bi (connection c)) (λ e, Transport ("accept_bi failed: " +:+ e)).
Definition open_uni (c : QuinnConnection) : HostM SendStream :=
  on_system (connection_open_uni (connection c)) (λ e, Transport ("open_uni failed: " +:+ e)).
Definition remote_addr (c : QuinnConnection) : SocketAddr := connection_remote_address (connection c).
Definition close (c : QuinnConnection) (error_code : Z) (reason : bytes) : HostM unit :=
  m_modify (λ h, {| system := connection_close (connection c) error_code reason (system h); trace := trace h |}).
End quinn.
End QuinnTransport.

(** ** Start-up *)
Module Startup.
Import QuinnTransport.
Section startup.
Context `{PayloadCodec} `{Ed25519} {W : Type} `{SystemEnv.OperatingSystem W} `{OpenMls (Host W)} `{Quinn W}.
Abbreviation HostM := (M (Host W) RuntimeError).
Abbreviation Driver := (ServerDriver (T := Host W) (S := MemoryStorage)).

(** [ServerRuntimeConfig] and its default. *)
Record ServerRuntimeConfig : Type := {
  bind_address : string; cert_path : option string; key_path : option string; driver_config : ServerConfig }.
Definition default_runtime_config : ServerRuntimeConfig :=
  {| bind_address := "0.0.0.0:4433"; cert_path := None; key_path := None; driver_config := default_server_config |}.

(** [struct Server]; its environment is the host. *)
Record ServerHandle : Type := { handle_driver : Driver; transport : QuinnTransport }.

(** [Server::bind] and [Server::local_addr]. *)
Definition bind (config : ServerRuntimeConfig) : HostM ServerHandle :=
  env ← m_get;
  let driver := ServerDriver.new env MemoryStorage.new (driver_config config) in
  transport ← QuinnTransport.bind (bind_address config) (cert_path config) (key_path config);
  mret {| handle_driver := driver; transport := transport |}.
Definition local_addr (s : ServerHandle) : outcome RuntimeError SocketAddr := QuinnTransport.local_addr (transport s).

(** One round of the loop in [Server::run]: a connection gets a task, an error is
    logged.  The state is the connections whose tasks have been spawned. *)
Definition accept_round (t : QuinnTransport) (spawned : list QuinnConnection) : HostM (list QuinnConnection) :=
  r ← m_try (accept t);
  match r with
  | Ok conn => mret (spawned ++ [conn])
  | Err e => write_log ErrorLevel ("Accept error: " +:+ runtime_error_to_string e);; mret spawned
  | Panic => m_lift Panic
  end.
Fixpoint accept_rounds (n : nat) (t : QuinnTransport) (spawned : list QuinnConnection) : HostM (list QuinnConnection) :=
  match n with
  | O => mret spawned
  | Datatypes.S n => spawned ← accept_round t spawned; accept_rounds n t spawned
  end.

(** [Server::run] for [n] rounds of its loop, which has no exit: [None] says that
    it is still running. *)
Definition run (n : nat) (s : ServerHandle) : HostM (option unit) :=
  addr ← m_lift (local_addr s);
  write_log Info ("Server starting on " +:+ addr_to_string addr);;
  accept_rounds n (transport s) [];;
  mret None.

(** [struct Args] of [main.rs]; clap parses it, with these values where nothing is
    given. *)
Record Args : Type := {
  arg_bind : string; arg_cert : option string; arg_key : option string; arg_max_connections : Z; arg_log_level : string }.
Definition default_args : Args :=
  {| arg_bind := "0.0.0.0:4433"; arg_cert := None; arg_key := None; arg_max_connections := 10000; arg_log_level := "info" |}.

Definition runtime_config (args : Args) : ServerRuntimeConfig :=
  {| bind_address := arg_bind args; cert_path := arg_cert args; key_path := arg_key args;
     driver_config := {| ServerDriver.connection := ServerDriver.connection default_server_config;
                         max_connections := arg_max_connections args |} |}.

(** [main] after the arguments are parsed and the subscriber is installed. *)
Definition main (n : nat) (args : Args) : HostM (option unit) :=
  write_log Info "Lockframe server starting";;
  write_log Info ("Binding to " +:+ arg_bind args);;
  (match arg_cert args, arg_key args with
   | Some _, Some _ => mret tt
   | _, _ =>
       write_log Warn "No TLS certificate provided - using self-signed certificate";;
       write_log Warn "This is NOT suitable for production use!"
   end);;
  server ← bind (runtime_config args);
  addr ← m_lift (local_addr server);
  write_log Info ("Server listening on " +:+ addr_to_string addr);;
  run n server.
End startup.
End Startup.

(** ** The transport interface and its simulation *)
Module SimTransport.
(** [std::io::Error] with the kinds that occur. *)
Inductive ErrorKind : Type := Unsupported | UnexpectedEof | Other.
Record IoError : Type := { kind : ErrorKind; message : string }.

(** [trait Transport] and [trait TransportConnection] over the state [W] of the
    network. *)
Class TransportConnection (W C : Type) : Type := {
  SendHalf : Type; RecvHalf : Type;
  open_bi : C → W → outcome IoError (SendHalf * RecvHalf) * W;
  accept_bi : C → W → outcome IoError (option (SendHalf * RecvHalf)) * W;
  close : C → Z → string → W → W;
}.
Class TransportOps (W Tr Addr : Type) : Type := {
  Conn : Type;
  conn_ops : TransportConnection W Conn;
  accept : Tr → W → outcome IoError Conn * W;
  connect : Tr → Addr → W → outcome IoError Conn * W;
}.

(** The sockets of turmoil. *)
Class Turmoil (W : Type) : Type := {
  NetAddr : Type; TcpListener : Type; TcpStream : Type; ReadHalf : Type; WriteHalf : Type;
  tcp_bind : string → W → outcome IoError TcpListener * W;
  tcp_accept : TcpListener → W → outcome IoError (TcpStream * NetAddr) * W;
  tcp_connect_host : string → W → outcome IoError TcpStream * W;
  tcp_connect : NetAddr → W → outcome IoError TcpStream * W;
  io_split : TcpStream → ReadHalf * WriteHalf;
}.

Section sim.
Context {W : Type} `{Turmoil W}.
Record SimTransport : Type := { listener : option TcpListener }.
Record SimConnection : Type := { stream : TcpStream }.

Definition into_split (c : SimConnection) : WriteHalf * ReadHalf :=
  let '(recv, send) := io_split (stream c) in (send, recv).
Definition bind (address : string) : M W IoError SimTransport :=
  l ← tcp_bind address; mret {| listener := Some l |}.
Definition client : SimTransport := {| listener := None |}.
Definition connect_to_host (t : SimTransport) (address : string) : M W IoError SimConnection :=
  s ← tcp_connect_host address; mret {| stream := s |}.

Definition sim_accept (t : SimTransport) : M W IoError SimConnection :=
  match listener t with
  | Some l => p ← tcp_accept l; mret {| stream := fst p |}
  | None => m_err {| kind := Unsupported;
      message := "cannot accept on client endpoint - use SimTransport::bind() for servers" |}
  end.
Definition sim_connect (t : SimTransport) (remote : NetAddr) : M W IoError SimConnection :=
  s ← tcp_connect remote; mret {| stream := s |}.
Definition sim_open_bi (c : SimConnection) : M W IoError (WriteHalf * ReadHalf) :=
  m_err {| kind := Unsupported;
    message := "open_bi not supported in SimConnection - use accept_bi or split the connection at creation time" |}.
Definition sim_accept_bi (c : SimConnection) : M W IoError (option (WriteHalf * ReadHalf)) :=
  m_err {| kind := Unsupported; message := "accept_bi not supported in SimConnection - use split at creation time" |}.
Definition sim_close (c : SimConnection) (error_code : Z) (reason : string) (w : W) : W := w.

#[global] Instance sim_connection_ops : TransportConnection W SimConnection := {|
  open_bi := sim_open_bi; accept_bi := sim_accept_bi; close := sim_close |}.
#[global] Instance sim_transport_ops : TransportOps W SimTransport NetAddr := {|
  accept := sim_accept; connect := sim_connect |}.
End sim.
End SimTransport.

(** ** Lemmas and theorems *)

(** *** Environment *)
Module EnvironmentTheory.
Import SystemEnv MlsProvider.
Section system.
Context {W : Type} `{OperatingSystemOk W}.

(** The production environment keeps the trait's promises. *)
#[program] Definition system_environment_ok : Environment.EnvironmentOk (Host W) :=
  {| Environment.clock := λ h, os_clock (system h) |}.
Next Obligation. intros h. cbn. unfold SystemEnv.now. pose proof (instant_reads (system h)). by destruct (instant_now (system h)). Qed.
Next Obligation. intros h. cbn. unfold SystemEnv.now. pose proof (instant_monotone (system h)). by destruct (instant_now (system h)). Qed.
Next Obligation.
  intros n h. cbn. unfold random_bytes. pose proof (fill_keeps_clock n (system h)). by destruct (getrandom_fill n (system h)) as [[]].
Qed.
Next Obligation.
  intros n h. cbn. unfold random_bytes. destruct (getrandom_fill n (system h)) as [[e|bs] w] eqn:E; cbn.
  - apply length_replicate.
  - by eapply fill_length.
Qed.

(** A session id is a [u64]; there is none exactly if the operating system fails. *)
Theorem session_id_spec (h : Host W) :
  match new_session_id h with
  | (Ok sid, _) => 0 ≤ sid < U64_MOD ∧ ∃ bs, fst (getrandom_fill 8 (system h)) = inr bs ∧ sid = from_le_bytes bs
  | (Err e, _) => ∃ why, fst (getrandom_fill 8 (system h)) = inl why ∧ e = Internal why
  | (Panic, _) => False
  end.
Proof.
  unfold new_session_id, on_system. munfold. destruct (getrandom_fill 8 (system h)) as [[e|bs] w] eqn:E; cbn; [eauto|].
  split; [|eauto]. pose proof (from_le_bytes_range bs) as Hr. rewrite (fill_length _ _ _ _ E) in Hr. exact Hr.
Qed.
End system.

Section rng.
Context {T : Type} `{Environment.EnvironmentOk T}.
(** The draws of [EnvironmentRng] have their widths. *)
Lemma rng_widths (rng : T) n :
  0 ≤ fst (next_u32 rng) < U32_MOD ∧ 0 ≤ fst (next_u64 rng) < U64_MOD
  ∧ length (fst (fill_bytes n rng)) = n
  ∧ (∃ bs rng', random_array n rng = (Ok bs, rng') ∧ length bs = n)
  ∧ (∃ bs rng', random_vec n rng = (Ok bs, rng') ∧ length bs = n)
  ∧ ∃ bs rng', try_fill_bytes n rng = (Ok bs, rng') ∧ length bs = n.
Proof.
  pose proof (Environment.random_length 4 rng) as L4. pose proof (Environment.random_length 8 rng) as L8.
  pose proof (Environment.random_length n rng) as Ln.
  unfold next_u32, next_u64, fill_bytes, random_array, random_vec, try_fill_bytes, Environment.random_u64.
  destruct (Environment.random_bytes 4 rng) as [b4 r4], (Environment.random_bytes 8 rng) as [b8 r8],
    (Environment.random_bytes n rng) as [bn rn]; cbn in *.
  pose proof (from_le_bytes_range b4) as R4. pose proof (from_be_bytes_range b8) as R8. rewrite L4 in R4. rewrite L8 in R8.
  split_and!; try done; try apply R4; try apply R8; eauto.
Qed.
End rng.
End EnvironmentTheory.

(** *** Binding *)
Module BindTheory.
Import QuinnTransport.
Section bind.
Context {W : Type} `{Quinn W}.

(** A configuration that the code may give to an endpoint. *)
Definition lockframe_config (certs : list CertDer) (key : KeyDer) (config : QServerConfig) : Prop :=
  ∃ core quic, with_single_cert certs key = Ok core
    ∧ quic_try_from {| tls := core; client_auth := false; alpn_protocols := [bytes_of_string "lockframe"] |} = Ok quic
    ∧ config = with_crypto quic.

Lemma finish_config_Ok certs key config : finish_config certs key = Ok config → lockframe_config certs key config.
Proof.
  unfold finish_config, lockframe_config. munfold. destruct (with_single_cert certs key) as [core| |]; [|done..]. cbn.
  destruct (quic_try_from _) as [quic| |] eqn:E; [|done..]. cbn. intros [= <-]. eauto.
Qed.
Lemma finish_config_Err certs key e : finish_config certs key = Err e → ∃ msg, e = Config msg.
Proof.
  unfold finish_config. munfold. destruct (with_single_cert certs key) as [core| |]; [|by intros [= <-]; eauto|done]. cbn.
  destruct (quic_try_from _) as [quic| |]; [done|by intros [= <-]; eauto|done].
Qed.

(** The certificates and the key of two PEM files. *)
Definition from_files (cert key : string) (certs : list CertDer) (k : KeyDer) (w w' : W) : Prop :=
  ∃ cert_pem key_pem w1, fs_read cert w = (Ok cert_pem, w1) ∧ fs_read key w1 = (Ok key_pem, w')
    ∧ collect (pem_certs cert_pem) = Ok certs ∧ pem_private_key key_pem = Ok (Some k).

Lemma load_tls_config_Ok cert key h config h' :
  load_tls_config cert key h = (Ok config, h') →
  ∃ certs k, from_files cert key certs k (system h) (system h') ∧ lockframe_config certs k config ∧ trace h' = trace h.
Proof.
  unfold load_tls_config, on_system. munfold.
  destruct (fs_read cert (system h)) as [[cert_pem| |] w1] eqn:E1; cbn; [|done..].
  destruct (fs_read key w1) as [[key_pem| |] w2] eqn:E2; cbn; [|done..].
  destruct (collect (pem_certs cert_pem)) as [certs| |] eqn:E3; cbn; [|done..].
  destruct (pem_private_key key_pem) as [[k|]| |] eqn:E4; cbn; [|done..].
  intros [= Hf <-]. exists certs, k. split_and!; [|by apply finish_config_Ok|done]. by exists cert_pem, key_pem, w1.
Qed.
Lemma load_tls_config_Err cert key h e h' :
  load_tls_config cert key h = (Err e, h') → (∃ msg, e = Config msg) ∧ trace h' = trace h.
Proof.
  unfold load_tls_config, on_system. munfold.
  destruct (fs_read cert (system h)) as [[cert_pem|e1|] w1]; cbn; [|by intros [= <- <-]; eauto|done].
  destruct (fs_read key w1) as [[key_pem|e2|] w2]; cbn; [|by intros [= <- <-]; eauto|done].
  destruct (collect (pem_certs cert_pem)) as [certs|e3|]; cbn; [|by intros [= <- <-]; eauto|done].
  destruct (pem_private_key key_pem) as [[k|]|e4|]; cbn; [|by intros [= <- <-]; eauto|by intros [= <- <-]; eauto|done].
  intros [= Hf <-]. split; [by eapply finish_config_Err|done].
Qed.

Definition self_signed_warning : LogLevel * string := (Warn, "Using self-signed certificate - not for production use!").

Lemma self_signed_Ok h config h' :
  generate_self_signed_config h = (Ok config, h') →
  ∃ cert key, generate_simple_self_signed ["localhost"] (system h) = (Ok (cert, key), system h')
    ∧ lockframe_config [cert] (pkcs8_key key) config ∧ trace h' = trace h ++ [self_signed_warning].
Proof.
  unfold generate_self_signed_config, on_system, write_log. munfold.
  destruct (generate_simple_self_signed _ (system h)) as [[[cert key]| |] w1] eqn:E1; cbn; [|done..].
  destruct (finish_config _ _) as [c| |] eqn:Ef; [|done..]. intros [= <- <-]. exists cert, key.
  split_and!; [done|by apply finish_config_Ok|done].
Qed.
Lemma self_signed_Err h e h' : generate_self_signed_config h = (Err e, h') → (∃ msg, e = Config msg) ∧ trace h' = trace h.
Proof.
  unfold generate_self_signed_config, on_system, write_log. munfold.
  destruct (generate_simple_self_signed _ (system h)) as [[[cert key]|e1|] w1]; cbn; [|by intros [= <- <-]; eauto|done].
  destruct (finish_config _ _) as [c|e2|] eqn:Ef; [done| |done]. intros [= <- <-]. split; [by eapply finish_config_Err|done].
Qed.

(** Where the certificate comes from, and what is logged about it. *)
Definition certified (cert key : option string) (certs : list CertDer) (k : KeyDer) (h : Host W) (w' : W)
    (logged : list (LogLevel * string)) : Prop :=
  match cert, key with
  | Some cert, Some key => from_files cert key certs k (system h) w' ∧ logged = []
  | _, _ => ∃ c der, certs = [c] ∧ k = pkcs8_key der
              ∧ generate_simple_self_signed ["localhost"] (system h) = (Ok (c, der), w') ∧ logged = [self_signed_warning]
  end.

Lemma config_step cert key h config h' :
  choose_config cert key h = (Ok config, h') →
  ∃ certs k logged, certified cert key certs k h (system h') logged ∧ lockframe_config certs k config
    ∧ trace h' = trace h ++ logged.
Proof.
  destruct cert as [cert|], key as [key|].
  1: { intros (certs & k & Hf & Hc & Ht)%load_tls_config_Ok. exists certs, k, []. by rewrite app_nil_r. }
  all: intros (c & der & Hs & Hc & Ht)%self_signed_Ok; exists [c], (pkcs8_key der), [self_signed_warning]; split_and!; [|done..];
    exists c, der; by split_and!.
Qed.
Lemma config_step_Err cert key h e h' :
  choose_config cert key h = (Err e, h') →
  (∃ msg, e = Config msg) ∧ trace h' = trace h.
Proof. destruct cert, key; first [apply load_tls_config_Err|apply self_signed_Err]. Qed.

(** C19: what an endpoint is bound with.  Whenever [bind] succeeds, the endpoint was
    created at the parsed address with a TLS configuration that offers exactly the
    protocol lockframe and asks the peer for no certificate; its certificate is the
    one in the two files if both paths were given, and otherwise a self-signed one
    for localhost, in which case (and only then) a warning is logged. *)
Theorem bind_configuration address cert key h t h' :
  bind address cert key h = (Ok t, h') →
  ∃ addr certs k config w1 logged,
    addr_parse address = Ok addr ∧ certified cert key certs k h w1 logged ∧ lockframe_config certs k config
    ∧ endpoint_server config addr w1 = (Ok (endpoint t), system h')
    ∧ trace h' = trace h ++ logged ++ [(Info, "QUIC transport bound to " +:+ addr_to_string addr)].
Proof.
  unfold bind. munfold. destruct (addr_parse address) as [addr| |] eqn:Ea; cbn; [|done..].
  destruct (choose_config cert key h) as [[config| |] h1] eqn:Ec; [|done..].
  destruct (config_step _ _ _ _ _ Ec) as (certs & k & logged & Hc & Hl & Ht). unfold on_system, write_log. munfold.
  destruct (endpoint_server config addr (system h1)) as [[ep| |] w2] eqn:Ee; cbn; [|done..]. intros [= <- <-]. cbn.
  exists addr, certs, k, config, (system h1), logged. split_and!; try done. by rewrite Ht, <-app_assoc.
Qed.

(** An error of [bind] says which stage failed.  An address that does not parse
    is a configuration error and nothing has been touched; a file, certificate or
    TLS problem is a configuration error; only a failure to create the endpoint is a
    transport error.  Nothing is logged as bound. *)
Theorem bind_errors address cert key h e h' :
  bind address cert key h = (Err e, h') →
  (∃ why, addr_parse address = Err why ∧ e = Config ("invalid bind address '" +:+ address +:+ "': " +:+ why) ∧ h' = h)
  ∨ (∃ addr msg, addr_parse address = Ok addr ∧ e = Config msg ∧ trace h' = trace h)
  ∨ ∃ addr certs k config w1 logged why,
      addr_parse address = Ok addr ∧ certified cert key certs k h w1 logged ∧ lockframe_config certs k config
      ∧ endpoint_server config addr w1 = (Err why, system h')
      ∧ e = Transport ("failed to create endpoint: " +:+ why) ∧ trace h' = trace h ++ logged.
Proof.
  unfold bind. munfold. destruct (addr_parse address) as [addr|why|] eqn:Ea; cbn; [|by intros [= <- <-]; left; eauto|done].
  destruct (choose_config cert key h) as [[config|e1|] h1] eqn:Ec; [| |done].
  - destruct (config_step _ _ _ _ _ Ec) as (certs & k & logged & Hc & Hl & Ht). unfold on_system, write_log. munfold.
    destruct (endpoint_server config addr (system h1)) as [[ep|why|] w2] eqn:Ee; cbn; [done| |done].
    intros [= <- <-]. right; right. exists addr, certs, k, config, (system h1), logged, why. by split_and!.
  - intros [= <- <-]. destruct (config_step_Err _ _ _ _ _ Ec) as [[msg ->] Ht]. right; left. eauto.
Qed.
End bind.
End BindTheory.

(** *** The accept loop *)
Module RunTheory.
Import QuinnTransport Startup.
Section run.
Context `{PayloadCodec} `{Ed25519} {W : Type} `{SystemEnv.OperatingSystem W} `{OpenMls (Host W)} `{Quinn W}.

(** Waiting for a connection ends with a connection or an error. *)
Class AcceptTotal : Prop := await_total : ∀ i w, fst (incoming_await i w) ≠ Panic.
Context `{!AcceptTotal}.

Lemma accept_no_panic t h : fst (accept t h) ≠ Panic.
Proof.
  unfold accept, on_system. munfold. destruct (endpoint_accept (endpoint t) (system h)) as [[i|] w]; cbn; [|done].
  pose proof (await_total i w) as Hn. by destruct (incoming_await i w) as [[c|e|] w'].
Qed.

(** What the calls of [accept] return from a state on, over [n] rounds. *)
Fixpoint outcomes (n : nat) (t : QuinnTransport) (h : Host W) : list (outcome RuntimeError QuinnConnection) :=
  match n with
  | O => []
  | Datatypes.S n => fst (accept t h) :: outcomes n t (snd (accept_round t [] h))
  end.
Definition accepted (rs : list (outcome RuntimeError QuinnConnection)) : list QuinnConnection :=
  omap (λ r, match r with Ok c => Some c | _ => None end) rs.
Definition refused (rs : list (outcome RuntimeError QuinnConnection)) : list (LogLevel * string) :=
  omap (λ r, match r with Err e => Some (ErrorLevel, "Accept error: " +:+ runtime_error_to_string e) | _ => None end) rs.

Lemma accept_trace t h : trace (snd (accept t h)) = trace h.
Proof.
  unfold accept, on_system. munfold. destruct (endpoint_accept (endpoint t) (system h)) as [[i|] w]; cbn; [|done].
  by destruct (incoming_await i w) as [[c|e|] w'].
Qed.

Lemma accept_round_spec t cs h :
  ∃ h', accept_round t cs h = (Ok (cs ++ accepted [fst (accept t h)]), h')
    ∧ h' = snd (accept_round t [] h) ∧ trace h' = trace h ++ refused [fst (accept t h)].
Proof.
  unfold accept_round, write_log. munfold. pose proof (accept_no_panic t h) as Hn. pose proof (accept_trace t h) as Ht.
  destruct (accept t h) as [[c|e|] h1]; cbn in *; [| |done].
  - eexists. split_and!; [done|done|by rewrite app_nil_r].
  - eexists. rewrite app_nil_r. split_and!; [done|done|cbn; by rewrite Ht].
Qed.

Lemma accept_rounds_spec n t cs h :
  ∃ h', accept_rounds n t cs h = (Ok (cs ++ accepted (outcomes n t h)), h')
    ∧ trace h' = trace h ++ refused (outcomes n t h).
Proof.
  revert cs h. induction n as [|n IH]; intros cs h; cbn [accept_rounds outcomes].
  { exists h. by rewrite !app_nil_r. }
  destruct (accept_round_spec t cs h) as (h1 & Hr & E1 & Ht). munfold. rewrite Hr. rewrite <-E1.
  destruct (IH (cs ++ accepted [fst (accept t h)]) h1) as (h2 & Hrs & Ht2). exists h2. rewrite Hrs, Ht2, Ht.
  change (fst (accept t h) :: outcomes n t h1) with ([fst (accept t h)] ++ outcomes n t h1).
  unfold accepted, refused. rewrite !omap_app, !app_assoc. done.
Qed.

(** The server never stops by itself.  Once its address is known, [run] is still
    running after any number of rounds: every connection that was accepted has been
    given a task, and an error, a closed endpoint included, only adds a line to the
    log. *)
Theorem run_never_returns n s addr h :
  local_addr s = Ok addr →
  ∃ h' h1, run n s h = (Ok None, h')
    ∧ h1 = snd (write_log (E := RuntimeError) Info ("Server starting on " +:+ addr_to_string addr) h)
    ∧ accept_rounds n (transport s) [] h1 = (Ok (accepted (outcomes n (transport s) h1)), h')
    ∧ trace h' = trace h1 ++ refused (outcomes n (transport s) h1).
Proof.
  intros Ha. unfold run. munfold. rewrite Ha. cbn [write_log m_modify]. set (h1 := {| system := _; trace := _ |}).
  destruct (accept_rounds_spec n (transport s) [] h1) as (h2 & E & Ht). rewrite E. by exists h2, h1.
Qed.

(** With its endpoint closed the loop spins, logging the same error each time. *)
Lemma closed_endpoint_spins n t h :
  (∀ w, fst (endpoint_accept (endpoint t) w) = None) →
  outcomes n t h = replicate n (Err (Transport "endpoint closed")).
Proof.
  intros Hc. revert h. induction n as [|n IH]; intros h; [done|]. cbn. rewrite IH. f_equal.
  unfold accept, on_system. munfold. specialize (Hc (system h)).
  by destruct (endpoint_accept (endpoint t) (system h)) as [o w]; cbn in *; subst.
Qed.
End run.
End RunTheory.

(** *** The simulated transport *)
Module SimTransportTheory.
Import SimTransport.
Section sim.
Context {W : Type} `{Turmoil W}.

(** Through the transport interface a simulated connection never gives a stream,
    neither opened nor accepted, and closing it does nothing; an endpoint made by
    [client] accepts nothing.  The byte stream is reached by splitting the
    connection, whose halves are those of the socket. *)
Theorem sim_connection_has_no_streams (c : SimConnection) (w : W) :
  (∃ e, open_bi c w = (Err e, w) ∧ kind e = Unsupported) ∧ (∃ e, accept_bi c w = (Err e, w) ∧ kind e = Unsupported)
  ∧ (∀ code reason, close c code reason w = w)
  ∧ (∃ e, accept client w = (Err e, w) ∧ kind e = Unsupported)
  ∧ (let '(send, recv) := into_split c in io_split (stream c) = (recv, send)).
Proof.
  split_and!; [by eexists|by eexists|done|by eexists|]. unfold into_split. by destruct (io_split (stream c)).
Qed.

(** A bound endpoint accepts and connects as the simulator does. *)
Lemma sim_accept_bound address w t w1 :
  bind address w = (Ok t, w1) →
  ∃ l, tcp_bind address w = (Ok l, w1)
    ∧ ∀ w, accept t w = (match fst (tcp_accept l w) with Ok p => Ok {| stream := fst p |} | Err e => Err e | Panic => Panic end,
                         snd (tcp_accept l w)).
Proof.
  unfold bind. munfold. destruct (tcp_bind address w) as [[l| |] w2]; [|done..]. intros [= <- <-]. exists l. split; [done|].
  intros w'. cbn. unfold sim_accept. cbn. munfold. by destruct (tcp_accept l w') as [[[]| |] w3].
Qed.
End sim.
End SimTransportTheory.

(** ** Witnesses *)
Module ToyNetwork.
(** Two files, one address, and an endpoint that is closed from the start. *)
Definition ops : Quinn Z := {|
  SocketAddr := string; CertDer := bytes; KeyDer := bytes; Tls := list bytes * bytes; QuicServerConfig := list bytes;
  QServerConfig := list bytes; Endpoint := list bytes; Incoming := unit; QConnection := unit; SendStream := unit; RecvStream := unit;
  addr_parse a := if decide (a = "invalid:address:format") then Err "invalid socket address syntax" else Ok a;
  addr_to_string a := a;
  fs_read path w := (if decide (path = "missing.pem") then Err "No such file or directory" else Ok (bytes_of_string path), w + 1);
  pem_certs bs := [Ok bs];
  pem_private_key bs := Ok (Some bs);
  with_single_cert certs key := Ok (certs, key);
  quic_try_from c := Ok (alpn_protocols c);
  with_crypto c := c;
  generate_simple_self_signed names w := (Ok ([Byte.x01], [Byte.x02]), w + 1);
  pkcs8_key bs := bs;
  endpoint_server c a w := (Ok c, w + 1);
  endpoint_accept e w := (None, w + 1);
  incoming_await i w := (Ok i, w);
  endpoint_local_addr e := Ok "127.0.0.1:4433";
  connection_accept_bi c w := (Err "closed", w);
  connection_open_uni c w := (Ok tt, w);
  connection_remote_address c := "127.0.0.1:5000";
  connection_close c code reason w := w;
|}.
Definition os : SystemEnv.OperatingSystem Z := {|
  SystemEnv.instant_now w := (w, w + 1);
  SystemEnv.getrandom_fill n w := (inr (to_be_bytes n w), w) |}.
End ToyNetwork.

Section witnesses.
#[local] Existing Instances ToyNetwork.ops ToyNetwork.os ToyMls.ops ToyMls.ed ToyCodec.codec.
Definition demo_host : Host Z := {| system := 0; trace := [] |}.

Definition demo_bind := QuinnTransport.bind "127.0.0.1:0" (Some "cert.pem") None demo_host.
Lemma bind_configuration_witness :
  ∃ t h', demo_bind = (Ok t, h')
    ∧ trace h' = [BindTheory.self_signed_warning; (Info, "QUIC transport bound to 127.0.0.1:0")].
Proof.
  run_ok demo_bind as t h' E. exists t, h'. split; [done|].
  destruct (BindTheory.bind_configuration "127.0.0.1:0" (Some "cert.pem") None demo_host t h' E)
    as (addr & certs & k & config & w1 & logged & [= <-] & (c & der & _ & _ & _ & ->) & _ & _ & Ht). exact Ht.
Defined.

Definition demo_unbound := QuinnTransport.bind "127.0.0.1:0" (Some "cert.pem") (Some "missing.pem") demo_host.
Lemma bind_errors_witness : ∃ e h', demo_unbound = (Err e, h') ∧ trace h' = [].
Proof.
  destruct demo_unbound as [[t|e|] h'] eqn:E; [by vm_compute in E| |by vm_compute in E].
  exists e, h'. split; [done|]. unfold demo_unbound in E.
  destruct (BindTheory.bind_errors "127.0.0.1:0" (Some "cert.pem") (Some "missing.pem") demo_host e h' E)
    as [(why & [=] & _)|[(addr & msg & _ & _ & Ht)|(addr & certs & k & config & w1 & logged & why & _ & [_ ->] & _ & _ & _ & Ht)]];
    exact Ht.
Defined.

Definition demo_handle : Startup.ServerHandle :=
  {| Startup.handle_driver := ServerDriver.new demo_host MemoryStorage.new default_server_config;
     Startup.transport := {| QuinnTransport.endpoint := [QuinnTransport.ALPN] |} |}.
#[local] Instance demo_accept_total : RunTheory.AcceptTotal.
Proof. intros i w. discriminate. Qed.
Lemma run_never_returns_witness :
  ∃ h', Startup.run 3 demo_handle demo_host = (Ok None, h') ∧ length (trace h') = 4%nat.
Proof.
  destruct (RunTheory.run_never_returns 3 demo_handle "127.0.0.1:4433" demo_host eq_refl) as (h' & h1 & Hr & -> & _ & Ht).
  exists h'. split; [exact Hr|]. rewrite Ht. vm_compute. reflexivity.
Defined.
End witnesses.
