(* ===== verification/TestsProto.v ===== *)
(** * The unit tests of the wire format and of the session layer

    The test modules of [lockframe-proto] and of the session layer of
    [lockframe-core], translated with every assertion and run on the model.  A
    failed assertion, an [unwrap] of an error and a [panic!] are the panic of the
    test.  Property-based tests become theorems over all inputs. *)

From Stdlib Require Import ZArith Lia.
From S2P Require Import Prelude Opcodes Header Frame Payload Connection.

(** ** Tests *)
Module Test.
(** A test works on the variables it declares [mut]. *)
Abbreviation Test S := (M S Empty_set).

Definition assert {S} (b : bool) : Test S unit := if b then mret tt else m_lift Panic.
Definition assert_eq {S A} `{EqDecision A} (x y : A) : Test S unit := assert (bool_decide (x = y)).
Definition assert_ne {S A} `{EqDecision A} (x y : A) : Test S unit := assert (negb (bool_decide (x = y))).
Definition panic {S A} : Test S A := m_lift Panic.
(** [.unwrap()] and [.expect(..)]. *)
Definition unwrap {S E A} (m : M S E A) : Test S A := λ s,
  let '(r, s) := m s in (match r with Ok a => Ok a | _ => Panic end, s).
Definition expect {S E A} (r : outcome E A) : Test S A := unwrap (m_lift r).
(** A method that changes the variable and cannot fail, and the value of an
    expression over the variables. *)
Definition on {S A} (f : S → A * S) : Test S A := λ s, let '(a, s) := f s in (Ok a, s).
Definition look {S A} (f : S → A) : Test S A := s ← m_get; mret (f s).
(** A variable declared in the course of a test. *)
Definition scoped {S S' A} (s : S) (t : Test S A) : Test S' A := λ u, (fst (t s), u).

Definition passes {S} (s : S) (t : Test S unit) : bool :=
  match fst (t s) with Ok _ => true | _ => false end.
Definition all_pass {S} (s : S) (ts : list (Test S unit)) : Prop := forallb (passes s) ts = true.

(** [reason.contains(part)]. *)
Fixpoint starts_with (part s : string) : bool :=
  match part, s with
  | EmptyString, _ => true
  | String a part, String b s => if decide (a = b) then starts_with part s else false
  | String _ _, EmptyString => false
  end.
Fixpoint contains (part s : string) : bool :=
  starts_with part s || match s with EmptyString => false | String _ s => contains part s end.
End Test.

(** ** [opcodes.rs], [flags.rs] *)
Module opcodes_tests.
Import Test.
Definition opcode_round_trip : Test unit unit :=
  m_iter (λ opcode, assert (bool_decide (Some opcode = Opcode.from_u16 (Opcode.to_u16 opcode))))
    [Opcode.Hello; Opcode.Commit; Opcode.AppMessage; Opcode.Redact; Opcode.FedAppend; Opcode.CASPut].
Definition invalid_opcode : Test unit unit :=
  assert (bool_decide (Opcode.from_u16 0x9999 = None));;
  assert (bool_decide (Opcode.from_u16 0x0000 = None)).
End opcodes_tests.

Module flags_tests.
Import Test FrameFlags.
(** The operations that the [bitflags] macro generates. *)
Definition union (f g : FrameFlags) : FrameFlags := {| bits := byte_of_Z (Z.lor (byte_to_Z (bits f)) (byte_to_Z (bits g))) |}.
Definition has (f g : FrameFlags) : bool := Z.land (byte_to_Z (bits f)) (byte_to_Z (bits g)) =? byte_to_Z (bits g).
Definition all : FrameFlags :=
  foldr union default [COMPRESSED; FRAGMENTED; PRIORITY; FEDERATED; EXTERNAL; EPHEMERAL; REDACTABLE; RESERVED].

Definition flags_basic : Test unit unit :=
  let flags := union COMPRESSED PRIORITY in
  assert (has flags COMPRESSED);; assert (has flags PRIORITY);; assert (negb (has flags FEDERATED)).
Definition flags_round_trip : Test unit unit :=
  let flags := union EXTERNAL REDACTABLE in
  assert (bool_decide (bits (from_byte (to_byte flags)) = bits flags)).
Definition flags_empty : Test unit unit := assert (bool_decide (byte_to_Z (to_byte default) = 0)).
Definition flags_all : Test unit unit := assert (bool_decide (byte_to_Z (to_byte all) = 0xFF)).
End flags_tests.

(** ** [header.rs], [frame.rs] *)
Module header_tests.
Import Test FrameHeader.
(** [buf[i..].copy_from_slice(..)] on a buffer of zeros. *)
Definition zeros (n : nat) : bytes := replicate n Byte.x00.

Definition header_size : Test unit unit :=
  assert (bool_decide (zlen (to_bytes (new Opcode.Ping)) = SIZE));; assert (bool_decide (SIZE = 128)).
Definition reject_short_buffer : Test unit unit :=
  assert (bool_decide (from_bytes (zeros 100) = Err (FrameTooShort 128 100))).
Definition reject_invalid_magic : Test unit unit :=
  let buf := copy_at 4 [byte_of_Z VERSION] (copy_at 0 (replicate 4 (byte_of_Z 0xFF)) (zeros 128)) in
  assert (bool_decide (from_bytes buf = Err InvalidMagic)).
Definition reject_invalid_version : Test unit unit :=
  let buf := copy_at 4 [byte_of_Z 0xFF] (copy_at 0 (to_be_bytes 4 MAGIC) (zeros 128)) in
  assert (bool_decide (from_bytes buf = Err (UnsupportedVersion 0xFF))).
Definition reject_oversized_payload : Test unit unit :=
  let buf := copy_at 4 [byte_of_Z VERSION] (copy_at 0 (to_be_bytes 4 MAGIC) (zeros 128)) in
  let buf := copy_at 12 (to_be_bytes 4 (MAX_PAYLOAD_SIZE + 1)) buf in
  assert (match from_bytes buf with Err (PayloadTooLarge _ _) => true | _ => false end).

(** The header that the strategy for [FrameHeader] makes of its draws. *)
Definition arbitrary (opcode : bytes) (flags : byte) (request_id room_id sender_id context_id hlc_timestamp epoch : bytes)
    (payload_size : Z) (signature : bytes) : FrameHeader :=
  {| h_magic := to_be_bytes 4 MAGIC; h_version := byte_of_Z VERSION; h_flags := flags; h_opcode := opcode;
     h_request_id := request_id; h_payload_size := to_be_bytes 4 payload_size; h_room_id := room_id;
     h_sender_id := sender_id; h_context_id := context_id; h_hlc_timestamp := hlc_timestamp; h_epoch := epoch;
     h_signature := signature |}.
(** The bodies of the two properties. *)
Definition header_round_trip (header : FrameHeader) : Test unit unit :=
  parsed ← expect (from_bytes (to_bytes header)); assert (eqb header parsed).
Definition header_accessors (header : FrameHeader) : Test unit unit :=
  assert (magic header =? MAGIC);; assert (version header =? VERSION);; assert (payload_size header <=? MAX_PAYLOAD_SIZE).
End header_tests.

Module frame_tests.
Import Test header_tests.
(** The header of zeros with magic and version. *)
Definition plain_header : Test unit FrameHeader :=
  expect (FrameHeader.from_bytes (FrameHeader.copy_at 4 [byte_of_Z FrameHeader.VERSION]
    (FrameHeader.copy_at 0 (to_be_bytes 4 FrameHeader.MAGIC) (zeros 128)))).

Definition frame_with_payload : Test unit unit :=
  header ← plain_header;
  let header := FrameHeader.set_opcode (Opcode.to_u16 Opcode.Ping) header in
  let payload_bytes := map byte_of_Z [1; 2; 3; 4] in
  let frame := Frame.new header payload_bytes in
  assert (FrameHeader.payload_size (Frame.header frame) =? as_u32 (zlen payload_bytes));;
  let '(r, wire) := Frame.encode frame [] in
  expect r;;
  parsed ← expect (Frame.decode wire);
  assert (bool_decide (Frame.payload frame = Frame.payload parsed)).
Definition reject_truncated_frame : Test unit unit :=
  header ← plain_header;
  let header := FrameHeader.set_payload_size 100 header in
  assert (match Frame.decode (FrameHeader.to_bytes header) with Err (FrameTruncated _ _) => true | _ => false end).
(** The body of the property. *)
Definition frame_round_trip (frame : Frame) : Test unit unit :=
  let '(r, wire) := Frame.encode frame [] in
  expect r;;
  parsed ← expect (Frame.decode wire);
  assert (bool_decide (Frame.payload frame = Frame.payload parsed)).
End frame_tests.

(** ** [payloads/] *)
Module payload_tests.
Import Test frame_tests.
Section codec.
Context `{PayloadCodec}.
Definition round_trip (payload : Payload) : Test unit Payload :=
  header ← plain_header;
  frame ← expect (Payload.into_frame payload header);
  expect (Payload.from_frame frame).
Definition payload_ping_round_trip : Test unit unit :=
  decoded ← round_trip Payload.Ping;
  assert (match decoded with Payload.Ping => true | _ => false end).
Definition payload_error_round_trip : Test unit unit :=
  let payload := {| ErrorPayload.code := 0x00FF; ErrorPayload.message := "Test error"; ErrorPayload.retry_after := Some 30 |} in
  decoded ← round_trip (Payload.Error payload);
  assert (match decoded with Payload.Error p => bool_decide (payload = p) | _ => false end).

Definition hello_serde : Test unit unit :=
  assert (is_ok (cbor_ser {| session.hello_version := 1; session.hello_capabilities := ["mls"]; session.hello_auth_token := None |})).
Definition sync_request_serde : Test unit unit :=
  let request := {| session.sync_from_log_index := 42; session.sync_limit := 50 |} in
  bytes ← expect (cbor_ser request);
  decoded ← expect (cbor_de bytes);
  assert (bool_decide (request = decoded)).
Definition sync_request_default_limit : Test unit unit :=
  bytes ← expect (cbor_ser {| session.sync_from_log_index := 10; session.sync_limit := session.default_limit |});
  decoded ← expect (cbor_de (A := session.SyncRequest) bytes);
  assert (session.sync_limit decoded =? 100).
Definition sync_response_serde : Test unit unit :=
  let response := {| session.sync_frames := [map byte_of_Z [1; 2; 3]; map byte_of_Z [4; 5; 6]]; session.sync_has_more := true;
                     session.sync_server_epoch := 5 |} in
  bytes ← expect (cbor_ser response);
  decoded ← expect (cbor_de bytes);
  assert (bool_decide (response = decoded)).
Definition encrypted_message_serde : Test unit unit :=
  assert (is_ok (cbor_ser {| app.msg_epoch := 1; app.msg_sender_index := 42; app.msg_generation := 0;
    app.msg_nonce := replicate 24 Byte.x00; app.msg_ciphertext := map byte_of_Z [1; 2; 3; 4]; app.msg_push_keys := None |})).
Definition encrypted_message_round_trip : Test unit unit :=
  let original := {| app.msg_epoch := 42; app.msg_sender_index := 7; app.msg_generation := 100;
    app.msg_nonce := replicate 24 (byte_of_Z 0xAB); app.msg_ciphertext := map byte_of_Z [1; 2; 3; 4; 5; 6; 7; 8];
    app.msg_push_keys := None |} in
  encoded ← expect (cbor_ser original);
  decoded ← expect (cbor_de encoded);
  assert (bool_decide (original = decoded)).
Definition receipt_serde : Test unit unit :=
  assert (is_ok (cbor_ser {| app.receipt_message_log_index := 42; app.receipt_kind := app.Read;
                             app.receipt_timestamp := 1234567890 |})).
Definition commit_data_serde : Test unit unit :=
  assert (is_ok (cbor_ser {| mls.commit_bytes := map byte_of_Z [1; 2; 3]; mls.new_epoch := 42;
                             mls.tree_hash := replicate 32 Byte.x00; mls.is_external := false |})).
Definition redact_serde : Test unit unit :=
  assert (is_ok (cbor_ser {| moderation.redact_message_log_index := 100; moderation.redact_reason := "Spam";
                             moderation.redact_moderator_id := 1 |})).
Definition ban_serde : Test unit unit :=
  assert (is_ok (cbor_ser {| moderation.ban_user_id := 42; moderation.ban_reason := "Violation";
                             moderation.ban_duration_secs := Some 86400; moderation.ban_moderator_id := 1 |})).
Definition all : list (Test unit unit) :=
  [payload_ping_round_trip; payload_error_round_trip; hello_serde; sync_request_serde; sync_request_default_limit;
   sync_response_serde; encrypted_message_serde; encrypted_message_round_trip; receipt_serde; commit_data_serde;
   redact_serde; ban_serde].
End codec.
End payload_tests.

(** ** [error.rs] and [connection.rs] of [lockframe-core] *)
Module error_tests.
Import Test ConnectionError.
Definition timeout_errors_are_transient : Test unit unit :=
  assert (is_transient (HandshakeTimeout (from_secs 31)));; assert (is_transient (IdleTimeout (from_secs 61))).
Definition protocol_violations_are_fatal : Test unit unit :=
  assert (negb (is_transient (InvalidState ConnectionState.Init "send_ping")));;
  assert (negb (is_transient (UnexpectedFrame ConnectionState.Init 0x03)));;
  assert (negb (is_transient (UnsupportedVersion 99)));;
  assert (negb (is_transient (InvalidPayload "Hello" 0x01)));;
  assert (negb (is_transient (Protocol "test error")));;
  assert (negb (is_transient (Transport "network error"))).
End error_tests.

Module connection_tests.
Import Test Connection ConnectionState.
(** [TestEnv]: the state is the time that the clock shows; random bytes count up. *)
Definition test_env : Environment Z := {|
  Environment.now t := (t, t);
  Environment.random_bytes n t := (map byte_of_Z (seqZ 0 (Z.of_nat n)), t) |}.

Section tests.
Context `{PayloadCodec} (t0 : Z).
Abbreviation T := (Test Connection).
(** [Connection::new(t0, ConnectionConfig::default())], the variable [conn] of each test. *)
Definition fresh : Connection := new t0 default_config.

Definition is_send (a : ConnectionAction) : bool := match a with SendFrame _ => true | _ => false end.
Definition is_close (a : ConnectionAction) : bool := match a with Close _ => true | _ => false end.
(** [actions[i]]. *)
Definition at_index {A} (l : list A) (i : nat) : T A := match l !! i with Some a => mret a | None => panic end.
Definition assert_state (st : ConnectionState) : T unit := s ← look state; assert (bool_decide (s = st)).

Definition reply_of (sid : Z) : Payload :=
  Payload.HelloReply {| session.reply_session_id := sid; session.reply_capabilities := []; session.reply_challenge := None |}.
Definition hello_of (version : Z) : session.Hello :=
  {| session.hello_version := version; session.hello_capabilities := []; session.hello_auth_token := None |}.
(** Receives a HelloReply with session id 12345. *)
Definition receive_reply : T (list ConnectionAction) :=
  reply_frame ← expect (Payload.into_frame (reply_of 12345) (FrameHeader.new Opcode.HelloReply));
  unwrap (handle_frame reply_frame t0).
(** Moves to authenticated. *)
Definition authenticate : T unit := unwrap (send_hello t0);; receive_reply;; mret tt.

Definition connection_lifecycle : T unit :=
  assert_state Init;;
  sid ← look session_id; assert (bool_decide (sid = None));;
  actions ← unwrap (send_hello t0);
  assert_state Pending;;
  assert (bool_decide (length actions = 1%nat));;
  a ← at_index actions 0; assert (is_send a);;
  actions ← receive_reply;
  assert_state Authenticated;;
  sid ← look session_id; assert (bool_decide (sid = Some 12345));;
  assert (bool_decide (length actions = 0%nat));;
  m_modify close;;
  assert_state Closed.

Definition handle_ping_responds_with_pong : T unit :=
  authenticate;;
  actions ← unwrap (handle_frame (Frame.new (FrameHeader.new Opcode.Ping) []) t0);
  assert (bool_decide (length actions = 1%nat));;
  a ← at_index actions 0;
  match a with
  | SendFrame frame =>
      assert (bool_decide (FrameHeader.opcode_enum (Frame.header frame) = Some Opcode.Pong));;
      assert (bool_decide (length (Frame.payload frame) = 0%nat))
  | _ => panic
  end.

Definition handle_pong_updates_activity : T unit :=
  authenticate;;
  let t1 := t0 + from_secs 30 in
  actions ← unwrap (handle_frame (Frame.new (FrameHeader.new Opcode.Pong) []) t1);
  assert (bool_decide (length actions = 0%nat));;
  let t2 := t1 + from_secs 40 in
  timeout ← look (check_timeout t2); assert (bool_decide (timeout = None)).

Definition handle_ping_before_authenticated : T unit :=
  result ← m_try (handle_frame (Frame.new (FrameHeader.new Opcode.Ping) []) t0);
  assert (match result with Err (ConnectionError.UnexpectedFrame _ _) => true | _ => false end).

(** A Hello frame from the client. *)
Definition hello_frame (version : Z) : T Frame :=
  expect (Payload.into_frame (Payload.Hello (hello_of version)) (FrameHeader.new Opcode.Hello)).
(** The action is a frame with a HelloReply whose session id satisfies [P]. *)
Definition check_reply (a : ConnectionAction) (P : Z → bool) : T unit :=
  match a with
  | SendFrame frame =>
      assert (bool_decide (FrameHeader.opcode_enum (Frame.header frame) = Some Opcode.HelloReply));;
      payload ← expect (Payload.from_frame frame);
      match payload with
      | Payload.HelloReply reply => assert (P (session.reply_session_id reply))
      | _ => panic
      end
  | _ => panic
  end.

Definition server_handle_hello : T unit :=
  m_modify (set_session_id 0x123456789ABCDEF0);;
  frame ← hello_frame 1;
  actions ← unwrap (handle_frame frame t0);
  assert (bool_decide (length actions = 1%nat));;
  assert_state Authenticated;;
  sid ← look session_id; assert (bool_decide (sid = Some 0x123456789ABCDEF0));;
  a ← at_index actions 0;
  check_reply a (λ sid, sid =? 0x123456789ABCDEF0).

Definition server_hello_without_session_id : T unit :=
  frame ← hello_frame 1;
  result ← m_try (handle_frame frame t0);
  assert (match result with Err (ConnectionError.Protocol _) => true | _ => false end).

Definition server_hello_unsupported_version : T unit :=
  m_modify (set_session_id 12345);;
  frame ← hello_frame 99;
  result ← m_try (handle_frame frame t0);
  assert (match result with Err (ConnectionError.UnsupportedVersion 99) => true | _ => false end).

(** [conn.handle_hello(&hello, &env, t0)]. *)
Definition call_handle_hello (version : Z) : M Connection ConnectionError (list ConnectionAction) := λ c,
  let '(r, (c, _)) := handle_hello (Environment0 := test_env) (hello_of version) t0 (c, t0) in (r, c).

Definition server_generates_session_id_from_environment : T unit :=
  actions ← unwrap (call_handle_hello 1);
  assert (bool_decide (length actions = 1%nat));;
  a ← at_index actions 0;
  check_reply a (λ sid, negb (sid =? 0));;
  sid ← look session_id; assert (match sid with Some _ => true | None => false end).

Definition handle_hello_rejects_unsupported_version : T unit :=
  result ← m_try (call_handle_hello 99);
  assert (match result with Err (ConnectionError.UnsupportedVersion 99) => true | _ => false end).

Definition handle_hello_rejects_if_not_init_state : T unit :=
  authenticate;;
  assert_state Authenticated;;
  result ← m_try (call_handle_hello 1);
  assert (match result with Err (ConnectionError.InvalidState _ _) => true | _ => false end).

(** A Goodbye frame with a reason. *)
Definition goodbye_frame (reason : string) : T Frame :=
  expect (Payload.into_frame (Payload.Goodbye {| session.goodbye_reason := reason |}) (FrameHeader.new Opcode.Goodbye)).

Definition handle_goodbye_authenticated : T unit :=
  authenticate;;
  frame ← goodbye_frame "client shutdown";
  actions ← unwrap (handle_frame frame t0);
  assert_state Closed;;
  assert (bool_decide (length actions = 2%nat));;
  a ← at_index actions 0; assert (is_send a);;
  a ← at_index actions 1; assert (is_close a).

Definition handle_goodbye_pending : T unit :=
  unwrap (send_hello t0);;
  frame ← goodbye_frame "timeout";
  actions ← unwrap (handle_frame frame t0);
  assert_state Closed;;
  assert (bool_decide (length actions = 2%nat)).

Definition handle_error_frame : T unit :=
  authenticate;;
  actions ← unwrap (handle_frame (Frame.new (FrameHeader.new Opcode.Error) []) t0);
  assert_state Closed;;
  assert (bool_decide (length actions = 1%nat));;
  a ← at_index actions 0; assert (is_close a).
End tests.
End connection_tests.

(** ** They pass *)
Module ProtoTheory.
Import Test.

(** The tests without parameters. *)
Theorem wire_tests_pass :
  all_pass tt [opcodes_tests.opcode_round_trip; opcodes_tests.invalid_opcode;
    flags_tests.flags_basic; flags_tests.flags_round_trip; flags_tests.flags_empty; flags_tests.flags_all;
    header_tests.header_size; header_tests.reject_short_buffer; header_tests.reject_invalid_magic;
    header_tests.reject_invalid_version; header_tests.reject_oversized_payload;
    frame_tests.frame_with_payload; frame_tests.reject_truncated_frame;
    error_tests.timeout_errors_are_transient; error_tests.protocol_violations_are_fatal].
Proof. vm_compute. reflexivity. Qed.

(** The properties, over everything that the strategies can draw. *)
Theorem header_properties_hold opcode flags request_id room_id sender_id context_id hlc_timestamp epoch payload_size signature :
  length opcode = 2%nat → length request_id = 4%nat → length room_id = 16%nat → length sender_id = 8%nat →
  length context_id = 8%nat → length hlc_timestamp = 8%nat → length epoch = 8%nat →
  0 ≤ payload_size ≤ FrameHeader.MAX_PAYLOAD_SIZE → length signature = 64%nat →
  let header := header_tests.arbitrary opcode flags request_id room_id sender_id context_id hlc_timestamp epoch payload_size signature in
  all_pass tt [header_tests.header_round_trip header; header_tests.header_accessors header].
Proof.
  intros Ho Hr Hm Hs Hc Hh He Hp Hg header.
  assert (FrameHeader.payload_size header = payload_size) as Hsize.
  { unfold FrameHeader.payload_size. cbn. apply from_to_be_bytes. unfold FrameHeader.MAX_PAYLOAD_SIZE in Hp. cbn. lia. }
  assert (FrameHeader.wf header) as Hwf by by split.
  assert (FrameHeader.valid header) as Hv by (split_and!; [vm_compute; reflexivity|vm_compute; reflexivity|rewrite Hsize; apply Hp]).
  pose proof (FrameHeader.from_bytes_to_bytes header [] Hwf Hv) as Hrt. rewrite app_nil_r in Hrt.
  unfold all_pass, passes. cbn [forallb]. apply andb_true_intro; split; [|apply andb_true_intro; split; [|done]].
  - unfold header_tests.header_round_trip, expect, unwrap, FrameHeader.eqb. munfold. rewrite Hrt. cbn. by rewrite bool_decide_true.
  - destruct Hv as (Hmg & Hve & _). unfold header_tests.header_accessors.
    rewrite Hmg, Hve, Hsize, !Z.eqb_refl, (proj2 (Z.leb_le payload_size _)) by apply Hp. done.
Qed.

Theorem frame_property_holds header payload :
  FrameHeader.wf header → FrameHeader.valid header → zlen payload ≤ FrameHeader.MAX_PAYLOAD_SIZE →
  passes tt (frame_tests.frame_round_trip (Frame.new header payload)) = true.
Proof.
  intros Hwf (Hm & Hv & _) Hp. assert (Frame.wf (Frame.new header payload)) as Hf by by apply Frame.frame_new_wf.
  unfold passes, frame_tests.frame_round_trip, expect, unwrap. munfold. rewrite Frame.encode_Ok by done. cbn [app].
  pose proof (Frame.decode_app _ [] Hf) as Hd. rewrite app_nil_r in Hd. rewrite Hd. by rewrite bool_decide_true.
Qed.

Section codec.
Context `{PayloadCodec} `{!PayloadCodecOk}.
Import Connection ConnectionState connection_tests.

(** A payload that the codec encodes, within the bound of a frame. *)
Definition fits (p : Payload) : Prop :=
  ∃ bs, Payload.encode_inner p = Ok bs ∧ zlen bs ≤ FrameHeader.MAX_PAYLOAD_SIZE.

(** Such a payload is carried by a frame. *)
Lemma carried p h : fits p →
  ∃ f, Payload.into_frame p h = Ok f ∧ FrameHeader.opcode_enum (Frame.header f) = Some (Payload.opcode p)
    ∧ Payload.from_frame f = Ok p.
Proof.
  intros (bs & E & Hb). assert (∃ f, Payload.into_frame p h = Ok f ∧ zlen (Frame.payload f) ≤ FrameHeader.MAX_PAYLOAD_SIZE)
    as (f & Hf & Hz) by (eexists; split; [apply Payload.into_frame_Ok; eauto|exact Hb]).
  exists f. split_and!; [done|by eapply Payload.into_frame_opcode|by eapply Payload.from_into_frame].
Qed.

(** The payloads of the tests. *)
Definition goodbye (reason : string) : Payload := Payload.Goodbye {| session.goodbye_reason := reason |}.
Definition drawn_id : Z := from_be_bytes (map byte_of_Z (seqZ 0 8)).
Definition test_payloads : list Payload :=
  [Connection.the_hello; Payload.Hello (hello_of 1); Payload.Hello (hello_of 99); reply_of 12345; reply_of 0x123456789ABCDEF0;
   reply_of drawn_id; goodbye "client shutdown"; goodbye "timeout"; goodbye "ack"].

Section passing.
Context (Hfits : Forall fits test_payloads) (t0 : Z).

Lemma test_carried p h : p ∈ test_payloads →
  ∃ f, Payload.into_frame p h = Ok f ∧ FrameHeader.opcode_enum (Frame.header f) = Some (Payload.opcode p)
    ∧ Payload.from_frame f = Ok p.
Proof. intros Hp. rewrite list.Forall_forall in Hfits. by apply carried, Hfits. Qed.

(** Running a test call by call. *)
Lemma step_ok {A} (m : Test Connection A) (k : A → Test Connection unit) s a s' :
  m s = (Ok a, s') → passes s' (k a) = true → passes s (m ≫= k) = true.
Proof. unfold passes. munfold. by intros ->. Qed.
Lemma last_ok (t : Test Connection unit) s s' : t s = (Ok tt, s') → passes s t = true.
Proof. unfold passes. by intros ->. Qed.
Lemma unwrap_ok {E A} (m : M Connection E A) s a s' : m s = (Ok a, s') → unwrap m s = (Ok a, s').
Proof. unfold unwrap. by intros ->. Qed.
Lemma try_ok {E A} (m : M Connection E A) s r s' : m s = (r, s') → r ≠ Panic → m_try (E' := Empty_set) m s = (Ok r, s').
Proof. unfold m_try. intros ->. by destruct r. Qed.

(** A connection that has sent its hello, and after [authenticate]. *)
Definition pending : Connection := with_last_activity t0 (with_state Pending (fresh t0)).
Definition authenticated : Connection :=
  with_session_id (Some 12345) (with_state Authenticated (with_last_activity t0 pending)).

Lemma send_hello_ok : ∃ f, unwrap (send_hello t0) (fresh t0) = (Ok [SendFrame f], pending).
Proof.
  destruct (test_carried Connection.the_hello (FrameHeader.new Opcode.Hello)) as (f & Hf & _); [set_solver|].
  exists f. by apply unwrap_ok, send_hello_init.
Qed.
Lemma receive_reply_ok : receive_reply t0 pending = (Ok [], authenticated).
Proof.
  destruct (test_carried (reply_of 12345) (FrameHeader.new Opcode.HelloReply)) as (f & Hf & Ho & Hp); [set_solver|].
  unfold receive_reply, expect. munfold. unfold unwrap at 1. rewrite Hf.
  apply unwrap_ok. exact (handle_frame_reply t0 pending _ f eq_refl Ho Hp).
Qed.
Lemma authenticate_ok : authenticate t0 (fresh t0) = (Ok tt, authenticated).
Proof. destruct send_hello_ok as [f Hs]. unfold authenticate. munfold. rewrite Hs. by rewrite receive_reply_ok. Qed.
Lemma expect_ok {E A} (r : outcome E A) a (s : Connection) : r = Ok a → expect r s = (Ok a, s).
Proof. by intros ->. Qed.

(** The goodbye of a peer, answered and closed. *)
Lemma goodbye_ok reason f c :
  goodbye reason ∈ test_payloads → state c = Pending ∨ state c = Authenticated →
  FrameHeader.opcode_enum (Frame.header f) = Some Opcode.Goodbye → Payload.from_frame f = Ok (goodbye reason) →
  ∃ ack, unwrap (handle_frame f t0) c
         = (Ok [SendFrame ack; Close ("peer goodbye: " +:+ reason)], with_state Closed (with_last_activity t0 c)).
Proof.
  intros _ Hst Ho Hp. destruct (test_carried (goodbye "ack") (FrameHeader.new Opcode.Goodbye)) as (ack & Ha & _); [set_solver|].
  exists ack. apply unwrap_ok. unfold handle_frame, from_frame_, into_frame_. munfold. rewrite Ho.
  assert (state (with_last_activity t0 c) = state c) as -> by done. unfold goodbye in *.
  destruct Hst as [-> | ->]; rewrite Hp; cbv iota; by rewrite Ha.
Qed.

Ltac call := eapply step_ok; [reflexivity|cbv beta].
Ltac calls := repeat call; try (eapply last_ok; reflexivity).

(** The tests that only use frames without payload. *)
Lemma plain_tests_pass :
  Forall (λ t, passes (fresh t0) t = true) [handle_ping_before_authenticated t0; handle_hello_rejects_unsupported_version t0].
Proof. repeat constructor. Qed.
Lemma after_authenticate (t : Test Connection unit) :
  passes authenticated t = true → passes (fresh t0) (authenticate t0;; t) = true.
Proof. intros Ht. eapply step_ok; [apply authenticate_ok|exact Ht]. Qed.
Lemma authenticated_tests_pass :
  Forall (λ t, passes (fresh t0) t = true)
    [handle_ping_responds_with_pong t0; handle_hello_rejects_if_not_init_state t0; handle_error_frame t0].
Proof. repeat constructor; apply after_authenticate; calls. Qed.
Lemma activity_passes : passes (fresh t0) (handle_pong_updates_activity t0) = true.
Proof.
  apply after_authenticate. cbv zeta. call. call.
  assert (check_timeout (t0 + from_secs 30 + from_secs 40) (with_last_activity (t0 + from_secs 30) authenticated) = None) as Ht.
  { unfold check_timeout, elapsed_since. cbn -[Z.add Z.sub Z.ltb]. rewrite (proj2 (Z.ltb_ge _ _)); [done|].
    unfold DEFAULT_IDLE_TIMEOUT, from_secs. lia. }
  eapply step_ok; [exact (f_equal (λ o, (Ok o, _)) Ht)|]. calls.
Qed.

Lemma lifecycle_passes : passes (fresh t0) (connection_lifecycle t0) = true.
Proof.
  destruct send_hello_ok as [f Hs]. unfold connection_lifecycle. do 3 call. eapply step_ok; [exact Hs|cbv beta].
  do 4 call. eapply step_ok; [apply receive_reply_ok|]. calls.
Qed.

(** A hello of either version, and what a server makes of it. *)
Lemma hello_frame_ok v : Payload.Hello (hello_of v) ∈ test_payloads →
  ∃ f, (∀ s, hello_frame v s = (Ok f, s)) ∧ FrameHeader.opcode_enum (Frame.header f) = Some Opcode.Hello
    ∧ Payload.from_frame f = Ok (Payload.Hello (hello_of v)).
Proof.
  intros Hv. destruct (test_carried _ (FrameHeader.new Opcode.Hello) Hv) as (f & Hf & Ho & Hp).
  exists f. split_and!; [|done|done]. intros s. by apply expect_ok.
Qed.
Lemma check_reply_ok sid f (P : Z → bool) s :
  FrameHeader.opcode_enum (Frame.header f) = Some Opcode.HelloReply → Payload.from_frame f = Ok (reply_of sid) → P sid = true →
  check_reply (SendFrame f) P s = (Ok tt, s).
Proof.
  intros Ho Hp HP. unfold check_reply. munfold. rewrite Ho. rewrite bool_decide_true by done. cbn [assert].
  unfold expect, unwrap. munfold. rewrite Hp. unfold reply_of. cbn [session.reply_session_id]. by rewrite HP.
Qed.

Lemma server_hello_passes : passes (fresh t0) (server_handle_hello t0) = true.
Proof.
  destruct (hello_frame_ok 1) as (f & Hf & Ho & Hp); [set_solver|].
  destruct (test_carried (reply_of 0x123456789ABCDEF0) (FrameHeader.new Opcode.HelloReply)) as (g & Hg & Hog & Hpg); [set_solver|].
  unfold server_handle_hello. call. eapply step_ok; [apply Hf|cbv beta].
  eapply step_ok; [apply unwrap_ok; exact (handle_frame_hello t0 (with_session_id (Some 0x123456789ABCDEF0) (fresh t0)) 0x123456789ABCDEF0 (hello_of 1) f g eq_refl eq_refl Ho Hp eq_refl Hg)|].
  do 5 call. eapply last_ok. by apply (check_reply_ok 0x123456789ABCDEF0).
Qed.

Lemma refused_hello_passes :
  Forall (λ t, passes (fresh t0) t = true) [server_hello_without_session_id t0; server_hello_unsupported_version t0].
Proof.
  repeat constructor.
  - destruct (hello_frame_ok 1) as (f & Hf & Ho & Hp); [set_solver|]. unfold server_hello_without_session_id.
    eapply step_ok; [apply Hf|cbv beta]. eapply step_ok; [eapply try_ok; [|shelve]|].
    + unfold handle_frame, from_frame_. munfold. rewrite Ho. cbn. rewrite Hp. reflexivity.
    + calls.
    Unshelve. done.
  - destruct (hello_frame_ok 99) as (f & Hf & Ho & Hp); [set_solver|]. unfold server_hello_unsupported_version. call.
    eapply step_ok; [apply Hf|cbv beta]. eapply step_ok; [eapply try_ok; [|shelve]|].
    + unfold handle_frame, from_frame_. munfold. rewrite Ho. cbn. rewrite Hp. reflexivity.
    + calls.
    Unshelve. done.
Qed.

Lemma handle_hello_ok {T} `{Environment T} hello now (c : Connection) (e e' : T) sid f :
  state c = Init → session.hello_version hello = 1 → Environment.random_u64 e = (sid, e') →
  Payload.into_frame (hello_reply sid) (FrameHeader.new Opcode.HelloReply) = Ok f →
  handle_hello hello now (c, e)
  = (Ok [SendFrame f], (with_last_activity now (with_state Authenticated (with_session_id (Some sid) c)), e')).
Proof.
  intros Hs Hv He Hf. unfold handle_hello, into_frame_. munfold. rewrite Hs, Hv. cbn. rewrite He. cbn. by rewrite Hf.
Qed.

Lemma generated_id_passes : passes (fresh t0) (server_generates_session_id_from_environment t0) = true.
Proof.
  destruct (test_carried (reply_of drawn_id) (FrameHeader.new Opcode.HelloReply)) as (g & Hg & Hog & Hpg); [set_solver|].
  unfold server_generates_session_id_from_environment.
  assert (call_handle_hello t0 1 (fresh t0) = (Ok [SendFrame g],
    with_last_activity t0 (with_state Authenticated (with_session_id (Some drawn_id) (fresh t0))))) as Hc.
  { unfold call_handle_hello. by erewrite (handle_hello_ok (hello_of 1) t0 (fresh t0) t0 t0 drawn_id g). }
  eapply step_ok; [by apply unwrap_ok, Hc|]. do 2 call.
  eapply step_ok; [by apply (check_reply_ok drawn_id)|]. calls.
Qed.

Lemma goodbyes_pass :
  Forall (λ t, passes (fresh t0) t = true) [handle_goodbye_authenticated t0; handle_goodbye_pending t0].
Proof.
  repeat constructor.
  - destruct (test_carried (goodbye "client shutdown") (FrameHeader.new Opcode.Goodbye)) as (f & Hf & Ho & Hp); [set_solver|].
    apply after_authenticate. eapply step_ok; [by apply expect_ok|cbv beta].
    destruct (goodbye_ok "client shutdown" f authenticated) as [ack Ha]; [set_solver|by right|done|done|].
    eapply step_ok; [exact Ha|]. calls.
  - destruct (test_carried (goodbye "timeout") (FrameHeader.new Opcode.Goodbye)) as (f & Hf & Ho & Hp); [set_solver|].
    destruct send_hello_ok as [h Hs]. eapply step_ok; [exact Hs|cbv beta]. eapply step_ok; [by apply expect_ok|cbv beta].
    destruct (goodbye_ok "timeout" f pending) as [ack Ha]; [set_solver|by left|done|done|].
    eapply step_ok; [exact Ha|]. calls.
Qed.

(** The unit tests of the connection pass, whatever the clock shows and for every
    codec that reads back what it writes and encodes the payloads of the tests
    within the bound of a frame. *)
Theorem connection_tests_pass :
  all_pass (fresh t0)
    [connection_lifecycle t0; handle_ping_responds_with_pong t0; handle_pong_updates_activity t0;
     handle_ping_before_authenticated t0; server_handle_hello t0; server_hello_without_session_id t0;
     server_hello_unsupported_version t0; server_generates_session_id_from_environment t0;
     handle_hello_rejects_unsupported_version t0; handle_hello_rejects_if_not_init_state t0;
     handle_goodbye_authenticated t0; handle_goodbye_pending t0; handle_error_frame t0].
Proof.
  unfold all_pass. apply forallb_forall. intros t Hin.
  pose proof plain_tests_pass as P1. pose proof authenticated_tests_pass as P2. pose proof refused_hello_passes as P3.
  pose proof goodbyes_pass as P4. rewrite !Forall_cons_iff in *.
  pose proof lifecycle_passes. pose proof activity_passes. pose proof server_hello_passes. pose proof generated_id_passes.
  cbn in Hin. naive_solver.
Qed.
End passing.
End codec.

(** The payload tests, at a codec. *)
Theorem payload_tests_pass : all_pass tt (payload_tests.all (H := ToyCodec.codec)).
Proof. vm_compute. reflexivity. Qed.

Lemma connection_tests_pass_witness :
  passes (connection_tests.fresh 7) (connection_tests.connection_lifecycle (H := ToyCodec.codec) 7) = true.
Proof.
  assert (Forall (fits (H := ToyCodec.codec)) test_payloads) as Hf.
  { repeat constructor; (eexists; split; [vm_compute; reflexivity|vm_compute; discriminate]). }
  pose proof (@connection_tests_pass ToyCodec.codec ToyCodec.codec_ok Hf 7) as T. unfold all_pass in T.
  cbn [forallb] in T. apply andb_true_iff in T as [T _]. exact T.
Defined.
End ProtoTheory.
