(* ===== verification/TestsGroup.v ===== *)
(** * The unit tests of the MLS group

    The test module of [lockframe-core/src/mls/group.rs].  The tests run whole
    conversations (key packages, additions, welcomes, messages, removals), so they
    are run against the small group protocol [MiniMls], which carries them out. *)

From Stdlib Require Import ZArith Lia.
From S2P Require Import Prelude Opcodes Header Frame Payload Connection MlsState Validator MlsGroup MiniMls TestsProto.

(** ** [group.rs] *)
Module group_tests.
Import Test MlsGroup.
Section tests.
Context {Env : Type} `{Environment Env} `{OpenMls Env} (env : Env) (now : Z).
Abbreviation G := (MlsGroup (T := Env)).
Abbreviation T := (Test unit).
Definition room_id : Z := 0x123456789abcdef0123456789abcdef0.
Definition alice_id : Z := 42.
Definition bob_id : Z := 100.
(** A test with the variable that a constructor returns. *)
Definition with_group {A} (made : outcome MlsError (G * list MlsAction)) (t : Test G A) : T A :=
  ga ← expect made; scoped (fst ga) t.
(** [find_map(..).expect(..)] over actions. *)
Definition find_action {S A} (pick : MlsAction → option A) (actions : list MlsAction) : Test S A :=
  match head (omap pick actions) with Some a => mret a | None => panic end.
Definition welcome_of (a : MlsAction) : option (Z * Frame) :=
  match a with SendWelcome recipient frame => Some (recipient, frame) | _ => None end.
Definition any_action {S} (P : MlsAction → bool) (actions : list MlsAction) : Test S unit := assert (existsb P actions).

Definition create_group : T unit :=
  let member_id := 1 in
  ga ← expect (new env room_id member_id);
  let '(group, actions) := ga in
  assert_eq (MlsGroup.room_id group) room_id;;
  assert_eq (MlsGroup.member_id group) member_id;;
  assert_eq (epoch group) 0;;
  assert (negb (has_pending_commit group));;
  assert_eq (zlen actions) 1;;
  assert (match actions with Log _ :: _ => true | _ => false end).
Definition commit_timeout_detection : T unit :=
  with_group (new env room_id 1) (
    b ← look (is_commit_timeout now (from_secs 5)); assert (negb b);;
    m_modify (with_pending (Some {| target_epoch := 1; sent_at := now |}));;
    b ← look (is_commit_timeout (now + from_secs 4) (from_secs 5)); assert (negb b);;
    b ← look (is_commit_timeout (now + from_secs 5) (from_secs 5)); assert b;;
    b ← look (is_commit_timeout (now + from_secs 6) (from_secs 5)); assert b).
(** Bob's key package and Alice's group with him. *)
Definition key_package : T (bytes * PendingJoinState (T := Env)) :=
  kp ← expect (generate_key_package env bob_id); let '(bs, _, pending) := kp in mret (bs, pending).
Definition join (welcome : Frame) (pending : PendingJoinState (T := Env)) : outcome MlsError (G * list MlsAction) :=
  join_from_welcome room_id bob_id (Frame.payload welcome) pending.

Definition process_message_returns_correct_sender : T unit :=
  kp ← key_package;
  sent ← with_group (new env room_id alice_id) (
    add_actions ← unwrap (add_members_from_bytes [fst kp]);
    welcome ← find_action welcome_of add_actions;
    unwrap merge_pending_commit;;
    message_actions ← unwrap (create_message (bytes_of_string "Hello from Alice"));
    message_frame ← find_action (λ a, match a with SendMessage f => Some f | _ => None end) message_actions;
    mret (snd welcome, message_frame));
  with_group (join (fst sent) (snd kp)) (
    receive_actions ← unwrap (process_message (snd sent));
    delivered ← find_action (λ a, match a with DeliverMessage s p => Some (s, p) | _ => None end) receive_actions;
    assert_eq (fst delivered) alice_id;;
    assert_eq (snd delivered) (bytes_of_string "Hello from Alice")).
Definition add_members_returns_correct_welcome_recipient : T unit :=
  kp ← key_package;
  with_group (new env room_id alice_id) (
    add_actions ← unwrap (add_members_from_bytes [fst kp]);
    welcome ← find_action welcome_of add_actions;
    let '(welcome_recipient, welcome_frame) := welcome in
    assert_eq welcome_recipient bob_id;;
    assert_eq (FrameHeader.recipient_id (Frame.header welcome_frame)) bob_id;;
    assert_eq (FrameHeader.room_id (Frame.header welcome_frame)) room_id;;
    assert_eq (FrameHeader.sender_id (Frame.header welcome_frame)) alice_id).
Definition remove_members_produces_commit : T unit :=
  kp ← key_package;
  with_group (new env room_id alice_id) (
    unwrap (add_members_from_bytes [fst kp]);;
    unwrap merge_pending_commit;;
    members ← look (λ g, omap (λ m, identity_id (m_credential m)) (group_members (mls_group g)));
    assert (bool_decide (bob_id ∈ members));;
    remove_actions ← unwrap (remove_members [bob_id]);
    any_action (λ a, match a with SendCommit _ => true | _ => false end) remove_actions;;
    any_action (λ a, match a with Log message => contains "100" message | _ => false end) remove_actions).
(** [result.is_err()], with a text that contains the part. *)
Definition refused {S A} (part : string) (result : outcome MlsError A) : Test S unit :=
  match result with Err e => assert (contains part (MlsError.to_string e)) | _ => panic end.
Definition remove_members_rejects_self_removal : T unit :=
  with_group (new env room_id alice_id) (result ← m_try (remove_members [alice_id]); refused "leave_group" result).
Definition remove_members_rejects_unknown_member : T unit :=
  with_group (new env room_id alice_id) (result ← m_try (remove_members [999]); refused "not found" result).
Definition leave_group_produces_commit_and_remove_action : T unit :=
  kp ← key_package;
  welcome ← with_group (new env room_id alice_id) (
    add_actions ← unwrap (add_members_from_bytes [fst kp]);
    unwrap merge_pending_commit;;
    find_action welcome_of add_actions);
  with_group (join (snd welcome) (snd kp)) (
    leave_actions ← unwrap leave_group;
    any_action (λ a, match a with SendProposal _ => true | _ => false end) leave_actions;;
    assert (negb (existsb (λ a, match a with RemoveGroup _ => true | _ => false end) leave_actions))).

Definition all : list (T unit) :=
  [create_group; commit_timeout_detection; process_message_returns_correct_sender;
   add_members_returns_correct_welcome_recipient; remove_members_produces_commit; remove_members_rejects_self_removal;
   remove_members_rejects_unknown_member; leave_group_produces_commit_and_remove_action].
End tests.
End group_tests.

(** ** They pass *)
Module GroupTheory.
Import Test.
Theorem group_tests_pass :
  all_pass tt (group_tests.all (Env := ToyEnv.T) (H := MiniMls.ops ToyEnv.T) (0, 0) 7).
Proof. vm_compute. reflexivity. Qed.
End GroupTheory.
