(* ===== verification/TestsServer.v ===== *)
(** * The unit tests of the server and of the group state

    The test modules of [lockframe-core/src/mls/] that do not run OpenMLS, and those
    of [lockframe-server]: storage, fault injection, sequencer, registry, driver and
    error texts.  Each is translated with every assertion and run on the model; the
    validator's tests are proved for every signature scheme and all drawn keys. *)

From Stdlib Require Import ZArith Lia QArith.
From S2P Require Import Prelude Opcodes Header Frame Payload Connection MlsState Storage Sequencer Registry.
From S2P Require Import Validator MlsGroup RoomManager ServerDriver Server TestsProto.

(** ** [mls/state.rs], [mls/constants.rs], [mls/error.rs] *)
Module state_tests.
Import Test MlsGroupState.
Definition byte_list (l : list Z) : bytes := map byte_of_Z l.

Definition test_new_state : Test unit unit :=
  let state := new 100 5 (replicate 32 (byte_of_Z 42)) [1; 2; 3] (byte_list [0xde; 0xad; 0xbe; 0xef]) in
  assert_eq (room_id state) 100;; assert_eq (epoch state) 5;;
  assert_eq (tree_hash state) (replicate 32 (byte_of_Z 42));;
  assert_eq (members state) [1; 2; 3];;
  assert_eq (openmls_state state) (byte_list [0xde; 0xad; 0xbe; 0xef]).
Definition test_is_member : Test unit unit :=
  let state := new 100 0 (replicate 32 Byte.x00) [100; 200; 300] [] in
  assert (is_member 100 state);; assert (is_member 200 state);; assert (is_member 300 state);;
  assert (negb (is_member 400 state)).
Definition test_member_count : Test unit unit :=
  assert_eq (member_count (new 100 0 (replicate 32 Byte.x00) [1; 2; 3; 4; 5] [])) 5.
(** The serialisation is [ciborium]'s; [PartialEq] is derived. *)
#[global] Instance MlsGroupState_eq_dec : EqDecision MlsGroupState.
Proof. solve_decision. Defined.
Definition original : MlsGroupState :=
  new 0x1234567890abcdef1234567890abcdef 42 (replicate 32 (byte_of_Z 0xff)) [100; 200; 300; 400]
    (byte_list [1; 2; 3; 4; 5; 6; 7; 8]).
Definition test_serialize_deserialize `{Cbor MlsGroupState} : Test unit unit :=
  encoded ← expect (cbor_ser original);
  decoded ← expect (cbor_de encoded);
  assert_eq decoded original.
Definition test_clone : Test unit unit :=
  let state := new 100 5 (replicate 32 Byte.x01) [1; 2] (byte_list [0xff]) in
  let cloned := state in
  assert_eq (room_id cloned) (room_id state);; assert_eq (epoch cloned) (epoch state);;
  assert_eq (tree_hash cloned) (tree_hash state);; assert_eq (members cloned) (members state);;
  assert_eq (openmls_state cloned) (openmls_state state).

Definition max_epoch_is_reasonable : Test unit unit :=
  let hours_per_year := 24 * 365 in
  let min_years := 100 in
  assert (hours_per_year * min_years <=? MAX_EPOCH).
Definition max_epoch_prevents_overflow : Test unit unit :=
  assert (match checked_add_u64 MAX_EPOCH 1000 with Some _ => true | None => false end).

Definition test_transient_errors : Test unit unit :=
  assert (MlsError.is_transient (MlsError.EpochMismatch 5 4));;
  assert (MlsError.is_transient (MlsError.Timeout (from_secs 30))).
Definition test_fatal_errors : Test unit unit :=
  assert (negb (MlsError.is_transient (MlsError.InvalidState 5 "commit")));;
  assert (negb (MlsError.is_transient (MlsError.Crypto "signature verification failed")));;
  assert (negb (MlsError.is_transient (MlsError.Protocol "invalid tree hash"))).
End state_tests.

(** ** [mls/validator.rs] *)
Module validator_tests.
Import Test state_tests MlsValidator.
Section keys.
(** The signing key that the generator draws for each member, and the second one
    of the tests with a wrong key. *)
Context `{Ed25519} (key : Z → bytes) (wrong_key : bytes).

Definition header_of (sender_id epoch : Z) : FrameHeader :=
  FrameHeader.set_room_id 100 (FrameHeader.set_epoch epoch (FrameHeader.set_sender_id sender_id
    (FrameHeader.new Opcode.AppMessage))).
Definition create_test_frame (sender_id epoch : Z) : Frame := Frame.new (header_of sender_id epoch) [].
Definition create_test_state (epoch : Z) (members : list Z) : MlsGroupState :=
  MlsGroupState.new 100 epoch (replicate 32 Byte.x00) members [].
(** The keys of all members. *)
Definition keys_of (members : list Z) : gmap Z bytes :=
  foldl (λ m member, <[member := ed_public (key member)]> m) ∅ members.
Definition state_with (epoch : Z) (members : list Z) (member_keys : gmap Z bytes) : MlsGroupState :=
  MlsGroupState.with_keys 100 epoch (replicate 32 Byte.x00) members member_keys [].
Definition signed_frame (sender_id epoch : Z) : Frame :=
  let header := header_of sender_id epoch in
  Frame.new (FrameHeader.set_signature (ed_sign (key sender_id) (FrameHeader.signing_data header)) header) [].
Definition create_signed_frame_and_state (sender_id epoch : Z) (members : list Z) : Test unit (Frame * MlsGroupState) :=
  if bool_decide (sender_id ∈ members) then
    mret (signed_frame sender_id epoch, state_with epoch members (keys_of members))
  else panic.

Definition accepted (result : ValidationResult) : bool := match result with Accept => true | Reject _ => false end.
Definition rejected_with (parts : list string) (result : ValidationResult) : bool :=
  match result with Accept => false | Reject reason => forallb (λ part, contains part reason) parts end.
Definition validated (frame : Frame) (epoch : Z) (state : MlsGroupState) (P : ValidationResult → bool) : Test unit unit :=
  result ← expect (validate_frame frame epoch state); assert (P result).

Definition test_valid_frame_accepted : Test unit unit :=
  fs ← create_signed_frame_and_state 100 5 [100; 200; 300];
  validated (fst fs) 5 (snd fs) accepted.
Definition test_old_epoch_rejected : Test unit unit :=
  validated (create_test_frame 100 3) 5 (create_test_state 5 [100; 200])
    (rejected_with ["epoch mismatch"; "expected 5"; "got 3"]).
Definition test_future_epoch_rejected : Test unit unit :=
  validated (create_test_frame 100 7) 5 (create_test_state 5 [100; 200])
    (rejected_with ["epoch mismatch"; "expected 5"; "got 7"]).
Definition test_non_member_rejected : Test unit unit :=
  validated (create_test_frame 999 5) 5 (create_test_state 5 [100; 200; 300])
    (rejected_with ["sender 999"; "not in group"]).
Definition test_all_members_accepted : Test unit unit :=
  let members := [100; 200; 300] in
  let epoch := 5 in
  let state := state_with epoch members (keys_of members) in
  m_iter (λ sender, validated (signed_frame sender epoch) epoch state accepted) members.
Definition test_validate_no_state_epoch_zero : Test unit unit :=
  result ← expect (validate_frame_no_state (create_test_frame 100 0)); assert (accepted result).
Definition test_validate_no_state_non_zero_epoch_rejected : Test unit unit :=
  result ← expect (validate_frame_no_state (create_test_frame 100 5));
  assert (rejected_with ["no MLS state"; "expected epoch 0"] result).
Definition test_valid_signature_accepted : Test unit unit :=
  validated (signed_frame 100 5) 5 (state_with 5 [100] (keys_of [100])) accepted.
(** The signature is over the first 64 bytes of the header. *)
Definition test_invalid_signature_rejected : Test unit unit :=
  let header := header_of 100 5 in
  let signed_header := FrameHeader.set_signature (ed_sign (key 100) (take 64 (FrameHeader.to_bytes header))) header in
  validated (Frame.new signed_header []) 5 (state_with 5 [100] {[100 := ed_public wrong_key]})
    (rejected_with ["signature verification failed"]).
Definition test_no_key_rejects_frame : Test unit unit :=
  validated (create_test_frame 100 5) 5 (create_test_state 5 [100; 200; 300])
    (rejected_with ["no signature key"; "group state inconsistency"]).
Definition test_validate_signature_only : Test unit unit :=
  fs ← create_signed_frame_and_state 100 5 [100];
  result ← expect (validate_signature (fst fs) (snd fs)); assert (accepted result).
Definition test_validate_signature_rejects_invalid : Test unit unit :=
  result ← expect (validate_signature (signed_frame 100 5) (state_with 5 [100] {[100 := ed_public wrong_key]}));
  assert (rejected_with ["signature verification failed"] result).

Definition all : list (Test unit unit) :=
  [test_valid_frame_accepted; test_old_epoch_rejected; test_future_epoch_rejected; test_non_member_rejected;
   test_all_members_accepted; test_validate_no_state_epoch_zero; test_validate_no_state_non_zero_epoch_rejected;
   test_valid_signature_accepted; test_invalid_signature_rejected; test_no_key_rejects_frame;
   test_validate_signature_only; test_validate_signature_rejects_invalid].
End keys.
End validator_tests.

(** ** [storage/memory.rs], [storage/chaotic.rs] *)
Module memory_tests.
Import Test.
Definition create_test_frame (room_id log_index : Z) : Frame :=
  Frame.new (FrameHeader.set_log_index log_index (FrameHeader.set_room_id room_id (FrameHeader.new Opcode.AppMessage))) [].
(** [frames[i].header.log_index()]. *)
Definition index_at {S} (frames : list Frame) (i : nat) : Test S Z :=
  match frames !! i with Some f => mret (FrameHeader.log_index (Frame.header f)) | None => panic end.
Definition zeros32 (b : Z) : bytes := replicate 32 (byte_of_Z b).

Abbreviation T := (Test MemoryStorage).
Import MemoryStorage.
(** Storing [n] frames in a room. *)
Definition fill (room_id n : Z) : T unit :=
  m_iter (λ i, unwrap (store_frame room_id i (create_test_frame room_id i))) (seqZ 0 n).
Definition assert_latest (room_id : Z) (expected : option Z) : T unit :=
  latest ← unwrap (latest_log_index room_id); assert_eq latest expected.

Definition test_new_storage_is_empty : T unit :=
  n ← look room_count; assert_eq n 0;; n ← look total_frame_count; assert_eq n 0.
Definition test_latest_log_index_empty_room : T unit :=
  result ← m_try (latest_log_index 100);
  assert (is_ok result);; r ← expect result; assert_eq r None.
Definition test_store_and_retrieve_frame : T unit :=
  let room_id := 100 in
  unwrap (store_frame room_id 0 (create_test_frame room_id 0));;
  assert_latest room_id (Some 0);;
  frames ← unwrap (load_frames room_id 0 10);
  assert_eq (zlen frames) 1;;
  i ← index_at frames 0; assert_eq i 0.
Definition test_sequential_frames : T unit :=
  let room_id := 100 in
  fill room_id 10;;
  assert_latest room_id (Some 9);;
  frames ← unwrap (load_frames room_id 0 100);
  assert_eq (zlen frames) 10;;
  m_iter (λ '(i, frame), assert_eq (FrameHeader.log_index (Frame.header frame)) (Z.of_nat i)) (imap pair frames).
Definition test_conflict_on_gap : T unit :=
  let room_id := 100 in
  let frame2 := create_test_frame room_id 2 in
  unwrap (store_frame room_id 0 (create_test_frame room_id 0));;
  result ← m_try (store_frame room_id 2 frame2);
  assert (negb (is_ok result));;
  match result with
  | Err (StorageError.Conflict expected got) => assert_eq expected 1;; assert_eq got 2
  | _ => panic
  end.
Definition test_load_frames_pagination : T unit :=
  let room_id := 100 in
  fill room_id 20;;
  batch1 ← unwrap (load_frames room_id 0 10);
  assert_eq (zlen batch1) 10;;
  i ← index_at batch1 0; assert_eq i 0;; i ← index_at batch1 9; assert_eq i 9;;
  batch2 ← unwrap (load_frames room_id 10 10);
  assert_eq (zlen batch2) 10;;
  i ← index_at batch2 0; assert_eq i 10;; i ← index_at batch2 9; assert_eq i 19.
Definition test_load_frames_beyond_end : T unit :=
  let room_id := 100 in
  fill room_id 5;;
  frames ← unwrap (load_frames room_id 0 10); assert_eq (zlen frames) 5;;
  frames ← unwrap (load_frames room_id 10 10); assert_eq (zlen frames) 0.
Definition test_multiple_rooms : T unit :=
  fill 100 5;; fill 200 3;;
  n ← look room_count; assert_eq n 2;; n ← look total_frame_count; assert_eq n 8;;
  assert_latest 100 (Some 4);; assert_latest 200 (Some 2).
Definition test_mls_state_storage : T unit :=
  let room_id := 100 in
  none ← unwrap (load_mls_state room_id);
  assert (match none with None => true | Some _ => false end);;
  let state := MlsGroupState.new room_id 5 (zeros32 42) [100; 200; 300] (map byte_of_Z [1; 2; 3; 4]) in
  unwrap (store_mls_state room_id state);;
  found ← unwrap (load_mls_state room_id);
  match found with
  | None => panic
  | Some loaded =>
      assert_eq (MlsGroupState.room_id loaded) room_id;; assert_eq (MlsGroupState.epoch loaded) 5;;
      assert_eq (MlsGroupState.tree_hash loaded) (zeros32 42);;
      assert_eq (MlsGroupState.members loaded) [100; 200; 300];;
      assert_eq (MlsGroupState.openmls_state loaded) (map byte_of_Z [1; 2; 3; 4])
  end.
Definition test_mls_state_overwrite : T unit :=
  let room_id := 100 in
  unwrap (store_mls_state room_id (MlsGroupState.new room_id 5 (zeros32 1) [100] []));;
  unwrap (store_mls_state room_id (MlsGroupState.new room_id 6 (zeros32 2) [100; 200] []));;
  found ← unwrap (load_mls_state room_id);
  match found with
  | None => panic
  | Some loaded => assert_eq (MlsGroupState.epoch loaded) 6;; assert_eq (MlsGroupState.members loaded) [100; 200]
  end.
End memory_tests.

Module chaotic_tests.
Import Test memory_tests ChaoticStorage.
Abbreviation C := (ChaoticStorage MemoryStorage).
(** A test whose variable is the storage that the constructor returns. *)
Definition with_storage (made : outcome StorageError C) (t : Test C unit) : Test unit unit :=
  chaotic ← expect made; scoped chaotic t.

Definition test_chaotic_with_zero_failure_rate : Test unit unit :=
  with_storage (new MemoryStorage.new 0) (
    m_iter (λ i, unwrap (store_frame 100 i (create_test_frame 100 i))) (seqZ 0 100);;
    latest ← unwrap (latest_log_index 100); assert_eq latest (Some 99)).
Definition test_chaotic_with_100_failure_rate : Test unit unit :=
  with_storage (new MemoryStorage.new 1) (
    let frame := create_test_frame 100 0 in
    r ← m_try (store_frame 100 0 frame); assert (negb (is_ok r));;
    r ← m_try (latest_log_index 100); assert (negb (is_ok r));;
    r ← m_try (load_frames 100 0 10); assert (negb (is_ok r))).
Definition test_chaotic_deterministic_with_seed : Test unit unit :=
  chaotic1 ← expect (with_seed MemoryStorage.new (1 # 2) 42);
  chaotic2 ← expect (with_seed MemoryStorage.new (1 # 2) 42);
  scoped (chaotic1, chaotic2) (m_iter (λ i,
    let frame := create_test_frame 100 i in
    result1 ← m_zoom fst (λ c '(_, d), (c, d)) (m_try (store_frame 100 i frame));
    result2 ← m_zoom snd (λ d '(c, _), (c, d)) (m_try (store_frame 100 i frame));
    assert_eq (is_ok result1) (is_ok result2)) (seqZ 0 100)).
Definition test_chaotic_accesses_underlying_storage : Test unit unit :=
  with_storage (new MemoryStorage.new 0) (
    unwrap (store_frame 100 0 (create_test_frame 100 0));;
    inner ← look inner;
    latest ← expect (fst (MemoryStorage.latest_log_index 100 inner)); assert_eq latest (Some 0)).
(** [#[should_panic]]: the constructor with the rate 1.5. *)
Definition test_chaotic_rejects_invalid_failure_rate : Test unit unit :=
  expect (new MemoryStorage.new (3 # 2));; mret tt.
End chaotic_tests.

(** ** [sequencer.rs] *)
Module sequencer_tests.
Import Test.
Abbreviation T := (Test (Sequencer.Sequencer * MemoryStorage)).
Definition create_test_frame (room_id sender_id epoch : Z) : Frame :=
  Frame.new (FrameHeader.set_epoch epoch (FrameHeader.set_sender_id sender_id (FrameHeader.set_room_id room_id
    (FrameHeader.new Opcode.AppMessage)))) (bytes_of_string ("msg-" +:+ fmt_int sender_id)).
Definition log_index_of (f : Frame) : Z := FrameHeader.log_index (Frame.header f).
Definition action_at (actions : list SequencerAction) (i : nat) : T SequencerAction :=
  match actions !! i with Some a => mret a | None => panic end.
(** [storage.method(..)] on the second variable. *)
Definition on_storage {A} (op : M MemoryStorage StorageError A) : T A :=
  m_zoom snd (λ s '(q, _), (q, s)) (unwrap op).
(** [sequencer.next_log_index(room_id)]. *)
Definition next_log_index (room_id : Z) (q : Sequencer.Sequencer) : option Z :=
  Sequencer.next_log_index <$> Sequencer.rooms q !! room_id.

Definition test_single_frame_sequencing : T unit :=
  actions ← unwrap (Sequencer.process_frame (create_test_frame 100 200 0));
  assert_eq (zlen actions) 3;;
  a0 ← action_at actions 0;
  (match a0 with
   | AcceptFrame room_id log_index frame =>
       assert_eq room_id 100;; assert_eq log_index 0;; assert_eq (log_index_of frame) 0
   | _ => panic
   end);;
  a1 ← action_at actions 1;
  (match a1 with StoreFrame room_id log_index _ => assert_eq room_id 100;; assert_eq log_index 0 | _ => panic end);;
  a2 ← action_at actions 2;
  match a2 with
  | BroadcastToRoom room_id frame => assert_eq room_id 100;; assert_eq (log_index_of frame) 0
  | _ => panic
  end.
(** The loop that carries out the first [StoreFrame] action. *)
Fixpoint execute_store (actions : list SequencerAction) : T unit :=
  match actions with
  | [] => mret tt
  | StoreFrame room_id log_index frame :: _ => on_storage (MemoryStorage.store_frame room_id log_index frame)
  | _ :: actions => execute_store actions
  end.
Definition test_sequential_frames : T unit :=
  let room_id := 100 in
  m_iter (λ i,
    actions ← unwrap (Sequencer.process_frame (create_test_frame room_id 200 0));
    a0 ← action_at actions 0;
    (match a0 with AcceptFrame _ log_index _ => assert_eq log_index i | _ => panic end);;
    execute_store actions) (seqZ 0 3);;
  frames ← on_storage (MemoryStorage.load_frames room_id 0 10);
  assert_eq (zlen frames) 3;;
  m_iter (λ '(i, frame), assert_eq (log_index_of frame) (Z.of_nat i)) (imap pair frames).
Definition test_concurrent_rooms : T unit :=
  m_iter (λ _, unwrap (Sequencer.process_frame (create_test_frame 100 300 0));; mret tt) (seqZ 0 3);;
  m_iter (λ _, unwrap (Sequencer.process_frame (create_test_frame 200 300 0));; mret tt) (seqZ 0 5);;
  n ← look (λ s, next_log_index 100 (fst s)); assert_eq n (Some 3);;
  n ← look (λ s, next_log_index 200 (fst s)); assert_eq n (Some 5).
End sequencer_tests.

(** ** [registry.rs] *)
Module registry_tests.
Import Test ConnectionRegistry.
Abbreviation T := (Test ConnectionRegistry).
Definition room_id : Z := 0x1234567890abcdef1234567890abcdef.
Definition room1 : Z := 0x11111111111111111111111111111111.
Definition room2 : Z := 0x22222222222222222222222222222222.
Definition register (session_id : Z) (info : SessionInfo) : T bool := on (register_session session_id info).
(** [.unwrap()] of an [Option]. *)
Definition some {A} (o : option A) : T A := match o with Some a => mret a | None => panic end.

Definition register_and_lookup_session : T unit :=
  b ← register 1 SessionInfo.new; assert b;;
  b ← look (has_session 1); assert b;;
  b ← look (has_session 2); assert (negb b);;
  found ← look (λ reg, sessions reg !! 1);
  info ← some found;
  assert (negb (SessionInfo.authenticated info));;
  assert_eq (SessionInfo.user_id info) None.
Definition register_duplicate_session_fails : T unit :=
  b ← register 1 SessionInfo.new; assert b;;
  b ← register 1 SessionInfo.new; assert (negb b).
Definition unregister_session_returns_info : T unit :=
  register 1 (SessionInfo.authenticated_as 42);;
  removed ← on (unregister_session 1);
  ir ← some removed;
  assert (SessionInfo.authenticated (fst ir));;
  assert_eq (SessionInfo.user_id (fst ir)) (Some 42);;
  assert_eq (size (snd ir)) 0%nat;;
  b ← look (has_session 1); assert (negb b).
Definition subscribe_and_lookup : T unit :=
  register 1 SessionInfo.new;;
  register 2 SessionInfo.new;;
  b ← on (subscribe 1 room_id); assert b;;
  b ← on (subscribe 2 room_id); assert b;;
  b ← look (is_subscribed 1 room_id); assert b;;
  b ← look (is_subscribed 2 room_id); assert b;;
  sessions ← look (sessions_in_room room_id);
  assert_eq (zlen sessions) 2;;
  assert (bool_decide (1 ∈ sessions));;
  assert (bool_decide (2 ∈ sessions)).
Definition subscribe_unregistered_session_fails : T unit :=
  b ← on (subscribe 999 room_id); assert (negb b).
Definition unsubscribe_removes_from_both_maps : T unit :=
  register 1 SessionInfo.new;;
  on (subscribe 1 room_id);;
  b ← on (unsubscribe 1 room_id); assert b;;
  b ← look (is_subscribed 1 room_id); assert (negb b);;
  sessions ← look (sessions_in_room room_id); assert_eq sessions [];;
  rooms ← look (rooms_for_session 1); assert_eq rooms [].
Definition unregister_session_removes_all_subscriptions : T unit :=
  register 1 SessionInfo.new;;
  register 2 SessionInfo.new;;
  on (subscribe 1 room1);;
  on (subscribe 1 room2);;
  on (subscribe 2 room1);;
  removed ← on (unregister_session 1);
  ir ← some removed;
  assert_eq (size (snd ir)) 2%nat;;
  assert (bool_decide (room1 ∈ snd ir));;
  assert (bool_decide (room2 ∈ snd ir));;
  sessions ← look (sessions_in_room room1); assert_eq sessions [2];;
  n ← look (room_session_count room2); assert_eq n 0.
Definition rooms_for_session : T unit :=
  register 1 SessionInfo.new;;
  on (subscribe 1 room1);;
  on (subscribe 1 room2);;
  rooms ← look (λ reg, list_to_set (C := gset Z) (ConnectionRegistry.rooms_for_session 1 reg));
  assert_eq (size rooms) 2%nat;;
  assert (bool_decide (room1 ∈ rooms));;
  assert (bool_decide (room2 ∈ rooms)).
Definition session_count : T unit :=
  n ← look ConnectionRegistry.session_count; assert_eq n 0;;
  register 1 SessionInfo.new;;
  n ← look ConnectionRegistry.session_count; assert_eq n 1;;
  register 2 SessionInfo.new;;
  n ← look ConnectionRegistry.session_count; assert_eq n 2;;
  on (unregister_session 1);;
  n ← look ConnectionRegistry.session_count; assert_eq n 1.
Definition update_session_info : T unit :=
  register 1 SessionInfo.new;;
  b ← on (sessions_mut 1 (λ _, {| SessionInfo.user_id := Some 42; SessionInfo.authenticated := true |})); assert b;;
  found ← look (λ reg, sessions reg !! 1);
  info ← some found;
  assert (SessionInfo.authenticated info);;
  assert_eq (SessionInfo.user_id info) (Some 42).
End registry_tests.

(** ** [driver.rs] *)
Module driver_tests.
Import Test ServerDriver ServerAction.
Section driver.
Context `{PayloadCodec} {Env : Type} `{Environment Env} `{OpenMls Env} `{Ed25519}.
Abbreviation Driver := (ServerDriver (T := Env) (S := MemoryStorage)).
Abbreviation T := (Test Driver).
Definition room_id : Z := 0x1234567890abcdef1234567890abcdef.
(** [ServerDriver::new(env, storage, ServerConfig::default())]. *)
Definition server (env : Env) : Driver := new env MemoryStorage.new default_server_config.
Definition small_server (env : Env) : Driver :=
  new env MemoryStorage.new {| connection := connection default_server_config; max_connections := 2 |}.
Definition action_at (actions : list ServerAction) (i : nat) : T ServerAction :=
  match actions !! i with Some a => mret a | None => panic end.
Definition accept (session_id : Z) : T (list ServerAction) := unwrap (process_event (ConnectionAccepted session_id)).
Definition assert_connections (n : Z) : T unit := c ← look connection_count; assert_eq c n.

Definition server_accepts_connection : T unit :=
  actions ← accept 1;
  assert_connections 1;;
  a ← action_at actions 0; assert (match a with Log Debug _ _ => true | _ => false end).
Definition server_rejects_when_max_connections_exceeded : T unit :=
  accept 1;;
  accept 2;;
  actions ← accept 3;
  assert_connections 2;;
  a ← action_at actions 0; assert (match a with CloseConnection _ _ => true | _ => false end).
Definition server_handles_connection_closed : T unit :=
  accept 1;;
  assert_connections 1;;
  unwrap (process_event (ConnectionClosed 1 "client disconnect"));;
  assert_connections 0.
Definition server_creates_room : T unit :=
  accept 1;;
  actions ← unwrap (create_room room_id 1);
  b ← look (has_room room_id); assert b;;
  a ← action_at actions 0; assert (match a with Log Info _ _ => true | _ => false end);;
  sessions ← look (sessions_in_room room_id); assert_eq sessions [1].
Definition server_create_room_fails_for_unknown_session : T unit :=
  result ← m_try (create_room room_id 999);
  assert (match result with Err (ServerError.SessionNotFound 999) => true | _ => false end).
Definition server_subscribe_and_unsubscribe : T unit :=
  accept 1;;
  accept 2;;
  unwrap (create_room room_id 1);;
  b ← unwrap (subscribe_to_room 2 room_id); assert b;;
  sessions ← look (sessions_in_room room_id); assert_eq (zlen sessions) 2;;
  b ← unwrap (unsubscribe_from_room 2 room_id); assert b;;
  sessions ← look (sessions_in_room room_id); assert_eq (zlen sessions) 1.
Definition welcome_frame_subscribes_receiver_to_room : T unit :=
  accept 1;;
  accept 2;;
  unwrap (create_room room_id 1);;
  sessions ← look (sessions_in_room room_id); assert_eq sessions [1];;
  let welcome_frame := Frame.new (FrameHeader.set_room_id room_id (FrameHeader.new Opcode.Welcome))
    (bytes_of_string "fake welcome") in
  m_try (process_event (FrameReceived 2 welcome_frame));;
  sessions ← look (sessions_in_room room_id);
  assert_eq (zlen sessions) 2;;
  assert (bool_decide (1 ∈ sessions));;
  assert (bool_decide (2 ∈ sessions)).

(** The tests on the default configuration. *)
Definition all : list (T unit) :=
  [server_accepts_connection; server_handles_connection_closed; server_creates_room;
   server_create_room_fails_for_unknown_session; server_subscribe_and_unsubscribe;
   welcome_frame_subscribes_receiver_to_room].
End driver.
End driver_tests.

(** ** [server_error.rs], [executor.rs] *)
Module server_error_tests.
Import Test.
Definition server_error_display : Test unit unit :=
  assert_eq (ServerError.to_string (ServerError.SessionNotFound 42)) "session not found: 42";;
  assert_eq (ServerError.to_string (ServerError.SessionAlreadyExists 123)) "session already exists: 123";;
  assert_eq (ServerError.to_string (ServerError.ConnectionFailed 1 "timeout")) "connection failed for session 1: timeout".
Definition executor_error_display : Test unit unit :=
  assert_eq (ExecutorError.to_string (ExecutorError.SendFailed 42 "closed")) "send failed for session 42: closed";;
  assert_eq (ExecutorError.to_string (ExecutorError.StorageFailed "disk full")) "storage failed: disk full".
Definition broadcast_policy_default : Test unit unit :=
  assert (match default_broadcast_policy with BestEffort => true | _ => false end).
Definition broadcast_policy_retry : Test unit unit :=
  let policy := Retry 3 100 in
  match policy with
  | Retry max_attempts initial_backoff_ms => assert_eq max_attempts 3;; assert_eq initial_backoff_ms 100
  | _ => panic
  end.
End server_error_tests.

(** ** They pass *)
Module ServerTheory.
Import Test.
Theorem state_tests_pass : all_pass tt
  [state_tests.test_new_state; state_tests.test_is_member; state_tests.test_member_count; state_tests.test_clone;
   state_tests.max_epoch_is_reasonable; state_tests.max_epoch_prevents_overflow;
   state_tests.test_transient_errors; state_tests.test_fatal_errors;
   server_error_tests.server_error_display; server_error_tests.executor_error_display;
   server_error_tests.broadcast_policy_default; server_error_tests.broadcast_policy_retry].
Proof. vm_compute. reflexivity. Qed.

Theorem storage_tests_pass :
  all_pass MemoryStorage.new
    [memory_tests.test_new_storage_is_empty; memory_tests.test_latest_log_index_empty_room;
     memory_tests.test_store_and_retrieve_frame; memory_tests.test_sequential_frames; memory_tests.test_conflict_on_gap;
     memory_tests.test_load_frames_pagination; memory_tests.test_load_frames_beyond_end; memory_tests.test_multiple_rooms;
     memory_tests.test_mls_state_storage; memory_tests.test_mls_state_overwrite]
  ∧ all_pass tt
      [chaotic_tests.test_chaotic_with_zero_failure_rate; chaotic_tests.test_chaotic_with_100_failure_rate;
       chaotic_tests.test_chaotic_deterministic_with_seed; chaotic_tests.test_chaotic_accesses_underlying_storage]
  ∧ passes tt chaotic_tests.test_chaotic_rejects_invalid_failure_rate = false.
Proof. vm_compute. auto. Qed.

Theorem sequencer_tests_pass :
  all_pass (Sequencer.new, MemoryStorage.new)
    [sequencer_tests.test_single_frame_sequencing; sequencer_tests.test_sequential_frames;
     sequencer_tests.test_concurrent_rooms].
Proof. vm_compute. reflexivity. Qed.

Theorem registry_tests_pass :
  all_pass ConnectionRegistry.new
    [registry_tests.register_and_lookup_session; registry_tests.register_duplicate_session_fails;
     registry_tests.unregister_session_returns_info; registry_tests.subscribe_and_lookup;
     registry_tests.subscribe_unregistered_session_fails; registry_tests.unsubscribe_removes_from_both_maps;
     registry_tests.unregister_session_removes_all_subscriptions; registry_tests.rooms_for_session;
     registry_tests.session_count; registry_tests.update_session_info].
Proof. vm_compute. reflexivity. Qed.

Theorem serialize_test_passes `{CborOk MlsGroupState} bs :
  cbor_ser state_tests.original = Ok bs → passes tt state_tests.test_serialize_deserialize = true.
Proof.
  intros Hb. unfold passes, state_tests.test_serialize_deserialize, expect, unwrap. munfold. rewrite Hb.
  rewrite (cbor_roundtrip _ _ Hb). unfold assert_eq. by rewrite bool_decide_true.
Qed.

(** The driver's tests, at concrete libraries. *)
Section concrete.
#[local] Existing Instances ToyCodec.codec ToyMls.ops ToyMls.ed.
Theorem driver_tests_pass :
  all_pass (driver_tests.server (Env := ToyEnv.T) (0, 0)) driver_tests.all
  ∧ passes (driver_tests.small_server (Env := ToyEnv.T) (0, 0))
      driver_tests.server_rejects_when_max_connections_exceeded = true.
Proof. vm_compute. auto. Qed.
End concrete.

(** The validator's tests. *)
Section validator.
Context `{Ed25519} `{!Ed25519Ok} (key : Z → bytes) (wrong_key : bytes).
Import validator_tests.

Lemma header_of_wf sender epoch : FrameHeader.wf (header_of sender epoch).
Proof. apply FrameHeader.set_room_id_wf, FrameHeader.set_epoch_wf, FrameHeader.set_sender_id_wf, FrameHeader.new_wf. Qed.
(** What the signature of a signed frame covers. *)
Lemma signed_frame_data sender epoch :
  FrameHeader.signing_data (Frame.header (signed_frame key sender epoch)) = FrameHeader.signing_data (header_of sender epoch).
Proof.
  pose proof (header_of_wf sender epoch) as Hwf. apply FrameHeader.signing_data_same; [|done|by split].
  apply FrameHeader.set_payload_size_wf, FrameHeader.set_signature_wf; [apply ed_sign_length|done].
Qed.

Lemma signed_validates sender epoch state :
  FrameHeader.epoch (header_of sender epoch) = epoch → FrameHeader.sender_id (header_of sender epoch) = sender →
  MlsGroupState.member_keys state !! sender = Some (ed_public (key sender)) →
  MlsGroupState.is_member sender state = true →
  MlsValidator.validate_frame (signed_frame key sender epoch) epoch state = Ok Accept
  ∧ MlsValidator.validate_signature (signed_frame key sender epoch) state = Ok Accept.
Proof.
  intros He Hs Hk Hm. pose proof (signed_frame_data sender epoch) as Hd. set (f := signed_frame key sender epoch) in *.
  assert (FrameHeader.sender_id (Frame.header f) = sender) as Hs' by exact Hs.
  assert (MlsValidator.validate_signature f state = Ok Accept) as Hv.
  { unfold MlsValidator.validate_signature, MlsGroupState.member_key. rewrite Hs', Hk. cbn [mbind option_bind].
    rewrite ed_public_valid, Hd. assert (FrameHeader.signature (Frame.header f)
      = ed_sign (key sender) (FrameHeader.signing_data (header_of sender epoch))) as -> by done.
    by rewrite ed_sign_verify. }
  split; [|done]. unfold MlsValidator.validate_frame. assert (FrameHeader.epoch (Frame.header f) = epoch) as -> by exact He.
  rewrite Z.eqb_refl, Hs', Hm. exact Hv.
Qed.

(** A frame whose signature does not verify under the key on record. *)
Lemma forged_rejected header state :
  FrameHeader.epoch header = 5 → FrameHeader.sender_id header = 100 →
  MlsGroupState.member_keys state = {[100 := ed_public wrong_key]} → MlsGroupState.is_member 100 state = true →
  (∀ data, ed_verify (ed_public wrong_key) data (FrameHeader.signature header) = false) →
  MlsValidator.validate_frame (Frame.new header []) 5 state = Ok (Reject "signature verification failed for sender 100")
  ∧ MlsValidator.validate_signature (Frame.new header []) state = Ok (Reject "signature verification failed for sender 100").
Proof.
  intros He Hs Hk Hm Hf. set (f := Frame.new header []).
  assert (FrameHeader.sender_id (Frame.header f) = 100) as Hs' by exact Hs.
  assert (MlsValidator.validate_signature f state = Ok (Reject "signature verification failed for sender 100")) as Hv.
  { unfold MlsValidator.validate_signature, MlsGroupState.member_key. rewrite Hs', Hk, lookup_singleton_eq.
    cbn [mbind option_bind]. rewrite ed_public_valid. change (FrameHeader.signature (Frame.header f)) with (FrameHeader.signature header).
    by rewrite Hf. }
  split; [|done]. unfold MlsValidator.validate_frame. assert (FrameHeader.epoch (Frame.header f) = 5) as -> by exact He.
  rewrite Hs', Hm. exact Hv.
Qed.

(** A check of the validator's verdict. *)
Lemma verdict_passes E (r : outcome E ValidationResult) v (P : ValidationResult → bool) :
  r = Ok v → P v = true → passes tt (result ← expect r; assert (P result)) = true.
Proof. intros -> HP. unfold passes, expect, unwrap. munfold. by rewrite HP. Qed.

(** For every signature scheme that verifies what it signs, all keys of the
    members, and a wrong key under which no signature of the first member
    verifies. *)
Theorem validator_tests_pass :
  (∀ data msg, ed_verify (ed_public wrong_key) data (ed_sign (key 100) msg) = false) →
  all_pass tt (validator_tests.all key wrong_key).
Proof.
  intros Hwrong. unfold all_pass. apply forallb_forall. rewrite <-List.Forall_forall.
  assert (∀ s m, s ∈ m → m = [100; 200; 300] ∨ m = [100] →
    MlsValidator.validate_frame (signed_frame key s 5) 5 (state_with 5 m (keys_of key m)) = Ok Accept
    ∧ MlsValidator.validate_signature (signed_frame key s 5) (state_with 5 m (keys_of key m)) = Ok Accept) as Hsigned.
  { intros s m Hin [-> | ->]; apply signed_validates; set_unfold in Hin; destruct_or?; subst; vm_compute; reflexivity. }
  repeat constructor; try (eapply verdict_passes; [reflexivity|vm_compute; reflexivity]).
  - eapply verdict_passes; [apply (Hsigned 100 [100; 200; 300]); [set_solver|by left]|done].
  - assert (∀ s, s ∈ [100; 200; 300] → MlsValidator.validate_frame (signed_frame key s 5) 5
      (state_with 5 [100; 200; 300] (keys_of key [100; 200; 300])) = Ok Accept) as Hall by (intros; apply Hsigned; auto).
    unfold test_all_members_accepted, validated, passes, expect, unwrap. cbn [m_iter]. munfold.
    rewrite !Hall by set_solver. done.
  - eapply verdict_passes; [apply (Hsigned 100 [100]); [set_solver|by right]|done].
  - eapply verdict_passes; [apply forged_rejected; [done..|]|vm_compute; reflexivity]. intros. apply Hwrong.
  - eapply verdict_passes; [apply (Hsigned 100 [100]); [set_solver|by right]|done].
  - eapply verdict_passes; [apply forged_rejected; [done..|]|vm_compute; reflexivity]. intros. apply Hwrong.
Qed.
End validator.
End ServerTheory.
