(* ===== verification/TestsClient.v ===== *)
(** * The unit tests of the sender keys and of the client

    The test modules of [lockframe-crypto] and [lockframe-client], translated with
    every assertion.  Tests that only depend on documented properties of the
    primitives are proved for all of them; those that compare outputs of hash
    functions are run on concrete primitives with the output sizes of the real
    ones. *)

From Stdlib Require Import ZArith Lia.
From S2P Require Import Prelude Opcodes Header Frame Payload Connection SenderKeys SenderKeyStore MlsState.
From S2P Require Import Validator MlsGroup Client TestsProto.

(** ** [derivation.rs] *)
Module derivation_tests.
Import Test.
Section tests.
Context `{Primitives}.
Abbreviation T := (Test unit).
Definition material : bytes := bytes_of_string "test_epoch_secret_material_here!".

Definition derive_produces_32_byte_seed : T unit :=
  assert_eq (zlen (derive_sender_key_seed (replicate 32 Byte.x00) 0 0)) 32.
Definition derive_is_deterministic : T unit :=
  let seed1 := derive_sender_key_seed material 42 7 in
  let seed2 := derive_sender_key_seed material 42 7 in
  assert_eq seed1 seed2.
Definition different_epochs_produce_different_seeds : T unit :=
  assert_ne (derive_sender_key_seed material 0 0) (derive_sender_key_seed material 1 0).
Definition different_senders_produce_different_seeds : T unit :=
  assert_ne (derive_sender_key_seed material 5 0) (derive_sender_key_seed material 5 1).
Definition different_epoch_secrets_produce_different_seeds : T unit :=
  assert_ne (derive_sender_key_seed (bytes_of_string "epoch_secret_a__________________") 0 0)
            (derive_sender_key_seed (bytes_of_string "epoch_secret_b__________________") 0 0).
(** [seeds[i].0]. *)
Definition index_at (seeds : list (Z * bytes)) (i : nat) : T Z :=
  match seeds !! i with Some (index, _) => mret index | None => panic end.
Definition derive_all_produces_correct_count : T unit :=
  let seeds := derive_all_sender_seeds material 0 [0; 1; 5; 10] in
  assert_eq (zlen seeds) 4;;
  i ← index_at seeds 0; assert_eq i 0;;
  i ← index_at seeds 1; assert_eq i 1;;
  i ← index_at seeds 2; assert_eq i 5;;
  i ← index_at seeds 3; assert_eq i 10.
Definition derive_all_matches_individual_derivation : T unit :=
  let epoch := 3 in
  m_iter (λ '(index, batch_seed), assert_eq batch_seed (derive_sender_key_seed material epoch index))
    (derive_all_sender_seeds material epoch [2; 7]).
Definition works_with_empty_epoch_secret : T unit := assert_eq (zlen (derive_sender_key_seed [] 0 0)) 32.
Definition works_with_large_epoch_secret : T unit :=
  assert_eq (zlen (derive_sender_key_seed (replicate 1024 (byte_of_Z 0xAB)) 0 0)) 32.
(** The results are dropped. *)
Definition epoch_boundary_values : T unit :=
  let _ := derive_sender_key_seed material 0 0 in
  let _ := derive_sender_key_seed material U64_MAX 0 in
  let _ := derive_sender_key_seed material 0 U32_MAX in
  mret tt.
Definition all : list (T unit) :=
  [derive_produces_32_byte_seed; derive_is_deterministic; different_epochs_produce_different_seeds;
   different_senders_produce_different_seeds; different_epoch_secrets_produce_different_seeds;
   derive_all_produces_correct_count; derive_all_matches_individual_derivation; works_with_empty_epoch_secret;
   works_with_large_epoch_secret; epoch_boundary_values].
End tests.
End derivation_tests.

(** ** [ratchet.rs] *)
Module ratchet_tests.
Import Test SymmetricRatchet.
Section tests.
Context `{Primitives}.
Abbreviation T := (Test SymmetricRatchet).
Definition test_seed : bytes := map byte_of_Z (seqZ 0 32).
Definition assert_generation (g : Z) : T unit := n ← look generation; assert_eq n g.
Definition assert_keys_differ (k k' : MessageKey) : T unit :=
  assert_ne (MessageKey.key k) (MessageKey.key k').

(** The variable [ratchet] is [SymmetricRatchet::new(&test_seed())]. *)
Definition ratchet : SymmetricRatchet := new test_seed.

Definition new_ratchet_starts_at_generation_zero : T unit := assert_generation 0.
Definition advance_increments_generation : T unit :=
  key0 ← unwrap advance; assert_eq (MessageKey.generation key0) 0;; assert_generation 1;;
  key1 ← unwrap advance; assert_eq (MessageKey.generation key1) 1;; assert_generation 2.
Definition advance_produces_unique_keys : T unit :=
  key0 ← unwrap advance;
  key1 ← unwrap advance;
  key2 ← unwrap advance;
  assert_keys_differ key0 key1;; assert_keys_differ key1 key2;; assert_keys_differ key0 key2.
(** Two ratchets, the second declared in the test. *)
Abbreviation first := (m_zoom fst (λ r '(_, r2), (r, r2))).
Abbreviation second := (m_zoom snd (λ r '(r1, _), (r1, r))).
Definition advance_both : Test (SymmetricRatchet * SymmetricRatchet) unit :=
  key1 ← first (unwrap advance);
  key2 ← second (unwrap advance);
  assert_eq (MessageKey.key key1) (MessageKey.key key2);;
  assert_eq (MessageKey.generation key1) (MessageKey.generation key2).
Definition ratchet_is_deterministic : T unit :=
  scoped (new test_seed, new test_seed) (m_iter (λ _, advance_both) (seqZ 0 10)).
(** [let mut seed = [0u8; 32]; seed[0] = b;]. *)
Definition seed_with (b : Z) : bytes := byte_of_Z b :: replicate 31 Byte.x00.
Definition different_seeds_produce_different_keys : T unit :=
  key1 ← scoped (new (seed_with 1)) (unwrap advance);
  key2 ← scoped (new (seed_with 2)) (unwrap advance);
  assert_keys_differ key1 key2.
Definition advance_to_current_generation : T unit :=
  key ← unwrap (advance_to 0); assert_eq (MessageKey.generation key) 0;; assert_generation 1.
Definition advance_to_skips_forward : T unit :=
  key ← unwrap (advance_to 5); assert_eq (MessageKey.generation key) 5;; assert_generation 6.
Definition advance_to_matches_sequential_advance : T unit :=
  key_sequential ← scoped (new test_seed) (m_iter (λ _, unwrap advance;; mret tt) (seqZ 0 5);; unwrap advance);
  key_skip ← scoped (new test_seed) (unwrap (advance_to 5));
  assert_eq (MessageKey.key key_sequential) (MessageKey.key key_skip).
Definition advance_to_rejects_past_generation : T unit :=
  unwrap (advance_to 5);;
  result ← m_try (advance_to 3);
  assert (negb (is_ok result));;
  match result with
  | Err (SenderKeyError.RatchetTooFarBehind current requested) => assert_eq current 6;; assert_eq requested 3
  | _ => panic
  end.
Definition advance_to_rejects_too_far_ahead : T unit :=
  result ← m_try (advance_to (MAX_SKIP + 100));
  assert (negb (is_ok result));;
  match result with Err (SenderKeyError.RatchetTooFarBehind _ _) => mret tt | _ => panic end.
Definition message_key_has_32_byte_key : T unit :=
  key ← unwrap advance; assert_eq (zlen (MessageKey.key key)) 32.

(** The tests that hold for every keyed hash, and those that need its outputs. *)
Definition structural : list (T unit) :=
  [new_ratchet_starts_at_generation_zero; advance_increments_generation; ratchet_is_deterministic;
   advance_to_current_generation; advance_to_skips_forward; advance_to_matches_sequential_advance;
   advance_to_rejects_past_generation; advance_to_rejects_too_far_ahead].
Definition hashing : list (T unit) :=
  [advance_produces_unique_keys; different_seeds_produce_different_keys; message_key_has_32_byte_key].
End tests.
End ratchet_tests.

(** ** [encryption.rs] *)
Module encryption_tests.
Import Test encryption derivation_tests.
Section tests.
Context `{Primitives}.
Abbreviation T := (Test unit).
(** [key[i] = (i + target_gen) as u8], then [target_gen + 1] advances. *)
Definition test_message_key (target_gen : Z) : T MessageKey :=
  let key := map (λ i, byte_of_Z ((i + target_gen) mod 256)) (seqZ 0 32) in
  scoped (SymmetricRatchet.new key) (
    msg_key ← unwrap SymmetricRatchet.advance;
    foldl (λ m _, m;; unwrap SymmetricRatchet.advance) (mret msg_key) (seqZ 1 target_gen)).
Definition suffix (b : Z) : bytes := replicate NONCE_RANDOM_SIZE (byte_of_Z b).

Definition round_trip (plaintext : bytes) (epoch sender_index b : Z) : T unit :=
  message_key ← test_message_key 0;
  encrypted ← expect (encrypt_message plaintext message_key epoch sender_index (suffix b));
  decrypted ← expect (decrypt_message encrypted message_key);
  assert_eq decrypted plaintext.
Definition encrypt_decrypt_roundtrip : T unit := round_trip (bytes_of_string "Hello, World!") 1 42 0xAB.
Definition encrypt_decrypt_empty_message : T unit := round_trip [] 0 0 0x00.
Definition encrypt_decrypt_large_message : T unit := round_trip (replicate (Z.to_nat (64 * 1024)) (byte_of_Z 0x42)) 100 200 0xFF.
Definition encrypted_message_has_correct_metadata : T unit :=
  message_key ← test_message_key 5;
  encrypted ← expect (encrypt_message (bytes_of_string "test") message_key 42 7 (suffix 0x00));
  assert_eq (EncryptedMessage.epoch encrypted) 42;;
  assert_eq (EncryptedMessage.sender_index encrypted) 7;;
  assert_eq (EncryptedMessage.generation encrypted) 5.
Definition ciphertext_is_larger_than_plaintext : T unit :=
  message_key ← test_message_key 0;
  let plaintext := bytes_of_string "test message" in
  encrypted ← expect (encrypt_message plaintext message_key 0 0 (suffix 0x00));
  assert_eq (zlen (EncryptedMessage.ciphertext encrypted)) (zlen plaintext + EncryptedMessage.POLY1305_TAG_SIZE).
Definition different_random_produces_different_nonces : T unit :=
  message_key ← test_message_key 0;
  let plaintext := bytes_of_string "test" in
  encrypted1 ← expect (encrypt_message plaintext message_key 0 0 (suffix 0x00));
  encrypted2 ← expect (encrypt_message plaintext message_key 0 0 (suffix 0xFF));
  assert_ne (EncryptedMessage.nonce encrypted1) (EncryptedMessage.nonce encrypted2);;
  assert_ne (EncryptedMessage.ciphertext encrypted1) (EncryptedMessage.ciphertext encrypted2).
Definition wrong_key_fails_decryption : T unit :=
  message_key ← test_message_key 0;
  encrypted ← expect (encrypt_message (bytes_of_string "secret message") message_key 0 0 (suffix 0x00));
  let different_seed := Byte.x00 :: replicate 31 (byte_of_Z 0xFF) in
  wrong_key ← scoped (SymmetricRatchet.new different_seed) (unwrap SymmetricRatchet.advance);
  let result := decrypt_message encrypted wrong_key in
  assert (negb (is_ok result));;
  match result with
  | Err (SenderKeyError.DecryptionFailed reason) => assert (contains "authentication" reason)
  | _ => panic
  end.
(** [encrypted.ciphertext[0] ^= 0xFF], unless it is empty. *)
Definition tamper (m : EncryptedMessage) : EncryptedMessage :=
  {| EncryptedMessage.epoch := EncryptedMessage.epoch m; EncryptedMessage.sender_index := EncryptedMessage.sender_index m;
     EncryptedMessage.generation := EncryptedMessage.generation m; EncryptedMessage.nonce := EncryptedMessage.nonce m;
     EncryptedMessage.ciphertext :=
       match EncryptedMessage.ciphertext m with
       | [] => []
       | b :: bs => byte_of_Z (Z.lxor (byte_to_Z b) 0xFF) :: bs
       end |}.
Definition tampered_ciphertext_fails_decryption : T unit :=
  message_key ← test_message_key 0;
  encrypted ← expect (encrypt_message (bytes_of_string "original message") message_key 0 0 (suffix 0x00));
  assert (negb (is_ok (decrypt_message (tamper encrypted) message_key))).
Definition nonce_structure : T unit :=
  let nonce := build_nonce 0x0102030405060708 0x090A0B0C 0x0D0E0F10 (suffix 0xAB) in
  assert_eq (slice 0 8 nonce) (map byte_of_Z [0x01; 0x02; 0x03; 0x04; 0x05; 0x06; 0x07; 0x08]);;
  assert_eq (slice 8 12 nonce) (map byte_of_Z [0x09; 0x0A; 0x0B; 0x0C]);;
  assert_eq (slice 12 16 nonce) (map byte_of_Z [0x0D; 0x0E; 0x0F; 0x10]);;
  assert_eq (slice 16 24 nonce) (replicate 8 (byte_of_Z 0xAB)).
Definition plaintext_len_calculation : T unit :=
  message_key ← test_message_key 0;
  let plaintext := bytes_of_string "hello world" in
  encrypted ← expect (encrypt_message plaintext message_key 0 0 (suffix 0x00));
  assert_eq (EncryptedMessage.plaintext_len encrypted) (zlen plaintext).

Definition all : list (T unit) :=
  [encrypt_decrypt_roundtrip; encrypt_decrypt_empty_message; encrypt_decrypt_large_message;
   encrypted_message_has_correct_metadata; ciphertext_is_larger_than_plaintext;
   different_random_produces_different_nonces; wrong_key_fails_decryption; tampered_ciphertext_fails_decryption;
   nonce_structure; plaintext_len_calculation].
End tests.
End encryption_tests.

(** ** [error.rs] of both crates *)
Module key_error_tests.
Import Test SenderKeyError.
Definition decryption_failed_is_fatal : Test unit unit := assert (is_fatal (DecryptionFailed "tag mismatch")).
Definition unknown_sender_is_not_fatal : Test unit unit := assert (negb (is_fatal (UnknownSender 42))).
Definition epoch_mismatch_is_not_fatal : Test unit unit := assert (negb (is_fatal (EpochMismatch 5 3))).
Definition error_display : Test unit unit :=
  assert_eq (to_string (RatchetTooFarBehind 10 100)) "ratchet too far behind: at generation 10, need 100".
End key_error_tests.

Module client_error_tests.
Import Test ClientError.
Definition room_not_found_is_transient : Test unit unit := assert (negb (is_fatal (RoomNotFound 123))).
Definition invalid_frame_is_fatal : Test unit unit := assert (is_fatal (InvalidFrame "bad magic")).
Definition sync_required_is_transient : Test unit unit := assert (negb (is_fatal (SyncRequired 123 5))).
Definition error_display : Test unit unit :=
  assert_eq (to_string (EpochMismatch 5 3)) "epoch mismatch: expected 5, got 3".
End client_error_tests.

(** ** [sender_key_store.rs] *)
Module store_tests.
Import Test SenderKeyStore.
Section tests.
Context `{Primitives}.
Abbreviation T := (Test unit).
Definition test_epoch_secret : bytes := map byte_of_Z (seqZ 0 32).
Definition noise (b : Z) : bytes := replicate encryption.NONCE_RANDOM_SIZE (byte_of_Z b).
Definition store (epoch : Z) (members : list Z) : SenderKeyStore := initialize_epoch test_epoch_secret epoch members.
(** A test whose variable [store] is initialised at epoch 1. *)
Definition with_store {A} (members : list Z) (t : Test SenderKeyStore A) : T A := scoped (store 1 members) t.

Definition initialize_epoch_creates_ratchets_for_all_members : T unit :=
  with_store [0; 1; 5; 10] (
    e ← look epoch; assert_eq e 1;;
    n ← look member_count; assert_eq n 4;;
    m_iter (λ i, b ← look (has_member i); assert b) [0; 1; 5; 10];;
    b ← look (has_member 2); assert (negb b)).
Definition encrypt_decrypt_roundtrip : T unit :=
  let plaintext := bytes_of_string "Hello, World!" in
  encrypted ← with_store [0; 1] (unwrap (encrypt 0 plaintext (noise 0xAB)));
  assert_eq (EncryptedMessage.epoch encrypted) 1;;
  assert_eq (EncryptedMessage.sender_index encrypted) 0;;
  assert_eq (EncryptedMessage.generation encrypted) 0;;
  decrypted ← with_store [0; 1] (unwrap (decrypt encrypted));
  assert_eq decrypted plaintext.
Definition encrypt_advances_ratchet : T unit :=
  with_store [0] (
    g ← look (generation 0); assert_eq g (Some 0);;
    unwrap (encrypt 0 (bytes_of_string "msg1") (noise 0));;
    g ← look (generation 0); assert_eq g (Some 1);;
    unwrap (encrypt 0 (bytes_of_string "msg2") (noise 0));;
    g ← look (generation 0); assert_eq g (Some 2)).
Definition message (epoch sender_index : Z) : EncryptedMessage :=
  {| EncryptedMessage.epoch := epoch; EncryptedMessage.sender_index := sender_index; EncryptedMessage.generation := 0;
     EncryptedMessage.nonce := replicate 24 Byte.x00; EncryptedMessage.ciphertext := replicate 32 Byte.x00 |}.
Definition decrypt_unknown_sender_fails : T unit :=
  with_store [0] (
    result ← m_try (decrypt (message 1 5));
    assert (match result with Err (SenderKeyError.UnknownSender 5) => true | _ => false end)).
Definition decrypt_wrong_epoch_fails : T unit :=
  with_store [0] (
    result ← m_try (decrypt (message 2 0));
    assert (match result with Err (SenderKeyError.EpochMismatch 1 2) => true | _ => false end)).
Definition out_of_order_messages_decrypt : T unit :=
  sent ← with_store [0; 1] (
    msg0 ← unwrap (encrypt 0 (bytes_of_string "msg0") (noise 0));
    _msg1 ← unwrap (encrypt 0 (bytes_of_string "msg1") (noise 1));
    msg2 ← unwrap (encrypt 0 (bytes_of_string "msg2") (noise 2));
    mret (msg0, msg2));
  with_store [0; 1] (
    decrypted ← unwrap (decrypt (snd sent));
    assert_eq decrypted (bytes_of_string "msg2");;
    result ← m_try (decrypt (fst sent));
    assert (match result with Err (SenderKeyError.RatchetTooFarBehind _ _) => true | _ => false end)).
Definition different_epochs_produce_different_keys : T unit :=
  msg1 ← scoped (store 1 [0]) (unwrap (encrypt 0 (bytes_of_string "test") (noise 0)));
  msg2 ← scoped (store 2 [0]) (unwrap (encrypt 0 (bytes_of_string "test") (noise 0)));
  assert_ne (EncryptedMessage.ciphertext msg1) (EncryptedMessage.ciphertext msg2).

Definition all : list (T unit) :=
  [initialize_epoch_creates_ratchets_for_all_members; encrypt_decrypt_roundtrip; encrypt_advances_ratchet;
   decrypt_unknown_sender_fails; decrypt_wrong_epoch_fails; out_of_order_messages_decrypt;
   different_epochs_produce_different_keys].
End tests.
End store_tests.

(** ** [client.rs] *)
Module client_tests.
Import Test Client ClientError ClientAction.
Section tests.
Context `{PayloadCodec} `{Primitives} {Env : Type} `{Environment Env} `{OpenMls Env} `{Ed25519}.
Abbreviation T := (Test (Client (T := Env))).
(** The variable [client], with member id 42. *)
Definition client (env : Env) : Client (T := Env) := new env {| sender_id := 42 |}.
Definition room_id : Z := 0x1234.
Definition action_at (actions : list ClientAction) (i : nat) : T ClientAction :=
  match actions !! i with Some a => mret a | None => panic end.
Definition create (room : Z) : T (list ClientAction) := unwrap (handle (CreateRoom room)).

Definition create_client : T unit :=
  i ← look client_sender_id; assert_eq i 42;; n ← look room_count; assert_eq n 0.
Definition create_room : T unit :=
  let room_id := 0x123456789abcdef0 in
  actions ← create room_id;
  b ← look (is_member room_id); assert b;;
  e ← look (epoch room_id); assert_eq e (Some 0);;
  assert (match actions with [] => false | _ => true end).
Definition create_duplicate_room_fails : T unit :=
  create room_id;;
  result ← m_try (handle (CreateRoom room_id));
  assert (match result with Err (RoomAlreadyExists _) => true | _ => false end).
Definition send_message_to_unknown_room_fails : T unit :=
  result ← m_try (handle (SendMessage 0x9999 (bytes_of_string "hello")));
  assert (match result with Err (RoomNotFound _) => true | _ => false end).
Definition leave_room : T unit :=
  create room_id;;
  b ← look (is_member room_id); assert b;;
  actions ← unwrap (handle (LeaveRoom room_id));
  b ← look (is_member room_id); assert (negb b);;
  a ← action_at actions 0; assert (match a with RoomRemoved _ _ => true | _ => false end).
Definition leave_unknown_room_fails : T unit :=
  result ← m_try (handle (LeaveRoom 0x9999));
  assert (match result with Err (RoomNotFound _) => true | _ => false end).
Definition send_message_produces_encrypted_frame : T unit :=
  create room_id;;
  actions ← unwrap (handle (SendMessage room_id (bytes_of_string "Hello, World!")));
  assert_eq (zlen actions) 1;;
  a ← action_at actions 0;
  match a with
  | Send frame =>
      assert (bool_decide (FrameHeader.opcode_enum (Frame.header frame) = Some Opcode.AppMessage));;
      assert_eq (FrameHeader.room_id (Frame.header frame)) room_id;;
      assert (match Frame.payload frame with [] => false | _ => true end);;
      assert (negb (bool_decide (Frame.payload frame = bytes_of_string "Hello, World!")))
  | _ => panic
  end.
Definition app_message_with_invalid_signature_is_rejected : T unit :=
  create room_id;;
  let header := FrameHeader.set_epoch 0 (FrameHeader.set_sender_id 42 (FrameHeader.set_room_id room_id
    (FrameHeader.new Opcode.AppMessage))) in
  result ← m_try (handle (FrameReceived (Frame.new header [])));
  assert (match result with Err (InvalidFrame _) => true | _ => false end).
Definition encrypt_decrypt_roundtrip_same_client : T unit :=
  create room_id;;
  actions ← unwrap (handle (SendMessage room_id (bytes_of_string "Secret message")));
  a ← action_at actions 0;
  match a with
  | Send frame =>
      encrypted ← expect (deserialize_encrypted_message (Frame.payload frame));
      assert_eq (app.msg_epoch encrypted) 0;;
      assert_eq (app.msg_sender_index encrypted) 0;;
      assert_eq (app.msg_generation encrypted) 0;;
      assert (match app.msg_ciphertext encrypted with [] => false | _ => true end);;
      found ← look (λ c, rooms c !! room_id);
      match found with
      | Some room => assert_eq (SenderKeyStore.generation 0 (sender_keys room)) (Some 1)
      | None => panic
      end
  | _ => panic
  end.

Definition all : list (T unit) :=
  [create_client; create_room; create_duplicate_room_fails; send_message_to_unknown_room_fails; leave_room;
   leave_unknown_room_fails; send_message_produces_encrypted_frame; app_message_with_invalid_signature_is_rejected;
   encrypt_decrypt_roundtrip_same_client].
End tests.
End client_tests.

(** ** They pass *)
Module ClientTheory.
Import Test.

(** Primitives with the output sizes of the real ones: 32 bytes of a polynomial
    hash, and a cipher that leaves the text in clear and appends a tag of 16
    bytes. *)
Definition mix (key msg : bytes) : Z :=
  foldl (λ h b, Z.land (h * 33 + byte_to_Z b + 1) 0xFFFFFFFFFFFFFFFF) 7 (key ++ msg).
Definition tag (k n p : bytes) : bytes := to_be_bytes 16 (mix k (n ++ p)).
Definition sized : Primitives := {|
  hmac_sha256 k m := to_be_bytes 32 (mix k m);
  hkdf_sha256 s i := to_be_bytes 32 (mix s i);
  aead_encrypt k n p := Some (p ++ tag k n p);
  aead_decrypt k n c :=
    let p := take (length c - 16) c in
    if bool_decide (drop (length c - 16) c = tag k n p) then Some p else None;
|}.
Lemma sized_ok : PrimitivesOk (H := sized).
Proof.
  intros k n p c [= <-]. cbn. assert (length (tag k n p) = 16%nat) as Ht
    by (unfold tag; apply length_to_be_bytes).
  rewrite length_app, Ht, Nat.add_sub, take_app_length, drop_app_length. by rewrite bool_decide_true.
Qed.

Theorem key_tests_pass :
  all_pass tt (derivation_tests.all (H := sized)) ∧ all_pass ratchet_tests.ratchet (ratchet_tests.hashing (H := sized))
  ∧ all_pass tt (encryption_tests.all (H := sized)) ∧ all_pass tt (store_tests.all (H := sized))
  ∧ all_pass tt [key_error_tests.decryption_failed_is_fatal; key_error_tests.unknown_sender_is_not_fatal;
      key_error_tests.epoch_mismatch_is_not_fatal; key_error_tests.error_display;
      client_error_tests.room_not_found_is_transient; client_error_tests.invalid_frame_is_fatal;
      client_error_tests.sync_required_is_transient; client_error_tests.error_display].
Proof. vm_compute. auto. Qed.

(** The tests that do not look at the output of the hash, for every keyed hash. *)
Section any_hash.
Context `{Primitives}.
Import SymmetricRatchet ratchet_tests.
Lemma advance_both_at seed g :
  0 ≤ g < U32_MAX → advance_both (at_gen seed g, at_gen seed g) = (Ok tt, (at_gen seed (g + 1), at_gen seed (g + 1))).
Proof.
  intros Hg. unfold advance_both, unwrap. munfold. cbn [fst snd]. rewrite advance_at by done.
  cbn [fst snd]. rewrite advance_at by done. unfold assert_eq. by rewrite !bool_decide_true.
Qed.
Lemma advance_both_all seed l g :
  0 ≤ g → g + zlen l ≤ U32_MAX →
  m_iter (λ _ : Z, advance_both) l (at_gen seed g, at_gen seed g) = (Ok tt, (at_gen seed (g + zlen l), at_gen seed (g + zlen l))).
Proof.
  revert g. induction l as [|x l IH]; intros g Hg Hl; cbn [m_iter].
  - by rewrite Z.add_0_r.
  - unfold zlen in *. cbn [length] in *. munfold. rewrite advance_both_at by lia. rewrite IH by lia.
    by replace (g + Z.of_nat (S (length l))) with (g + 1 + Z.of_nat (length l)) by lia.
Qed.
Lemma sequential_is_skip : passes ratchet advance_to_matches_sequential_advance = true.
Proof.
  assert ((m_iter (λ _, unwrap advance;; mret tt) (seqZ 0 5);; unwrap advance) (new test_seed)
    = (Ok (key_at test_seed 5), at_gen test_seed 6)) as Hseq by reflexivity.
  assert (unwrap (advance_to 5) (new test_seed) = (Ok (key_at test_seed 5), at_gen test_seed 6)) as Hskip by reflexivity.
  unfold passes, advance_to_matches_sequential_advance, scoped. rewrite Hseq, Hskip. munfold. cbn [fst].
  unfold assert_eq. by rewrite bool_decide_true.
Qed.
Theorem ratchet_tests_pass : all_pass ratchet structural.
Proof.
  unfold all_pass, structural. cbn [forallb]. repeat (apply andb_true_intro; split); try reflexivity.
  - unfold passes, ratchet_is_deterministic, scoped. change (new test_seed) with (at_gen test_seed 0).
    rewrite advance_both_all; [done|lia|]. vm_compute. discriminate.
  - apply sequential_is_skip.
Qed.
End any_hash.

Section concrete.
#[local] Existing Instances ToyClient.codec sized ToyMls.ops ToyClient.ed.
Theorem client_tests_pass : all_pass (client_tests.client (Env := ToyEnv.T) (0, 0)) client_tests.all.
Proof. vm_compute. reflexivity. Qed.
End concrete.
End ClientTheory.
