(* ===== verification/TestsHarness.v ===== *)
(** * The unit tests of the harness

    The tests of [lockframe-harness]: the simulated environment, the simulated
    server and the scenario builder.  The scheduler of [turmoil] runs one task in
    each of these tests, so the task's body is the test. *)

From Stdlib Require Import ZArith Lia.
From S2P Require Import Prelude Opcodes Header Frame Payload Connection MlsState Storage Registry Validator MlsGroup.
From S2P Require Import RoomManager ServerDriver Server Scenario SimServer TestsProto.

(** ** [sim_env.rs] *)
Module sim_env_tests.
Import Test SimEnv.
Section tests.
Context {R : Type} `{Rng R} (start_of_simulation : Z).
Abbreviation T := (Test (SimEnv R)).

(** The variable is [SimEnv::new()]. *)
Definition sim_env_time_advances : T unit :=
  start ← on now;
  m_modify (sleep (from_secs 5));;
  end_ ← on now;
  assert_eq (end_ - start) (from_secs 5).
Definition run_test (seed : Z) : bytes := fst (random_bytes 64 (with_seed start_of_simulation seed)).
Definition sim_env_rng_is_deterministic : T unit :=
  let bytes1 := run_test 12345 in
  let bytes2 := run_test 12345 in
  assert_eq bytes1 bytes2;;
  let bytes3 := run_test 54321 in
  assert_ne bytes1 bytes3.
Definition sim_env_rng_different_calls_different_output : T unit :=
  bytes1 ← on (random_bytes 32);
  bytes2 ← on (random_bytes 32);
  assert_ne bytes1 bytes2.
(** The clones share the state. *)
Definition sim_env_clones_share_rng_state : T unit :=
  scoped (with_seed start_of_simulation 999) (
    bytes1 ← on (random_bytes 32);
    bytes2 ← on (random_bytes 32);
    assert_ne bytes1 bytes2).
End tests.
End sim_env_tests.

(** ** [sim_server.rs] *)
Module sim_server_tests.
Import Test.
Section tests.
Context `{PayloadCodec} {Env : Type} `{Environment Env} `{OpenMls Env} `{Ed25519}.
Abbreviation T := (Test (SimServer.SimServer (T := Env) (S := MemoryStorage))).
(** The variable [server] is what [SimServer::bind] returns. *)
Definition server (env : Env) := SimServer.bind env MemoryStorage.new.

Definition sim_server_binds : T unit := n ← look SimServer.connection_count; assert_eq n 0.
Definition sim_server_creates_room : T unit :=
  let room_id := 0x1234567890abcdef1234567890abcdef in
  m_try (SimServer.process_event (ConnectionAccepted 1));;
  unwrap (SimServer.create_room room_id 1);;
  b ← look (SimServer.has_room room_id); assert b.
End tests.
End sim_server_tests.

(** ** [scenario/builder.rs] *)
Module builder_tests.
Import Test.
Section tests.
Context `{PayloadCodec} (now : Z).
Definition scenario_requires_oracle : Test unit unit :=
  let _scenario := Scenario.oracle (λ _world, Ok tt) Scenario.new in mret tt.
Definition scenario_creates_connections : Test unit unit :=
  let scenario := Scenario.oracle (λ world,
    _client ← World.get_client world;
    _server ← World.get_server world;
    Ok tt) Scenario.new in
  expect (Scenario.run scenario now).
End tests.
End builder_tests.

(** ** They pass *)
Module HarnessTheory.
Import Test sim_env_tests.

(** For a generator whose 64 bytes from the two seeds differ and which never
    repeats 32 bytes in a row. *)
Theorem sim_env_tests_pass {R} `{SimEnv.Rng R} t0 :
  fst (SimEnv.fill_bytes 64 (SimEnv.seed_from_u64 12345)) ≠ fst (SimEnv.fill_bytes 64 (SimEnv.seed_from_u64 54321)) →
  (∀ r, fst (SimEnv.fill_bytes 32 (snd (SimEnv.fill_bytes 32 r))) ≠ fst (SimEnv.fill_bytes 32 r)) →
  all_pass (SimEnv.new t0)
    [sim_env_time_advances; sim_env_rng_is_deterministic t0; sim_env_rng_different_calls_different_output;
     sim_env_clones_share_rng_state t0].
Proof.
  intros Hseed Hfresh. unfold all_pass. cbn [forallb].
  assert (∀ r, negb (bool_decide (fst (SimEnv.fill_bytes 32 r)
                       = fst (SimEnv.fill_bytes 32 (snd (SimEnv.fill_bytes 32 r))))) = true) as Hr.
  { intros r. rewrite bool_decide_false; [done|]. intros E. by eapply Hfresh. }
  repeat (apply andb_true_intro; split); [| | | |done].
  - unfold passes, sim_env_time_advances, on, assert_eq. munfold. cbn -[from_secs]. rewrite bool_decide_true by lia. done.
  - unfold passes, sim_env_rng_is_deterministic, assert_eq, assert_ne. munfold. rewrite bool_decide_true by done.
    unfold run_test, SimEnv.random_bytes, SimEnv.with_seed. cbn [SimEnv.rng].
    destruct (SimEnv.fill_bytes 64 (SimEnv.seed_from_u64 12345)), (SimEnv.fill_bytes 64 (SimEnv.seed_from_u64 54321)).
    cbn [fst] in *. by rewrite bool_decide_false.
  - specialize (Hr (SimEnv.seed_from_u64 0)).
    unfold passes, sim_env_rng_different_calls_different_output, on, SimEnv.random_bytes, SimEnv.new, SimEnv.with_seed, assert_ne.
    munfold. cbn [SimEnv.rng SimEnv.clock]. destruct (SimEnv.fill_bytes 32 (SimEnv.seed_from_u64 0)) as [b1 r1]. cbn in *.
    destruct (SimEnv.fill_bytes 32 r1) as [b2 r2]. cbn in *. by rewrite Hr.
  - specialize (Hr (SimEnv.seed_from_u64 999)).
    unfold passes, sim_env_clones_share_rng_state, scoped, on, SimEnv.random_bytes, SimEnv.with_seed, assert_ne.
    munfold. cbn [SimEnv.rng SimEnv.clock]. destruct (SimEnv.fill_bytes 32 (SimEnv.seed_from_u64 999)) as [b1 r1]. cbn in *.
    destruct (SimEnv.fill_bytes 32 r1) as [b2 r2]. cbn in *. by rewrite Hr.
Qed.

(** At concrete libraries. *)
Section concrete.
#[local] Existing Instances ToyCodec.codec ToyMls.ops ToyMls.ed.
Theorem harness_tests_pass t0 :
  all_pass (sim_server_tests.server (Env := ToyEnv.T) (0, 0)) [sim_server_tests.sim_server_binds; sim_server_tests.sim_server_creates_room]
  ∧ all_pass tt [builder_tests.scenario_requires_oracle; builder_tests.scenario_creates_connections t0].
Proof. split; vm_compute; reflexivity. Qed.
End concrete.
End HarnessTheory.
