(* ===== verification/TestsTransport.v ===== *)
(** * The unit tests of the outermost layer

    The tests of [sim_transport.rs], which run a server and a client as two tasks of
    the simulator, and those of [system_env.rs] and of the server's
    [transport.rs].

    A task of the simulator is an [async] block: it awaits calls of the network, which
    may not be ready yet and whose result the network may choose.  A test is checked
    over every schedule of its tasks and every choice of the network, by an
    executable search that is proved to cover them all. *)

From Stdlib Require Import ZArith Lia.
From S2P Require Import Prelude Opcodes Header Frame Payload Connection MlsState Storage Sequencer.
From S2P Require Import Registry Validator MlsGroup RoomManager ServerDriver Server Tasks Transport TestsProto.

(** ** Tasks that take turns *)
Module Simulation.
Import SimTransport.

(** An [async] block over the state [W] of the network.  [op w] lists what the
    awaited call may do in the state [w]; nothing, as long as it is not ready. *)
Inductive Task (W A : Type) : Type :=
| Finished (r : outcome IoError A)
| Await {B : Type} (op : W → list (outcome IoError B * W)) (k : B → Task W A).
Arguments Finished {W A}. Arguments Await {W A B}.

Section task.
Context {W : Type}.

(** [.await?], [?] on a value, and an assertion. *)
Fixpoint bind {A B} (t : Task W A) (k : A → Task W B) : Task W B :=
  match t with
  | Finished (Ok a) => k a
  | Finished (Err e) => Finished (Err e)
  | Finished Panic => Finished Panic
  | Await op k' => Await op (λ b, bind (k' b) k)
  end.
Definition await {B} (op : W → list (outcome IoError B * W)) : Task W B := Await op (λ b, Finished (Ok b)).
(** A call that waits for a condition and then has one result. *)
Definition when {B} (ready : W → bool) (op : M W IoError B) : Task W B :=
  await (λ w, if ready w then [op w] else []).
Definition assert (b : bool) : Task W unit := if b then Finished (Ok tt) else Finished Panic.

(** What a turn of a task may lead to. *)
Definition turns {A} (t : Task W A) (w : W) : list (Task W A * W) :=
  match t with
  | Finished _ => []
  | Await op k => (λ p, (bind (Finished (fst p)) k, snd p)) <$> op w
  end.

(** A simulation of one host and one client; its run ends when the client is done
    or one of the two fails ([turmoil::Sim::run]). *)
Record Sim : Type := { host : Task W unit; client : Task W unit; net : W }.
Definition verdict (s : Sim) : option bool :=
  match host s, client s with
  | Finished (Err _), _ | Finished Panic, _ => Some false
  | _, Finished (Ok _) => Some true
  | _, Finished _ => Some false
  | _, _ => None
  end.
Definition successors (s : Sim) : list Sim :=
  match verdict s with
  | Some _ => []
  | None =>
      ((λ p, {| host := fst p; client := client s; net := snd p |}) <$> turns (host s) (net s))
      ++ ((λ p, {| host := host s; client := fst p; net := snd p |}) <$> turns (client s) (net s))
  end.
Definition step (s s' : Sim) : Prop := s' ∈ successors s.

(** Every run from [s] comes to an end, and with success: no task fails and none is
    left waiting for ever. *)
Inductive Passes : Sim → Prop :=
| passes_done s : verdict s = Some true → Passes s
| passes_step s s' : step s s' → (∀ s', step s s' → Passes s') → Passes s.

(** The search through all runs of at most [n] turns. *)
Fixpoint explore (n : nat) (s : Sim) : bool :=
  match verdict s with
  | Some b => b
  | None =>
      match n, successors s with
      | O, _ | _, [] => false
      | Datatypes.S n, l => forallb (explore n) l
      end
  end.
End task.
Arguments Sim : clear implicits.

Section theory.
Context {W : Type}.
Implicit Types s : Sim W.

Lemma explore_step n s s' : explore (S n) s = true → step s s' → explore n s' = true.
Proof.
  unfold step. cbn [explore]. destruct (verdict s) as [b|] eqn:Hv.
  { unfold successors. rewrite Hv. by intros _ ?%elem_of_nil. }
  destruct (successors s) as [|x l]; [done|]. intros Hall Hin. rewrite forallb_forall in Hall.
  apply Hall. by apply list_elem_of_In.
Qed.

(** The search is sound for termination and success... *)
Lemma explore_passes n s : explore n s = true → Passes s.
Proof.
  revert s. induction n as [|n IH]; intros s He; destruct (verdict s) as [b|] eqn:Hv.
  1,3: cbn in He; rewrite Hv in He; subst; by apply passes_done.
  - cbn in He. by rewrite Hv in He.
  - assert (∃ s', step s s') as [s' Hs].
    { cbn in He. rewrite Hv in He. unfold step. destruct (successors s) as [|s' l]; [done|]. exists s'. apply list_elem_of_here. }
    apply (passes_step s s' Hs). intros s1 Hs1. apply IH. by eapply explore_step.
Qed.
(** ... and its bound is one on the length of every run. *)
Lemma explore_bounds n s k s' : explore n s = true → nsteps step k s s' → (k ≤ n)%nat.
Proof.
  revert s k. induction n as [|n IH]; intros s k He Hn; inversion_clear Hn as [|k' ? s1 ? H1 Hr]; try lia.
  - unfold step, successors in H1. cbn in He. destruct (verdict s) as [b|]; [by apply elem_of_nil in H1|done].
  - assert (k' ≤ n)%nat; [|lia]. eapply IH; [by eapply explore_step|done].
Qed.

(** In a simulation that passes no run ever fails, and every run can only be
    continued to success. *)
Lemma passes_never_fails s s' : Passes s → rtc step s s' → verdict s' ≠ Some false ∧ Passes s'.
Proof.
  intros Hp Hr. induction Hr as [s|s s1 s' H1 _ IH]; [split; [|done]|].
  - inversion_clear Hp as [? Hv|? s2 H2]; [by rewrite Hv|].
    unfold step, successors in H2. destruct (verdict s); [by apply elem_of_nil in H2|done].
  - apply IH. inversion_clear Hp as [? Hv|? s2 H2 Hall]; [|by apply Hall].
    unfold step, successors in H1. rewrite Hv in H1. by apply elem_of_nil in H1.
Qed.

(** The run that always gives the turn to the host if it is ready. *)
Fixpoint host_first (n : nat) (s : Sim W) : Sim W :=
  match n, successors s with
  | Datatypes.S n, s' :: _ => host_first n s'
  | _, _ => s
  end.
Lemma host_first_run n s : rtc step s (host_first n s).
Proof.
  revert s. induction n as [|n IH]; intros s; cbn; [done|]. destruct (successors s) as [|s1 l] eqn:E; [done|].
  eapply rtc_l; [|apply IH]. unfold step. rewrite E. apply list_elem_of_here.
Qed.
End theory.
End Simulation.

(** ** [sim_transport.rs] *)
Module sim_transport_tests.
Import SimTransport Simulation.

(** The reading and writing of turmoil's sockets ([tokio::io]).  [tcp_read half n w]
    lists what a [read] into a buffer of [n] bytes may return: a part of what has
    arrived, nothing at all once the other side has hung up; it is not ready while
    the list is empty. *)
Class SocketIo (W : Type) `{Turmoil W} : Type := {
  accept_ready : TcpListener → W → bool;
  connect_ready : string → W → bool;
  tcp_read : ReadHalf → nat → W → list (bytes * W);
  tcp_write_all : WriteHalf → bytes → W → W;
  tcp_hangup : WriteHalf → W → W;
}.

Section tests.
Context {W : Type} `{SocketIo W}.
Abbreviation T := (Task W).
#[local] Notation "x ⇐ t ; k" := (bind t (λ x, k)) (at level 100, t at level 90, k at level 200, right associativity).

Definition bind_to (address : string) : T SimTransport := when (λ _, true) (SimTransport.bind address).
Definition accept_on (t : SimTransport) : T SimConnection :=
  when (λ w, match listener t with Some l => accept_ready l w | None => true end) (sim_accept t).
Definition connect_host (t : SimTransport) (address : string) : T SimConnection :=
  when (connect_ready address) (connect_to_host t address).
Definition read (half : ReadHalf) (n : nat) : T bytes :=
  await (λ w, (λ p, (Ok (fst p), snd p)) <$> tcp_read half n w).
Definition write_all (half : WriteHalf) (bs : bytes) : T unit :=
  when (λ _, true) (λ w, (Ok tt, tcp_write_all half bs w)).
(** The halves are dropped at the end of the block. *)
Definition hangup (half : WriteHalf) : T unit := when (λ _, true) (λ w, (Ok tt, tcp_hangup half w)).

(** [read_exact] reads until the buffer of [n] bytes is full; every read that is not
    the end of the stream gives a byte at least, so that [n] rounds are enough. *)
Fixpoint read_rounds (fuel : nat) (half : ReadHalf) (n : nat) : T bytes :=
  match fuel, n with
  | _, O => Finished (Ok [])
  | O, _ => Finished Panic
  | Datatypes.S fuel, _ =>
      bs ⇐ read half n;
      if decide (bs = []) then Finished (Err {| kind := UnexpectedEof; message := "early eof" |})
      else rest ⇐ read_rounds fuel half (n - length bs); Finished (Ok (bs ++ rest))
  end.
Definition read_exact (half : ReadHalf) (n : nat) : T bytes := read_rounds n half n.

Definition echo_message : bytes := bytes_of_string "Hello, Lockframe!".
Definition echo_server : T unit :=
  transport ⇐ bind_to "0.0.0.0:443";
  conn ⇐ accept_on transport;
  let '(send, recv) := into_split conn in
  buf ⇐ read recv 128;
  _ ⇐ write_all send buf;
  hangup send.
Definition echo_client : T unit :=
  conn ⇐ connect_host SimTransport.client "server:443";
  let '(send, recv) := into_split conn in
  _ ⇐ write_all send echo_message;
  buf ⇐ read_exact recv (length echo_message);
  _ ⇐ Simulation.assert (bool_decide (buf = echo_message));
  hangup send.
Definition sim_transport_echo (w : W) : Sim W := {| host := echo_server; client := echo_client; net := w |}.

Definition ping_server : T unit :=
  transport ⇐ bind_to "0.0.0.0:443";
  conn ⇐ accept_on transport;
  let '(send, recv) := into_split conn in
  buf ⇐ read_exact recv 4;
  _ ⇐ Simulation.assert (bool_decide (buf = bytes_of_string "ping"));
  _ ⇐ write_all send (bytes_of_string "pong");
  hangup send.
Definition ping_client : T unit :=
  conn ⇐ connect_host SimTransport.client "server:443";
  let '(send, recv) := into_split conn in
  _ ⇐ write_all send (bytes_of_string "ping");
  buf ⇐ read_exact recv 4;
  _ ⇐ Simulation.assert (bool_decide (buf = bytes_of_string "pong"));
  hangup send.
Definition sim_transport_bidirectional (w : W) : Sim W := {| host := ping_server; client := ping_client; net := w |}.
End tests.
End sim_transport_tests.

(** A network of one pipe in each direction.  A connection can be made once the
    server listens and accepted once it is made. *)
Module Pipes.
Import SimTransport sim_transport_tests.
Inductive Side : Type := ServerSide | ClientSide.
Record Pipe : Type := { waiting : bytes; hung_up : bool }.
Record Net : Type := { listening : bool; connected : bool; to_server : Pipe; to_client : Pipe }.
Definition empty_pipe : Pipe := {| waiting := []; hung_up := false |}.
Definition start : Net := {| listening := false; connected := false; to_server := empty_pipe; to_client := empty_pipe |}.
Definition with_to_server (p : Pipe) (w : Net) : Net :=
  {| listening := listening w; connected := connected w; to_server := p; to_client := to_client w |}.
Definition with_to_client (p : Pipe) (w : Net) : Net :=
  {| listening := listening w; connected := connected w; to_server := to_server w; to_client := p |}.
Definition inbox (s : Side) (w : Net) : Pipe := match s with ServerSide => to_server w | ClientSide => to_client w end.
Definition with_inbox (s : Side) (p : Pipe) (w : Net) : Net :=
  match s with ServerSide => with_to_server p w | ClientSide => with_to_client p w end.
Definition other (s : Side) : Side := match s with ServerSide => ClientSide | ClientSide => ServerSide end.

Definition ops : Turmoil Net := {|
  NetAddr := unit; TcpListener := unit; TcpStream := Side; ReadHalf := Side; WriteHalf := Side;
  tcp_bind _ w := (Ok tt, {| listening := true; connected := connected w; to_server := to_server w; to_client := to_client w |});
  tcp_accept _ w := (Ok (ServerSide, tt), w);
  tcp_connect_host _ w :=
    (Ok ClientSide, {| listening := listening w; connected := true; to_server := to_server w; to_client := to_client w |});
  tcp_connect _ w :=
    (Ok ClientSide, {| listening := listening w; connected := true; to_server := to_server w; to_client := to_client w |});
  io_split s := (s, s);
|}.
(** [sizes m] are the lengths that a read of [m] available bytes may return. *)
Section io.
Context (sizes : nat → list nat).
Definition read (s : Side) (n : nat) (w : Net) : list (bytes * Net) :=
  match waiting (inbox s w) with
  | [] => if hung_up (inbox s w) then [([], w)] else []
  | bs => (λ k, (take k bs, with_inbox s {| waiting := drop k bs; hung_up := hung_up (inbox s w) |} w))
            <$> sizes (Nat.min n (length bs))
  end.
Definition write (s : Side) (bs : bytes) (w : Net) : Net :=
  let p := inbox (other s) w in with_inbox (other s) {| waiting := waiting p ++ bs; hung_up := hung_up p |} w.
Definition hang_up (s : Side) (w : Net) : Net :=
  let p := inbox (other s) w in with_inbox (other s) {| waiting := waiting p; hung_up := true |} w.
Definition io : @SocketIo Net ops := @Build_SocketIo Net ops (λ _, connected) (λ _, listening) read write hang_up.
End io.
(** A read returns any part of what is there, or always all of it. *)
Definition any_part : nat → list nat := seq 1.
Definition all_of_it (m : nat) : list nat := [m].
End Pipes.

Module SimTransportTests.
Import Simulation sim_transport_tests Pipes.

(** The exchange of ping and pong succeeds under every schedule, however the bytes
    are cut up on the way. *)
Theorem bidirectional_passes :
  let s := sim_transport_bidirectional (H := ops) (H0 := io any_part) start in
  Passes s ∧ ∀ k s', nsteps step k s s' → (k ≤ 15)%nat.
Proof.
  assert (explore 15 (sim_transport_bidirectional (H := ops) (H0 := io any_part) start) = true) as He by (vm_compute; reflexivity).
  split; [by eapply explore_passes|]. intros k s'. by apply explore_bounds.
Qed.

(** The echo succeeds under every schedule of a network that delivers what was
    written in one piece. *)
Theorem echo_passes : Passes (sim_transport_echo (H := ops) (H0 := io all_of_it) start).
Proof. apply (explore_passes 9). vm_compute. reflexivity. Qed.

(** It relies on that: the server reads once, so that a read that returns a part of
    the message has the client wait for the rest until the server hangs up. *)
Theorem echo_fails_on_a_short_read :
  ∃ s, rtc step (sim_transport_echo (H := ops) (H0 := io (λ _, [1%nat])) start) s ∧ verdict s = Some false.
Proof.
  eexists. split; [apply (host_first_run 15)|]. vm_compute. reflexivity.
Qed.
End SimTransportTests.

(** ** [system_env.rs] *)
Module system_env_tests.
Import Test SystemEnv.
Section tests.
Context {W : Type} `{OperatingSystem W}.
(** [std::thread::sleep] and [tokio::time::sleep]. *)
Context (thread_sleep tokio_sleep : Z → W → W).
Abbreviation T := (Test (Host W)).
(** [Duration::from_millis], in nanoseconds. *)
Definition from_millis (ms : Z) : Z := ms * 1000000.
Definition sleep (how : Z → W → W) (duration : Z) : T unit :=
  m_modify (λ h, {| system := how duration (system h); trace := trace h |}).

Definition system_env_time_advances : T unit :=
  t1 ← on now;
  sleep thread_sleep (from_millis 10);;
  t2 ← on now;
  assert (t1 <? t2).
Definition system_env_random_bytes_are_random : T unit :=
  bytes1 ← on (random_bytes 32);
  bytes2 ← on (random_bytes 32);
  assert_ne bytes1 bytes2.
Definition non_zero_count (bs : bytes) : nat := length (filter (λ b, b ≠ Byte.x00) bs).
Definition system_env_random_bytes_fills_buffer : T unit :=
  bytes ← on (random_bytes 64);
  assert (32 <? Z.of_nat (non_zero_count bytes)).
Definition system_env_sleep_works : T unit :=
  start ← on now;
  sleep tokio_sleep (from_millis 50);;
  end_ ← on now;
  assert (from_millis 50 <=? end_ - start).
End tests.

Section theory.
Context {W : Type} `{OperatingSystemOk W} (thread_sleep tokio_sleep : Z → W → W).
(** A sleep lasts at least as long as it is told to. *)
Definition Sleeps (how : Z → W → W) : Prop := ∀ d w, os_clock w + d ≤ os_clock (how d w).

Lemma now_after_sleep how d h :
  Sleeps how → fst (now h) + d ≤ fst (now {| system := how d (system (snd (now h))); trace := trace (snd (now h)) |}).
Proof.
  intros Hs. unfold now. pose proof (instant_reads (system h)) as Hr. pose proof (instant_monotone (system h)) as Hm.
  destruct (instant_now (system h)) as [t w]. cbn in *. pose proof (instant_reads (how d w)) as Hr2.
  destruct (instant_now (how d w)) as [t2 w2]. cbn in *. specialize (Hs d w). lia.
Qed.

(** The tests of the clock pass on every system whose sleeps last. *)
Theorem clock_tests_pass h :
  Sleeps thread_sleep → Sleeps tokio_sleep →
  all_pass h [system_env_time_advances thread_sleep; system_env_sleep_works tokio_sleep].
Proof.
  intros Ht Hk. pose proof (now_after_sleep _ (from_millis 10) h Ht) as H1. pose proof (now_after_sleep _ (from_millis 50) h Hk) as H2.
  unfold all_pass, passes, system_env_time_advances, system_env_sleep_works, sleep, on. cbn [forallb]. munfold.
  destruct (now h) as [t1 h1]. cbn [fst snd] in *.
  destruct (now {| system := thread_sleep (from_millis 10) (system h1); trace := _ |}) as [t2 h2].
  destruct (now {| system := tokio_sleep (from_millis 50) (system h1); trace := _ |}) as [t3 h3]. cbn [fst] in *.
  rewrite (proj2 (Z.ltb_lt t1 t2)) by (unfold from_millis in *; lia). rewrite (proj2 (Z.leb_le _ _)) by lia. reflexivity.
Qed.

(** The tests of the generator notice the fallback: none of them passes on a system
    whose generator fails, where every buffer is zeros. *)
Theorem generator_tests_notice_failure h :
  (∀ n w, ∃ e, fst (getrandom_fill n w) = inl e) →
  passes h system_env_random_bytes_are_random = false ∧ passes h system_env_random_bytes_fills_buffer = false.
Proof.
  intros Hf. assert (∀ n h, fst (random_bytes n h) = replicate n Byte.x00) as Hz.
  { intros n h'. unfold random_bytes. destruct (Hf n (system h')) as [e He].
    destruct (getrandom_fill n (system h')) as [[e'|bs] w]; by simplify_eq/=. }
  unfold passes, system_env_random_bytes_are_random, system_env_random_bytes_fills_buffer, on, assert_ne. munfold.
  pose proof (Hz 32%nat h) as E1. destruct (random_bytes 32 h) as [b1 h1]. cbn in E1. subst b1.
  pose proof (Hz 32%nat h1) as E2. destruct (random_bytes 32 h1) as [b2 h2]. cbn in E2. subst b2.
  pose proof (Hz 64%nat h) as E3. destruct (random_bytes 64 h) as [b3 h3]. cbn in E3. subst b3. by vm_compute.
Qed.
(** They pass when it works, gives two different buffers and mostly non-zero bytes. *)
Theorem generator_tests_pass h bs1 bs2 bs3 w1 w2 w3 :
  getrandom_fill 32 (system h) = (inr bs1, w1) → getrandom_fill 32 w1 = (inr bs2, w2) → bs1 ≠ bs2 →
  getrandom_fill 64 (system h) = (inr bs3, w3) → (32 < non_zero_count bs3)%nat →
  all_pass h [system_env_random_bytes_are_random; system_env_random_bytes_fills_buffer].
Proof.
  intros E1 E2 Hne E3 Hc. unfold all_pass, passes, system_env_random_bytes_are_random, system_env_random_bytes_fills_buffer, on,
    assert_ne, random_bytes. cbn [forallb]. munfold. rewrite E1. cbn [system]. rewrite E2, E3. cbn [fst].
  rewrite bool_decide_false by done. rewrite (proj2 (Z.ltb_lt _ _)) by lia. reflexivity.
Qed.
End theory.
End system_env_tests.

(** ** [transport.rs] of the server *)
Module transport_tests.
Import Test QuinnTransport.
Section tests.
Context {W : Type} `{Quinn W} (port : SocketAddr → Z).
Abbreviation T := (Test (Host W)).
Definition is_ok {E A} (r : outcome E A) : bool := match r with Ok _ => true | _ => false end.

(** The call that a test awaits, its result as a value. *)
Definition bound (address : string) : T (outcome RuntimeError QuinnTransport) := λ h,
  let '(r, h) := bind address None None h in (match r with Panic => Panic | r => Ok r end, h).
Definition transport_binds_with_self_signed : T unit :=
  transport ← bound "127.0.0.1:0";
  assert (is_ok transport);;
  transport ← expect transport;
  addr ← expect (local_addr transport);
  assert_ne (port addr) 0.
Definition transport_rejects_invalid_address : T unit :=
  result ← bound "invalid:address:format";
  assert (negb (is_ok result)).
End tests.

Section theory.
Context {W : Type} `{Quinn W} (port : SocketAddr → Z).
(** A machine on which rcgen and rustls work and an endpoint can be opened at the
    loopback address, at a port that the system chooses. *)
Class Working : Prop := {
  loopback_parses : ∃ a, addr_parse "127.0.0.1:0" = Ok a;
  self_signing_works w : ∃ cert key w', generate_simple_self_signed ["localhost"] w = (Ok (cert, key), w');
  single_cert_works certs key : ∃ t, with_single_cert certs key = Ok t;
  quic_config_works c : ∃ q, quic_try_from c = Ok q;
  endpoint_opens c a w : ∃ ep w', endpoint_server c a w = (Ok ep, w');
  endpoint_has_port ep : ∃ a, endpoint_local_addr ep = Ok a ∧ port a ≠ 0;
}.

(** [bind] without files succeeds on a working machine, and so does the test. *)
Lemma bind_self_signed_works `{!Working} h : ∃ t h', bind "127.0.0.1:0" None None h = (Ok t, h').
Proof.
  destruct loopback_parses as [a Ea], (self_signing_works (system h)) as (cert & key & w1 & Es).
  destruct (single_cert_works [cert] (pkcs8_key key)) as [tl Et].
  destruct (quic_config_works {| tls := tl; client_auth := false; alpn_protocols := [ALPN] |}) as [q Eq].
  destruct (endpoint_opens (with_crypto q) a w1) as (ep & w2 & Ee).
  unfold bind, choose_config, generate_self_signed_config, finish_config, on_system, write_log. munfold. rewrite Ea. cbn -[ALPN].
  rewrite Es. cbn -[ALPN]. rewrite Et. cbn -[ALPN]. rewrite Eq. cbn. rewrite Ee. cbn. eauto.
Qed.
Theorem bind_test_passes `{!Working} h : passes h (transport_binds_with_self_signed port) = true.
Proof.
  destruct (bind_self_signed_works h) as (t & h' & Eb). destruct (endpoint_has_port (endpoint t)) as (a & Ea & Hp).
  unfold passes, transport_binds_with_self_signed, bound, expect, unwrap, local_addr, assert_ne. munfold. rewrite Eb. cbn.
  rewrite Ea. cbn. by rewrite bool_decide_false.
Qed.
(** An address that does not parse is rejected. *)
Theorem invalid_address_test_passes h e :
  addr_parse "invalid:address:format" = Err e → passes h transport_rejects_invalid_address = true.
Proof. intros E. unfold passes, transport_rejects_invalid_address, bound, bind. munfold. by rewrite E. Qed.
End theory.

(** The two tests on [ToyNetwork]. *)
Section toy.
#[local] Existing Instance ToyNetwork.ops.
Definition toy_port (a : string) : Z := 4433.
#[local] Instance toy_working : Working toy_port.
Proof. split; try by (intros; repeat eexists). Qed.
Lemma transport_tests_witness :
  passes demo_host (transport_binds_with_self_signed toy_port) = true ∧ passes demo_host transport_rejects_invalid_address = true.
Proof.
  split; [exact (bind_test_passes toy_port demo_host)|].
  exact (invalid_address_test_passes demo_host "invalid socket address syntax" eq_refl).
Defined.
End toy.
End transport_tests.
