(* ===== verification/TestsProperties.v ===== *)
(** * The property-based tests

    The integration tests that draw their inputs at random:
    [lockframe-core/tests/connection_properties.rs],
    [lockframe-proto/tests/frame_properties.rs],
    [lockframe-crypto/tests/sender_keys_properties.rs] and
    [lockframe-server/tests/room_manager_properties.rs].  Each test is a function of
    the values drawn, with every assertion; the theorems say that it passes for all
    values that its strategies can draw. *)

From Stdlib Require Import ZArith Lia.
From S2P Require Import Prelude Opcodes Header Frame Payload Connection SenderKeys SenderKeyStore ForwardSecrecy.
From S2P Require Import MlsState Storage Sequencer Registry Validator MlsGroup RoomManager TestsProto.

(** ** [connection_properties.rs] *)
Module connection_properties.
Import Test Connection ConnectionState connection_tests.
Section tests.
Context `{PayloadCodec} (now : Z).
Abbreviation T := (Test Connection).

(** [config_strategy], of three numbers of seconds. *)
Definition config_of (handshake idle heartbeat : Z) : ConnectionConfig :=
  {| c_handshake_timeout := from_secs handshake; idle_timeout := from_secs idle; heartbeat_interval := from_secs heartbeat |}.

Definition is_ok {E A} (r : outcome E A) : bool := match r with Ok _ => true | _ => false end.
Definition is_ping (a : ConnectionAction) : bool :=
  match a with SendFrame frame => bool_decide (FrameHeader.opcode_enum (Frame.header frame) = Some Opcode.Ping) | _ => false end.
(** [let mut conn = Connection::new(now, config)]. *)
Definition fresh_conn (config : ConnectionConfig) : T unit := m_modify (λ _, new now config).
(** A HelloReply for the session, handled with whatever result. *)
Definition reply_frame (sid : Z) : T Frame := expect (Payload.into_frame (reply_of sid) (FrameHeader.new Opcode.HelloReply)).
Definition receive (sid : Z) : T (outcome ConnectionError (list ConnectionAction)) :=
  frame ← reply_frame sid; m_try (handle_frame frame now).

Definition prop_send_hello_only_from_init : T unit :=
  r ← m_try (send_hello now); assert (is_ok r);;
  assert_state Pending;;
  result ← m_try (send_hello now);
  assert (negb (is_ok result));;
  assert (match result with Err (ConnectionError.InvalidState _ _) => true | _ => false end).

Definition prop_state_never_goes_backward (sid : Z) : T unit :=
  s0 ← look state;
  m_try (send_hello now);;
  s1 ← look state;
  receive sid;;
  s2 ← look state;
  assert (bool_decide (s0 = Init));; assert (bool_decide (s1 = Pending));; assert (bool_decide (s2 = Authenticated)).

(** The client's handshake without an answer; [timeout] is [config.handshake_timeout]. *)
Definition prop_timeout_always_closes (timeout : Z) : T unit :=
  m_try (send_hello now);;
  assert_state Pending;;
  actions ← on (tick (now + timeout + from_secs 1));
  assert_state Closed;;
  assert (negb (bool_decide (length actions = 0%nat)));;
  assert (existsb is_close actions).
Definition handshake_timeout_no_response : T unit :=
  actions ← unwrap (send_hello now);
  assert_state Pending;;
  assert (bool_decide (length actions = 1%nat));;
  a ← at_index actions 0; assert (is_send a);;
  timeout ← look handshake_timeout;
  actions ← on (tick (now + timeout + from_secs 1));
  assert_state Closed;;
  assert (negb (bool_decide (length actions = 0%nat)));;
  assert (existsb is_close actions).

Definition prop_idle_timeout_only_authenticated (config : ConnectionConfig) (sid advance : Z) : T unit :=
  fresh_conn config;;
  actions ← on (tick (now + advance));
  assert_state Init;;
  assert (bool_decide (length actions = 0%nat));;
  fresh_conn config;;
  m_try (send_hello now);;
  receive sid;;
  assert_state Authenticated;;
  actions ← on (tick (now + advance));
  if idle_timeout config <? advance then
    assert_state Closed;; assert (existsb is_close actions)
  else assert_state Authenticated.

Definition prop_heartbeats_only_authenticated (config : ConnectionConfig) (sid : Z) : T unit :=
  let future := now + heartbeat_interval config + from_secs 1 in
  fresh_conn config;;
  actions ← on (tick future);
  assert (negb (existsb is_ping actions));;
  fresh_conn config;;
  m_try (send_hello now);;
  actions ← on (tick future);
  assert (negb (existsb is_ping actions));;
  fresh_conn config;;
  m_try (send_hello now);;
  receive sid;;
  if heartbeat_interval config <? idle_timeout config then
    actions ← on (tick future);
    assert (existsb is_ping actions)
  else mret tt.

Definition prop_session_id_immutable (sid1 sid2 : Z) : T unit :=
  m_try (send_hello now);;
  receive sid1;;
  s ← look session_id; assert (bool_decide (s = Some sid1));;
  result ← receive sid2;
  assert (negb (is_ok result));;
  s ← look session_id; assert (bool_decide (s = Some sid1)).

Definition prop_activity_resets_timeout (config : ConnectionConfig) (sid advance1 advance2 : Z) : T unit :=
  m_try (send_hello now);;
  receive sid;;
  let t1 := now + from_secs advance1 in
  m_modify (update_activity t1);;
  let t2 := t1 + from_secs advance2 in
  actions ← on (tick t2);
  if from_secs (advance1 + advance2) <=? idle_timeout config then
    assert_state Authenticated;; assert (forallb (λ a, negb (is_close a)) actions)
  else mret tt.

Definition prop_error_classification_consistent (elapsed : Z) : T unit :=
  assert (ConnectionError.is_transient (ConnectionError.HandshakeTimeout (from_secs elapsed)));;
  assert (ConnectionError.is_transient (ConnectionError.IdleTimeout (from_secs elapsed)));;
  assert (negb (ConnectionError.is_transient (ConnectionError.Protocol "test")));;
  assert (negb (ConnectionError.is_transient (ConnectionError.Transport "test")));;
  assert (negb (ConnectionError.is_transient (ConnectionError.UnsupportedVersion 99))).

Definition prop_closed_is_terminal (advance : Z) : T unit :=
  m_modify close;;
  assert_state Closed;;
  let future := now + advance in
  actions ← on (tick future);
  assert (bool_decide (length actions = 0%nat));;
  assert_state Closed;;
  result ← m_try (send_hello future);
  assert (negb (is_ok result));;
  assert_state Closed.

(** Two connections with the same environment. *)
Definition answer_hello (config : ConnectionConfig) : T (option Z * list ConnectionAction) :=
  scoped (new now config) (actions ← unwrap (call_handle_hello now 1); s ← look session_id; mret (s, actions)).
Definition prop_session_id_deterministic_with_same_env (config : ConnectionConfig) : T unit :=
  r1 ← answer_hello config;
  r2 ← answer_hello config;
  assert (bool_decide (fst r1 = fst r2));;
  assert (match fst r1 with Some _ => true | None => false end);;
  assert (bool_decide (length (snd r1) = length (snd r2)));;
  assert (bool_decide (length (snd r1) = 1%nat));;
  a1 ← at_index (snd r1) 0; a2 ← at_index (snd r2) 0;
  match a1, a2 with
  | SendFrame frame1, SendFrame frame2 =>
      payload1 ← expect (Payload.from_frame frame1);
      payload2 ← expect (Payload.from_frame frame2);
      match payload1, payload2 with
      | Payload.HelloReply reply1, Payload.HelloReply reply2 =>
          assert (session.reply_session_id reply1 =? session.reply_session_id reply2)
      | _, _ => panic
      end
  | _, _ => panic
  end.
End tests.
End connection_properties.

Module ConnectionPropertiesTheory.
Import Test Connection ConnectionState connection_tests connection_properties ProtoTheory.
Section theory.
Context `{PayloadCodec} `{!PayloadCodecOk}.
(** The codec encodes the hello within the bound of a frame.  That it does so for a
    reply is a hypothesis on the session id. *)
Hypothesis hello_fits : fits the_hello.
Context (now : Z).

(** A connection that has said hello, and one that has had its answer. *)
Definition asked (cfg : ConnectionConfig) : Connection := with_last_activity now (with_state Pending (new now cfg)).
Definition answered (cfg : ConnectionConfig) (sid : Z) : Connection :=
  with_session_id (Some sid) (with_state Authenticated (with_last_activity now (asked cfg))).

Lemma send_fresh cfg : ∃ f, send_hello now (new now cfg) = (Ok [SendFrame f], asked cfg).
Proof. destruct (carried the_hello (FrameHeader.new Opcode.Hello) hello_fits) as (f & Hf & _). exists f. by apply send_hello_init. Qed.
Lemma try_send cfg : ∃ f, m_try (E' := Empty_set) (send_hello now) (new now cfg) = (Ok (Ok [SendFrame f]), asked cfg).
Proof. destruct (send_fresh cfg) as [f Hf]. exists f. by apply try_ok. Qed.

Lemma reply_frame_ok sid : fits (reply_of sid) →
  ∃ f, (∀ c, reply_frame sid c = (Ok f, c)) ∧ FrameHeader.opcode_enum (Frame.header f) = Some Opcode.HelloReply
    ∧ Payload.from_frame f = Ok (reply_of sid).
Proof.
  intros Hs. destruct (carried (reply_of sid) (FrameHeader.new Opcode.HelloReply) Hs) as (f & Hf & Ho & Hp).
  exists f. split_and!; [|done|done]. intros c. by apply expect_ok.
Qed.
Lemma receive_asked cfg sid : fits (reply_of sid) → receive now sid (asked cfg) = (Ok (Ok []), answered cfg sid).
Proof.
  intros Hs. destruct (reply_frame_ok sid Hs) as (f & Hf & Ho & Hp). unfold receive. munfold. rewrite Hf.
  apply try_ok; [|done]. exact (handle_frame_reply now (asked cfg) _ f eq_refl Ho Hp).
Qed.
(** A second answer is an error and changes nothing but the time of activity. *)
Lemma receive_answered cfg sid sid2 : fits (reply_of sid2) →
  ∃ e, receive now sid2 (answered cfg sid) = (Ok (Err e), answered cfg sid).
Proof.
  intros Hs. destruct (reply_frame_ok sid2 Hs) as (f & Hf & Ho & Hp). eexists. unfold receive. munfold. rewrite Hf.
  apply try_ok; [|done]. unfold handle_frame. munfold. rewrite Ho. reflexivity.
Qed.

(** What [tick] does in the three states. *)
Lemma tick_fresh cfg t : tick t (new now cfg) = ([], new now cfg).
Proof. reflexivity. Qed.
Lemma tick_asked cfg d :
  tick (now + d) (asked cfg)
  = if c_handshake_timeout cfg <? Z.max 0 d
    then ([Close ("handshake timeout after " +:+ fmt_duration (Z.max 0 d))], close (asked cfg))
    else ([], asked cfg).
Proof.
  unfold tick, check_timeout, elapsed_since. cbn [asked with_last_activity with_state state config last_activity new].
  replace (now + d - now) with d by lia. by destruct (_ <? _).
Qed.
Lemma tick_answered cfg sid t d :
  tick (t + d) (with_last_activity t (answered cfg sid))
  = if idle_timeout cfg <? Z.max 0 d
    then ([Close ("idle timeout after " +:+ fmt_duration (Z.max 0 d))], close (with_last_activity t (answered cfg sid)))
    else ([SendFrame (Frame.new (FrameHeader.new Opcode.Ping) [])],
          with_last_activity (t + d) (with_last_heartbeat (Some (t + d)) (with_last_activity t (answered cfg sid)))).
Proof.
  unfold tick, check_timeout, elapsed_since. cbn [answered asked with_last_activity with_session_id with_state state config last_activity new].
  replace (t + d - t) with d by lia. by destruct (_ <? _).
Qed.

#[local] Abbreviation Pass := (λ cfg t, passes (new now cfg) t = true).
Ltac run H := eapply step_ok; [exact H|cbv beta].
Ltac call := eapply step_ok; [reflexivity|cbv beta].
Ltac calls := repeat call; try (eapply last_ok; reflexivity).

Lemma after_handshake cfg sid (t : Test Connection unit) : fits (reply_of sid) →
  passes (answered cfg sid) t = true → passes (new now cfg) (m_try (send_hello now);; receive now sid;; t) = true.
Proof. intros Hs Ht. destruct (try_send cfg) as [f Hf]. run Hf. run (receive_asked cfg sid Hs). exact Ht. Qed.
Lemma on_ok {A} (f : Connection → A * Connection) c a c' : f c = (a, c') → on f c = (Ok a, c').
Proof. unfold on. by intros ->. Qed.
(** The tick after a handshake that nobody answered. *)
Lemma tick_late cfg : 0 ≤ c_handshake_timeout cfg →
  ∃ why, tick (now + c_handshake_timeout cfg + from_secs 1) (asked cfg) = ([Close why], close (asked cfg)).
Proof.
  intros Hc. rewrite <-Z.add_assoc, tick_asked. rewrite (proj2 (Z.ltb_lt _ _)) by (unfold from_secs; lia). eauto.
Qed.

Theorem send_hello_only_from_init cfg : Pass cfg (prop_send_hello_only_from_init now).
Proof. destruct (try_send cfg) as [f Hf]. run Hf. calls. Qed.
Theorem state_never_goes_backward cfg sid : fits (reply_of sid) → Pass cfg (prop_state_never_goes_backward now sid).
Proof.
  intros Hs. destruct (try_send cfg) as [f Hf]. unfold prop_state_never_goes_backward. call. run Hf. call.
  run (receive_asked cfg sid Hs). calls.
Qed.
Theorem timeout_always_closes cfg : 0 ≤ c_handshake_timeout cfg → Pass cfg (prop_timeout_always_closes now (c_handshake_timeout cfg)).
Proof.
  intros Hc. destruct (try_send cfg) as [f Hf]. run Hf. call. destruct (tick_late cfg Hc) as [why Ht].
  run (on_ok _ _ _ _ Ht). calls.
Qed.
Theorem no_response_closes cfg : 0 ≤ c_handshake_timeout cfg → Pass cfg (handshake_timeout_no_response now).
Proof.
  intros Hc. destruct (send_fresh cfg) as [f Hf]. unfold handshake_timeout_no_response. run (unwrap_ok _ _ _ _ Hf). do 5 call.
  destruct (tick_late cfg Hc) as [why Ht]. run (on_ok _ _ _ _ Ht). calls.
Qed.
Theorem idle_timeout_only_authenticated cfg sid advance c :
  fits (reply_of sid) → 0 ≤ idle_timeout cfg → 0 ≤ advance →
  passes c (prop_idle_timeout_only_authenticated now cfg sid advance) = true.
Proof.
  intros Hs Hi Ha. unfold prop_idle_timeout_only_authenticated. do 5 call. apply after_handshake; [done|]. call.
  pose proof (tick_answered cfg sid now advance : tick _ (answered cfg sid) = _) as Ht. rewrite Z.max_r in Ht by done.
  destruct (idle_timeout cfg <? advance); run (on_ok _ _ _ _ Ht); calls.
Qed.
Theorem session_id_immutable cfg sid1 sid2 : fits (reply_of sid1) → fits (reply_of sid2) → Pass cfg (prop_session_id_immutable now sid1 sid2).
Proof.
  intros H1 H2. destruct (receive_answered cfg sid1 sid2 H2) as [e He]. apply after_handshake; [done|]. call.
  eapply step_ok; [unfold assert; by rewrite bool_decide_true|cbv beta]. run He. do 2 call. eapply last_ok. by rewrite bool_decide_true.
Qed.
Theorem heartbeats_only_authenticated handshake idle heartbeat sid c :
  fits (reply_of sid) → 0 ≤ heartbeat →
  passes c (prop_heartbeats_only_authenticated now (config_of handshake idle heartbeat) sid) = true.
Proof.
  intros Hs Hh. set (cfg := config_of handshake idle heartbeat). unfold prop_heartbeats_only_authenticated. cbv zeta.
  destruct (try_send cfg) as [f Hf]. do 4 call. run Hf. rewrite <-!Z.add_assoc. set (d := heartbeat_interval cfg + from_secs 1).
  pose proof (tick_asked cfg d) as Ha.
  assert (∃ acts c, tick (now + d) (asked cfg) = (acts, c) ∧ existsb is_ping acts = false) as (acts & c1 & Ht & Hp)
    by (destruct (_ <? _); eauto).
  run (on_ok _ _ _ _ Ht). rewrite Hp. do 2 call. apply after_handshake; [done|].
  destruct (heartbeat_interval cfg <? idle_timeout cfg) eqn:E; [|eapply last_ok; reflexivity]. apply Z.ltb_lt in E.
  pose proof (tick_answered cfg sid now d : tick _ (answered cfg sid) = _) as Hb.
  rewrite (proj2 (Z.ltb_ge _ _)) in Hb by (unfold d, cfg, config_of, from_secs in *; cbn in *; lia).
  run (on_ok _ _ _ _ Hb). calls.
Qed.
Theorem activity_resets_timeout cfg sid advance1 advance2 :
  fits (reply_of sid) → 0 ≤ advance1 → 0 ≤ advance2 → Pass cfg (prop_activity_resets_timeout now cfg sid advance1 advance2).
Proof.
  intros Hs H1 H2. apply after_handshake; [done|]. cbv zeta. call.
  pose proof (tick_answered cfg sid (now + from_secs advance1) (from_secs advance2)) as Ht.
  destruct (from_secs (advance1 + advance2) <=? idle_timeout cfg) eqn:E.
  - apply Z.leb_le in E. rewrite (proj2 (Z.ltb_ge _ _)) in Ht by (unfold from_secs in *; lia). run (on_ok _ _ _ _ Ht). calls.
  - destruct (_ <? _); run (on_ok _ _ _ _ Ht); eapply last_ok; reflexivity.
Qed.
Theorem error_classification_consistent cfg elapsed : Pass cfg (prop_error_classification_consistent elapsed).
Proof. unfold prop_error_classification_consistent. calls. Qed.
Theorem closed_is_terminal cfg advance : Pass cfg (prop_closed_is_terminal now advance).
Proof. unfold prop_closed_is_terminal. calls. Qed.
Theorem session_id_deterministic cfg c :
  fits (reply_of drawn_id) → passes c (prop_session_id_deterministic_with_same_env now cfg) = true.
Proof.
  intros Hfit. destruct (carried (reply_of drawn_id) (FrameHeader.new Opcode.HelloReply) Hfit) as (g & Hg & _ & Hp).
  assert (answer_hello now cfg c = (Ok (Some drawn_id, [SendFrame g]), c)) as Ha.
  { unfold answer_hello, scoped, call_handle_hello, unwrap. munfold.
    by erewrite (handle_hello_ok (hello_of 1) now (new now cfg) now now drawn_id g). }
  unfold prop_session_id_deterministic_with_same_env. run Ha. run Ha. do 6 call.
  run (expect_ok _ _ c Hp). run (expect_ok _ _ c Hp). eapply last_ok. unfold reply_of. by rewrite Z.eqb_refl.
Qed.
End theory.

(** The codec of the tests encodes what they send. *)
Lemma connection_properties_witness :
  passes (new 7 (config_of 30 60 20)) (prop_session_id_immutable (H := ToyCodec.codec) 7 5 6) = true.
Proof.
  apply (@session_id_immutable ToyCodec.codec ToyCodec.codec_ok);
    (eexists; split; [vm_compute; reflexivity|vm_compute; discriminate]).
Defined.
End ConnectionPropertiesTheory.

(** ** [frame_properties.rs] *)
Module frame_properties.
Import Test.
Abbreviation T := (Test unit).

(** [arbitrary_header], of the values drawn. *)
Definition arbitrary_header (opcode : Opcode) (room_id sender_id epoch context_id : Z) : FrameHeader :=
  let header := FrameHeader.new opcode in
  let header := FrameHeader.set_room_id room_id header in
  let header := FrameHeader.set_sender_id sender_id header in
  let header := FrameHeader.set_epoch epoch header in
  if decide (opcode = Opcode.Welcome) then FrameHeader.set_recipient_id context_id header
  else FrameHeader.set_log_index context_id header.

(** Encodes a frame and decodes the bytes. *)
Definition encoded (frame : Frame) : T bytes := let '(r, buf) := Frame.encode frame [] in expect r;; mret buf.
Definition transmitted (frame : Frame) : T Frame := buf ← encoded frame; expect (Frame.decode buf).

Definition prop_frame_encode_decode_roundtrip (frame : Frame) : T unit :=
  decoded ← transmitted frame;
  assert (FrameHeader.eqb (Frame.header decoded) (Frame.header frame));;
  assert (bool_decide (length (Frame.payload decoded) = length (Frame.payload frame)));;
  assert (bool_decide (Frame.payload decoded = Frame.payload frame)).

Definition prop_frame_header_roundtrip (header : FrameHeader) : T unit :=
  let bs := FrameHeader.to_bytes header in
  decoded ← expect (FrameHeader.from_bytes bs);
  assert_eq (FrameHeader.opcode decoded) (FrameHeader.opcode header);;
  assert_eq (FrameHeader.room_id decoded) (FrameHeader.room_id header);;
  assert_eq (FrameHeader.sender_id decoded) (FrameHeader.sender_id header);;
  assert_eq (FrameHeader.epoch decoded) (FrameHeader.epoch header);;
  (if decide (FrameHeader.opcode_enum header = Some Opcode.Welcome) then
     assert_eq (FrameHeader.recipient_id decoded) (FrameHeader.recipient_id header)
   else assert_eq (FrameHeader.log_index decoded) (FrameHeader.log_index header));;
  assert_eq (FrameHeader.payload_size decoded) (FrameHeader.payload_size header).

Definition prop_frame_empty_payload (header : FrameHeader) : T unit :=
  decoded ← transmitted (Frame.new header []);
  assert_eq (zlen (Frame.payload decoded)) 0;;
  assert_eq (FrameHeader.payload_size (Frame.header decoded)) 0.

Definition prop_frame_max_payload (header : FrameHeader) (payload : bytes) : T unit :=
  decoded ← transmitted (Frame.new header payload);
  assert_eq (zlen (Frame.payload decoded)) (zlen payload);;
  assert_eq (Frame.payload decoded) payload.

Definition prop_frame_opcode_preservation (opcode : Opcode) : T unit :=
  let header := FrameHeader.set_room_id 1 (FrameHeader.new opcode) in
  decoded ← transmitted (Frame.new header []);
  assert (bool_decide (FrameHeader.opcode_enum (Frame.header decoded) = Some opcode)).

Definition prop_frame_ids_preserved (room_id sender_id epoch log_index : Z) : T unit :=
  let header := FrameHeader.set_log_index log_index (FrameHeader.set_epoch epoch
    (FrameHeader.set_sender_id sender_id (FrameHeader.set_room_id room_id (FrameHeader.new Opcode.AppMessage)))) in
  decoded ← transmitted (Frame.new header (replicate 16 (byte_of_Z 42)));
  assert_eq (FrameHeader.room_id (Frame.header decoded)) room_id;;
  assert_eq (FrameHeader.sender_id (Frame.header decoded)) sender_id;;
  assert_eq (FrameHeader.epoch (Frame.header decoded)) epoch;;
  assert_eq (FrameHeader.log_index (Frame.header decoded)) log_index.

Definition prop_frame_encoded_size_correct (frame : Frame) : T unit :=
  buf ← encoded frame;
  assert_eq (zlen buf) (FrameHeader.SIZE + zlen (Frame.payload frame)).
End frame_properties.

Module FramePropertiesTheory.
Import Test frame_properties.

Lemma arbitrary_header_ok opcode room_id sender_id epoch context_id :
  let h := arbitrary_header opcode room_id sender_id epoch context_id in FrameHeader.wf h ∧ FrameHeader.valid h.
Proof.
  unfold arbitrary_header. split; [case_decide; auto 10 with lockframe|].
  destruct (FrameHeader.new_valid opcode) as (Hm & Hv & Hs). by case_decide.
Qed.
Lemma encoded_ok f u : Frame.wf f → encoded f u = (Ok (FrameHeader.to_bytes (Frame.header f) ++ Frame.payload f), u).
Proof. intros Hf. unfold encoded. rewrite Frame.encode_Ok by by apply Frame.wf_bound. done. Qed.
Lemma transmitted_ok f u : Frame.wf f → transmitted f u = (Ok f, u).
Proof.
  intros Hf. unfold transmitted. munfold. rewrite encoded_ok by done. pose proof (Frame.decode_app f [] Hf) as Hd.
  rewrite app_nil_r in Hd. unfold expect, unwrap. munfold. by rewrite Hd.
Qed.

(** Running a test whose calls change nothing. *)
Lemma step_same {A} (m : T A) (k : A → T unit) a : m tt = (Ok a, tt) → passes tt (k a) = true → passes tt (m ≫= k) = true.
Proof. unfold passes. munfold. by intros ->. Qed.
Lemma check_same (b : bool) (k : T unit) : b = true → passes tt k = true → passes tt (assert b;; k) = true.
Proof. by intros ->. Qed.
Lemma check_last (b : bool) : b = true → passes tt (assert b) = true.
Proof. by intros ->. Qed.
Lemma expect_same {E A} (r : outcome E A) a : r = Ok a → expect (S := unit) r tt = (Ok a, tt).
Proof. by intros ->. Qed.
Ltac run H := eapply step_same; [exact H|cbv beta].
Ltac checks :=
  repeat (first [apply check_same|apply check_last]; first [apply bool_decide_true; reflexivity|idtac]).

(** What the strategies draw: a header made by the setters, and a payload within the
    bound of a frame. *)
Section drawn.
Context (opcode : Opcode) (room_id sender_id epoch context_id : Z) (payload : bytes).
Hypothesis bound : zlen payload ≤ FrameHeader.MAX_PAYLOAD_SIZE.
#[local] Abbreviation header := (arbitrary_header opcode room_id sender_id epoch context_id).

Lemma new_ok p : zlen p ≤ FrameHeader.MAX_PAYLOAD_SIZE → Frame.wf (Frame.new header p).
Proof. intros Hp. destruct (arbitrary_header_ok opcode room_id sender_id epoch context_id) as [Hwf (Hm & Hv & _)]. by apply Frame.frame_new_wf. Qed.

Theorem frame_properties_hold :
  all_pass tt
    [prop_frame_encode_decode_roundtrip (Frame.new header payload); prop_frame_header_roundtrip header;
     prop_frame_empty_payload header; prop_frame_max_payload header payload;
     prop_frame_encoded_size_correct (Frame.new header payload)].
Proof.
  pose proof (new_ok payload bound) as Hf. pose proof (new_ok [] ltac:(by vm_compute)) as He.
  destruct (arbitrary_header_ok opcode room_id sender_id epoch context_id) as [Hwf Hv].
  pose proof (FrameHeader.from_bytes_to_bytes header [] Hwf Hv) as Hrt. rewrite app_nil_r in Hrt.
  unfold all_pass. rewrite forallb_forall. intros t Ht. cbn in Ht. destruct Ht as [<-|[<-|[<-|[<-|[<-|[]]]]]].
  - run (transmitted_ok _ tt Hf). checks.
  - unfold prop_frame_header_roundtrip. cbv zeta. run (expect_same _ _ Hrt). checks. by case_decide; checks.
  - run (transmitted_ok _ tt He). checks.
  - run (transmitted_ok _ tt Hf). checks.
  - run (encoded_ok _ tt Hf). checks. apply bool_decide_true. rewrite zlen_app. f_equal. unfold zlen.
    by rewrite FrameHeader.length_to_bytes by apply Hf.
Qed.
End drawn.

(** The two properties with strategies of their own. *)
Theorem opcode_preservation_holds opcode : passes tt (prop_frame_opcode_preservation opcode) = true.
Proof.
  assert (Frame.wf (Frame.new (FrameHeader.set_room_id 1 (FrameHeader.new opcode)) [])) as Hf.
  { destruct (FrameHeader.new_valid opcode) as (Hm & Hv & _). apply Frame.frame_new_wf; [auto with lockframe|done|done|by vm_compute]. }
  unfold prop_frame_opcode_preservation. cbv zeta. run (transmitted_ok _ tt Hf). apply check_last, bool_decide_true. by destruct opcode.
Qed.
Theorem ids_preservation_holds room_id sender_id epoch log_index :
  0 ≤ room_id < U128_MOD → 0 ≤ sender_id < U64_MOD → 0 ≤ epoch < U64_MOD → 0 ≤ log_index < U64_MOD →
  passes tt (prop_frame_ids_preserved room_id sender_id epoch log_index) = true.
Proof.
  intros Hr Hs He Hl. unfold prop_frame_ids_preserved. cbv zeta. set (h := FrameHeader.set_log_index _ _).
  assert (Frame.wf (Frame.new h (replicate 16 (byte_of_Z 42)))) as Hf.
  { apply Frame.frame_new_wf; [unfold h; auto 10 with lockframe|done|done|by vm_compute]. }
  run (transmitted_ok _ tt Hf). unfold assert_eq. repeat (first [apply check_same|apply check_last]; [|try apply check_last]).
  all: apply bool_decide_true; apply from_to_be_bytes; lia.
Qed.
End FramePropertiesTheory.

(** ** [sender_keys_properties.rs] *)
Module sender_keys_properties.
Import Test SymmetricRatchet encryption.
Section tests.
Context `{Primitives}.
Abbreviation T := (Test unit).

(** [n] keys of a ratchet, one after the other. *)
Fixpoint advances (n : nat) : Test SymmetricRatchet (list MessageKey) :=
  match n with
  | O => mret []
  | Datatypes.S n => k ← unwrap advance; ks ← advances n; mret (k :: ks)
  end.
(** [create_message_key]: one call and [target_gen] more. *)
Definition create_message_key (seed : bytes) (target_gen : nat) : T MessageKey :=
  scoped (new seed) (k ← unwrap advance; ks ← advances target_gen; mret (List.last ks k)).

Definition secret : bytes := bytes_of_string "test_epoch_secret_______________".
Definition prop_encrypt_decrypt_roundtrip (plaintext : bytes) (epoch sender_index : Z) (random_suffix : bytes) : T unit :=
  let seed := derive_sender_key_seed secret epoch sender_index in
  message_key ← create_message_key seed 0;
  encrypted ← expect (encrypt_message plaintext message_key epoch sender_index random_suffix);
  decrypted ← expect (decrypt_message encrypted message_key);
  assert_eq decrypted plaintext.

(** The double loop over the keys, each compared with those after it. *)
Fixpoint all_distinct (ks : list MessageKey) : T unit :=
  match ks with
  | [] => mret tt
  | k :: ks => m_iter (λ k', assert_ne (MessageKey.key k) (MessageKey.key k')) ks;; all_distinct ks
  end.
Definition prop_ratchet_keys_unique (seed : bytes) (num_keys : nat) : T unit :=
  keys ← scoped (new seed) (advances num_keys); all_distinct keys.

Definition prop_derivation_deterministic (epoch_secret : bytes) (epoch sender_index : Z) : T unit :=
  let seed1 := derive_sender_key_seed epoch_secret epoch sender_index in
  let seed2 := derive_sender_key_seed epoch_secret epoch sender_index in
  assert_eq seed1 seed2.
(** The two ratchets, step by step. *)
Fixpoint in_step (n : nat) : Test (SymmetricRatchet * SymmetricRatchet) unit :=
  match n with
  | O => mret tt
  | Datatypes.S n =>
      key1 ← unwrap (m_zoom fst (λ r p, (r, snd p)) advance);
      key2 ← unwrap (m_zoom snd (λ r p, (fst p, r)) advance);
      assert_eq (MessageKey.key key1) (MessageKey.key key2);;
      assert_eq (MessageKey.generation key1) (MessageKey.generation key2);;
      in_step n
  end.
Definition prop_ratchet_deterministic (seed : bytes) (num_advances : nat) : T unit :=
  scoped (new seed, new seed) (in_step num_advances).

Definition prop_different_senders_different_seeds (epoch_secret : bytes) (epoch sender1 sender2 : Z) : T unit :=
  assert_ne (derive_sender_key_seed epoch_secret epoch sender1) (derive_sender_key_seed epoch_secret epoch sender2).
Definition prop_different_epochs_different_seeds (epoch_secret : bytes) (epoch1 epoch2 sender_index : Z) : T unit :=
  assert_ne (derive_sender_key_seed epoch_secret epoch1 sender_index) (derive_sender_key_seed epoch_secret epoch2 sender_index).

Definition prop_advance_to_matches_sequential (seed : bytes) (target_gen : nat) : T unit :=
  key_seq ← create_message_key seed target_gen;
  key_skip ← scoped (new seed) (unwrap (advance_to (Z.of_nat target_gen)));
  assert_eq (MessageKey.key key_seq) (MessageKey.key key_skip);;
  assert_eq (MessageKey.generation key_seq) (MessageKey.generation key_skip).

Definition prop_encrypted_message_structure (plaintext : bytes) (epoch sender_index : Z) : T unit :=
  let random_suffix := replicate NONCE_RANDOM_SIZE (byte_of_Z 0x42) in
  let seed := derive_sender_key_seed secret epoch sender_index in
  message_key ← create_message_key seed 0;
  encrypted ← expect (encrypt_message plaintext message_key epoch sender_index random_suffix);
  assert_eq (EncryptedMessage.epoch encrypted) epoch;;
  assert_eq (EncryptedMessage.sender_index encrypted) sender_index;;
  assert_eq (EncryptedMessage.generation encrypted) (MessageKey.generation message_key);;
  assert_eq (zlen (EncryptedMessage.ciphertext encrypted)) (zlen plaintext + 16);;
  assert_eq (slice 0 8 (EncryptedMessage.nonce encrypted)) (to_be_bytes 8 epoch);;
  assert_eq (slice 8 12 (EncryptedMessage.nonce encrypted)) (to_be_bytes 4 sender_index);;
  assert_eq (slice 16 24 (EncryptedMessage.nonce encrypted)) random_suffix.
End tests.
End sender_keys_properties.

Module SenderKeysPropertiesTheory.
Import Test SymmetricRatchet encryption sender_keys_properties ForwardSecrecy FramePropertiesTheory.
Section theory.
Context `{Primitives}.

Lemma unwrap_advance seed g : 0 ≤ g < U32_MAX → unwrap advance (at_gen seed g) = (Ok (key_at seed g), at_gen seed (g + 1)).
Proof. intros Hg. unfold unwrap. by rewrite advance_at. Qed.
Lemma advances_at seed n g : 0 ≤ g → g + Z.of_nat n ≤ U32_MAX →
  advances n (at_gen seed g) = (Ok (key_at seed <$> seqZ g (Z.of_nat n)), at_gen seed (g + Z.of_nat n)).
Proof.
  revert g. induction n as [|n IH]; intros g Hg Hn; cbn [advances]; [by rewrite Z.add_0_r|]. munfold.
  rewrite unwrap_advance, IH by lia. rewrite (seqZ_cons g) by lia.
  replace (Z.pred (Z.of_nat (Datatypes.S n))) with (Z.of_nat n) by lia. replace (Z.succ g) with (g + 1) by lia.
  by replace (g + Z.of_nat (Datatypes.S n)) with (g + 1 + Z.of_nat n) by lia.
Qed.
Lemma last_fmap_seqZ {A} (f : Z → A) g n d : List.last (f <$> seqZ g (Z.of_nat n)) d = if decide (n = 0%nat) then d else f (g + Z.of_nat n - 1).
Proof.
  destruct n as [|n]; [done|]. rewrite seqZ_S, fmap_app. cbn [fmap list_fmap]. rewrite last_last. cbn. f_equal. lia.
Qed.
Lemma created seed n u : Z.of_nat n < U32_MAX → create_message_key seed n u = (Ok (key_at seed (Z.of_nat n)), u).
Proof.
  intros Hn. unfold create_message_key, scoped. change (new seed) with (at_gen seed 0). munfold.
  rewrite unwrap_advance, advances_at by lia. cbn [fst]. rewrite last_fmap_seqZ. repeat f_equal. case_decide; [by subst|f_equal; lia].
Qed.

(** The keys of a ratchet are distinct, unless two inputs have the same hash or the
    seed is itself a hash. *)
Lemma m_iter_passes {A} (f : A → Test unit unit) l : (∀ x, x ∈ l → f x tt = (Ok tt, tt)) → m_iter f l tt = (Ok tt, tt).
Proof.
  induction l as [|x l IH]; intros Hf; [done|]. cbn [m_iter]. munfold. rewrite (Hf x) by set_solver. apply IH. set_solver.
Qed.
Lemma all_distinct_passes ks : NoDup (MessageKey.key <$> ks) → all_distinct ks tt = (Ok tt, tt).
Proof.
  induction ks as [|k ks IH]; [done|]. rewrite fmap_cons, list.NoDup_cons. intros [Hk Hks]. cbn [all_distinct]. munfold.
  rewrite m_iter_passes; [by apply IH|]. intros k' Hin. unfold assert_ne. rewrite bool_decide_false; [done|].
  intros E. apply Hk. rewrite E. by apply list_elem_of_fmap_2.
Qed.
(** The calls behind the first [n] keys of a ratchet. *)
Definition ratchet_calls (seed : bytes) (n : nat) : list query :=
  seq 0 n ≫= λ k, [Hmac (chain seed k) CHAIN_LABEL; Hmac (chain seed k) MESSAGE_LABEL].
(** Two of them have the same answer, or one returns the seed. *)
Definition hash_fails (seed : bytes) (n : nat) : Prop :=
  collision (ratchet_calls seed n) ∨ ∃ q, q ∈ ratchet_calls seed n ∧ answer q = seed.
Lemma ratchet_call seed n k label : (k < n)%nat → label = CHAIN_LABEL ∨ label = MESSAGE_LABEL →
  Hmac (chain seed k) label ∈ ratchet_calls seed n.
Proof.
  intros Hk Hl. apply list_elem_of_bind. exists k. split; [|apply elem_of_seq; lia].
  destruct Hl as [-> | ->]; [by left|right; by left].
Qed.
Lemma chain_repeats seed n i d : (i + d < n)%nat → chain seed i = chain seed (i + Datatypes.S d) → hash_fails seed n.
Proof.
  induction i as [|i IH]; cbn [chain Nat.add]; intros Hn E.
  - right. exists (Hmac (chain seed d) CHAIN_LABEL). split; [apply ratchet_call; [lia|by left]|done].
  - apply (same_hmac (ratchet_calls seed n)) in E as [[E _]|]; [apply IH; [lia|done]|by left|apply ratchet_call; [lia|by left]..].
Qed.
Lemma ratchet_keys_differ seed n i j : 0 ≤ i < j → j < Z.of_nat n →
  MessageKey.key (key_at seed i) = MessageKey.key (key_at seed j) → hash_fails seed n.
Proof.
  intros Hij Hn E. apply (same_hmac (ratchet_calls seed n)) in E as [[E _]|]; [|by left|apply ratchet_call; [lia|by right]..].
  apply (chain_repeats seed n (Z.to_nat i) (Z.to_nat (j - i - 1))); [lia|]. rewrite E. f_equal. lia.
Qed.
Lemma keys_distinct seed m n g : 0 ≤ g → g + Z.of_nat n ≤ Z.of_nat m →
  NoDup (MessageKey.key <$> (key_at seed <$> seqZ g (Z.of_nat n))) ∨ hash_fails seed m.
Proof.
  revert g. induction n as [|n IH]; intros g Hg Hm; [left; apply NoDup_nil_2|]. rewrite seqZ_cons by lia.
  replace (Z.pred (Z.of_nat (Datatypes.S n))) with (Z.of_nat n) by lia. destruct (IH (Z.succ g)) as [Hn|]; [lia|lia| |by right].
  rewrite !fmap_cons, list.NoDup_cons. destruct (decide (MessageKey.key (key_at seed g) ∈ MessageKey.key <$> (key_at seed <$> seqZ (Z.succ g) (Z.of_nat n))))
    as [Hin|]; [|by left; split].
  right. apply list_elem_of_fmap in Hin as (k & E & (j & -> & Hj)%list_elem_of_fmap). apply elem_of_seqZ in Hj.
  by apply (ratchet_keys_differ seed m g j); [lia|lia|].
Qed.
Theorem ratchet_keys_unique seed n : Z.of_nat n ≤ U32_MAX →
  passes tt (prop_ratchet_keys_unique seed n) = true ∨ hash_fails seed n.
Proof.
  intros Hn. destruct (keys_distinct seed n n 0) as [Hd|]; [lia|lia|left|by right].
  unfold passes, prop_ratchet_keys_unique, scoped. munfold. change (new seed) with (at_gen seed 0). rewrite advances_at by lia.
  cbn [fst]. by rewrite all_distinct_passes.
Qed.

(** Two ratchets of one seed stay in step. *)
Lemma in_step_passes seed n g : 0 ≤ g → g + Z.of_nat n ≤ U32_MAX →
  fst (in_step n (at_gen seed g, at_gen seed g)) = Ok tt.
Proof.
  revert g. induction n as [|n IH]; intros g Hg Hn; [done|]. cbn [in_step]. munfold. unfold unwrap, m_zoom. cbn [fst snd].
  rewrite advance_at by lia. cbn [fst snd]. rewrite advance_at by lia. unfold assert_eq. rewrite !bool_decide_true by done.
  apply IH; lia.
Qed.
Theorem derivations_deterministic epoch_secret epoch sender_index seed n : Z.of_nat n ≤ U32_MAX →
  all_pass tt [prop_derivation_deterministic epoch_secret epoch sender_index; prop_ratchet_deterministic seed n].
Proof.
  intros Hn. unfold all_pass, passes. cbn [forallb]. unfold prop_derivation_deterministic, assert_eq. rewrite bool_decide_true by done.
  unfold prop_ratchet_deterministic, scoped. change (new seed) with (at_gen seed 0). cbn [fst]. by rewrite in_step_passes by lia.
Qed.

(** Epochs and senders are separate, unless two of the derivations collide. *)
Theorem seeds_isolated epoch_secret epoch epoch' sender sender' :
  0 ≤ epoch < U64_MOD → 0 ≤ epoch' < U64_MOD → 0 ≤ sender < U32_MOD → 0 ≤ sender' < U32_MOD → sender ≠ sender' → epoch ≠ epoch' →
  all_pass tt [prop_different_senders_different_seeds epoch_secret epoch sender sender';
               prop_different_epochs_different_seeds epoch_secret epoch epoch' sender]
  ∨ collision [Hkdf epoch_secret (seed_info epoch sender); Hkdf epoch_secret (seed_info epoch sender');
               Hkdf epoch_secret (seed_info epoch' sender)].
Proof.
  intros He He' Hs Hs' Hns Hne. set (all := [_; _; _]).
  assert (∀ e i, 0 ≤ e < U64_MOD → 0 ≤ i < U32_MOD → (epoch, sender) ≠ (e, i) → Hkdf epoch_secret (seed_info e i) ∈ all →
    derive_sender_key_seed epoch_secret epoch sender ≠ derive_sender_key_seed epoch_secret e i ∨ collision all) as Hd.
  { intros e i Re Ri Hn Hq. destruct (decide (derive_sender_key_seed epoch_secret epoch sender = derive_sender_key_seed epoch_secret e i))
      as [E|]; [|by left]. apply (same_hkdf all) in E as [[_ E]|]; [|by right|by left|done]. by apply seed_info_inj in E as [-> ->]. }
  destruct (Hd epoch sender') as [H1|]; [done..|congruence|unfold all; set_solver| |by right].
  destruct (Hd epoch' sender) as [H2|]; [done..|congruence|unfold all; set_solver| |by right]. left.
  unfold all_pass, passes. cbn [forallb]. unfold prop_different_senders_different_seeds, prop_different_epochs_different_seeds, assert_ne.
  by rewrite !bool_decide_false.
Qed.

(** Skipping to a generation gives the key that stepping gives. *)
Theorem advance_to_matches_sequential seed n : Z.of_nat n ≤ MAX_SKIP → passes tt (prop_advance_to_matches_sequential seed n) = true.
Proof.
  unfold MAX_SKIP. intros Hn. unfold passes, prop_advance_to_matches_sequential, scoped, assert_eq. munfold. rewrite created by lia.
  change (new seed) with (at_gen seed 0). unfold unwrap. rewrite advance_to_at by lia. unfold advance_to_ref, MAX_SKIP.
  rewrite (proj2 (Z.ltb_ge _ _)), (proj2 (Z.ltb_ge _ _)), (proj2 (Z.eqb_neq _ _)) by lia. cbn [orb fst]. by rewrite !bool_decide_true.
Qed.

(** For a cipher that takes the plaintexts drawn and adds a tag of 16 bytes. *)
Section cipher.
Context `{!PrimitivesOk}.
Definition tags_16 : Prop := ∀ k n p, zlen p < 1000 → ∃ c, aead_encrypt k n p = Some c ∧ zlen c = zlen p + 16.
Hypothesis cipher : tags_16.
Lemma encrypted_ok p k e i s : zlen p < 1000 →
  ∃ m, encrypt_message p k e i s = Ok m ∧ zlen (EncryptedMessage.ciphertext m) = zlen p + 16 ∧ EncryptedMessage.epoch m = e
    ∧ EncryptedMessage.sender_index m = i ∧ EncryptedMessage.generation m = MessageKey.generation k
    ∧ EncryptedMessage.nonce m = build_nonce e i (MessageKey.generation k) s.
Proof.
  intros Hp. unfold encrypt_message. destruct (cipher (MessageKey.key k) (build_nonce e i (MessageKey.generation k) s) p Hp) as (c & -> & Hc).
  eexists. by split_and!.
Qed.
Theorem encrypt_decrypt_roundtrip plaintext epoch sender_index random_suffix : zlen plaintext < 1000 →
  passes tt (prop_encrypt_decrypt_roundtrip plaintext epoch sender_index random_suffix) = true.
Proof.
  intros Hp. unfold prop_encrypt_decrypt_roundtrip. cbv zeta. run (created (derive_sender_key_seed secret epoch sender_index) 0 tt ltac:(lia)).
  destruct (encrypted_ok plaintext (key_at (derive_sender_key_seed secret epoch sender_index) 0) epoch sender_index random_suffix Hp)
    as (m & Hm & _). run (expect_same _ _ Hm). run (expect_same _ _ (encrypt_decrypt _ _ _ _ _ _ Hm)). checks.
Qed.
Theorem encrypted_message_structure plaintext epoch sender_index : zlen plaintext < 1000 →
  passes tt (prop_encrypted_message_structure plaintext epoch sender_index) = true.
Proof.
  intros Hp. unfold prop_encrypted_message_structure. cbv zeta. set (suffix := replicate _ _).
  run (created (derive_sender_key_seed secret epoch sender_index) 0 tt ltac:(lia)).
  destruct (encrypted_ok plaintext (key_at (derive_sender_key_seed secret epoch sender_index) 0) epoch sender_index suffix Hp)
    as (m & Hm & Hc & He & Hi & Hg & Hn). run (expect_same _ _ Hm). unfold assert_eq.
  rewrite He, Hi, Hg, Hc, Hn, build_nonce_eq by done. checks.
Qed.
End cipher.
End theory.

(** A cipher whose tag is 16 zeros. *)
Definition zero_tag : Primitives := {|
  hmac_sha256 k m := Byte.x01 :: k ++ m; hkdf_sha256 s i := Byte.x02 :: s ++ i;
  aead_encrypt k n p := Some (p ++ replicate 16 Byte.x00); aead_decrypt k n c := Some (take (length c - 16) c) |}.
Lemma encrypt_decrypt_roundtrip_witness :
  passes tt (prop_encrypt_decrypt_roundtrip (H := zero_tag) [Byte.x2a] 3 1 (replicate 8 Byte.x09)) = true.
Proof.
  apply (@encrypt_decrypt_roundtrip zero_tag); [| |done].
  - intros k n p c [= <-]. cbn. rewrite length_app. cbn. replace (length p + 16 - 16)%nat with (length p) by lia.
    by rewrite take_app_length.
  - intros k n p _. eexists. split; [reflexivity|]. rewrite zlen_app. done.
Defined.
End SenderKeysPropertiesTheory.

(** ** [room_manager_properties.rs] *)
Module room_manager_properties.
Import Test RoomManager.
Section tests.
Context {Env : Type} `{Environment Env} `{OpenMls Env} `{Ed25519} {S : Type} `{Storage S}.
(** The manager with its environment. *)
Abbreviation T := (Test (world (T := Env) (S := S))).

Definition prop_create_room_enables_has_room (room_id creator : Z) : T unit :=
  unwrap (create_room room_id creator);;
  b ← look (λ w, has_room room_id (rm w)); assert b.
Definition prop_duplicate_room_always_fails (room_id creator : Z) : T unit :=
  unwrap (create_room room_id creator);;
  result ← m_try (create_room room_id creator);
  assert (match result with Err (RoomError.RoomAlreadyExists _) => true | _ => false end).
Definition prop_many_distinct_rooms (room_ids : list Z) : T unit :=
  let unique_ids := elements (list_to_set room_ids : gset Z) in
  m_iter (λ room_id, unwrap (create_room room_id 0)) unique_ids;;
  m_iter (λ room_id, b ← look (λ w, has_room room_id (rm w)); assert b) unique_ids.
End tests.

Section theory.
Context {Env : Type} `{Environment Env} `{OpenMls Env} `{Ed25519} {S : Type} `{Storage S}.
(** openmls creates groups. *)
Hypothesis groups_created : ∀ (e : Env) room_id member_id, ∃ created, MlsGroup.new e room_id member_id = Ok created.
Abbreviation World := (world (T := Env) (S := S)).

Lemma create_room_spec room_id creator (w : World) : has_room room_id (rm w) = false →
  ∃ w', create_room room_id creator w = (Ok tt, w')
    ∧ ∀ r, has_room r (rm w') = bool_decide (r = room_id) || has_room r (rm w).
Proof.
  intros Hn. unfold create_room. munfold. rewrite Hn. destruct (groups_created (env w) room_id creator) as [created ->]. cbn.
  unfold env_now. cbn [with_rm env]. destruct (Environment.now (env w)) as [t e]. eexists. split; [reflexivity|]. intros r.
  unfold has_room. cbn. rewrite <-bool_decide_or. apply bool_decide_ext. rewrite lookup_insert_is_Some'. split; intros [->|]; auto.
Qed.

Lemma create_rooms ids (w : World) : NoDup ids → (∀ r, r ∈ ids → has_room r (rm w) = false) →
  ∃ w', m_iter (λ r, unwrap (create_room r 0)) ids w = (Ok tt : outcome Empty_set unit, w') ∧ ∀ r, r ∈ ids → has_room r (rm w') = true.
Proof.
  enough (∀ ids (w : World), NoDup ids → (∀ r, r ∈ ids → has_room r (rm w) = false) →
    ∃ w', m_iter (λ r, unwrap (create_room r 0)) ids w = (Ok tt : outcome Empty_set unit, w')
      ∧ ∀ r, r ∈ ids ∨ has_room r (rm w) = true → has_room r (rm w') = true) as Hall.
  { intros Hd Hn. destruct (Hall ids w Hd Hn) as (w' & Hw & Hr). exists w'. split; [done|]. intros r Hin. apply Hr. by left. }
  clear ids w. intros ids. induction ids as [|i ids IH]; intros w Hd Hn; cbn [m_iter].
  { exists w. split; [done|]. intros r [?%elem_of_nil|]; done. }
  apply list.NoDup_cons in Hd as [Hi Hd]. destruct (create_room_spec i 0 w) as (w1 & Hc & Hr1); [apply Hn; set_solver|].
  munfold. unfold unwrap at 1. rewrite Hc. destruct (IH w1 Hd) as (w' & Hw & Hr).
  { intros r Hin. rewrite Hr1, bool_decide_false by (intros ->; done). cbn. apply Hn. set_solver. }
  exists w'. split; [exact Hw|]. intros r Hin. apply Hr. rewrite Hr1. rewrite elem_of_cons in Hin.
  destruct Hin as [[->|Hin]|Hin]; [right; by rewrite bool_decide_true|by left|right; by rewrite Hin, orb_true_r].
Qed.

(** The three properties, from a manager without rooms. *)
Theorem room_properties_hold room_id creator room_ids (w : World) :
  rm w = RoomManager.new →
  all_pass w [prop_create_room_enables_has_room room_id creator; prop_duplicate_room_always_fails room_id creator;
              prop_many_distinct_rooms room_ids].
Proof.
  intros Hw. assert (∀ r, has_room r (rm w) = false) as Hn by (intros r; by rewrite Hw).
  destruct (create_room_spec room_id creator w (Hn room_id)) as (w1 & Hc & Hr).
  assert (has_room room_id (rm w1) = true) as Ht by by rewrite Hr, bool_decide_true.
  unfold all_pass, passes. cbn [forallb]. rewrite !andb_true_iff. split_and!; [..|done].
  - unfold prop_create_room_enables_has_room, unwrap, look. munfold. rewrite Hc. cbn. by rewrite Ht.
  - unfold prop_duplicate_room_always_fails, unwrap, m_try. munfold. rewrite Hc. cbn. unfold create_room. munfold. by rewrite Ht.
  - unfold prop_many_distinct_rooms. munfold. set (ids := elements _).
    destruct (create_rooms ids w) as (w' & Hw' & Hin); [apply NoDup_elements|by intros|]. rewrite Hw'.
    assert (∀ l, (∀ r, r ∈ l → r ∈ ids) → m_iter (λ r, b ← look (λ w, has_room r (rm w)); assert b) l w' = (Ok tt : outcome Empty_set unit, w')) as Hl.
    { induction l as [|r l IH]; intros Hsub; [done|]. cbn [m_iter]. munfold. unfold look. munfold. rewrite Hin by (apply Hsub; set_solver).
      apply IH. set_solver. }
    by rewrite Hl.
Qed.
End theory.

(** With the small group protocol for tests. *)
Section witness.
#[local] Existing Instances ToyMls.ops ToyMls.ed.
Lemma room_properties_witness :
  all_pass {| rm := RoomManager.new; env := ((0, 0) : ToyEnv.T); store := MemoryStorage.new |}
    [prop_create_room_enables_has_room 5 1; prop_duplicate_room_always_fails 5 1; prop_many_distinct_rooms [5; 7; 5]].
Proof. apply room_properties_hold; [|done]. intros e room_id member_id. by eexists. Defined.
End witness.
End room_manager_properties.
