(* ===== verification/TestsChaos.v ===== *)
(** * The chaos tests

    [lockframe-server/tests/chaos_storage.rs] and [chaos_sequencer.rs]: property
    tests over a storage that fails at random.  The failure rate, the seed and the
    other values drawn are arguments; the theorems hold for all of them. *)

From Stdlib Require Import ZArith QArith Lia.
From S2P Require Import Prelude Opcodes Header Frame Payload MlsState Storage Sequencer Connection TestsProto.
#[local] Open Scope Z_scope.

(** ** [chaos_storage.rs] *)
Module chaos_storage.
Import Test ChaoticStorage.
Abbreviation Store := (ChaoticStorage MemoryStorage).
Abbreviation T := (Test Store).

Definition create_test_frame (room_id log_index : Z) (payload : bytes) : Frame :=
  let header := FrameHeader.new Opcode.AppMessage in
  let header := FrameHeader.set_room_id room_id header in
  let header := FrameHeader.set_sender_id 1 header in
  let header := FrameHeader.set_epoch 0 header in
  let header := FrameHeader.set_log_index log_index header in
  Frame.new header payload.

(** [for (expected_idx, frame) in frames.iter().enumerate() { assert_eq!(..) }]. *)
Fixpoint sequential (expected : Z) (frames : list Frame) : bool :=
  match frames with
  | [] => true
  | frame :: frames => (FrameHeader.log_index (Frame.header frame) =? expected) && sequential (expected + 1) frames
  end.
Definition check {S E} (b : bool) : M S E unit := if b then mret tt else m_lift Panic.
(** [verify_frame_sequence]. *)
Definition verify_frame_sequence (room_id : Z) : M MemoryStorage StorageError unit :=
  latest ← Storage.latest_log_index room_id;
  match latest with
  | Some latest =>
      frames ← Storage.load_frames room_id 0 (latest ⊕64 1);
      check (sequential 0 frames);;
      check (zlen frames =? latest ⊕64 1)
  | None => mret tt
  end.

(** A call on [storage.inner()], which must succeed. *)
Definition on_inner {A} (op : M MemoryStorage StorageError A) : T A :=
  unwrap (m_zoom inner (λ s c, {| inner := s; failure_rate := failure_rate c; rng := rng c; operation_count := operation_count c |}) op).
(** The [i]-th frame of a room, with its payload; one byte, or sixteen. *)
Definition byte_payload (i : Z) : bytes := [byte_of_Z i].
Definition wide_payload (i : Z) : bytes := replicate 16 (byte_of_Z i).

(** The writing loop, which ends at the first failure of the disk; another error is
    a panic.  Returns the number of frames written. *)
Fixpoint write_frames (room_id i : Z) (count : nat) : T Z :=
  match count with
  | O => mret i
  | Datatypes.S count =>
      r ← m_try (Storage.store_frame room_id i (create_test_frame room_id i (byte_payload i)));
      match r with
      | Ok _ => write_frames room_id (i + 1) count
      | Err (StorageError.Io _) => mret i
      | _ => panic
      end
  end.
Definition prop_storage_chaos_atomic_writes (room_id : Z) (frame_count : nat) : T unit :=
  successful_writes ← write_frames room_id 0 frame_count;
  if 0 <? successful_writes then
    on_inner (verify_frame_sequence room_id);;
    latest ← on_inner (Storage.latest_log_index room_id);
    assert (bool_decide (latest = Some (successful_writes - 1)))
  else mret tt.

(** The loop that keeps what it wrote. *)
Fixpoint write_kept (room_id i : Z) (count : nat) : T (list Frame) :=
  match count with
  | O => mret []
  | Datatypes.S count =>
      let frame := create_test_frame room_id i (wide_payload i) in
      r ← m_try (Storage.store_frame room_id i frame);
      match r with
      | Ok _ => rest ← write_kept room_id (i + 1) count; mret (frame :: rest)
      | _ => mret []
      end
  end.
(** Frame by frame: index and payload size. *)
Fixpoint alike (expected actual : list Frame) : bool :=
  match expected, actual with
  | e :: expected, a :: actual =>
      (FrameHeader.log_index (Frame.header e) =? FrameHeader.log_index (Frame.header a))
      && (zlen (Frame.payload e) =? zlen (Frame.payload a)) && alike expected actual
  | _, _ => true
  end.
Definition prop_storage_chaos_read_consistency (room_id : Z) (write_count : nat) : T unit :=
  expected_frames ← write_kept room_id 0 write_count;
  match expected_frames with
  | [] => mret tt
  | _ =>
      read1 ← on_inner (Storage.load_frames room_id 0 (zlen expected_frames));
      read2 ← on_inner (Storage.load_frames room_id 0 (zlen expected_frames));
      assert_eq (zlen read1) (zlen expected_frames);;
      assert_eq (zlen read1) (zlen read2);;
      assert (alike expected_frames read1)
  end.

(** The paging loop; its bound is the number of frames, since every page that is not
    the last adds one at least. *)
Fixpoint pages (fuel : nat) (room_id offset page_size total : Z) (all_frames : list Frame) : T (list Frame) :=
  match fuel with
  | O => panic
  | Datatypes.S fuel =>
      page ← on_inner (Storage.load_frames room_id offset page_size);
      match page with
      | [] => mret all_frames
      | _ =>
          let all_frames := all_frames ++ page in
          let offset := offset ⊕64 page_size in
          if total <=? zlen all_frames then mret all_frames
          else pages fuel room_id offset page_size total all_frames
      end
  end.
Definition prop_storage_chaos_pagination (room_id : Z) (total_frames : nat) (page_size : Z) : T unit :=
  m_iter (λ i, unwrap (Storage.store_frame room_id i (create_test_frame room_id i (byte_payload i)))) (seqZ 0 (Z.of_nat total_frames));;
  all_frames ← pages (Datatypes.S total_frames) room_id 0 page_size (Z.of_nat total_frames) [];
  assert_eq (zlen all_frames) (Z.of_nat total_frames);;
  assert (sequential 0 all_frames).

Definition prop_storage_chaos_mls_state_consistency (room_id epoch : Z) (member_count : nat) : T unit :=
  let members := seqZ 0 (Z.of_nat member_count) in
  let state := MlsGroupState.new room_id epoch (replicate 32 (byte_of_Z 42)) members [byte_of_Z 0xde; byte_of_Z 0xad] in
  store_result ← m_try (Storage.store_mls_state room_id state);
  match store_result with
  | Ok _ =>
      loaded ← on_inner (Storage.load_mls_state room_id);
      match loaded with
      | Some loaded =>
          assert_eq (MlsGroupState.epoch loaded) (MlsGroupState.epoch state);;
          assert_eq (MlsGroupState.member_count loaded) (MlsGroupState.member_count state);;
          assert (forallb (λ m, MlsGroupState.is_member m loaded) members)
      | None => panic
      end
  | _ => mret tt
  end.

(** The states that overwrite each other. *)
Definition nth_state (room_id i epoch : Z) : MlsGroupState :=
  MlsGroupState.new room_id epoch (replicate 32 (byte_of_Z i)) [i] [byte_of_Z i].
Fixpoint overwrite (room_id i : Z) (epochs : list Z) (last : option MlsGroupState) : T (option MlsGroupState) :=
  match epochs with
  | [] => mret last
  | epoch :: epochs =>
      let state := nth_state room_id i epoch in
      unwrap (Storage.store_mls_state room_id state);;
      overwrite room_id (i + 1) epochs (Some state)
  end.
Definition prop_storage_chaos_mls_state_overwrite (room_id : Z) (epochs : list Z) : T unit :=
  last_state ← overwrite room_id 0 epochs None;
  loaded ← on_inner (Storage.load_mls_state room_id);
  match loaded, last_state with
  | Some loaded, Some expected =>
      assert_eq (MlsGroupState.epoch loaded) (MlsGroupState.epoch expected);;
      assert_eq (MlsGroupState.member_count loaded) (MlsGroupState.member_count expected)
  | _, _ => panic
  end.

(** Any error ends the writing to a room. *)
Fixpoint write_room (room_id i : Z) (count : nat) : T Z :=
  match count with
  | O => mret i
  | Datatypes.S count =>
      r ← m_try (Storage.store_frame room_id i (create_test_frame room_id i (byte_payload i)));
      match r with Ok _ => write_room room_id (i + 1) count | _ => mret i end
  end.
Fixpoint write_rooms (rooms : list Z) (frames_per_room : nat) : T (list (Z * Z)) :=
  match rooms with
  | [] => mret []
  | room_id :: rooms =>
      n ← write_room room_id 0 frames_per_room;
      counts ← write_rooms rooms frames_per_room;
      mret ((room_id, n) :: counts)
  end.
Definition check_room (rn : Z * Z) : T unit :=
  let '(room_id, expected_count) := rn in
  if 0 <? expected_count then
    on_inner (verify_frame_sequence room_id);;
    latest ← on_inner (Storage.latest_log_index room_id);
    assert (bool_decide (latest = Some (expected_count - 1)))
  else mret tt.
Definition prop_storage_chaos_concurrent_rooms (room_count frames_per_room : nat) : T unit :=
  counts ← write_rooms (seqZ 0 (Z.of_nat room_count)) frames_per_room;
  m_iter check_room counts.
End chaos_storage.

Module ChaosStorageTheory.
Import Test ChaoticStorage chaos_storage.
#[local] Abbreviation room_log := MemoryStorage.room_log.

(** The first [n] frames that a loop writes to a room. *)
Definition written (payload_of : Z → bytes) (room n : Z) : list Frame :=
  (λ i, create_test_frame room i (payload_of i)) <$> seqZ 0 n.
Lemma zlen_written p room n : 0 ≤ n → zlen (written p room n) = n.
Proof. intros Hn. unfold zlen, written. rewrite length_fmap, length_seqZ. lia. Qed.
Lemma written_S p room n : 0 ≤ n → written p room (n + 1) = written p room n ++ [create_test_frame room n (p n)].
Proof.
  intros Hn. unfold written. replace (n + 1) with (Z.of_nat (Datatypes.S (Z.to_nat n))) by lia. rewrite seqZ_S, fmap_app. cbn [fmap list_fmap].
  by replace (0 + Z.of_nat (Z.to_nat n)) with n by lia; rewrite Z2Nat.id by lia.
Qed.
Lemma written_sequential p room n k : 0 ≤ k → k + Z.of_nat n ≤ U64_MOD →
  sequential k ((λ i, create_test_frame room i (p i)) <$> seqZ k (Z.of_nat n)) = true.
Proof.
  revert k. induction n as [|n IH]; intros k Hk Hn; [done|]. rewrite seqZ_cons by lia. cbn [fmap list_fmap sequential].
  replace (Z.pred (Z.of_nat (Datatypes.S n))) with (Z.of_nat n) by lia. replace (Z.succ k) with (k + 1) by lia.
  apply andb_true_intro; split; [|apply IH; lia]. apply Z.eqb_eq. apply from_to_be_bytes. cbn. lia.
Qed.
Lemma sequential_written p room n : 0 ≤ n ≤ U64_MOD → sequential 0 (written p room n) = true.
Proof. intros Hn. replace n with (Z.of_nat (Z.to_nat n)) by lia. apply written_sequential; lia. Qed.

(** A storage with failure rate 0 does not fail. *)
Lemma rate_zero_passes q x : Qle_bool q 0 = true → 0 ≤ x → Qle_bool q (inject_Z x / inject_Z ChaoticRng.M) = true.
Proof.
  rewrite !Qle_bool_iff. intros Hq Hx. eapply Qle_trans; [exact Hq|]. apply Qle_shift_div_l; [reflexivity|].
  rewrite Qmult_0_l. change 0%Q with (inject_Z 0). by rewrite <-Zle_Qle.
Qed.
Lemma next_nonneg state : 0 ≤ ChaoticRng.next state.
Proof. apply Z.mod_pos_bound. reflexivity. Qed.
Lemma never_fails (c : Store) : Qle_bool (failure_rate c) 0 = true →
  ∃ x, should_fail (increment_operation_count c)
       = (false, {| inner := inner c; failure_rate := failure_rate c; rng := x; operation_count := operation_count c ⊕64 1 |}).
Proof.
  intros Hq. exists (ChaoticRng.next (rng c)). unfold should_fail, ChaoticRng.should_fail. cbn -[ChaoticRng.next Z.modulo].
  by rewrite rate_zero_passes by (done || apply next_nonneg).
Qed.

(** A store that is asked for the next index of a room: the disk fails and nothing
    is changed, or the frame is at the end of the log. *)
Lemma store_next room f c :
  ∃ c', failure_rate c' = failure_rate c
    ∧ ((∃ why, Storage.store_frame room (zlen (room_log (inner c) room)) f c = (Err (StorageError.Io why), c') ∧ inner c' = inner c
          ∧ Qle_bool (failure_rate c) 0 = false)
       ∨ Storage.store_frame room (zlen (room_log (inner c) room)) f c = (Ok tt, c')
         ∧ (∀ r, room_log (inner c') r = if bool_decide (r = room) then room_log (inner c) room ++ [f] else room_log (inner c) r)).
Proof.
  cbn. unfold store_frame, inject, should_fail, ChaoticRng.should_fail. cbn -[ChaoticRng.next Z.modulo MemoryStorage.store_frame].
  set (x := ChaoticRng.next (rng c)).
  destruct (Qle_bool (failure_rate c) (inject_Z x / inject_Z ChaoticRng.M)) eqn:E; cbn -[ChaoticRng.next Z.modulo MemoryStorage.store_frame].
  - destruct (MemoryStorage.store_frame _ _ _ _) as [r s] eqn:Es. unfold MemoryStorage.store_frame in Es.
    rewrite Z.eqb_refl in Es. injection Es as <- <-. eexists. split; [|right; split; [reflexivity|]]; [done|]. intros r. apply MemoryStorage.store_frame_put.
  - eexists. split; [|left; eexists; split_and!; [reflexivity|done|]]; [done|].
    destruct (Qle_bool (failure_rate c) 0) eqn:Ez; [|done]. by rewrite rate_zero_passes in E by (done || apply next_nonneg).
Qed.

(** Reading a room back. *)
Lemma stored_room s room l : room_log s room = l → l ≠ [] → MemoryStorage.frames s !! room = Some l.
Proof. unfold MemoryStorage.room_log. destruct (MemoryStorage.frames s !! room); cbn; congruence. Qed.
Lemma latest_stored s room l : room_log s room = l → Storage.latest_log_index room s = (Ok (latest l), s).
Proof.
  intros <-. cbn. unfold MemoryStorage.latest_log_index, MemoryStorage.room_log. by destruct (MemoryStorage.frames s !! room) as [[]|].
Qed.
Lemma load_stored s room l from limit :
  room_log s room = l → l ≠ [] → zlen l < U64_MOD → 0 ≤ from → 0 ≤ limit → from + limit < U64_MOD →
  Storage.load_frames room from limit s = (Ok (take (Z.to_nat limit) (drop (Z.to_nat from) l)), s).
Proof.
  intros Hl Hne Hb Hf Hm Hsum. cbn. rewrite (MemoryStorage.load_frames_spec _ _ _ _ l) by (done || lia || by apply stored_room).
  by rewrite (proj2 (Z.leb_gt U64_MOD _)), andb_false_r by lia.
Qed.
Lemma verify_ok s room l :
  room_log s room = l → sequential 0 l = true → zlen l < U64_MOD → verify_frame_sequence room s = (Ok tt, s).
Proof.
  intros Hl Hs Hb. unfold verify_frame_sequence. munfold. rewrite (latest_stored s room l Hl).
  destruct l as [|f l]; [done|]. cbn [latest]. pose proof (zlen_nonneg l) as Hz. rewrite zlen_cons in *.
  rewrite Z.mod_small by lia. replace (1 + zlen l - 1 + 1) with (1 + zlen l) by lia.
  rewrite (load_stored s room (f :: l)) by (done || (rewrite ?zlen_cons; lia)). unfold check.
  rewrite drop_0, take_ge by (unfold zlen; cbn; lia). rewrite Hs, zlen_cons, Z.eqb_refl. done.
Qed.
Lemma on_inner_ok {A} (op : M MemoryStorage StorageError A) (c : Store) a :
  op (inner c) = (Ok a, inner c) → on_inner op c = (Ok a, c).
Proof. intros Ho. unfold on_inner, unwrap, m_zoom. rewrite Ho. by destruct c. Qed.

(** Other rooms are left alone. *)
Definition others_kept (room : Z) (c c' : Store) : Prop := ∀ r, r ≠ room → room_log (inner c') r = room_log (inner c) r.

(** One turn of a writing loop, as a call whose result is looked at. *)
Lemma write_turn p room i c : 0 ≤ i → room_log (inner c) room = written p room i →
  ∃ c', others_kept room c c' ∧ failure_rate c' = failure_rate c
    ∧ ((∃ why, m_try (E' := Empty_set) (Storage.store_frame room i (create_test_frame room i (p i))) c = (Ok (Err (StorageError.Io why)), c')
          ∧ room_log (inner c') room = written p room i ∧ Qle_bool (failure_rate c) 0 = false)
       ∨ m_try (E' := Empty_set) (Storage.store_frame room i (create_test_frame room i (p i))) c = (Ok (Ok tt), c')
         ∧ room_log (inner c') room = written p room (i + 1)).
Proof.
  intros Hi Hl. destruct (store_next room (create_test_frame room i (p i)) c) as (c' & Hr & Hs). rewrite Hl, zlen_written in Hs by done.
  exists c'. unfold m_try. destruct Hs as [(why & -> & Hin & Hq)|[-> Hlog]].
  - split_and!; [by intros r _; rewrite Hin|done|]. left. exists why. split_and!; [done|by rewrite Hin|done].
  - split_and!; [intros r Hne; by rewrite Hlog, bool_decide_false|done|]. right. split; [done|].
    by rewrite Hlog, bool_decide_true, written_S.
Qed.

Lemma write_frames_spec room n i c : 0 ≤ i → room_log (inner c) room = written byte_payload room i →
  ∃ k c', write_frames room i n c = (Ok k, c') ∧ i ≤ k ≤ i + Z.of_nat n ∧ room_log (inner c') room = written byte_payload room k
    ∧ others_kept room c c'.
Proof.
  revert i c. induction n as [|n IH]; intros i c Hi Hl; cbn [write_frames].
  { exists i, c. split_and!; [done|lia..|done|done]. }
  destruct (write_turn byte_payload room i c Hi Hl) as (c1 & Ho & _ & [(why & Ht & Hl1 & _)|[Ht Hl1]]); munfold; rewrite Ht.
  - exists i, c1. split_and!; [done|lia..|done|done].
  - destruct (IH (i + 1) c1) as (k & c' & Hw & Hk & Hlk & Ho'); [lia|done|]. exists k, c'.
    split_and!; [done|lia..|done|]. intros r Hne. by rewrite Ho', Ho.
Qed.
Lemma write_room_is_write_frames room n i c : 0 ≤ i → room_log (inner c) room = written byte_payload room i →
  write_room room i n c = write_frames room i n c.
Proof.
  revert i c. induction n as [|n IH]; intros i c Hi Hl; cbn [write_frames write_room]; [done|].
  destruct (write_turn byte_payload room i c Hi Hl) as (c1 & _ & _ & [(why & Ht & _)|[Ht Hl1]]); munfold; rewrite Ht; [done|].
  apply IH; [lia|done].
Qed.
Lemma write_kept_spec room n i c : 0 ≤ i → room_log (inner c) room = written wide_payload room i →
  ∃ fs c', write_kept room i n c = (Ok fs, c') ∧ zlen fs ≤ Z.of_nat n ∧ room_log (inner c') room = written wide_payload room i ++ fs.
Proof.
  revert i c. induction n as [|n IH]; intros i c Hi Hl; cbn [write_kept].
  { exists [], c. by rewrite app_nil_r. }
  destruct (write_turn wide_payload room i c Hi Hl) as (c1 & _ & _ & [(why & Ht & Hl1 & _)|[Ht Hl1]]); munfold; rewrite Ht.
  - exists [], c1. rewrite app_nil_r. split_and!; [done|unfold zlen; cbn [length]; lia|done].
  - destruct (IH (i + 1) c1) as (fs & c' & -> & Hz & Hlk); [lia|done|].
    exists (create_test_frame room i (wide_payload i) :: fs), c'. rewrite zlen_cons. split_and!; [done|lia|].
    by rewrite Hlk, written_S, <-app_assoc by lia.
Qed.

(** What the oracle sees of a room with [k] frames. *)
Lemma oracle_ok room k c : 0 < k < U64_MOD → room_log (inner c) room = written byte_payload room k →
  on_inner (verify_frame_sequence room) c = (Ok tt, c) ∧ on_inner (Storage.latest_log_index room) c = (Ok (Some (k - 1)), c).
Proof.
  intros Hk Hl. split.
  - eapply on_inner_ok, verify_ok; [done|by apply sequential_written; lia|rewrite zlen_written; lia].
  - apply on_inner_ok. rewrite (latest_stored _ _ _ Hl). unfold latest. pose proof (zlen_written byte_payload room k ltac:(lia)) as Hz.
    destruct (written byte_payload room k); [unfold zlen in Hz; cbn in Hz; lia|]. by rewrite Hz.
Qed.

(** A storage that has just been made. *)
Definition empty (c : Store) : Prop := inner c = MemoryStorage.new.
Lemma empty_log c room p : empty c → room_log (inner c) room = written p room 0.
Proof. intros ->. done. Qed.

Theorem atomic_writes_hold c room n : empty c → Z.of_nat n < U64_MOD → passes c (prop_storage_chaos_atomic_writes room n) = true.
Proof.
  intros He Hn. destruct (write_frames_spec room n 0 c) as (k & c' & Hw & Hk & Hl & _); [lia|by apply empty_log|].
  unfold passes, prop_storage_chaos_atomic_writes. munfold. rewrite Hw. destruct (0 <? k) eqn:E; [|done]. apply Z.ltb_lt in E.
  destruct (oracle_ok room k c') as [-> ->]; [lia|done|]. by rewrite bool_decide_true.
Qed.
Theorem read_consistency_holds c room n : empty c → Z.of_nat n < U64_MOD → passes c (prop_storage_chaos_read_consistency room n) = true.
Proof.
  intros He Hn. destruct (write_kept_spec room n 0 c) as (fs & c' & Hw & Hz & Hl); [lia|by apply empty_log|].
  unfold passes, prop_storage_chaos_read_consistency. munfold. rewrite Hw. destruct fs as [|f fs]; [done|]. set (l := f :: fs) in *.
  assert (on_inner (Storage.load_frames room 0 (zlen l)) c' = (Ok l, c')) as Hr.
  { apply on_inner_ok. pose proof (zlen_nonneg l). rewrite (load_stored _ _ l) by (done || lia). rewrite drop_0, take_ge by (unfold zlen; lia). done. }
  rewrite Hr, Hr. unfold assert_eq. rewrite !bool_decide_true by done.
  assert (∀ l, alike l l = true) as -> by (intros l'; induction l' as [|x l' IH]; cbn; [done|]; by rewrite !Z.eqb_refl). done.
Qed.

(** Writing without failures, and reading back page by page. *)
Lemma write_all_spec room n i c : Qle_bool (failure_rate c) 0 = true → 0 ≤ i → room_log (inner c) room = written byte_payload room i →
  ∃ c', m_iter (λ i, unwrap (Storage.store_frame room i (create_test_frame room i (byte_payload i)))) (seqZ i (Z.of_nat n)) c
        = (Ok tt : outcome Empty_set unit, c')
    ∧ room_log (inner c') room = written byte_payload room (i + Z.of_nat n).
Proof.
  revert i c. induction n as [|n IH]; intros i c Hq Hi Hl.
  { exists c. by rewrite Z.add_0_r. }
  rewrite seqZ_cons by lia. cbn [m_iter]. munfold.
  destruct (write_turn byte_payload room i c Hi Hl) as (c1 & _ & Hf & [(why & _ & _ & Hq')|[Ht Hl1]]); [congruence|].
  assert (unwrap (Storage.store_frame room i (create_test_frame room i (byte_payload i))) c = (Ok tt, c1)) as ->.
  { unfold m_try in Ht. unfold unwrap. destruct (Storage.store_frame _ _ _ _) as [[]]; by simplify_eq. }
  replace (Z.pred (Z.of_nat (Datatypes.S n))) with (Z.of_nat n) by lia. replace (Z.succ i) with (i + 1) by lia.
  destruct (IH (i + 1) c1) as (c' & Hw & Hlk); [by rewrite Hf|lia|done|]. exists c'. split; [done|].
  rewrite Hlk. f_equal. lia.
Qed.
Lemma pages_spec fuel room offset page_size l c :
  room_log (inner c) room = l → l ≠ [] → 0 ≤ offset → 1 ≤ page_size → zlen l + 2 * page_size < U64_MOD → offset < zlen l + page_size →
  (Z.to_nat (zlen l - offset) < fuel)%nat →
  pages fuel room offset page_size (zlen l) (take (Z.to_nat offset) l) c = (Ok l, c).
Proof.
  intros Hl Hne. revert offset. induction fuel as [|fuel IH]; intros offset Ho Hp Hb Hlt Hf; [lia|]. cbn [pages]. munfold.
  rewrite (on_inner_ok (Storage.load_frames room offset page_size) c (take (Z.to_nat page_size) (drop (Z.to_nat offset) l)))
    by (apply load_stored; (done || lia)).
  assert (take (Z.to_nat offset) l ++ take (Z.to_nat page_size) (drop (Z.to_nat offset) l) = take (Z.to_nat (offset + page_size)) l) as Hacc.
  { rewrite take_take_drop. f_equal. lia. }
  destruct (take (Z.to_nat page_size) (drop (Z.to_nat offset) l)) as [|f page] eqn:Ep.
  - do 2 f_equal. apply take_ge. apply (f_equal length) in Ep. rewrite length_take, length_drop in Ep. cbn in Ep. lia.
  - rewrite Hacc. rewrite Z.mod_small by lia. destruct (zlen l <=? zlen (take (Z.to_nat (offset + page_size)) l)) eqn:E.
    + apply Z.leb_le in E. do 2 f_equal. apply take_ge. unfold zlen in E. rewrite length_take in E. lia.
    + apply Z.leb_gt in E. unfold zlen in E. rewrite length_take in E. apply IH; unfold zlen in *; lia.
Qed.
Theorem pagination_holds c room n page_size :
  empty c → Qle_bool (failure_rate c) 0 = true → (0 < n)%nat → 1 ≤ page_size → Z.of_nat n + 2 * page_size < U64_MOD →
  passes c (prop_storage_chaos_pagination room n page_size) = true.
Proof.
  intros He Hq Hn Hp Hb. destruct (write_all_spec room n 0 c) as (c' & Hw & Hl); [done|lia|by apply empty_log|].
  unfold passes, prop_storage_chaos_pagination. munfold. rewrite Hw. cbn [Z.add] in Hl.
  pose proof (zlen_written byte_payload room (Z.of_nat n) ltac:(lia)) as Hz.
  pose proof (pages_spec (Datatypes.S n) room 0 page_size (written byte_payload room (Z.of_nat n)) c' Hl) as Hpg. rewrite Hz in Hpg.
  rewrite Z2Nat.inj_0, take_0 in Hpg. rewrite Hpg; [|intros E; rewrite E in Hz; unfold zlen in Hz; cbn in Hz; lia|lia..].
  unfold assert_eq. rewrite Hz, bool_decide_true by done. by rewrite sequential_written by lia.
Qed.

(** States that are stored, and overwritten. *)
Theorem mls_state_consistency_holds c room epoch n : passes c (prop_storage_chaos_mls_state_consistency room epoch n) = true.
Proof.
  unfold passes, prop_storage_chaos_mls_state_consistency. cbv zeta. set (st := MlsGroupState.new _ _ _ _ _). munfold. unfold m_try.
  cbn [Storage.store_mls_state chaotic_storage]. unfold store_mls_state.
  destruct (inject_spec (Storage.store_mls_state room st) c) as (x & y & z & [[why ->]| ->]); [done|]. cbn [fst snd Storage.store_mls_state MemoryStorage.memory_storage MemoryStorage.store_mls_state].
  rewrite (on_inner_ok (Storage.load_mls_state room) _ (Some st)).
  2: { cbn. unfold MemoryStorage.load_mls_state. cbn. by rewrite lookup_insert_eq. }
  unfold assert_eq. rewrite !bool_decide_true by done. replace (forallb _ _) with true; [done|]. symmetry. apply forallb_forall.
  intros m Hm. unfold MlsGroupState.is_member. apply bool_decide_true. by apply list_elem_of_In.
Qed.
(** A store of a state that cannot fail. *)
Lemma store_state_ok room st c : Qle_bool (failure_rate c) 0 = true →
  ∃ c', unwrap (Storage.store_mls_state room st) c = (Ok tt, c') ∧ failure_rate c' = failure_rate c
    ∧ MemoryStorage.mls_states (inner c') !! room = Some st.
Proof.
  intros Hq. destruct (never_fails c Hq) as (x & Hs). unfold unwrap. cbn. unfold store_mls_state, inject. rewrite Hs. cbn.
  eexists. split_and!; [reflexivity|done|]. cbn. by rewrite lookup_insert_eq.
Qed.
Lemma overwrite_spec room epochs i last c : Qle_bool (failure_rate c) 0 = true →
  MemoryStorage.mls_states (inner c) !! room = last →
  ∃ st c', overwrite room i epochs last c = (Ok st, c') ∧ MemoryStorage.mls_states (inner c') !! room = st
    ∧ (epochs ≠ [] ∨ is_Some last → is_Some st).
Proof.
  revert i last c. induction epochs as [|e epochs IH]; intros i last c Hq Hm; cbn [overwrite].
  { exists last, c. split_and!; [done|done|]. by intros [?|]. }
  munfold. destruct (store_state_ok room (nth_state room i e) c Hq) as (c1 & -> & Hf & Hm1).
  destruct (IH (i + 1) (Some (nth_state room i e)) c1) as (st & c' & Ho & Hst & Hs); [by rewrite Hf|done|].
  exists st, c'. split_and!; [done|done|]. intros _. apply Hs. by right.
Qed.
Theorem mls_state_overwrite_holds c room epochs : Qle_bool (failure_rate c) 0 = true → epochs ≠ [] → empty c →
  passes c (prop_storage_chaos_mls_state_overwrite room epochs) = true.
Proof.
  intros Hq Hne He. destruct (overwrite_spec room epochs 0 None c Hq) as (st & c' & Ho & Hst & Hs).
  { rewrite He. done. }
  destruct Hs as [st' ->]; [by left|]. unfold passes, prop_storage_chaos_mls_state_overwrite. munfold. rewrite Ho.
  rewrite (on_inner_ok (Storage.load_mls_state room) c' (Some st')).
  2: { cbn. unfold MemoryStorage.load_mls_state. by rewrite Hst. }
  unfold assert_eq. by rewrite !bool_decide_true.
Qed.

(** Rooms one after the other. *)
Lemma write_rooms_spec rooms n c : NoDup rooms → (∀ r, r ∈ rooms → room_log (inner c) r = []) →
  ∃ counts c', write_rooms rooms n c = (Ok counts, c') ∧ (∀ r, r ∉ rooms → room_log (inner c') r = room_log (inner c) r)
    ∧ ∀ r k, (r, k) ∈ counts → 0 ≤ k ≤ Z.of_nat n ∧ room_log (inner c') r = written byte_payload r k.
Proof.
  revert c. induction rooms as [|room rooms IH]; intros c Hd He; cbn [write_rooms].
  { exists [], c. split_and!; [done|done|]. by intros r k ?%elem_of_nil. }
  apply list.NoDup_cons in Hd as [Hnin Hd]. munfold.
  assert (room_log (inner c) room = written byte_payload room 0) as Hl by (rewrite He by set_solver; done).
  rewrite write_room_is_write_frames by (done || lia).
  destruct (write_frames_spec room n 0 c) as (k & c1 & -> & Hk & Hlk & Ho); [lia|done|].
  destruct (IH c1 Hd) as (counts & c' & Hw & Hout & Hin).
  { intros r Hr. rewrite Ho by (intros ->; done). apply He. set_solver. }
  rewrite Hw. exists ((room, k) :: counts), c'. split_and!; [done| |].
  - intros r Hr. rewrite Hout by set_solver. apply Ho. set_solver.
  - intros r k' [[= -> ->]|Hc]%elem_of_cons; [|by apply Hin]. split; [lia|]. by rewrite Hout.
Qed.
Lemma check_rooms_ok counts c :
  (∀ r k, (r, k) ∈ counts → 0 ≤ k < U64_MOD ∧ room_log (inner c) r = written byte_payload r k) → m_iter check_room counts c = (Ok tt, c).
Proof.
  induction counts as [|[r k] counts IH]; intros Hc; [done|]. cbn [m_iter check_room]. munfold.
  destruct (Hc r k) as [Hk Hl]; [set_solver|]. destruct (0 <? k) eqn:E.
  - apply Z.ltb_lt in E. destruct (oracle_ok r k c) as [Hv Hla]; [lia|done|]. munfold. rewrite Hv, Hla. rewrite bool_decide_true by done.
    apply IH. set_solver.
  - apply IH. set_solver.
Qed.
Theorem concurrent_rooms_hold c m n : empty c → Z.of_nat n < U64_MOD → passes c (prop_storage_chaos_concurrent_rooms m n) = true.
Proof.
  intros He Hn. destruct (write_rooms_spec (seqZ 0 (Z.of_nat m)) n c) as (counts & c' & Hw & _ & Hc); [apply NoDup_seqZ|by intros r _; rewrite He|].
  unfold passes, prop_storage_chaos_concurrent_rooms. munfold. rewrite Hw, check_rooms_ok; [done|].
  intros r k Hin. destruct (Hc r k Hin). split; [lia|done].
Qed.
End ChaosStorageTheory.

(** ** [chaos_sequencer.rs] *)
Module chaos_sequencer.
Import Test ChaoticStorage chaos_storage.
(** The sequencer and the storage of a test. *)
Abbreviation Pair := (Sequencer * Store)%type.
Abbreviation T := (Test Pair).

Definition create_test_frame (room_id sender_id epoch : Z) (payload : bytes) : Frame :=
  let header := FrameHeader.new Opcode.AppMessage in
  let header := FrameHeader.set_room_id room_id header in
  let header := FrameHeader.set_sender_id sender_id header in
  let header := FrameHeader.set_epoch epoch header in
  let header := FrameHeader.set_log_index 0 header in
  Frame.new header payload.

(** A call on [storage.inner()] of which the result is looked at. *)
Definition ask_inner {A} (op : M MemoryStorage StorageError A) : T (outcome StorageError A) :=
  m_try (m_zoom (λ p, inner (snd p))
    (λ s p, (fst p, {| inner := s; failure_rate := failure_rate (snd p); rng := rng (snd p); operation_count := operation_count (snd p) |})) op).
(** [verify_sequential_indices(storage.inner(), room_id)]. *)
Definition verify_sequential_indices (room_id : Z) : T unit :=
  r ← ask_inner (Storage.latest_log_index room_id);
  match r with
  | Ok (Some latest) =>
      frames ← ask_inner (Storage.load_frames room_id 0 (latest ⊕64 1));
      frames ← expect frames;
      assert (sequential 0 frames)
  | _ => mret tt
  end.

(** [prop_sequencer_survives_low_chaos] and [prop_sequencer_survives_high_chaos]
    differ in the range of the failure rate. *)
Definition prop_sequencer_survives_chaos (frames : list Frame) : T unit :=
  m_iter (λ frame,
    m_try (Sequencer.process_frame frame);;
    verify_sequential_indices (FrameHeader.room_id (Frame.header frame))) frames.

(** The results of a run over a storage of its own. *)
Fixpoint outcomes (frames : list Frame) : T (list bool) :=
  match frames with
  | [] => mret []
  | f :: frames => r ← m_try (Sequencer.process_frame f); rs ← outcomes frames; mret (is_ok r :: rs)
  end.
Definition prop_sequencer_deterministic_under_chaos (storage : Store) (frames : list Frame) : T unit :=
  results1 ← scoped (Sequencer.new, storage) (outcomes frames);
  results2 ← scoped (Sequencer.new, storage) (outcomes frames);
  assert_eq results1 results2.

Definition prop_sequencer_never_creates_gaps (room_id : Z) (frame_count : nat) : T unit :=
  m_iter (λ i, m_try (Sequencer.process_frame (create_test_frame room_id 1 0 [byte_of_Z i]));; mret tt) (seqZ 0 (Z.of_nat frame_count));;
  r ← ask_inner (Storage.latest_log_index room_id);
  match r with
  | Ok (Some latest) =>
      frames ← ask_inner (Storage.load_frames room_id 0 (latest ⊕64 1));
      frames ← expect frames;
      assert (sequential 0 frames);;
      assert_eq (zlen frames) (latest ⊕64 1);;
      ops ← look (λ p, operation_count (snd p));
      assert (ops <=? Z.of_nat frame_count * 3)
  | _ => mret tt
  end.

Definition prop_sequencer_storage_errors_propagate (room_id : Z) : T unit :=
  result ← m_try (Sequencer.process_frame (create_test_frame room_id 1 0 []));
  assert (negb (is_ok result)).
End chaos_sequencer.

Module ChaosSequencerTheory.
Import Test ChaoticStorage chaos_storage chaos_sequencer ChaosStorageTheory.

(** A step that returns, and what follows it. *)
Lemma bind_ok {S E A B} (m : M S E A) (k : A → M S E B) s a s' : m s = (Ok a, s') → (m ≫= k) s = k a s'.
Proof. intros Hm. cbv [mbind M_bind]. by rewrite Hm. Qed.

(** The sequencer only reads: after any frame the storage is as empty as before. *)
Definition idle (p : Pair) : Prop := Sequencer.inv p ∧ ∀ r, MemoryStorage.room_log (inner (snd p)) r = [].
Lemma idle_new c : empty c → idle (Sequencer.new, c).
Proof.
  intros He. assert (∀ r, MemoryStorage.room_log (inner c) r = []) as Hl by (intros r; by rewrite He).
  split; [|done]. by apply Sequencer.empty_inv.
Qed.
Lemma process_idle f p : idle p → ∃ r p', m_try (E' := Empty_set) (Sequencer.process_frame f) p = (Ok r, p') ∧ idle p'.
Proof.
  intros [Hi He]. destruct p as [q c]. pose proof (Sequencer.process_frame_spec f q c Hi) as Hs.
  pose proof (Sequencer.process_frame_inv f (q, c) Hi) as Hi'. unfold m_try.
  destruct (Sequencer.process_frame f (q, c)) as [[acts|e|] [q' c']]; [| |done]; eexists _, _; (split; [reflexivity|]); (split; [done|]);
    cbn [snd] in *; intros r.
  - destruct Hs as (_ & [Hlog _] & _). cbn in Hlog. by rewrite Hlog.
  - destruct Hs as ([Hlog _] & _). cbn in Hlog. by rewrite Hlog.
Qed.
Lemma idle_latest p room : idle p → ask_inner (Storage.latest_log_index room) p = (Ok (Ok None), p).
Proof.
  intros [_ He]. destruct p as [q c]. cbn [snd] in He. unfold ask_inner, m_try, m_zoom. cbn [fst snd].
  rewrite (latest_stored _ room [] (He room)). cbn. by destruct c.
Qed.

(** The oracle of the tests finds nothing to check: the sequencer returns the frames
    that are to be stored and the tests store none, so that the branch behind the
    first [if let] is never taken. *)
Theorem oracle_never_looks p room : idle p → verify_sequential_indices room p = (Ok tt, p).
Proof. intros Hp. unfold verify_sequential_indices. by erewrite bind_ok by by apply idle_latest. Qed.
Theorem survives_chaos frames c : empty c → passes (Sequencer.new, c) (prop_sequencer_survives_chaos frames) = true.
Proof.
  intros He. enough (∀ p, idle p → ∃ p', prop_sequencer_survives_chaos frames p = (Ok tt, p')) as Hall.
  { destruct (Hall _ (idle_new c He)) as [p' Hp]. unfold passes. by rewrite Hp. }
  induction frames as [|f frames IH]; intros p Hp; [by exists p|].
  destruct (process_idle f p Hp) as (r & p1 & Hr & Hp1). destruct (IH p1 Hp1) as [p' Hp']. exists p'.
  unfold prop_sequencer_survives_chaos in *. cbn [m_iter]. erewrite bind_ok; [exact Hp'|].
  erewrite bind_ok by exact Hr. by apply oracle_never_looks.
Qed.
Theorem never_creates_gaps room n c : empty c → passes (Sequencer.new, c) (prop_sequencer_never_creates_gaps room n) = true.
Proof.
  intros He. assert (∀ l p, idle p → ∃ p', m_iter (λ i, m_try (Sequencer.process_frame (create_test_frame room 1 0 [byte_of_Z i]));; mret tt) l p
    = (Ok tt : outcome Empty_set unit, p') ∧ idle p') as Hall.
  { induction l as [|i l IH]; intros p Hp; [by exists p|].
    destruct (process_idle (create_test_frame room 1 0 [byte_of_Z i]) p Hp) as (r & p1 & Hr & Hp1).
    destruct (IH p1 Hp1) as (p' & Hp' & Hi'). exists p'. split; [|done]. cbn [m_iter]. erewrite bind_ok; [exact Hp'|].
    by erewrite bind_ok by exact Hr. }
  destruct (Hall (seqZ 0 (Z.of_nat n)) _ (idle_new c He)) as (p' & Hp & Hi').
  unfold passes, prop_sequencer_never_creates_gaps. erewrite bind_ok by exact Hp. by erewrite bind_ok by by apply idle_latest.
Qed.
Lemma outcomes_ok frames p : idle p → ∃ bs p', outcomes frames p = (Ok bs, p').
Proof.
  revert p. induction frames as [|f frames IH]; intros p Hp; cbn [outcomes]; [by exists [], p|].
  destruct (process_idle f p Hp) as (r & p1 & Hr & Hp1). destruct (IH p1 Hp1) as (bs & p' & Hb). exists (is_ok r :: bs), p'.
  erewrite bind_ok by exact Hr. by erewrite bind_ok by exact Hb.
Qed.
Theorem deterministic_under_chaos frames c p : empty c → passes p (prop_sequencer_deterministic_under_chaos c frames) = true.
Proof.
  intros He. destruct (outcomes_ok frames _ (idle_new c He)) as (bs & p' & Ho).
  unfold passes, prop_sequencer_deterministic_under_chaos, scoped. munfold. rewrite Ho. cbn [fst]. unfold assert_eq. by rewrite bool_decide_true.
Qed.
(** At failure rate 1 every call fails, and so does the sequencer. *)
Theorem storage_errors_propagate room c : (1 <= failure_rate c)%Q →
  passes (Sequencer.new, c) (prop_sequencer_storage_errors_propagate room) = true.
Proof.
  intros Hq. unfold passes, prop_sequencer_storage_errors_propagate. munfold. unfold m_try, Sequencer.process_frame. munfold.
  set (f := create_test_frame room 1 0 []). destruct (Sequencer.validate_frame_structure f) as [[]|e|] eqn:Hv; [|done|].
  2: { unfold Sequencer.validate_frame_structure in Hv. repeat case_match; simplify_eq. }
  change (Sequencer.is_welcome f) with false. unfold Sequencer.initialize_room. munfold. cbn [fst Sequencer.rooms Sequencer.new].
  rewrite lookup_empty. unfold Sequencer.on_storage, m_zoom, m_map_err. cbn [snd]. cbn -[inject]. unfold latest_log_index, inject.
  assert (should_fail (increment_operation_count c) = (true, snd (should_fail (increment_operation_count c)))) as ->; [|done].
  unfold should_fail, ChaoticRng.should_fail. cbn -[ChaoticRng.next Z.modulo]. f_equal.
  destruct (Qle_bool (failure_rate c) _) eqn:E; [|done]. apply Qle_bool_iff in E. exfalso.
  assert (inject_Z (ChaoticRng.next (rng c)) / inject_Z ChaoticRng.M < 1)%Q as Hlt.
  { apply Qlt_shift_div_r; [reflexivity|]. rewrite Qmult_1_l. rewrite <-Zlt_Qlt. apply Z.mod_pos_bound. reflexivity. }
  apply (Qlt_irrefl 1). eapply Qle_lt_trans; [|exact Hlt]. by eapply Qle_trans.
Qed.
End ChaosSequencerTheory.
