(* ===== verification/FuzzProto.v ===== *)
(** * The fuzz targets of the protocol layer

    [fuzz/fuzz_targets/frame_boundary_fuzzer.rs] and
    [fuzz/fuzz_targets/connection_state_fuzzer.rs]: the inputs, the harness that
    turns an input into calls, and its assertions.  An assertion that fails is a
    panic; the theorems state that no input reaches one. *)

From Stdlib Require Import ZArith Lia.
From S2P Require Import Prelude Opcodes Header Frame Payload Connection.

(** [assert!(b)], and [panic!] when [b] is false. *)
Definition assert_ {S E} (b : bool) : M S E unit := if b then mret tt else m_lift Panic.

(** ** Writing into a buffer *)
Section buffers.
Implicit Types l src dst : bytes.

Lemma lookup_slice (a b : nat) l i :
  slice a b l !! i = if decide (i < b - a)%nat then l !! (a + i)%nat else None.
Proof.
  unfold slice. case_decide.
  - by rewrite lookup_take_lt, lookup_drop.
  - by rewrite lookup_take_ge by lia.
Qed.
Lemma length_copy_at (off : nat) src dst :
  (off + length src ≤ length dst)%nat → length (FrameHeader.copy_at off src dst) = length dst.
Proof. intros. unfold FrameHeader.copy_at. rewrite !length_app, length_take, length_drop. lia. Qed.
Lemma slice_copy_here (off b : nat) src dst :
  (off + length src ≤ length dst)%nat → b = (off + length src)%nat →
  slice off b (FrameHeader.copy_at off src dst) = src.
Proof.
  intros Hl ->. unfold slice, FrameHeader.copy_at. rewrite drop_app_exact by (rewrite length_take; lia).
  apply take_app_exact. lia.
Qed.
Lemma slice_copy_away (a b off : nat) src dst :
  (off + length src ≤ length dst)%nat → (b ≤ off ∨ off + length src ≤ a)%nat →
  slice a b (FrameHeader.copy_at off src dst) = slice a b dst.
Proof.
  intros Hl Hd. apply list_eq. intros i. rewrite !lookup_slice. case_decide; [|done].
  unfold FrameHeader.copy_at. destruct Hd.
  - rewrite lookup_app_l by (rewrite length_take; lia). by rewrite lookup_take_lt by lia.
  - rewrite lookup_app_r by (rewrite length_take; lia).
    rewrite lookup_app_r by (rewrite length_take; lia). rewrite length_take, lookup_drop. f_equal. lia.
Qed.
Lemma byte_at_slice (i : nat) l : (i < length l)%nat → slice i (S i) l = [FrameHeader.byte_at i l].
Proof. apply slice_one. Qed.
End buffers.

(** ** [frame_boundary_fuzzer.rs] *)
Module frame_boundary.
Definition LOCKFRAME_MAGIC : bytes := map byte_of_Z [0x4C; 0x4F; 0x46; 0x52].
Definition MAX_PAYLOAD_SIZE : Z := 16 * 1024 * 1024.

Inductive MagicBytes : Type := MValid | OffByOne (offset : Z) | AllZeros | AllOnes | MRandom (bs : bytes).
Inductive VersionBytes : Type := VValid | VZero | VMax | VRandom (v : Z).
Inductive PayloadSize : Type :=
| PZero | PSmall (s : Z) | AtMaxBoundary | JustOverMax | WayOverMax | MaxU32 | PRandom (r : Z).
Inductive RoomId : Type := RZero | ROne | RSmall (s : Z) | MaxU128 | RRandom (r : Z).
Inductive SenderId : Type := SZero | SOne | SMaxU64 | SRandom (r : Z).
Inductive EpochValue : Type := EZero | EOne | MaxMinus1 | EMaxU64 | ERandom (r : Z).

Record BoundaryFrame : Type := {
  magic : MagicBytes;
  version : VersionBytes;
  opcode : Z;
  payload_size : PayloadSize;
  room_id : RoomId;
  sender_id : SenderId;
  epoch : EpochValue;
  log_index : Z;
}.

(** The widths of the input's fields. *)
Definition u8 (z : Z) : Prop := 0 ≤ z < U8_MOD.
Definition u32 (z : Z) : Prop := 0 ≤ z < U32_MOD.
Definition u64 (z : Z) : Prop := 0 ≤ z < U64_MOD.
Definition u128 (z : Z) : Prop := 0 ≤ z < 2 ^ 128.
Record typed (b : BoundaryFrame) : Prop := {
  typed_magic : match magic b with MRandom bs => length bs = 4%nat | OffByOne o => u8 o | _ => True end;
  typed_version : match version b with VRandom v => u8 v | _ => True end;
  typed_size : match payload_size b with PSmall s => u8 s | PRandom r => u32 r | _ => True end;
  typed_room : match room_id b with RSmall s => u8 s | RRandom r => u128 r | _ => True end;
  typed_sender : match sender_id b with SRandom r => u64 r | _ => True end;
  typed_epoch : match epoch b with ERandom r => u64 r | _ => True end;
  typed_log : u64 (log_index b);
}.

Definition saturating_add_u32 (a b : Z) : Z := Z.min (U32_MOD - 1) (a + b).
Definition payload_size_value (b : BoundaryFrame) : Z :=
  match payload_size b with
  | PZero => 0
  | PSmall s => s
  | AtMaxBoundary => MAX_PAYLOAD_SIZE
  | JustOverMax => saturating_add_u32 MAX_PAYLOAD_SIZE 1
  | WayOverMax => saturating_add_u32 MAX_PAYLOAD_SIZE 1000000
  | MaxU32 => U32_MOD - 1
  | PRandom r => r
  end.
Definition actual_payload_size (b : BoundaryFrame) : Z := Z.min (payload_size_value b) 100000.

(** The four bytes written at the head of the buffer. *)
Definition magic_bytes (b : BoundaryFrame) : bytes :=
  match magic b with
  | MValid => LOCKFRAME_MAGIC
  | OffByOne offset =>
      let idx := Z.to_nat (offset mod 4) in
      alter (λ x, byte_of_Z (byte_to_Z x + 1)) idx LOCKFRAME_MAGIC
  | AllZeros => replicate 4 (byte_of_Z 0)
  | AllOnes => replicate 4 (byte_of_Z 0xFF)
  | MRandom bs => bs
  end.
Definition version_value (b : BoundaryFrame) : Z :=
  match version b with VValid => 0x01 | VZero => 0 | VMax => U8_MOD - 1 | VRandom v => v end.
Definition room_id_value (b : BoundaryFrame) : Z :=
  match room_id b with RZero => 0 | ROne => 1 | RSmall s => s | MaxU128 => 2 ^ 128 - 1 | RRandom r => r end.
Definition sender_id_value (b : BoundaryFrame) : Z :=
  match sender_id b with SZero => 0 | SOne => 1 | SMaxU64 => U64_MAX | SRandom r => r end.
Definition epoch_value (b : BoundaryFrame) : Z :=
  match epoch b with
  | EZero => 0 | EOne => 1 | MaxMinus1 => U64_MAX - 1 | EMaxU64 => U64_MAX | ERandom r => r
  end.

(** The crafted bytes, written in the order of the target. *)
Definition buffer (b : BoundaryFrame) : bytes :=
  let bs := replicate (128 + Z.to_nat (actual_payload_size b)) Byte.x00 in
  let bs := FrameHeader.copy_at 0 (magic_bytes b) bs in
  let bs := FrameHeader.copy_at 4 [byte_of_Z (version_value b)] bs in
  let bs := FrameHeader.copy_at 6 (to_be_bytes 2 (opcode b)) bs in
  let bs := FrameHeader.copy_at 12 (to_be_bytes 4 (payload_size_value b)) bs in
  let bs := FrameHeader.copy_at 16 (to_be_bytes 16 (room_id_value b)) bs in
  let bs := FrameHeader.copy_at 32 (to_be_bytes 8 (sender_id_value b)) bs in
  let bs := FrameHeader.copy_at 56 (to_be_bytes 8 (epoch_value b)) bs in
  FrameHeader.copy_at 40 (to_be_bytes 8 (log_index b)) bs.

(** The frame that is built through the API in the second half. *)
Definition built (b : BoundaryFrame) (o : Opcode) : Frame :=
  let header := FrameHeader.new o in
  let header := FrameHeader.set_room_id (room_id_value b) header in
  let header := FrameHeader.set_sender_id (sender_id_value b) header in
  let header := FrameHeader.set_epoch (epoch_value b) header in
  let header := FrameHeader.set_log_index (log_index b) header in
  Frame.new header (replicate (Z.to_nat (Z.min (actual_payload_size b) 1000)) (byte_of_Z 0xAA)).

(** Encodes the frame that was built, decodes it and compares. *)
Definition reencode (frame : Frame) : M unit Empty_set unit :=
  match Frame.encode frame [] with
  | (Err _, _) => mret tt
  | (Panic, _) => m_lift Panic
  | (Ok _, encoded) =>
      assert_ (zlen encoded =? 128 + zlen (Frame.payload frame));;
      match Frame.decode encoded with
      | Ok decoded =>
          let field get := assert_ (get (Frame.header decoded) =? get (Frame.header frame)) in
          field FrameHeader.room_id;; field FrameHeader.sender_id;;
          field FrameHeader.epoch;; field FrameHeader.log_index
      | Err _ => mret tt
      | Panic => m_lift Panic
      end
  end.

(** The target; [Panic] is a crash. *)
Definition target (b : BoundaryFrame) : M unit Empty_set unit :=
  (match Frame.decode (buffer b) with
   | Ok _ =>
       assert_ (bool_decide (slice 0 4 (buffer b) = LOCKFRAME_MAGIC));;
       assert_ (payload_size_value b <=? MAX_PAYLOAD_SIZE)
   | Err _ => mret tt
   | Panic => m_lift Panic
   end);;
  match Opcode.from_u16 (opcode b) with
  | None => mret tt
  | Some o => if bool_decide (o = Opcode.Welcome) then mret tt else reencode (built b o)
  end.

(** *** What the decoder makes of the buffer *)
Lemma size_value_range b : typed b → u32 (payload_size_value b).
Proof.
  intros Hb. pose proof (typed_size _ Hb) as Hs. unfold payload_size_value, saturating_add_u32, MAX_PAYLOAD_SIZE, u32 in *.
  destruct (payload_size b); unfold u8 in *; lia.
Qed.
Lemma magic_length b : typed b → length (magic_bytes b) = 4%nat.
Proof.
  intros Hb. pose proof (typed_magic _ Hb) as Hm. unfold magic_bytes. destruct (magic b); try done.
  by rewrite length_alter.
Qed.

(** Lengths of what is written. *)
#[local] Ltac widths :=
  repeat first [rewrite length_to_be_bytes|rewrite length_replicate|rewrite length_copy_at by widths]; cbn [length]; lia.

Lemma buffer_length b : typed b → length (buffer b) = (128 + Z.to_nat (actual_payload_size b))%nat.
Proof. intros Hb. pose proof (magic_length b Hb). unfold buffer. cbv zeta. widths. Qed.

Lemma buffer_fields b :
  typed b →
  FrameHeader.h_magic (FrameHeader.layout (buffer b)) = magic_bytes b
  ∧ FrameHeader.h_version (FrameHeader.layout (buffer b)) = byte_of_Z (version_value b)
  ∧ FrameHeader.h_payload_size (FrameHeader.layout (buffer b)) = to_be_bytes 4 (payload_size_value b).
Proof.
  intros Hb. pose proof (magic_length b Hb) as Hm. pose proof (buffer_length b Hb) as Hl.
  cbn [FrameHeader.h_magic FrameHeader.h_version FrameHeader.h_payload_size FrameHeader.layout]. split_and!.
  - unfold buffer; cbv zeta. rewrite !slice_copy_away by widths. by rewrite slice_copy_here by widths.
  - assert ([FrameHeader.byte_at 4 (buffer b)] = [byte_of_Z (version_value b)]) as [= ->]; [|done].
    rewrite <-byte_at_slice by lia. unfold buffer; cbv zeta. rewrite 6!slice_copy_away by widths.
    by rewrite slice_copy_here by widths.
  - unfold buffer; cbv zeta. rewrite 4!slice_copy_away by widths. by rewrite slice_copy_here by widths.
Qed.

(** The buffer decodes exactly when all three gates are open. *)
Definition accepted (b : BoundaryFrame) : Prop :=
  magic_bytes b = LOCKFRAME_MAGIC ∧ version_value b = FrameHeader.VERSION ∧ payload_size_value b ≤ 100000.

Lemma version_range b : typed b → u8 (version_value b).
Proof.
  intros Hb. pose proof (typed_version _ Hb). unfold version_value, u8 in *. destruct (version b); lia.
Qed.

Lemma header_valid b :
  typed b → FrameHeader.valid (FrameHeader.layout (buffer b)) ↔
    magic_bytes b = LOCKFRAME_MAGIC ∧ version_value b = FrameHeader.VERSION ∧ payload_size_value b ≤ MAX_PAYLOAD_SIZE.
Proof.
  intros Hb. destruct (buffer_fields b Hb) as (Hm & Hv & Hs).
  unfold FrameHeader.valid, FrameHeader.magic, FrameHeader.version, FrameHeader.payload_size.
  rewrite Hm, Hv, Hs, byte_to_of_Z. pose proof (version_range b Hb) as Hr. rewrite Z.mod_small by exact Hr.
  rewrite from_to_be_bytes by (pose proof (size_value_range b Hb); unfold u32 in *; cbn; lia).
  assert (from_be_bytes (magic_bytes b) = FrameHeader.MAGIC ↔ magic_bytes b = LOCKFRAME_MAGIC) as ->; [|done].
  split; [|by intros ->]. intros He. apply from_be_bytes_inj; [by rewrite magic_length|]. by rewrite He.
Qed.

Lemma decode_accepted b : typed b → is_ok (Frame.decode (buffer b)) = true ↔ accepted b.
Proof.
  intros Hb. pose proof (header_valid b Hb) as Hv. pose proof (size_value_range b Hb) as Hs.
  pose proof (buffer_length b Hb) as Hl. destruct (buffer_fields b Hb) as (_ & _ & Hf).
  assert (FrameHeader.payload_size (FrameHeader.layout (buffer b)) = payload_size_value b) as Hp.
  { unfold FrameHeader.payload_size. rewrite Hf. apply from_to_be_bytes. unfold u32 in *. cbn. lia. }
  unfold accepted, Frame.decode. munfold.
  assert (∀ h, FrameHeader.from_bytes (buffer b) = Ok h ↔ (128 ≤ length (buffer b))%nat ∧ h = FrameHeader.layout (buffer b) ∧ FrameHeader.valid h)
    as Hfb by (intros h; apply FrameHeader.from_bytes_Ok).
  destruct (FrameHeader.from_bytes (buffer b)) as [h|e|] eqn:E.
  - destruct (proj1 (Hfb h) eq_refl) as (_ & -> & Hval). apply Hv in Hval as (Hm & Hver & Hmax). rewrite Hp.
    unfold checked_add_u64, FrameHeader.SIZE. unfold MAX_PAYLOAD_SIZE, u32 in *.
    rewrite (proj2 (Z.ltb_lt _ _)) by lia. unfold zlen. rewrite Hl. unfold actual_payload_size in *.
    destruct (_ <? 128 + payload_size_value b) eqn:Hlt; bool_to_prop; cbn; split; [done|intros (_ & _ & ?)|intros _|done].
    + lia.
    + split_and!; [done..|lia].
  - cbn. split; [done|]. intros (Hm & Hver & Hmax).
    assert (Err e = Ok (FrameHeader.layout (buffer b))) as Habs; [|done].
    apply Hfb. split_and!; [lia|done|]. apply Hv. unfold MAX_PAYLOAD_SIZE. split_and!; [done..|lia].
  - cbn. split; [done|]. intros (Hm & Hver & Hmax).
    assert (Panic = Ok (E := ProtocolError) (FrameHeader.layout (buffer b))) as Habs; [|done].
    apply Hfb. split_and!; [lia|done|]. apply Hv. unfold MAX_PAYLOAD_SIZE. split_and!; [done..|lia].
Qed.

Lemma built_wf b o : Frame.wf (built b o).
Proof.
  apply Frame.frame_new_wf.
  - apply FrameHeader.set_log_index_wf, FrameHeader.set_epoch_wf, FrameHeader.set_sender_id_wf,
      FrameHeader.set_room_id_wf, FrameHeader.new_wf.
  - apply (FrameHeader.new_valid o).
  - apply (FrameHeader.new_valid o).
  - unfold zlen, FrameHeader.MAX_PAYLOAD_SIZE. rewrite length_replicate. lia.
Qed.

(** A well-formed frame encodes to its size and decodes to itself. *)
Lemma reencode_passes frame : Frame.wf frame → reencode frame tt = (Ok tt, tt).
Proof.
  intros Hw. unfold reencode. rewrite Frame.encode_Ok by by apply Frame.wf_bound. rewrite app_nil_l.
  assert (Frame.decode (FrameHeader.to_bytes (Frame.header frame) ++ Frame.payload frame) = Ok frame) as ->.
  { rewrite <-(app_nil_r (Frame.payload _)). by apply Frame.decode_app. }
  rewrite zlen_app, FrameHeader.zlen_to_bytes by apply Hw. unfold assert_. munfold. by rewrite !Z.eqb_refl.
Qed.

(** C32: no input crashes the frame boundary target, and the decoder's gate is exact
    on its inputs.  The crafted buffer decodes exactly when magic and version are
    right and the announced size is no more than the 100000 bytes that follow; in
    particular no announced size above the 16 MiB limit is ever accepted, and the
    frame built through the API survives encoding with its routing fields. *)
Theorem boundary_target_passes b :
  typed b →
  fst (target b tt) = Ok tt
  ∧ (is_ok (Frame.decode (buffer b)) = true ↔ accepted b)
  ∧ Frame.decode (buffer b) ≠ Panic.
Proof.
  intros Hb. pose proof (decode_accepted b Hb) as Ha. destruct (buffer_fields b Hb) as (Hm & _ & _).
  pose proof (Frame.decode_total (buffer b)) as Hn.
  split; [|done]. unfold target. set (rest := match Opcode.from_u16 (opcode b) with Some _ => _ | None => _ end).
  assert (rest tt = (Ok tt, tt)) as Hrest.
  { unfold rest. destruct (Opcode.from_u16 (opcode b)) as [o|]; [|done].
    case_bool_decide; [done|]. apply reencode_passes, built_wf. }
  unfold assert_. munfold. destruct (Frame.decode (buffer b)) as [f|e|]; [|by rewrite Hrest|done].
  destruct (proj1 Ha eq_refl) as (Hmag & _ & Hs). cbn [FrameHeader.h_magic FrameHeader.layout] in Hm.
  rewrite Hm, bool_decide_true by done. unfold MAX_PAYLOAD_SIZE. rewrite (proj2 (Z.leb_le _ _)) by lia.
  by rewrite Hrest.
Qed.

Definition at_limit : BoundaryFrame :=
  {| magic := MValid; version := VValid; opcode := 0x0300; payload_size := AtMaxBoundary; room_id := MaxU128;
     sender_id := SMaxU64; epoch := EMaxU64; log_index := U64_MAX |}.
Lemma boundary_target_passes_witness :
  fst (target at_limit tt) = Ok tt ∧ is_ok (Frame.decode (buffer at_limit)) = false.
Proof.
  destruct (boundary_target_passes at_limit) as (Hok & Hiff & _); [by split; cbn; try done; vm_compute|].
  split; [exact Hok|]. apply not_true_is_false. intros (_ & _ & Hs)%Hiff. vm_compute in Hs. by apply Hs.
Defined.
End frame_boundary.

(** ** [connection_state_fuzzer.rs] *)
Module connection_state.
Import ConnectionState Connection.

Inductive FuzzedPayload : Type :=
| FHello (version : Z)
| FHelloReply (session_id : Z)
| FPing
| FPong
| FGoodbye (reason_len : Z)
| FError
| RandomBytes (bs : bytes).
Record FuzzedFrame : Type := { f_opcode : Z; f_payload : FuzzedPayload }.
Inductive ConnectionEvent : Type :=
| SendHello
| ReceiveFrame (f : FuzzedFrame)
| Tick (advance_secs : Z)
| CloseEvent
| CheckTimeout (advance_secs : Z).
Record FuzzInput : Type := { initial_time_secs : Z; events : list ConnectionEvent }.

(** The local variables of the target. *)
Record Vars : Type := { conn : Connection; current_time : Z; initial_session_id : option Z }.
Definition set_conn (c : Connection) (v : Vars) : Vars :=
  {| conn := c; current_time := current_time v; initial_session_id := initial_session_id v |}.
Definition set_time (t : Z) (v : Vars) : Vars :=
  {| conn := conn v; current_time := t; initial_session_id := initial_session_id v |}.
Definition set_initial (s : option Z) (v : Vars) : Vars :=
  {| conn := conn v; current_time := current_time v; initial_session_id := s |}.

Section target.
Context `{PayloadCodec}.
Abbreviation Fuzz := (M Vars Empty_set).

(** [payload.into_frame(header).unwrap_or_else(|_| Frame::new(header, Vec::new()))]. *)
Definition frame_or_empty (p : Payload) (o : Opcode) : outcome Empty_set Frame :=
  match Payload.into_frame p (FrameHeader.new o) with
  | Ok f => Ok f
  | Err _ => Ok (Frame.new (FrameHeader.new o) [])
  | Panic => Panic
  end.
Fixpoint xs (n : nat) : string := match n with O => "" | S n => "x" +:+ xs n end.
Definition create_frame_from_fuzzed (fuzzed : FuzzedFrame) : outcome Empty_set Frame :=
  match f_payload fuzzed with
  | FHello version =>
      frame_or_empty (Payload.Hello {| session.hello_version := version; session.hello_capabilities := [];
                                       session.hello_auth_token := None |}) Opcode.Hello
  | FHelloReply sid =>
      frame_or_empty (Payload.HelloReply {| session.reply_session_id := sid; session.reply_capabilities := [];
                                            session.reply_challenge := None |}) Opcode.HelloReply
  | FPing => Ok (Frame.new (FrameHeader.new Opcode.Ping) [])
  | FPong => Ok (Frame.new (FrameHeader.new Opcode.Pong) [])
  | FGoodbye reason_len =>
      frame_or_empty (Payload.Goodbye {| session.goodbye_reason := xs (Z.to_nat (reason_len mod 100)) |}) Opcode.Goodbye
  | FError => Ok (Frame.new (FrameHeader.new Opcode.Error) [])
  | RandomBytes bs =>
      let opcode := default Opcode.AppMessage (Opcode.from_u16 (f_opcode fuzzed)) in
      Ok (Frame.new (FrameHeader.new opcode) bs)
  end.

(** A method of the connection, its result kept. *)
Definition on_conn {E A} (op : M Connection E A) : Fuzz (outcome E A) :=
  m_try (m_zoom conn set_conn op).
Definition is_state (s : ConnectionState) (v : Vars) : bool := bool_decide (state (conn v) = s).

Definition config_ : ConnectionConfig :=
  {| c_handshake_timeout := from_secs 5; idle_timeout := from_secs 10; heartbeat_interval := from_secs 3 |}.

(** One arm of the [match]. *)
Definition handle_event (e : ConnectionEvent) : Fuzz unit :=
  v ← m_get;
  let previous_state := state (conn v) in
  match e with
  | SendHello =>
      result ← on_conn (send_hello (current_time v));
      v' ← m_get;
      if bool_decide (previous_state = Init) && is_ok result then assert_ (is_state Pending v')
      else assert_ (is_err result || is_state previous_state v')
  | ReceiveFrame fuzzed =>
      frame ← m_lift (create_frame_from_fuzzed fuzzed);
      result ← on_conn (handle_frame frame (current_time v));
      v' ← m_get;
      match result with
      | Ok _ =>
          assert_ (negb (bool_decide (previous_state = Closed)) || is_state Closed v');;
          if bool_decide (previous_state = Pending) && is_state Authenticated v' then
            match session_id (conn v'), initial_session_id v' with
            | Some sid, None => m_modify (set_initial (Some sid))
            | _, _ => mret tt
            end
          else mret tt
      | Err _ => assert_ (is_state previous_state v' || is_state Closed v')
      | Panic => m_lift Panic
      end
  | Tick advance_secs =>
      let now := current_time v + from_secs (advance_secs mod 120) in
      let '(actions, c) := tick now (conn v) in
      m_modify (set_time now);; m_modify (set_conn c);;
      assert_ (forallb (λ a, match a with Close _ => bool_decide (state c = Closed) | _ => true end) actions)
  | CloseEvent =>
      m_modify (λ v, set_conn (close (conn v)) v);;
      v' ← m_get; assert_ (is_state Closed v')
  | CheckTimeout advance_secs =>
      let _ := check_timeout (current_time v + from_secs (advance_secs mod 120)) (conn v) in
      mret tt
  end.

(** The check after every event. *)
Definition check_session : Fuzz unit :=
  v ← m_get;
  if is_state Authenticated v then
    match session_id (conn v), initial_session_id v with
    | Some sid, Some initial => assert_ (sid =? initial)
    | Some sid, None => m_modify (set_initial (Some sid))
    | None, _ => mret tt
    end
  else mret tt.

Definition finish : Fuzz unit :=
  v ← m_get;
  if is_state Closed v then
    _ ← on_conn (send_hello (current_time v));
    m_modify (λ v, set_conn (snd (tick (current_time v) (conn v))) v);;
    v' ← m_get; assert_ (is_state Closed v')
  else mret tt.

Definition start (input : FuzzInput) : Vars :=
  let initial_time := from_secs (initial_time_secs input) in
  {| conn := new initial_time config_; current_time := initial_time; initial_session_id := None |}.

(** The target; [Panic] is a crash. *)
Definition target (input : FuzzInput) : outcome Empty_set unit * Vars :=
  (m_iter (λ e, handle_event e;; check_session) (events input);; finish) (start input).

(** ** The target never crashes *)

(** [ciborium] reports malformed input and failing writes as errors. *)
Class SessionCodecTotal : Prop := {
  hello_ser : ∀ x : session.Hello, cbor_ser x ≠ Panic;
  reply_ser : ∀ x : session.HelloReply, cbor_ser x ≠ Panic;
  goodbye_ser : ∀ x : session.Goodbye, cbor_ser x ≠ Panic;
  hello_de : ∀ bs, cbor_de (A := session.Hello) bs ≠ Panic;
  reply_de : ∀ bs, cbor_de (A := session.HelloReply) bs ≠ Panic;
  goodbye_de : ∀ bs, cbor_de (A := session.Goodbye) bs ≠ Panic;
}.
Context `{!SessionCodecTotal}.

Lemma into_frame_total p h : Payload.encode_inner p ≠ Panic → Payload.into_frame p h ≠ Panic.
Proof. unfold Payload.into_frame, Payload.encode. by destruct (Payload.encode_inner p). Qed.
Lemma decode_inner_total {A} `{Cbor A} (k : A → Payload) bs : cbor_de bs ≠ Panic → Payload.decode_inner k bs ≠ Panic.
Proof. unfold Payload.decode_inner. munfold. by destruct (cbor_de bs). Qed.
Lemma from_frame_total f o :
  FrameHeader.opcode_enum (Frame.header f) = Some o → o = Opcode.Hello ∨ o = Opcode.HelloReply ∨ o = Opcode.Goodbye →
  Payload.from_frame f ≠ Panic.
Proof.
  intros Ho Hs. unfold Payload.from_frame, Payload.decode. rewrite Ho. case_match; [done|].
  destruct Hs as [->|[->| ->]]; apply decode_inner_total; auto using hello_de, reply_de, goodbye_de.
Qed.
Lemma hello_frame_total x h : Payload.into_frame (Payload.Hello x) h ≠ Panic.
Proof. apply into_frame_total, hello_ser. Qed.
Lemma reply_frame_total x h : Payload.into_frame (Payload.HelloReply x) h ≠ Panic.
Proof. apply into_frame_total, reply_ser. Qed.
Lemma goodbye_frame_total x h : Payload.into_frame (Payload.Goodbye x) h ≠ Panic.
Proof. apply into_frame_total, goodbye_ser. Qed.
Lemma frame_or_empty_total p o : Payload.encode_inner p ≠ Panic → frame_or_empty p o ≠ Panic.
Proof. intros He. unfold frame_or_empty. pose proof (into_frame_total p (FrameHeader.new o) He). by destruct (Payload.into_frame p _). Qed.
Lemma create_frame_total f : ∃ frame, create_frame_from_fuzzed f = Ok frame.
Proof.
  assert (create_frame_from_fuzzed f ≠ Panic) as Hn.
  { unfold create_frame_from_fuzzed. destruct (f_payload f); try done; apply frame_or_empty_total;
      [apply hello_ser|apply reply_ser|apply goodbye_ser]. }
  destruct (create_frame_from_fuzzed f) as [frame|[]|]; [by exists frame|done].
Qed.

(** What a frame does to a connection that has no session id before its handshake. *)
Lemma handle_frame_fuzz f now c :
  (state c = Init → session_id c = None) →
  let '(r, c') := handle_frame f now c in
  r ≠ Panic
  ∧ (state c' = state c ∧ session_id c' = session_id c
     ∨ state c = Pending ∧ state c' = Authenticated ∧ is_Some (session_id c') ∧ is_ok r = true
     ∨ state c' = Closed).
Proof.
  intros Hc. destruct c as [st cf la lh si]; cbn in Hc.
  unfold handle_frame, from_frame_, into_frame_, with_state, with_last_activity, with_session_id. munfold. cbn.
  destruct (FrameHeader.opcode_enum (Frame.header f)) as [o|] eqn:Ho; [|by cbn; auto].
  assert (o = Opcode.Hello ∨ o = Opcode.HelloReply ∨ o = Opcode.Goodbye → Payload.from_frame f ≠ Panic) as Hf
    by by eapply from_frame_total.
  pose proof (goodbye_frame_total {| session.goodbye_reason := "ack" |} (FrameHeader.new Opcode.Goodbye)) as Hg.
  destruct st, o; cbn; try (by auto); specialize (Hf ltac:(auto));
    destruct (Payload.from_frame f) as [p|e|]; cbn; try (by auto);
    destruct p; cbn; try (by auto); try (destruct (Payload.into_frame _ _); cbn; by auto);
    try (rewrite (Hc eq_refl); destruct (negb _); cbn; by auto).
  split; [done|]. right. left. eauto.
Qed.

(** Before the handshake there is no session id; afterwards it is the one the target
    has noted. *)
Definition vinv (v : Vars) : Prop :=
  match state (conn v) with
  | Init | Pending => session_id (conn v) = None ∧ initial_session_id v = None
  | Authenticated => session_id (conn v) = initial_session_id v ∧ is_Some (initial_session_id v)
  | Closed => True
  end.
(** As [vinv], in the middle of a round: a new session id may not be noted yet. *)
Definition vmid (v : Vars) : Prop :=
  match state (conn v) with
  | Authenticated => is_Some (session_id (conn v)) ∧ (initial_session_id v = None ∨ session_id (conn v) = initial_session_id v)
  | _ => vinv v
  end.
Lemma vinv_mid v : vinv v → vmid v.
Proof. unfold vmid, vinv. destruct (state (conn v)); auto. intros [-> ?]. auto. Qed.

Lemma check_session_passes v : vmid v → ∃ v', check_session v = (Ok tt, v') ∧ vinv v' ∧ conn v' = conn v.
Proof.
  unfold check_session, vmid, assert_, is_state. munfold. case_bool_decide as Hs.
  - rewrite Hs. intros [[sid Hsid] Hi]. rewrite Hsid in *. destruct Hi as [Hi|Hi].
    + rewrite Hi. eexists. split; [done|]. split; [|done]. unfold vinv. cbn. rewrite Hs. split; [done|]. by eexists.
    + rewrite <-Hi, Z.eqb_refl. eexists. split; [done|]. split; [|done]. unfold vinv. rewrite Hs, Hsid, <-Hi. by split.
  - intros Hv. eexists. split; [done|]. split; [|done]. by destruct (state (conn v)).
Qed.

Lemma set_conn_mid c v :
  (state c = state (conn v) ∧ session_id c = session_id (conn v) ∨ state c = Closed) → vinv v → vmid (set_conn c v).
Proof.
  intros [[Hs Hi]|Hs] Hv; [|unfold vmid, vinv; cbn; by rewrite Hs].
  apply vinv_mid in Hv. unfold vmid, vinv in *. cbn. by rewrite Hs, Hi.
Qed.

Lemma send_hello_fuzz now c :
  let '(r, c') := send_hello now c in
  r ≠ Panic ∧ session_id c' = session_id c
  ∧ (state c = Init ∧ state c' = Pending ∨ state c ≠ Init ∧ is_err r = true ∧ state c' = state c).
Proof.
  unfold send_hello, into_frame_. munfold. cbn. case_bool_decide as Hs; cbn; [|by split_and!; auto].
  pose proof (hello_frame_total {| session.hello_version := 1; session.hello_capabilities := []; session.hello_auth_token := None |}
    (FrameHeader.new Opcode.Hello)) as Hf. unfold the_hello.
  destruct (Payload.into_frame _ _); cbn; split_and!; auto.
Qed.

Lemma tick_fuzz now c :
  let '(acts, c') := tick now c in
  forallb (λ a, match a with Close _ => bool_decide (state c' = Closed) | _ => true end) acts = true
  ∧ (state c' = state c ∧ session_id c' = session_id c ∨ state c' = Closed).
Proof.
  unfold tick. destruct (check_timeout now c); [cbn; auto|].
  destruct (bool_decide (state c = Authenticated)); [destruct (heartbeat_due now c)|]; cbn; auto.
Qed.

Lemma event_passes e v : vinv v → ∃ v', handle_event e v = (Ok tt, v') ∧ vmid v'.
Proof.
  intros Hv. unfold handle_event, on_conn, is_state, assert_.
  destruct e as [|f|n| |n]; munfold.
  - pose proof (send_hello_fuzz (current_time v) (conn v)) as Hh.
    destruct (send_hello (current_time v) (conn v)) as [r c]. destruct Hh as (Hr & Hsid & Hs). cbn.
    assert (vmid (set_conn c v)) as Hm.
    { destruct Hs as [[Hi Hp]|(_ & _ & Hs)]; [|apply set_conn_mid; auto].
      unfold vmid, vinv in *. cbn. rewrite Hp, Hsid. by rewrite Hi in Hv. }
    destruct r as [a|e|]; [| |done]; cbn.
    + destruct Hs as [[Hi Hp]|(_ & [=] & _)]. rewrite Hp, !bool_decide_true by done. cbn. eauto.
    + rewrite andb_false_r. eauto.
  - destruct (create_frame_total f) as [frame Hf]. rewrite Hf. cbn.
    pose proof (handle_frame_fuzz frame (current_time v) (conn v)) as Hh.
    destruct (handle_frame frame (current_time v) (conn v)) as [r c].
    destruct Hh as (Hr & Hc); [intros Hi; unfold vinv in Hv; rewrite Hi in Hv; apply Hv|].
    destruct r as [a|e|]; [| |done]; cbn.
    + destruct Hc as [Hc|[(Hp & Ha & [sid Hsid] & _)|Hc]].
      * assert (vmid (set_conn c v)) as Hm by (apply set_conn_mid; auto). destruct Hc as [-> _].
        assert (negb (bool_decide (state (conn v) = Closed)) || bool_decide (state (conn v) = Closed) = true) as ->
          by by case_bool_decide.
        assert (bool_decide (state (conn v) = Pending) && bool_decide (state (conn v) = Authenticated) = false) as ->; [|by eauto].
        by destruct (state (conn v)).
      * unfold vinv in Hv. rewrite Hp, Ha, Hsid in *. cbn. destruct Hv as [_ ->]. eexists. split; [done|].
        unfold vmid. cbn. rewrite Ha, Hsid. split; [by eexists|by right].
      * assert (vmid (set_conn c v)) as Hm by (apply set_conn_mid; auto). rewrite Hc.
        rewrite (bool_decide_true (Closed = Closed)), orb_true_r by done.
        rewrite (bool_decide_false (Closed = Authenticated)), andb_false_r by done. eauto.
    + assert (vmid (set_conn c v)) as Hm by (apply set_conn_mid; destruct Hc as [?|[(_ & _ & _ & [=])|?]]; auto).
      destruct Hc as [[-> _]|[(_ & _ & _ & [=])| ->]]; [rewrite bool_decide_true by done; cbn; by eauto|].
      rewrite (bool_decide_true (Closed = Closed)), orb_true_r by done. by eauto.
  - pose proof (tick_fuzz (current_time v + from_secs (n mod 120)) (conn v)) as Ht.
    destruct (tick _ (conn v)) as [acts c]. destruct Ht as [Hf Hc]. rewrite Hf. eexists. split; [done|].
    change (vmid (set_conn c (set_time (current_time v + from_secs (n mod 120)) v))). by apply set_conn_mid.
  - cbn. eexists. split; [done|]. apply set_conn_mid; [by right|done].
  - cbn. eexists. split; [done|]. by apply vinv_mid.
Qed.

Lemma finish_passes v : ∃ v', finish v = (Ok tt, v').
Proof.
  unfold finish, on_conn, is_state, assert_. munfold. case_bool_decide as Hs; [|by eauto].
  pose proof (send_hello_fuzz (current_time v) (conn v)) as Hh. destruct (send_hello (current_time v) (conn v)) as [r c].
  destruct Hh as (Hr & _ & [[? _]|(_ & He & Hc)]); [congruence|]. destruct r as [|e|]; [done| |done]. cbn.
  assert (state (snd (tick (current_time v) c)) = Closed) as Ht; [|by rewrite Ht; eauto].
  pose proof (tick_fuzz (current_time v) c) as Ht. destruct (tick (current_time v) c) as [acts c']. cbn.
  rewrite Hs in Hc. destruct Ht as [_ [[-> _]| ->]]; done.
Qed.

Lemma rounds_pass es v :
  vinv v → ∃ v', m_iter (λ e, handle_event e;; check_session) es v = (Ok tt, v') ∧ vinv v'.
Proof.
  revert v. induction es as [|e es IH]; intros v Hv; [by exists v|]. cbn [m_iter].
  destruct (event_passes e v Hv) as (v1 & E1 & Hm). destruct (check_session_passes v1 Hm) as (v2 & E2 & Hv2 & _).
  destruct (IH v2 Hv2) as (v3 & E3 & Hv3). exists v3. munfold. by rewrite E1, E2, E3.
Qed.

(** No input crashes the connection target.  For every sequence of hellos, frames
    with any opcode and payload, ticks, closes and timeout checks, from any start
    time, every assertion of the target holds: a hello moves only a fresh connection,
    an error leaves the state or closes, a close action closes, a closed connection
    stays closed, and the session id of an authenticated connection never changes. *)
Theorem connection_target_passes input : fst (target input) = Ok tt.
Proof.
  unfold target. destruct (rounds_pass (events input) (start input)) as (v1 & E1 & Hv1); [done|].
  destruct (finish_passes v1) as (v2 & E2). munfold. by rewrite E1, E2.
Qed.
End target.
End connection_state.

Section connection_witness.
#[local] Existing Instance ToyCodec.codec.
Lemma toy_session_total : connection_state.SessionCodecTotal.
Proof. split; intros x; cbn; try done; by case_match. Qed.
(** A client that completes its handshake, is sent another session id, and closes. *)
Definition demo_events : connection_state.FuzzInput :=
  {| connection_state.initial_time_secs := 7;
     connection_state.events :=
       [connection_state.SendHello;
        connection_state.ReceiveFrame {| connection_state.f_opcode := 0; connection_state.f_payload := connection_state.FHelloReply 5 |};
        connection_state.ReceiveFrame {| connection_state.f_opcode := 0; connection_state.f_payload := connection_state.FHelloReply 6 |};
        connection_state.Tick 3; connection_state.CloseEvent] |}.
Lemma connection_target_passes_witness :
  fst (connection_state.target demo_events) = Ok tt
  ∧ connection_state.initial_session_id (snd (connection_state.target demo_events)) = Some 5.
Proof.
  split; [exact (connection_state.connection_target_passes (H0 := toy_session_total) demo_events)|].
  by vm_compute.
Defined.
End connection_witness.

(** ** [cbor_attack_fuzzer.rs] *)
Module cbor_attack.

Inductive PayloadType : Type := Array | Map | Bytes | String.
Inductive CborAttack : Type :=
| DeeplyNested (depth : Z) (payload_type : PayloadType)
| HugeLength (claimed_len_exponent : Z)
| RandomBytes (bs : bytes)
| TypeConfusion (opcode : Z) (wrong_payload_bytes : bytes)
| DuplicateKeys (count : Z).

(** [n] copies of a group of bytes. *)
Definition copies (n : nat) (bs : list Z) : list Z := concat (replicate n bs).
Definition create_nested_cbor (depth : nat) (payload_type : PayloadType) : bytes :=
  map byte_of_Z (match payload_type with
    | Array => copies depth [0x81] ++ [0x01]
    | Map => copies depth [0xA1; 0x61; 0x61] ++ [0x01]
    | Bytes => copies depth [0x81] ++ [0x41; 0x00]
    | String => copies depth [0x81] ++ [0x61; 0x78]
    end).
Definition create_huge_byte_string (claimed_length : Z) : bytes :=
  byte_of_Z 0x5A :: to_be_bytes 4 claimed_length ++ replicate (Z.to_nat (Z.min claimed_length 10)) (byte_of_Z 0xAA).
Definition create_huge_text_string (claimed_length : Z) : bytes :=
  byte_of_Z 0x7A :: to_be_bytes 4 claimed_length ++ replicate (Z.to_nat (Z.min claimed_length 10)) (byte_of_Z 0x78).
Definition create_huge_array (claimed_length : Z) : bytes :=
  byte_of_Z 0x9A :: to_be_bytes 4 claimed_length ++ replicate (Z.to_nat (Z.min claimed_length 5)) (byte_of_Z 0x01).

(** The frames that a run hands to [Payload::from_frame]. *)
Definition frames_for (opcodes : list Opcode) (bs : bytes) : list Frame :=
  map (λ o, Frame.new (FrameHeader.new o) bs) opcodes.
Definition attack_frames (a : CborAttack) : list Frame :=
  match a with
  | DeeplyNested depth payload_type =>
      frames_for [Opcode.Hello; Opcode.AppMessage; Opcode.Commit; Opcode.Welcome]
        (create_nested_cbor (Z.to_nat (depth mod 50)) payload_type)
  | HugeLength claimed_len_exponent =>
      let exponent := claimed_len_exponent mod 21 in
      let claimed_length := if exponent <? 20 then Z.shiftl 1 exponent else U32_MOD - 1 in
      concat (map (frames_for [Opcode.Proposal; Opcode.Commit; Opcode.Ban; Opcode.Hello])
        [create_huge_byte_string claimed_length; create_huge_text_string claimed_length; create_huge_array claimed_length])
  | RandomBytes bs =>
      frames_for [Opcode.Hello; Opcode.HelloReply; Opcode.Ping; Opcode.Pong; Opcode.Goodbye; Opcode.Error; Opcode.AppMessage;
        Opcode.KeyPackage; Opcode.Proposal; Opcode.Commit; Opcode.Welcome; Opcode.Redact; Opcode.Ban; Opcode.Kick] bs
  | TypeConfusion opcode wrong_payload_bytes =>
      frames_for [default Opcode.AppMessage (Opcode.from_u16 opcode)] wrong_payload_bytes
  | DuplicateKeys count =>
      let actual_count := Z.max (count mod 10) 2 in
      frames_for [Opcode.Hello]
        (byte_of_Z (Z.lor 0xA0 actual_count)
         :: concat (replicate (Z.to_nat actual_count) (byte_of_Z 0x67 :: bytes_of_string "version" ++ [byte_of_Z 0x01])))
  end.

Section target.
Context `{PayloadCodec}.

(** [let _ = Payload::from_frame(frame)], for each; [Panic] is a crash. *)
Definition target (a : CborAttack) : outcome Empty_set (list (outcome ProtocolError Payload)) :=
  let results := map Payload.from_frame (attack_frames a) in
  if existsb (λ r, match r with Panic => true | _ => false end) results then Panic else Ok results.

(** The library itself panics on the bytes, as the type that the opcode names. *)
Definition is_panic {E A} (r : outcome E A) : bool := match r with Panic => true | _ => false end.
Definition library_panics (o : Opcode) (bs : bytes) : bool :=
  match o with
  | Opcode.Hello => is_panic (cbor_de (A := session.Hello) bs)
  | Opcode.HelloReply => is_panic (cbor_de (A := session.HelloReply) bs)
  | Opcode.Goodbye => is_panic (cbor_de (A := session.Goodbye) bs)
  | Opcode.SyncRequest => is_panic (cbor_de (A := session.SyncRequest) bs)
  | Opcode.SyncResponse => is_panic (cbor_de (A := session.SyncResponse) bs)
  | Opcode.KeyPackage => is_panic (cbor_de (A := mls.KeyPackageData) bs)
  | Opcode.Proposal => is_panic (cbor_de (A := mls.ProposalData) bs)
  | Opcode.Commit => is_panic (cbor_de (A := mls.CommitData) bs)
  | Opcode.Welcome => is_panic (cbor_de (A := mls.WelcomeData) bs)
  | Opcode.AppMessage => is_panic (cbor_de (A := app.EncryptedMessage) bs)
  | Opcode.AppReceipt => is_panic (cbor_de (A := app.Receipt) bs)
  | Opcode.AppReaction => is_panic (cbor_de (A := app.Reaction) bs)
  | Opcode.Redact => is_panic (cbor_de (A := moderation.Redact) bs)
  | Opcode.Ban => is_panic (cbor_de (A := moderation.Ban) bs)
  | Opcode.Kick => is_panic (cbor_de (A := moderation.Kick) bs)
  | Opcode.Error => is_panic (cbor_de (A := ErrorPayload) bs)
  | _ => false
  end.
(** The frame gets to the library, which panics. *)
Definition crashes (f : Frame) : bool :=
  match FrameHeader.opcode_enum (Frame.header f) with
  | Some o => (zlen (Frame.payload f) <=? FrameHeader.MAX_PAYLOAD_SIZE) && library_panics o (Frame.payload f)
  | None => false
  end.
Lemma from_frame_crashes f : is_panic (Payload.from_frame f) = crashes f.
Proof.
  unfold Payload.from_frame, crashes, Payload.decode. destruct (FrameHeader.opcode_enum _) as [o|]; [|done].
  rewrite Z.leb_antisym. destruct (_ <? _); [done|]. cbn [negb andb].
  destruct o; try done; unfold library_panics, Payload.decode_inner; by destruct (cbor_de _).
Qed.

(** No attack on the payload decoder confuses its types, and the decoder adds no
    crash of its own: the target crashes exactly on the inputs for which the CBOR
    library panics on the payload of one of its frames, and whatever it decodes from
    a frame is a payload of the kind that the frame's opcode names. *)
Theorem cbor_target_exact a :
  (target a = Panic ↔ existsb crashes (attack_frames a) = true)
  ∧ ∀ results, target a = Ok results →
      Forall2 (λ f r, ∀ p, r = Ok p → FrameHeader.opcode_enum (Frame.header f) = Some (Payload.opcode p)) (attack_frames a) results.
Proof.
  unfold target.
  assert (existsb (λ r, match r with Panic => true | _ => false end) (map Payload.from_frame (attack_frames a))
          = existsb crashes (attack_frames a)) as ->.
  { induction (attack_frames a) as [|f fs IH]; [done|]. cbn [map existsb]. by rewrite IH, <-from_frame_crashes. }
  destruct (existsb crashes (attack_frames a)); (split; [by split|]); [done|]. intros results [= <-].
  apply Forall2_fmap_r, Forall_Forall2_diag, list.Forall_forall. intros f _ p. unfold Payload.from_frame.
  destruct (FrameHeader.opcode_enum _) as [o|]; [|done]. intros ->%Payload.decode_opcode. done.
Qed.
End target.
End cbor_attack.
