(* ===== verification/FuzzServer.v ===== *)
(** * The fuzz targets of the server

    [fuzz/fuzz_targets/]: [sequencer_state_fuzzer.rs], [storage_chaos_fuzzer.rs],
    [room_manager_fuzzer.rs] and [e2e_pipeline_fuzzer.rs], each with its inputs, its
    loop and its assertions; a failed assertion is a panic.  The theorems state that
    no input reaches one, and what the final checks get to see. *)

From Stdlib Require Import ZArith Lia QArith.
From S2P Require Import Prelude Opcodes Header Frame Connection MlsState Storage Sequencer Validator.
From S2P Require Import MlsGroup RoomManager ServerDriver Server Tasks FuzzProto.
#[local] Open Scope Z_scope.

(** ** [sequencer_state_fuzzer.rs] *)
Module sequencer_state.
Import Sequencer.

Inductive RoomIdChoice : Type := Zero | Small (v : Z) | MaxU128.
Inductive FrameType : Type := Valid (opcode epoch : Z) | EpochOverflow.
Inductive SequencerOp : Type :=
| ProcessFrame (room_id : RoomIdChoice) (frame_type : FrameType)
| CheckLogIndex (room_id : RoomIdChoice).

Definition get_room_id (choice : RoomIdChoice) : Z :=
  match choice with Zero => 0 | Small v => Z.min (Z.max v 1) 10 | MaxU128 => 2 ^ 128 - 1 end.

Definition create_frame (frame_type : FrameType) (room_id : Z) : Frame :=
  match frame_type with
  | Valid opcode epoch =>
      let opcode_enum := default Opcode.AppMessage (Opcode.from_u16 opcode) in
      let header := FrameHeader.new opcode_enum in
      let header := FrameHeader.set_room_id room_id header in
      let header := FrameHeader.set_epoch epoch header in
      let header := FrameHeader.set_sender_id 100 header in
      let header := if bool_decide (opcode_enum = Opcode.Welcome) then header
                    else FrameHeader.set_log_index 0 header in
      Frame.new header []
  | EpochOverflow =>
      let header := FrameHeader.new Opcode.AppMessage in
      let header := FrameHeader.set_room_id room_id header in
      let header := FrameHeader.set_epoch U64_MAX header in
      let header := FrameHeader.set_sender_id 100 header in
      Frame.new header []
  end.

(** The local variables of the target. *)
Record Vars : Type := { sequencer : Sequencer; storage : MemoryStorage; expected_indices : gmap Z Z }.
Definition set_pair (p : Sequencer * MemoryStorage) (v : Vars) : Vars :=
  {| sequencer := fst p; storage := snd p; expected_indices := expected_indices v |}.
Definition set_storage (s : MemoryStorage) (v : Vars) : Vars :=
  {| sequencer := sequencer v; storage := s; expected_indices := expected_indices v |}.
Definition set_expected (m : gmap Z Z) (v : Vars) : Vars :=
  {| sequencer := sequencer v; storage := storage v; expected_indices := m |}.
Definition expected (room : Z) (v : Vars) : Z := default 0 (expected_indices v !! room).
Abbreviation Fuzz := (M Vars Empty_set).

(** One round of the loop over the actions; [*expected += 1] is unchecked. *)
Definition check_action (room_id_value : Z) (a : SequencerAction) : Fuzz unit :=
  match a with
  | AcceptFrame action_room log_index _ =>
      assert_ (action_room =? room_id_value);;
      v ← m_get;
      assert_ (log_index =? expected room_id_value v);;
      m_modify (λ v, set_expected (<[room_id_value := expected room_id_value v ⊕64 1]> (expected_indices v)) v)
  | RejectFrame _ _ _ => m_lift Panic
  | StoreFrame action_room log_index frame =>
      assert_ (action_room =? room_id_value);;
      _ ← m_try (m_zoom storage set_storage (store_frame action_room log_index frame));
      mret tt
  | BroadcastToRoom _ _ => mret tt
  end.

Definition handle_op (op : SequencerOp) : Fuzz unit :=
  match op with
  | ProcessFrame room_id frame_type =>
      let room_id_value := get_room_id room_id in
      let frame := create_frame frame_type room_id_value in
      r ← m_try (m_zoom (λ v, (sequencer v, storage v)) set_pair (process_frame frame));
      match r with
      | Ok actions =>
          assert_ (negb (room_id_value =? 0));;
          assert_ (match frame_type with Valid _ _ => true | EpochOverflow => false end);;
          m_iter (check_action room_id_value) actions
      | Err _ => mret tt
      | Panic => m_lift Panic
      end
  | CheckLogIndex room_id =>
      let room_id_value := get_room_id room_id in
      r ← m_try (m_zoom storage set_storage (latest_log_index room_id_value));
      v ← m_get;
      match r with
      | Ok (Some latest) =>
          let e := expected room_id_value v in
          if 0 <? e then assert_ (latest =? e - 1) else mret tt
      | Ok None => assert_ (expected room_id_value v =? 0)
      | Err _ => mret tt
      | Panic => m_lift Panic
      end
  end.

(** The frames carry their positions. *)
Definition sequential (frames : list Frame) : bool :=
  forallb (λ '(i, f), FrameHeader.log_index (Frame.header f) =? Z.of_nat i) (imap pair frames).

Definition verify_sequential_indices (room_id expected_count : Z) : Fuzz unit :=
  let limit := Z.max expected_count 1 in
  r ← m_try (m_zoom storage set_storage (load_frames room_id 0 limit));
  match r with
  | Ok frames => assert_ (zlen frames =? expected_count);; assert_ (sequential frames)
  | Err _ => mret tt
  | Panic => m_lift Panic
  end.

(** The target; [Panic] is a crash. *)
Definition start : Vars := {| sequencer := Sequencer.new; storage := MemoryStorage.new; expected_indices := ∅ |}.
Definition target (ops : list SequencerOp) : outcome Empty_set unit * Vars :=
  (m_iter handle_op ops;;
   v ← m_get;
   m_iter (λ '(room, count), verify_sequential_indices room count) (map_to_list (expected_indices v))) start.

(** *** The target never crashes *)
Lemma create_frame_room t choice : FrameHeader.room_id (Frame.header (create_frame t (get_room_id choice))) = get_room_id choice.
Proof.
  assert (0 ≤ get_room_id choice < U8_MOD ^ Z.of_nat 16) as Hr by (destruct choice; cbn; lia).
  destruct t; cbn [create_frame Frame.new Frame.header]; unfold FrameHeader.room_id; [case_bool_decide|]; cbn -[to_be_bytes];
    by apply from_to_be_bytes.
Qed.
Lemma overflow_rejected room : is_ok (validate_frame_structure (create_frame EpochOverflow room)) = false.
Proof.
  destruct (validate_frame_structure _) as [[]|e|] eqn:Hv; [|done..].
  apply validate_Ok in Hv as (_ & _ & _ & _ & Hm). by vm_compute in Hm.
Qed.

Record sinv (v : Vars) : Prop := {
  sinv_inv : inv (sequencer v, storage v);
  sinv_expected : ∀ room, expected room v = zlen (log (storage v) room);
  sinv_next : ∀ room, next_of room (sequencer v, storage v) = zlen (log (storage v) room);
}.

Lemma sinv_passed q s v room :
  sinv v → same (storage v) s →
  (rooms q = rooms (sequencer v) ∨ rooms (sequencer v) !! room = None
     ∧ rooms q = <[room := {| next_log_index := zlen (log (storage v) room) |}]> (rooms (sequencer v))) →
  sinv (set_pair (q, s) v).
Proof.
  intros [Hi He Hn] Hs Hq. destruct (submit_passed _ _ _ _ _ Hi Hs Hq) as (Hi' & Hl & Hn').
  split; cbn; [done|..]; intros r; rewrite Hl; [apply He|]. by rewrite Hn'.
Qed.

(** The actions of an accepted frame. *)
Lemma actions_pass room i f q q' s v :
  sinv (set_pair (q, s) v) → i = zlen (log s room) → 0 ≤ i < U64_MAX →
  rooms q' = <[room := {| next_log_index := i + 1 |}]> (rooms q) →
  FrameHeader.log_index (Frame.header f) = i →
  ∃ v', m_iter (check_action room) [AcceptFrame room i f; StoreFrame room i f; BroadcastToRoom room f]
          (set_pair (q', s) v) = (Ok tt, v') ∧ sinv v'.
Proof.
  intros [Hi He' Hn] Hil Hib Hq Hf. change (inv (q, s)) in Hi.
  change (∀ x, next_of x (q, s) = zlen (log s x)) in Hn.
  assert (∀ x, default 0 (expected_indices v !! x) = zlen (log s x)) as He by exact He'.
  destruct (store_reliable room f s) as [s' Hst]. rewrite <-Hil in Hst.
  pose proof (store_frame_ok room i f s) as Hok. rewrite Hst in Hok. destruct Hok as (_ & Hlog & Hoth & _).
  pose proof (store_at q q' s room i f Hi Hq (eq_trans Hil (eq_sym (Hn room))) Hib Hf) as Hat. rewrite Hst in Hat.
  destruct Hat as (Hinv & _ & Hnx & _).
  cbn [m_iter]. unfold check_action, assert_, expected. munfold.
  cbn [set_pair set_storage set_expected sequencer storage expected_indices fst snd].
  rewrite Z.eqb_refl, He, <-Hil, Z.eqb_refl. cbn [set_pair set_storage set_expected sequencer storage expected_indices fst snd].
  rewrite Hst. cbn [set_pair set_storage set_expected sequencer storage expected_indices fst snd].
  eexists. split; [done|]. split; cbn -[Z.modulo log]; [done|..]; intros x.
  - unfold expected. cbn -[Z.modulo log]. destruct (decide (x = room)) as [->|Hx].
    + rewrite lookup_insert_eq, Hlog, zlen_app. change (zlen [f]) with 1. cbn -[Z.modulo log]. rewrite He, <-Hil, Z.mod_small; lia.
    + rewrite lookup_insert_ne, Hoth by done. apply He.
  - rewrite Hnx. case_bool_decide as Hx.
    + subst x. rewrite Hlog, zlen_app. change (zlen [f]) with 1. lia.
    + rewrite Hoth by done. apply Hn.
Qed.

Lemma process_passes choice t v : sinv v → ∃ v', handle_op (ProcessFrame choice t) v = (Ok tt, v') ∧ sinv v'.
Proof.
  intros Hv. cbn [handle_op]. set (room := get_room_id choice). set (f := create_frame t room).
  pose proof (process_frame_spec f _ _ (sinv_inv _ Hv)) as Hp. cbn zeta in Hp.
  assert (FrameHeader.room_id (Frame.header f) = room) as Hroom by apply create_frame_room. rewrite Hroom in Hp.
  munfold. destruct (process_frame f (sequencer v, storage v)) as [[acts|e|] [q s]]; [| |done].
  2: { destruct Hp as [Hs Hq]. eexists. split; [done|]. by eapply sinv_passed. }
  destruct Hp as (Hval & Hs & Hacts). cbn -[Z.eqb m_iter set_pair].
  assert (negb (room =? 0) = true) as ->.
  { apply negb_true_iff, Z.eqb_neq. rewrite <-Hroom. apply (validate_Ok f Hval). }
  assert (match t with Valid _ _ => true | EpochOverflow => false end = true) as ->.
  { destruct t; [done|]. pose proof (overflow_rejected room) as Ho. fold f in Ho. by rewrite Hval in Ho. }
  unfold assert_. cbn -[m_iter set_pair]. destruct (is_welcome f).
  { destruct Hacts as [-> ->]. eexists. split; [done|]. eapply (sinv_passed _ _ _ room); [done|done|by left]. }
  destruct Hacts as (i & -> & Hib & _ & Hi & Hq).
  assert (i = zlen (log (storage v) room)) as Hil by (rewrite <-(sinv_next _ Hv room); exact Hi).
  apply (actions_pass room i _ (sequencer v)); [|by rewrite (proj1 Hs)|done|done|by apply rebuild_log_index; lia].
  eapply (sinv_passed _ _ _ room); [done|done|by left].
Qed.

Lemma check_passes choice v : sinv v → ∃ v', handle_op (CheckLogIndex choice) v = (Ok tt, v') ∧ sinv v'.
Proof.
  intros Hv. cbn [handle_op]. set (room := get_room_id choice). pose proof (sinv_expected _ Hv room) as He.
  pose proof (latest_log_index_ok room (storage v)) as Hok. unfold assert_. munfold.
  destruct (latest_log_index room (storage v)) as [[o|e|] s]; [| |done].
  2: { eexists. split; [done|]. eapply (sinv_passed (sequencer v) s v room); [done|done|by left]. }
  destruct Hok as [Hs ->].
  assert (sinv (set_storage s v)) as Hv' by (eapply (sinv_passed (sequencer v) s v room); [done|done|by left]).
  unfold expected in *. cbn -[log Z.sub]. rewrite He. destruct (log (storage v) room) as [|g l]; cbn -[Z.sub]; [by eauto|].
  rewrite Z.eqb_refl. destruct (_ <? _); eauto.
Qed.

Lemma sequential_indexed l : indexed l → sequential l = true.
Proof.
  intros Hl. unfold sequential. apply forallb_forall. intros [i f] Hin%list_elem_of_In.
  apply elem_of_lookup_imap in Hin as (j & g & [= -> ->] & Hg). rewrite (Hl _ _ Hg). apply Z.eqb_refl.
Qed.

Lemma verify_passes room v : sinv v → ∃ v', verify_sequential_indices room (expected room v) v = (Ok tt, v') ∧ sinv v' ∧ expected_indices v' = expected_indices v.
Proof.
  intros Hv. pose proof (sinv_expected _ Hv room) as He. 
  assert (zlen (log (storage v) room) ≤ U64_MAX) as Hb by exact (inv_bound _ (sinv_inv _ Hv) room).
  assert (indexed (log (storage v) room)) as Hx by exact (inv_indexed _ (sinv_inv _ Hv) room). pose proof (zlen_nonneg (log (storage v) room)).
  unfold verify_sequential_indices. rewrite He. set (n := zlen (log (storage v) room)) in *.
  pose proof (load_frames_ok room 0 (Z.max n 1) (storage v) ltac:(lia) ltac:(lia) ltac:(lia)) as Hok.
  unfold assert_. munfold. destruct (load_frames room 0 (Z.max n 1) (storage v)) as [[fs|e|] s]; [| |done].
  2: { eexists. split; [done|]. split; [|done]. eapply (sinv_passed (sequencer v) s v room); [done|done|by left]. }
  destruct Hok as [Hs ->]. change (Z.to_nat 0) with 0%nat. rewrite drop_0, take_ge by (unfold n, zlen; lia).
  rewrite (proj2 (Z.eqb_eq _ _)) by done. rewrite sequential_indexed by done.
  eexists. split; [done|]. split; [|done]. eapply (sinv_passed (sequencer v) s v room); [done|done|by left].
Qed.

Lemma ops_pass ops v : sinv v → ∃ v', m_iter handle_op ops v = (Ok tt, v') ∧ sinv v'.
Proof.
  revert v. induction ops as [|op ops IH]; intros v Hv; [by exists v|]. cbn [m_iter].
  assert (∃ v', handle_op op v = (Ok tt, v') ∧ sinv v') as (v1 & E1 & Hv1)
    by (destruct op; [by apply process_passes|by apply check_passes]).
  destruct (IH v1 Hv1) as (v2 & E2 & Hv2). exists v2. munfold. by rewrite E1, E2.
Qed.

Lemma verify_all_pass l v :
  sinv v → (∀ room n, (room, n) ∈ l → expected_indices v !! room = Some n) →
  ∃ v', m_iter (λ '(room, count), verify_sequential_indices room count) l v = (Ok tt, v').
Proof.
  revert v. induction l as [|[room n] l IH]; intros v Hv Hl; [by exists v|]. cbn [m_iter].
  assert (expected room v = n) as <- by (unfold expected; by rewrite (Hl room n) by set_solver).
  destruct (verify_passes room v Hv) as (v1 & E1 & Hv1 & He).
  destruct (IH v1 Hv1) as (v2 & E2); [intros r m Hin; rewrite He; apply Hl; set_solver|].
  exists v2. munfold. by rewrite E1, E2.
Qed.

Lemma start_sinv : sinv start.
Proof. split; [split|..]; cbn; try done. Qed.

(** No input crashes the sequencer target.  Whatever frames are fed to a sequencer
    over an in-memory storage, for whatever rooms, opcodes and epochs, and whenever
    the storage is queried, room 0 and overflowing epochs are refused, each room is
    given the indices 0, 1, 2, ... without gap, and in the end each log holds exactly
    the frames counted for its room, in sequence. *)
Theorem sequencer_target_passes ops :
  fst (target ops) = Ok tt
  ∧ ∀ room, let '(_, v) := m_iter handle_op ops start in
      expected room v = zlen (log (storage v) room) ∧ indexed (log (storage v) room).
Proof.
  unfold target. destruct (ops_pass ops start start_sinv) as (v1 & E1 & Hv1).
  destruct (verify_all_pass (map_to_list (expected_indices v1)) v1 Hv1) as (v2 & E2).
  { intros room n. by rewrite elem_of_map_to_list. }
  munfold. rewrite E1. cbn beta iota. rewrite E2. split; [done|]. intros room.
  split; [apply Hv1|apply (inv_indexed _ (sinv_inv _ Hv1))].
Qed.
End sequencer_state.

(** ** The rooms of the other targets

    The three targets over the room manager set up a room with members 101, 102, ...
    whose signing keys are derived from the seed. *)
Module room_setup.
Section setup.
Context `{Ed25519}.

(** [key_bytes[j] ^= (i as u8).wrapping_add(j as u8)]. *)
Definition key_bytes (seed : bytes) (i : nat) : bytes :=
  imap (λ j b, byte_of_Z (Z.lxor (byte_to_Z b) ((Z.of_nat i + Z.of_nat j) mod U8_MOD))) seed.
Definition member_ids (member_count : Z) : list Z := map (λ i, 100 + Z.of_nat i) (seq 1 (Z.to_nat member_count)).
Definition member_keys (seed : bytes) (ids : list Z) : gmap Z bytes :=
  list_to_map (imap (λ i id, (id, key_bytes seed i)) ids).
Definition verifying_keys (seed : bytes) (ids : list Z) : gmap Z bytes := ed_public <$> member_keys seed ids.
Definition group_state (room_id epoch : Z) (seed : bytes) (ids : list Z) : MlsGroupState :=
  MlsGroupState.with_keys room_id epoch (replicate 32 Byte.x00) ids (verifying_keys seed ids) [].

(** [member_ids[idx % len]]; an index out of range panics. *)
Definition pick (idx : Z) (ids : list Z) : outcome Empty_set Z :=
  match ids !! Z.to_nat (idx mod zlen ids) with None => Panic | Some id => Ok id end.
(** The member and [member_keys.get(&id).expect(..)]. *)
Definition sender (idx : Z) (seed : bytes) (ids : list Z) : outcome Empty_set (Z * bytes) :=
  id ← pick idx ids;
  match member_keys seed ids !! id with None => Panic | Some key => Ok (id, key) end.

(** [create_signed_frame]. *)
Definition create_signed_frame (key : bytes) (sender_id epoch room_id : Z) (opcode : Opcode) : Frame :=
  let header := FrameHeader.new opcode in
  let header := FrameHeader.set_sender_id sender_id header in
  let header := FrameHeader.set_epoch epoch header in
  let header := FrameHeader.set_room_id room_id header in
  let header := FrameHeader.set_log_index 0 header in
  let signature := ed_sign key (FrameHeader.signing_data header) in
  Frame.new (FrameHeader.set_signature signature header) [].

(** [sig[i] ^= mask]. *)
Definition flip (i : nat) (mask : Z) (sig : bytes) : bytes :=
  alter (λ b, byte_of_Z (Z.lxor (byte_to_Z b) mask)) i sig.
Definition corrupt (i : nat) (mask : Z) (f : Frame) : Frame :=
  {| Frame.header := FrameHeader.set_signature (flip i mask (FrameHeader.signature (Frame.header f))) (Frame.header f);
     Frame.payload := Frame.payload f |}.

(** There is a member with a key for every index. *)
Lemma pick_Ok idx seed n :
  0 < n → ∃ id key, pick idx (member_ids n) = Ok id ∧ member_keys seed (member_ids n) !! id = Some key.
Proof.
  intros Hn. unfold pick. assert (zlen (member_ids n) = n) as Hl.
  { unfold zlen, member_ids. rewrite length_map, length_seq. lia. }
  pose proof (Z.mod_pos_bound idx n Hn). rewrite Hl.
  destruct (lookup_lt_is_Some_2 (member_ids n) (Z.to_nat (idx mod n))) as [id Hid]; [unfold zlen in Hl; lia|].
  rewrite Hid. destruct (member_keys seed (member_ids n) !! id) as [key|] eqn:Hk; [eauto|exfalso].
  apply not_elem_of_list_to_map in Hk. apply Hk. apply list_elem_of_fmap.
  eexists (id, key_bytes seed (Z.to_nat (idx mod n))). split; [done|].
  apply elem_of_lookup_imap. eauto.
Qed.
Lemma sender_Ok idx seed n : 0 < n → ∃ id key, sender idx seed (member_ids n) = Ok (id, key).
Proof.
  intros Hn. destruct (pick_Ok idx seed n Hn) as (id & key & Hp & Hk). exists id, key. unfold sender. munfold. by rewrite Hp, Hk.
Qed.
End setup.
End room_setup.

(** ** [storage_chaos_fuzzer.rs] *)
Module storage_chaos.
Import RoomManager.RoomManager room_setup.

Inductive ChaosOperation : Type :=
| SendValidFrame (member_idx : Z)
| SendCorruptedFrame (member_idx : Z)
| QueryLatestIndex
| LoadFrames (from limit : Z)
| RoundTripMlsState.
Record ChaosScenario : Type := {
  seed : bytes;
  chaos_seed : Z;
  failure_rate_tenth : Z;
  s_room_id : Z;
  member_count : Z;
  operations : list ChaosOperation;
}.

(** [k as f64 / 10.0], exactly. *)
Definition f64_tenth (k : Z) : Q :=
  match k with
  | 0 => 0 # 1
  | 1 => 3602879701896397 # 36028797018963968
  | 2 => 3602879701896397 # 18014398509481984
  | 3 => 5404319552844595 # 18014398509481984
  | 4 => 3602879701896397 # 9007199254740992
  | 5 => 1 # 2
  | 6 => 5404319552844595 # 9007199254740992
  | 7 => 3152519739159347 # 4503599627370496
  | 8 => 3602879701896397 # 4503599627370496
  | _ => 8106479329266893 # 9007199254740992
  end.
Definition failure_rate (c : ChaosScenario) : Q := f64_tenth (failure_rate_tenth c mod 10).
Definition room_id_of (c : ChaosScenario) : Z := s_room_id c + 1.
Definition members (c : ChaosScenario) : list Z := member_ids (member_count c mod 5 + 1).

Section target.
Context {T : Type} `{Environment T} `{OpenMls T} `{Ed25519}.
Abbreviation Store := (ChaoticStorage MemoryStorage).
Abbreviation World := (world (T := T) (S := Store)).

(** The local variables of the loop. *)
Record Vars : Type := { w : World; successful_frames : Z; current_epoch : Z }.
Definition set_w (x : World) (v : Vars) : Vars :=
  {| w := x; successful_frames := successful_frames v; current_epoch := current_epoch v |}.
Definition add_success (v : Vars) : Vars :=
  {| w := w v; successful_frames := successful_frames v + 1; current_epoch := current_epoch v |}.
Definition set_epoch (e : Z) (v : Vars) : Vars :=
  {| w := w v; successful_frames := successful_frames v; current_epoch := e |}.
Abbreviation Fuzz := (M Vars Empty_set).

Definition on_world {E A} (op : M World E A) : Fuzz (outcome E A) := m_try (m_zoom w set_w op).
Definition on_storage {A} (op : M Store StorageError A) : Fuzz (outcome StorageError A) :=
  on_world (m_zoom store (λ s x, {| rm := rm x; env := env x; store := s |}) op).

(** A [PersistFrame] action is tried against the storage. *)
Definition persist (room_id : Z) (a : RoomAction) : Fuzz unit :=
  match a with
  | PersistFrame _ log_index frame _ =>
      r ← on_storage (store_frame room_id log_index frame);
      if is_ok r then m_modify add_success else mret tt
  | _ => mret tt
  end.

Definition handle_op (c : ChaosScenario) (op : ChaosOperation) : Fuzz unit :=
  let room_id := room_id_of c in
  match op with
  | SendValidFrame member_idx =>
      who ← m_lift (sender member_idx (seed c) (members c));
      v ← m_get;
      let frame := create_signed_frame (snd who) (fst who) (current_epoch v) room_id Opcode.AppMessage in
      r ← on_world (process_frame frame);
      match r with
      | Ok actions => m_iter (persist room_id) actions
      | _ => mret tt
      end
  | SendCorruptedFrame member_idx =>
      who ← m_lift (sender member_idx (seed c) (members c));
      v ← m_get;
      let frame := create_signed_frame (snd who) (fst who) (current_epoch v) room_id Opcode.AppMessage in
      _ ← on_world (process_frame (corrupt 0 0xFF frame));
      mret tt
  | QueryLatestIndex => _ ← on_storage (latest_log_index room_id); mret tt
  | LoadFrames from limit => _ ← on_storage (load_frames room_id from (Z.max limit 1)); mret tt
  | RoundTripMlsState =>
      r ← on_storage (load_mls_state room_id);
      match r with
      | Ok (Some state) =>
          m_modify (set_epoch (MlsGroupState.epoch state));;
          _ ← on_storage (store_mls_state room_id state); mret tt
      | _ => mret tt
      end
  end.

Definition verify_final_invariants (room_id : Z) : Fuzz unit :=
  r ← on_storage (latest_log_index room_id);
  match r with
  | Ok (Some latest) =>
      r ← on_storage (load_frames room_id 0 (latest ⊕64 1));
      match r with
      | Ok frames => assert_ (sequencer_state.sequential frames)
      | _ => mret tt
      end
  | _ => mret tt
  end.

(** The target; [Panic] is a crash.  Either set-up step may fail, which ends it. *)
Definition set_up (c : ChaosScenario) (e : T) : outcome Empty_set (option Vars) :=
  match ChaoticStorage.with_seed MemoryStorage.new (failure_rate c) (chaos_seed c) with
  | Ok storage =>
      match create_room (room_id_of c) (default 0 (head (members c))) {| rm := new; env := e; store := storage |} with
      | (Ok _, w1) =>
          match store_mls_state (room_id_of c) (group_state (room_id_of c) 0 (seed c) (members c)) (store w1) with
          | (Ok _, s) =>
              Ok (Some {| w := {| rm := rm w1; env := env w1; store := s |}; successful_frames := 0; current_epoch := 0 |})
          | (Err _, _) => Ok None
          | (Panic, _) => Panic
          end
      | (Err _, _) => Ok None
      | (Panic, _) => Panic
      end
  | _ => Panic
  end.
Definition run (c : ChaosScenario) (v : Vars) : outcome Empty_set unit * Vars :=
  (m_iter (handle_op c) (operations c);; verify_final_invariants (room_id_of c)) v.
Definition target (c : ChaosScenario) (e : T) : outcome Empty_set unit :=
  match set_up c e with
  | Ok (Some v) => fst (run c v)
  | Ok None => Ok tt
  | _ => Panic
  end.

(** *** The target never crashes *)
Record typed (c : ChaosScenario) : Prop := {
  typed_room : 0 ≤ s_room_id c < U8_MOD;
  typed_ops : Forall (λ op, match op with LoadFrames from limit => 0 ≤ from < U8_MOD ∧ 0 ≤ limit < U8_MOD | _ => True end)
                (operations c);
}.

Definition passes {A} (m : Fuzz A) (v : Vars) : Prop := ∃ a v', m v = (Ok a, v') ∧ winv (w v').

Lemma passes_bind {A B} (m : Fuzz A) (f : A → Fuzz B) v :
  passes m v → (∀ a v', winv (w v') → passes (f a) v') → passes (m ≫= f) v.
Proof. intros (a & v' & Hm & Hv) Hf. destruct (Hf a v' Hv) as (b & v2 & E & Hv2). exists b, v2. munfold. by rewrite Hm. Qed.
Lemma passes_ret {A} (a : A) v : winv (w v) → passes (mret a) v.
Proof. intros Hv. by exists a, v. Qed.

(** A read of the storage. *)
Lemma read_passes {A} (op : M Store StorageError A) v :
  winv (w v) → fst (op (store (w v))) ≠ Panic → same (store (w v)) (snd (op (store (w v)))) →
  passes (on_storage op) v.
Proof.
  intros Hv Hn Hs. unfold passes, on_storage, on_world. munfold. destruct (op (store (w v))) as [r s]. cbn in Hn, Hs.
  assert (Sequencer.inv (sequencer (rm (w v)), s)) as Hi by by eapply Sequencer.inv_same.
  destruct r; [eexists _, _; split; [done|exact Hi]..|done].
Qed.
Lemma latest_passes room v : winv (w v) → passes (on_storage (latest_log_index room)) v.
Proof.
  intros Hv. pose proof (latest_log_index_ok room (store (w v))) as Hok. apply read_passes; [done|..];
    destruct (latest_log_index room (store (w v))) as [[]]; try done; by destruct Hok.
Qed.
Lemma load_passes room from limit v :
  winv (w v) → 0 ≤ from → 0 ≤ limit → from + limit < U64_MOD → passes (on_storage (load_frames room from limit)) v.
Proof.
  intros Hv H1 H2 H3. pose proof (load_frames_ok room from limit (store (w v)) H1 H2 H3) as Hok. apply read_passes; [done|..];
    destruct (load_frames room from limit (store (w v))) as [[]]; try done; by destruct Hok.
Qed.
Lemma load_mls_passes room v : winv (w v) → passes (on_storage (load_mls_state room)) v.
Proof.
  intros Hv. pose proof (load_mls_state_ok room (store (w v))) as Hok. apply read_passes; [done|..];
    destruct (load_mls_state room (store (w v))) as [[]]; try done; by destruct Hok.
Qed.
Lemma store_mls_passes room st v : winv (w v) → passes (on_storage (store_mls_state room st)) v.
Proof.
  intros Hv. pose proof (store_mls_state_ok room st (store (w v))) as Hok. unfold passes, on_storage, on_world. munfold.
  destruct (store_mls_state room st (store (w v))) as [r s].
  assert (r ≠ Panic ∧ ∀ x, log s x = log (store (w v)) x) as [Hn Hl].
  { destruct r; [by destruct Hok as [? _]|by destruct Hok as [? _]|done]. }
  assert (Sequencer.inv (sequencer (rm (w v)), s)) as Hi.
  { destruct Hv as [I1 I2 I3]. split; cbn -[log] in *; intros x; rewrite Hl; auto. }
  destruct r; [eexists _, _; split; [done|exact Hi]..|done].
Qed.

Context `{!RoomTotal}.

Lemma chaos_process_passes frame v :
  winv (w v) → ∃ r w', process_frame frame (w v) = (r, w') ∧ r ≠ Panic ∧ winv w'.
Proof.
  intros Hv. pose proof (process_frame_total frame (w v) Hv) as Ht.
  pose proof (Tasks.rm_process_frame_ordered frame (w v) Hv) as (Hw & _).
  destruct (process_frame frame (w v)) as [r w']. by exists r, w'.
Qed.

(** An action that stores a frame under an index already handed out. *)
Definition issued (room : Z) (x : World) (a : RoomAction) : Prop :=
  match a with
  | PersistFrame _ i f _ => i < Sequencer.next_of room (sequencer (rm x), store x) ∧ FrameHeader.log_index (Frame.header f) = i
  | _ => True
  end.

Lemma persist_passes room acts v :
  winv (w v) → Forall (issued room (w v)) acts → passes (m_iter (persist room) acts) v.
Proof.
  revert v. induction acts as [|a acts IH]; intros v Hv Ha; [by apply passes_ret|].
  apply Forall_cons_iff in Ha as [Ha Hacts]. cbn [m_iter].
  assert (∃ v', persist room a v = (Ok tt, v') ∧ winv (w v')
    ∧ Sequencer.next_of room (sequencer (rm (w v')), store (w v')) = Sequencer.next_of room (sequencer (rm (w v)), store (w v)))
    as (v1 & E1 & Hv1 & Hn).
  { destruct a as [| r i f now | | |]; try (by exists v). destruct Ha as [Hlt Hix]. cbn [persist].
    destruct (Sequencer.store_issued _ _ room i f Hv Hlt Hix) as (Hinv & Hnext & _).
    pose proof (store_frame_ok room i f (store (w v))) as Hok. unfold on_storage, on_world. munfold.
    destruct (store_frame room i f (store (w v))) as [r' s]. cbn [snd] in Hinv, Hnext.
    destruct r' as [[]|e|]; [| |done]; cbn [is_ok]; eexists; (split; [done|split; [exact Hinv|exact (Hnext room)]]). }
  destruct (IH v1 Hv1) as ([] & v2 & E2 & Hv2).
  { eapply Forall_impl; [|exact Hacts]. intros []; cbn; try done. by rewrite Hn. }
  exists tt, v2. munfold. by rewrite E1, E2.
Qed.

Lemma frame_room key id epoch room : 0 ≤ room < 2 ^ 128 →
  FrameHeader.room_id (Frame.header (create_signed_frame key id epoch room Opcode.AppMessage)) = room.
Proof. intros Hr. unfold FrameHeader.room_id. cbn -[to_be_bytes]. apply from_to_be_bytes. cbn. lia. Qed.

Lemma op_passes c op v :
  typed c → op ∈ operations c → winv (w v) → passes (handle_op c op) v.
Proof.
  intros [Hroom Hops] Hin Hv. rewrite list.Forall_forall in Hops. specialize (Hops _ Hin).
  assert (0 ≤ room_id_of c < 2 ^ 128) as Hr by (unfold room_id_of; lia).
  pose proof (Z.mod_pos_bound (member_count c) 5 ltac:(lia)) as Hm.
  destruct op as [idx|idx| |from limit|]; cbn [handle_op].
  - destruct (sender_Ok idx (seed c) (member_count c mod 5 + 1) ltac:(lia)) as (id & key & Hs).
    unfold members. rewrite Hs. unfold passes, on_world. munfold. cbn [fst snd].
    set (f := create_signed_frame key id (current_epoch v) (room_id_of c) Opcode.AppMessage).
    destruct (chaos_process_passes f v Hv) as (r & w' & Hp & Hn & Hw'). rewrite Hp.
    destruct r as [acts|e|]; [|by eexists tt, _|done].
    apply (persist_passes (room_id_of c) acts (set_w w' v) Hw').
    assert (FrameHeader.room_id (Frame.header f) = room_id_of c) as Hfr by by apply frame_room.
    destruct (process_frame_Ok _ _ _ _ Hv Hp) as (g & sacts & now & extra & _ & _ & _ & _ & -> & Hx & _ & _ & Ha).
    rewrite Hfr in *. apply Forall_app. split; [|destruct Hx as [->|[st ->]]; repeat constructor].
    destruct (Sequencer.is_welcome f); [subst sacts; repeat constructor|].
    destruct Ha as (i & -> & Hle & _ & Hnx). pose proof (zlen_nonneg (log (store (w v)) (room_id_of c))).
    assert (issued (room_id_of c) w' (PersistFrame (room_id_of c) i (Sequencer.rebuild_frame_with_index f i) now)) as Hi.
    { pose proof (Sequencer.next_of_bound (room_id_of c) _ Hw'). cbn. split; [lia|].
      apply (Sequencer.rebuild_log_index f i). lia. }
    repeat (constructor; [done|]). constructor.
  - destruct (sender_Ok idx (seed c) (member_count c mod 5 + 1) ltac:(lia)) as (id & key & Hs).
    unfold members. rewrite Hs. unfold passes, on_world. munfold. cbn [fst snd].
    match goal with |- context [process_frame ?f (w v)] => destruct (chaos_process_passes f v Hv) as (r & w' & Hp & Hn & Hw') end.
    rewrite Hp. destruct r; [by eexists tt, _..|done].
  - apply passes_bind; [by apply latest_passes|]. intros _ v' Hv'. by apply passes_ret.
  - apply passes_bind; [apply load_passes; [done|lia..]|]. intros _ v' Hv'. by apply passes_ret.
  - apply passes_bind; [by apply load_mls_passes|]. intros r v' Hv'. destruct r as [[st|]|e|]; try by apply passes_ret.
    apply passes_bind; [by eexists tt, _|]. intros _ v2 Hv2.
    apply passes_bind; [by apply store_mls_passes|]. intros _ v3 Hv3. by apply passes_ret.
Qed.

Lemma take_indexed n l : Sequencer.indexed l → Sequencer.indexed (take n l).
Proof. intros Hl k f [Hf _]%lookup_take_Some. by apply Hl. Qed.

Lemma chaos_verify_passes room v : winv (w v) → passes (verify_final_invariants room) v.
Proof.
  intros Hv. unfold verify_final_invariants, passes, on_storage, on_world. munfold.
  pose proof (latest_log_index_ok room (store (w v))) as Hok.
  destruct (latest_log_index room (store (w v))) as [[o|e|] s]; [| |done].
  2: { eexists tt, _. split; [done|]. by eapply Sequencer.inv_same. }
  destruct Hok as [Hs ->]. assert (Sequencer.inv (sequencer (rm (w v)), s)) as Hi by by eapply Sequencer.inv_same.
  destruct (latest (log (store (w v)) room)) as [i|] eqn:Hlat; [|by eexists tt, _].
  assert (i + 1 = zlen (log s room) ∧ 0 ≤ i) as [Hlen Hpos].
  { rewrite (proj1 Hs). destruct (log (store (w v)) room) as [|f l]; simplify_eq/=. rewrite zlen_cons. pose proof (zlen_nonneg l). lia. }
  assert (zlen (log s room) ≤ U64_MAX) as Hb by exact (Sequencer.inv_bound _ Hi room).
  cbn [w set_w store]. rewrite Z.mod_small by lia.
  pose proof (load_frames_ok room 0 (i + 1) s ltac:(lia) ltac:(lia) ltac:(lia)) as Hok.
  destruct (load_frames room 0 (i + 1) s) as [[fs|e|] s']; [| |done].
  2: { eexists tt, _. split; [done|]. by eapply Sequencer.inv_same. }
  destruct Hok as [Hs' ->]. rewrite drop_0.
  rewrite sequencer_state.sequential_indexed by apply take_indexed, (Sequencer.inv_indexed _ Hi room).
  eexists tt, _. split; [done|]. by eapply Sequencer.inv_same.
Qed.

Lemma run_passes c v : typed c → winv (w v) → passes (run c) v.
Proof.
  intros Hc Hv. unfold run.
  assert (∀ ops, (∀ op, op ∈ ops → op ∈ operations c) → ∀ v, winv (w v) → passes (m_iter (handle_op c) ops) v) as Hops.
  { clear v Hv. induction ops as [|op ops IH]; intros Hin v Hv; [by apply passes_ret|]. cbn [m_iter].
    apply passes_bind; [apply op_passes; [done|apply Hin; set_solver|done]|]. intros _ v' Hv'. apply IH; [set_solver|done]. }
  apply passes_bind; [by apply Hops|]. intros _ v' Hv'. by apply chaos_verify_passes.
Qed.

Lemma rate_range c : (Qle_bool 0 (failure_rate c) && Qle_bool (failure_rate c) 1) = true.
Proof.
  unfold failure_rate. pose proof (Z.mod_pos_bound (failure_rate_tenth c) 10 ltac:(lia)) as Hr.
  assert (failure_rate_tenth c mod 10 = 0 ∨ failure_rate_tenth c mod 10 = 1 ∨ failure_rate_tenth c mod 10 = 2 ∨
    failure_rate_tenth c mod 10 = 3 ∨ failure_rate_tenth c mod 10 = 4 ∨ failure_rate_tenth c mod 10 = 5 ∨
    failure_rate_tenth c mod 10 = 6 ∨ failure_rate_tenth c mod 10 = 7 ∨ failure_rate_tenth c mod 10 = 8 ∨
    failure_rate_tenth c mod 10 = 9) as Hd by lia.
  by destruct Hd as [->|[->|[->|[->|[->|[->|[->|[->|[->| ->]]]]]]]]].
Qed.

Lemma set_up_passes c e : set_up c e ≠ Panic ∧ ∀ v, set_up c e = Ok (Some v) → winv (w v).
Proof.
  unfold set_up, ChaoticStorage.with_seed. rewrite rate_range.
  match goal with |- context [create_room ?r ?who ?x] => set (x0 := x); pose proof (create_room_total r who x0) as Ht;
    pose proof (create_room_same r who x0) as [Hst Hsq]; destruct (create_room r who x0) as [[[]|err|] w1] end; [|done..].
  cbn [snd] in Hst, Hsq.
  pose proof (store_mls_state_ok (room_id_of c) (group_state (room_id_of c) 0 (seed c) (members c)) (store w1)) as Hok.
  destruct (store_mls_state _ _ (store w1)) as [[[]|err|] s]; [|done..]. split; [done|]. intros v [= <-].
  unfold winv. cbn -[log]. rewrite Hsq. apply Sequencer.empty_inv. intros room. destruct Hok as [-> _]. by rewrite Hst.
Qed.

(** Storage faults never crash the storage chaos target, and never leave a gap.
    At every failure rate, seed and sequence of valid frames, corrupted frames, reads
    and state round trips, the target ends without a panic; whatever was stored in
    between, each log holds frames numbered 0, 1, 2, ... without gap, also when the
    final reads of the target fail and check nothing. *)
Theorem storage_chaos_target_passes c e :
  typed c →
  target c e = Ok tt
  ∧ ∀ v room, set_up c e = Ok (Some v) → Sequencer.indexed (log (store (w (snd (run c v)))) room).
Proof.
  intros Hc. destruct (set_up_passes c e) as [Hn Hv]. unfold target. split.
  - destruct (set_up c e) as [[v|]|err|]; [|done| |done]; [|destruct err].
    destruct (run_passes c v Hc (Hv v eq_refl)) as ([] & v' & -> & _). done.
  - intros v room Hs. destruct (run_passes c v Hc (Hv v Hs)) as (u & v' & -> & Hw). exact (Sequencer.inv_indexed _ Hw room).
Qed.
End target.
End storage_chaos.

(** ** What processing a frame writes

    The room manager returns what is to be stored; it never stores a frame itself. *)
Module no_write.
Import RoomManager.RoomManager.
Section no_write.
Context {T : Type} `{Environment T} `{OpenMls T} `{Ed25519}.
Abbreviation World := (world (T := T) (S := MemoryStorage)).

Definition same_frames (x y : World) : Prop := MemoryStorage.frames (store y) = MemoryStorage.frames (store x).
#[local] Instance same_frames_preorder : PreOrder same_frames.
Proof. split; [by intros x|]. intros x y z Hxy Hyz. unfold same_frames in *. congruence. Qed.

Lemma sequencer_writes_nothing f (st : Sequencer * MemoryStorage) :
  MemoryStorage.frames (snd (snd (Sequencer.process_frame f st))) = MemoryStorage.frames (snd st).
Proof.
  destruct st as [q s]. unfold Sequencer.process_frame, Sequencer.initialize_room, Sequencer.on_storage, Sequencer.set_room. munfold.
  destruct (Sequencer.validate_frame_structure f) as [[]|e|]; [|done..]. destruct (Sequencer.is_welcome f); [done|]. cbn -[Z.modulo].
  destruct (Sequencer.rooms q !! _) eqn:Hr; cbn -[Z.modulo].
  - rewrite Hr. by case_match.
  - rewrite lookup_insert_eq. cbn -[Z.modulo]. by case_match.
Qed.

Lemma processing_writes_nothing f : respects same_frames (process_frame (T := T) (S := MemoryStorage) f).
Proof.
  assert (∀ room, respects same_frames (on_store (T := T) (load_mls_state (S := MemoryStorage) room))) as Hload by by intros room x.
  assert (respects same_frames (on_sequencer (T := T) (Sequencer.process_frame (S := MemoryStorage) f))) as Hseq.
  { intros x. unfold on_sequencer, same_frames. pose proof (sequencer_writes_nothing f (sequencer (rm x), store x)) as Hs.
    by destruct (Sequencer.process_frame f _) as [r [q s]]. }
  assert (∀ A room (op : M MlsGroup MlsError A), respects same_frames (on_group (S := MemoryStorage) room op)) as Hgroup.
  { intros A room op x. unfold on_group. case_match; [|done]. by destruct (op _). }
  unfold process_frame. apply (respects_bind same_frames).
  { intros x. by destruct (world_now_spec x) as (t & e & ->). }
  intros now. apply (respects_bind same_frames); [auto with respects|]. intros x. case_match; [|auto with respects].
  apply (respects_bind same_frames); [apply Hload|]. intros st. apply (respects_bind same_frames); [auto with respects|]. intros _.
  apply (respects_bind same_frames); [apply Hseq|]. intros acts. apply (respects_bind same_frames); [auto with respects|]. intros _.
  case_match; [|auto with respects]. apply (respects_bind same_frames); [apply Hgroup|auto with respects].
Qed.
End no_write.
End no_write.

(** ** [room_manager_fuzzer.rs] *)
Module room_manager.
Import RoomManager.RoomManager room_setup no_write.

Inductive RoomIdChoice : Type := RValid (v : Z) | RZero | RMaxU128.
Inductive FrameAttack : Type :=
| ValidFromMember (member_idx : Z)
| FromNonMember (fake_sender_id : Z)
| WrongEpoch (member_idx epoch_offset : Z)
| InvalidOpcode (member_idx opcode : Z)
| CorruptedSignature (member_idx bit_flip : Z).
Record RoomScenario : Type := {
  seed : bytes;
  s_room_id : RoomIdChoice;
  count : Z;
  frame_sequence : list FrameAttack;
}.
Definition room_id_of (c : RoomScenario) : Z :=
  match s_room_id c with RValid v => v | RZero => 0 | RMaxU128 => 2 ^ 128 - 1 end.
Definition members (c : RoomScenario) : list Z := member_ids (count c mod 5 + 1).

Section target.
Context {T : Type} `{Environment T} `{OpenMls T} `{Ed25519}.
Abbreviation World := (world (T := T) (S := MemoryStorage)).
(** Whether [debug_assert!] is compiled in, as [cargo fuzz] does by default. *)
Context (debug : bool).

(** [create_signed_frame], with the [debug_assert!] of [set_log_index]. *)
Definition signed_frame (key : bytes) (sender_id epoch room_id : Z) (opcode : Opcode) : outcome Empty_set Frame :=
  if debug && bool_decide (opcode = Opcode.Welcome) then Panic
  else Ok (create_signed_frame key sender_id epoch room_id opcode).

Definition create_frame_from_attack (c : RoomScenario) (attack : FrameAttack) (epoch : Z) : outcome Empty_set Frame :=
  let room_id := room_id_of c in
  match attack with
  | ValidFromMember member_idx =>
      who ← sender member_idx (seed c) (members c);
      signed_frame (snd who) (fst who) epoch room_id Opcode.AppMessage
  | FromNonMember fake_sender_id =>
      let header := FrameHeader.new Opcode.AppMessage in
      let header := FrameHeader.set_sender_id fake_sender_id header in
      let header := FrameHeader.set_epoch epoch header in
      let header := FrameHeader.set_room_id room_id header in
      let header := FrameHeader.set_signature (replicate 64 (byte_of_Z 0xAA)) header in
      Ok (Frame.new header [])
  | WrongEpoch member_idx epoch_offset =>
      who ← sender member_idx (seed c) (members c);
      let wrong_epoch := if epoch_offset <? 0 then saturating_sub epoch (- epoch_offset)
                         else saturating_add_u64 epoch epoch_offset in
      signed_frame (snd who) (fst who) wrong_epoch room_id Opcode.AppMessage
  | InvalidOpcode member_idx opcode =>
      who ← sender member_idx (seed c) (members c);
      let opcode_enum := default Opcode.AppMessage (Opcode.from_u16 opcode) in
      signed_frame (snd who) (fst who) epoch room_id opcode_enum
  | CorruptedSignature member_idx bit_flip =>
      who ← sender member_idx (seed c) (members c);
      frame ← signed_frame (snd who) (fst who) epoch room_id Opcode.AppMessage;
      Ok (corrupt (Z.to_nat (bit_flip mod 64)) 0x01 frame)
  end.

Record Vars : Type := { w : World; expected_log_index : Z; current_epoch : Z; frames_accepted : Z }.
Definition set_w (x : World) (v : Vars) : Vars :=
  {| w := x; expected_log_index := expected_log_index v; current_epoch := current_epoch v; frames_accepted := frames_accepted v |}.
Definition set_epoch (e : Z) (v : Vars) : Vars :=
  {| w := w v; expected_log_index := expected_log_index v; current_epoch := e; frames_accepted := frames_accepted v |}.
(** A persisted frame is counted if its index is the expected one. *)
Definition count_action (v : Vars) (a : RoomAction) : Vars :=
  match a with
  | PersistFrame _ log_index _ _ =>
      if log_index =? expected_log_index v then
        {| w := w v; expected_log_index := expected_log_index v ⊕64 1; current_epoch := current_epoch v;
           frames_accepted := frames_accepted v ⊕64 1 |}
      else v
  | _ => v
  end.
Abbreviation Fuzz := (M Vars Empty_set).
Definition on_world {E A} (op : M World E A) : Fuzz (outcome E A) := m_try (m_zoom w set_w op).
Definition on_storage {A} (op : M MemoryStorage StorageError A) : Fuzz (outcome StorageError A) :=
  on_world (m_zoom store (λ s x, {| rm := rm x; env := env x; store := s |}) op).

Definition follow_epoch (room_id : Z) : Fuzz unit :=
  r ← on_storage (load_mls_state room_id);
  match r with Ok (Some state) => m_modify (set_epoch (MlsGroupState.epoch state)) | _ => mret tt end.

Definition handle_frame (c : RoomScenario) (attack : FrameAttack) : Fuzz unit :=
  let room_id := room_id_of c in
  v ← m_get;
  frame ← m_lift (create_frame_from_attack c attack (current_epoch v));
  r ← on_world (process_frame frame);
  match r with
  | Ok actions =>
      m_modify (λ v, foldl count_action v actions);;
      follow_epoch room_id
  | Err _ =>
      follow_epoch room_id;;
      r ← on_storage (latest_log_index room_id);
      v ← m_get;
      match r with
      | Ok (Some latest) =>
          if 0 <? frames_accepted v then assert_ (latest =? expected_log_index v - 1) else mret tt
      | _ => mret tt
      end
  | Panic => m_lift Panic
  end.

Definition verify_storage_invariants (room_id : Z) : Fuzz unit :=
  v ← m_get;
  r ← on_storage (load_frames room_id 0 (Z.max (expected_log_index v) 1));
  match r with
  | Ok frames =>
      assert_ (zlen frames =? expected_log_index v);;
      assert_ (sequencer_state.sequential frames)
  | _ => mret tt
  end.

Definition set_up (c : RoomScenario) (e : T) : outcome Empty_set (option Vars) :=
  match create_room (room_id_of c) (default 0 (head (members c))) {| rm := new; env := e; store := MemoryStorage.new |} with
  | (Ok _, w1) =>
      match store_mls_state (room_id_of c) (group_state (room_id_of c) 0 (seed c) (members c)) (store w1) with
      | (Ok _, s) =>
          Ok (Some {| w := {| rm := rm w1; env := env w1; store := s |}; expected_log_index := 0; current_epoch := 0;
                      frames_accepted := 0 |})
      | (Err _, _) => Ok None
      | (Panic, _) => Panic
      end
  | (Err _, _) => Ok None
  | (Panic, _) => Panic
  end.
Definition run (c : RoomScenario) (v : Vars) : outcome Empty_set unit * Vars :=
  (m_iter (handle_frame c) (frame_sequence c);; verify_storage_invariants (room_id_of c)) v.
(** The target; [Panic] is a crash. *)
Definition target (c : RoomScenario) (e : T) : outcome Empty_set unit :=
  match set_up c e with Ok (Some v) => fst (run c v) | Ok None => Ok tt | _ => Panic end.

(** *** What the target does *)
Context `{!RoomTotal}.

(** The inputs on which building the frame trips the [debug_assert!]. *)
Definition trips (attack : FrameAttack) : bool :=
  match attack with
  | InvalidOpcode _ opcode => bool_decide (default Opcode.AppMessage (Opcode.from_u16 opcode) = Opcode.Welcome)
  | _ => false
  end.

(** Nothing has been stored. *)
Record blank (v : Vars) : Prop := {
  blank_inv : winv (w v);
  blank_frames : MemoryStorage.frames (store (w v)) = ∅ }.

Lemma attack_frame c attack epoch :
  if debug && trips attack then create_frame_from_attack c attack epoch = Panic
  else ∃ f, create_frame_from_attack c attack epoch = Ok f.
Proof.
  pose proof (Z.mod_pos_bound (count c) 5 ltac:(lia)) as Hm.
  assert (∀ idx, ∃ id key, sender idx (seed c) (members c) = Ok (id, key)) as Hs
    by (intros idx; apply sender_Ok; lia).
  destruct attack as [idx|id|idx off|idx o|idx bit]; cbn [create_frame_from_attack trips]; rewrite ?andb_false_r;
    try (destruct (Hs idx) as (id & key & ->)); unfold signed_frame; munfold; cbn -[Opcode.from_u16];
    rewrite ?andb_false_r; try by eauto.
  destruct (debug && _); eauto.
Qed.

Lemma blank_processed f v :
  blank v → ∃ r w', process_frame f (w v) = (r, w') ∧ r ≠ Panic ∧ blank (set_w w' v).
Proof.
  intros [Hi Hf]. pose proof (process_frame_total f (w v) Hi) as Ht.
  pose proof (Tasks.rm_process_frame_ordered f (w v) Hi) as (Hw & _). pose proof (processing_writes_nothing f (w v)) as Hn.
  destruct (process_frame f (w v)) as [r w']. exists r, w'. split_and!; [done..|]. split; [done|]. unfold same_frames in Hn.
  cbn in *. congruence.
Qed.
Lemma follow_epoch_blank room v : blank v → ∃ v', follow_epoch room v = (Ok tt, v') ∧ blank v'.
Proof.
  intros Hv. unfold follow_epoch, on_storage, on_world. munfold. cbn -[set_w].
  destruct (MemoryStorage.mls_states (store (w v)) !! room); (eexists; split; [done|]);
    (split; [exact (blank_inv _ Hv)|exact (blank_frames _ Hv)]).
Qed.
Lemma count_blank acts v : blank v → blank (foldl count_action v acts).
Proof.
  revert v. induction acts as [|a acts IH]; intros v Hv; [done|]. cbn. apply IH.
  destruct a; cbn; try done. case_match; [|done]. by destruct Hv.
Qed.

Lemma handle_frame_outcome c attack v :
  blank v →
  if debug && trips attack then fst (handle_frame c attack v) = Panic ∧ blank (snd (handle_frame c attack v))
  else ∃ v', handle_frame c attack v = (Ok tt, v') ∧ blank v'.
Proof.
  intros Hv. pose proof (attack_frame c attack (current_epoch v)) as Ha. unfold handle_frame, on_world. munfold.
  destruct (debug && trips attack); [by rewrite Ha|]. destruct Ha as [f ->].
  destruct (blank_processed f v Hv) as (r & w' & -> & Hn & Hb). destruct r as [acts|e|]; [| |done].
  - destruct (follow_epoch_blank (room_id_of c) _ (count_blank acts _ Hb)) as (v2 & E & Hv2). rewrite E. eauto.
  - destruct (follow_epoch_blank (room_id_of c) _ Hb) as (v2 & E & Hv2). rewrite E.
    unfold on_storage, on_world. munfold. cbn. rewrite (blank_frames _ Hv2), lookup_empty. cbn.
    eexists. split; [done|]. split; [exact (blank_inv _ Hv2)|exact (blank_frames _ Hv2)].
Qed.

Lemma loop_outcome c attacks v :
  blank v →
  if debug && existsb trips attacks
  then fst (m_iter (handle_frame c) attacks v) = Panic ∧ blank (snd (m_iter (handle_frame c) attacks v))
  else ∃ v', m_iter (handle_frame c) attacks v = (Ok tt, v') ∧ blank v'.
Proof.
  revert v. induction attacks as [|a attacks IH]; intros v Hv; cbn [existsb m_iter]; [rewrite andb_false_r; by exists v|].
  pose proof (handle_frame_outcome c a v Hv) as Hh. rewrite andb_orb_distrib_r. munfold.
  destruct (debug && trips a); cbn [orb].
  - destruct (handle_frame c a v) as [[[]|[]|] v']; [by destruct Hh..|done].
  - destruct Hh as (v1 & -> & Hv1). specialize (IH v1 Hv1). done.
Qed.

Lemma set_up_blank c e v : set_up c e = Ok (Some v) → blank v.
Proof.
  unfold set_up. match goal with |- context [create_room ?r ?who ?x] => set (x0 := x);
    pose proof (create_room_same r who x0) as [Hst Hsq]; destruct (create_room r who x0) as [[[]|err|] w1] end; [|done..].
  cbn. intros [= <-]. cbn in Hst, Hsq. split; cbn; [|by rewrite Hst]. unfold winv; cbn. rewrite Hsq.
  apply Sequencer.empty_inv. intros room. cbn. by rewrite Hst.
Qed.

(** The room manager target sees an empty storage.  It hands frames to the room
    manager and drops the actions that would store them, so at the end of every run
    the storage holds no frame of any room and the checks on stored frames compare
    nothing.  With [debug_assert!] compiled in, the target crashes exactly on the
    inputs that ask for a frame with the Welcome opcode, on which it sets a log
    index; on all others, and without debug assertions, it passes. *)
Theorem room_manager_target_vacuous c e v :
  set_up c e = Ok (Some v) →
  fst (run c v) = (if debug && existsb trips (frame_sequence c) then Panic else Ok tt)
  ∧ MemoryStorage.frames (store (w (snd (run c v)))) = ∅.
Proof.
  intros Hv%set_up_blank. pose proof (loop_outcome c (frame_sequence c) v Hv) as Hl. unfold run. munfold.
  destruct (debug && existsb trips (frame_sequence c)).
  - destruct (m_iter _ (frame_sequence c) v) as [[[]|[]|] v']; [by destruct Hl..|]. split; [done|apply Hl].
  - destruct Hl as (v' & -> & Hv'). unfold verify_storage_invariants, on_storage, on_world. munfold. cbn.
    unfold MemoryStorage.load_frames. rewrite (blank_frames _ Hv'), lookup_empty. cbn. split; [done|]. apply Hv'.
Qed.
End target.
End room_manager.

(** ** [e2e_pipeline_fuzzer.rs] *)
Module e2e_pipeline.
Import RoomManager.RoomManager room_setup no_write.

Inductive AttackType : Type := CorruptedSignature (bit : Z) | WrongEpoch (offset : Z) | NonMember.
Inductive FrameInput : Type :=
| RawBytes (bs : bytes)
| ValidFrame (member_idx opcode : Z)
| AttackFrame (attack : AttackType) (member_idx : Z).
Record E2EScenario : Type := {
  seed : bytes;
  setup_room_id : Z;
  setup_member_count : Z;
  setup_epoch : Z;
  frames : list FrameInput;
}.
Definition room_id_of (c : E2EScenario) : Z := Z.max (setup_room_id c) 1.
Definition members (c : E2EScenario) : list Z := member_ids (Z.max (setup_member_count c mod 10) 1).

Section target.
Context {T : Type} `{Environment T} `{OpenMls T} `{Ed25519}.
Abbreviation World := (world (T := T) (S := MemoryStorage)).
Context (debug : bool).

(** [create_valid_frame], with the [debug_assert!] of [set_log_index]. *)
Definition create_valid_frame (key : bytes) (sender_id epoch room_id opcode : Z) : outcome Empty_set Frame :=
  room_manager.signed_frame debug key sender_id epoch room_id (default Opcode.AppMessage (Opcode.from_u16 opcode)).

Definition create_attack_frame (c : E2EScenario) (attack : AttackType) (member_idx : Z) : outcome Empty_set (option Frame) :=
  sender_id ← pick member_idx (members c);
  match member_keys (seed c) (members c) !! sender_id with
  | None => Ok None
  | Some key =>
      match attack with
      | CorruptedSignature bit =>
          frame ← create_valid_frame key sender_id (setup_epoch c) (room_id_of c) (Opcode.to_u16 Opcode.AppMessage);
          Ok (Some (corrupt (Z.to_nat (bit mod 64)) 0x01 frame))
      | WrongEpoch offset =>
          frame ← create_valid_frame key sender_id (setup_epoch c ⊕64 Z.max offset 1) (room_id_of c)
                    (Opcode.to_u16 Opcode.AppMessage);
          Ok (Some frame)
      | NonMember =>
          let header := FrameHeader.new Opcode.AppMessage in
          let header := FrameHeader.set_sender_id 9999 header in
          let header := FrameHeader.set_epoch (setup_epoch c) header in
          let header := FrameHeader.set_room_id (room_id_of c) header in
          let header := FrameHeader.set_signature (replicate 64 (byte_of_Z 0xAA)) header in
          Ok (Some (Frame.new header []))
      end
  end.

Definition frame_opt (c : E2EScenario) (input : FrameInput) : outcome Empty_set (option Frame) :=
  match input with
  | RawBytes bs => match Frame.decode bs with Ok f => Ok (Some f) | Err _ => Ok None | Panic => Panic end
  | ValidFrame member_idx opcode =>
      sender_id ← pick member_idx (members c);
      match member_keys (seed c) (members c) !! sender_id with
      | None => Ok None
      | Some key => frame ← create_valid_frame key sender_id (setup_epoch c) (room_id_of c) opcode; Ok (Some frame)
      end
  | AttackFrame attack member_idx => create_attack_frame c attack member_idx
  end.

Record Vars : Type := { w : World; next_expected_log_index : Z }.
Definition set_w (x : World) (v : Vars) : Vars := {| w := x; next_expected_log_index := next_expected_log_index v |}.
Definition count_action (v : Vars) (a : RoomAction) : Vars :=
  match a with
  | PersistFrame _ log_index _ _ =>
      if log_index =? next_expected_log_index v
      then {| w := w v; next_expected_log_index := next_expected_log_index v ⊕64 1 |} else v
  | _ => v
  end.
Abbreviation Fuzz := (M Vars Empty_set).
Definition on_world {E A} (op : M World E A) : Fuzz (outcome E A) := m_try (m_zoom w set_w op).

Definition handle_input (c : E2EScenario) (input : FrameInput) : Fuzz unit :=
  fo ← m_lift (frame_opt c input);
  match fo with
  | None => mret tt
  | Some frame =>
      r ← on_world (process_frame frame);
      match r with
      | Ok actions => m_modify (λ v, foldl count_action v actions)
      | _ => mret tt
      end
  end.

Definition verify_stored (room_id : Z) : Fuzz unit :=
  r ← on_world (m_zoom store (λ s x, {| rm := rm x; env := env x; store := s |}) (load_frames room_id 0 1000));
  match r with
  | Ok stored_frames => assert_ (sequencer_state.sequential stored_frames)
  | _ => mret tt
  end.

Definition set_up (c : E2EScenario) (e : T) : outcome Empty_set (option Vars) :=
  match create_room (room_id_of c) (default 0 (head (members c))) {| rm := new; env := e; store := MemoryStorage.new |} with
  | (Ok _, w1) =>
      match store_mls_state (room_id_of c) (group_state (room_id_of c) (setup_epoch c) (seed c) (members c)) (store w1) with
      | (Ok _, s) => Ok (Some {| w := {| rm := rm w1; env := env w1; store := s |}; next_expected_log_index := 0 |})
      | (Err _, _) => Ok None
      | (Panic, _) => Panic
      end
  | (Err _, _) => Ok None
  | (Panic, _) => Panic
  end.
Definition run (c : E2EScenario) (v : Vars) : outcome Empty_set unit * Vars :=
  (m_iter (handle_input c) (frames c);; verify_stored (room_id_of c)) v.
(** The target; [Panic] is a crash. *)
Definition target (c : E2EScenario) (e : T) : outcome Empty_set unit :=
  match set_up c e with Ok (Some v) => fst (run c v) | Ok None => Ok tt | _ => Panic end.

(** *** What the target does *)
Context `{!RoomTotal}.
Definition trips (input : FrameInput) : bool :=
  match input with
  | ValidFrame _ opcode => bool_decide (default Opcode.AppMessage (Opcode.from_u16 opcode) = Opcode.Welcome)
  | _ => false
  end.
Record blank (v : Vars) : Prop := {
  blank_inv : winv (w v);
  blank_frames : MemoryStorage.frames (store (w v)) = ∅ }.

Lemma input_frame c input :
  if debug && trips input then frame_opt c input = Panic else ∃ fo, frame_opt c input = Ok fo.
Proof.
  assert (∀ idx, ∃ id key, pick idx (members c) = Ok id ∧ member_keys (seed c) (members c) !! id = Some key) as Hs
    by (intros idx; apply pick_Ok; lia).
  destruct input as [bs|idx o|attack idx]; cbn [frame_opt trips]; rewrite ?andb_false_r.
  - pose proof (Frame.decode_total bs). destruct (Frame.decode bs); eauto; done.
  - destruct (Hs idx) as (id & key & Hp & Hk). munfold. rewrite Hp, Hk.
    unfold create_valid_frame, room_manager.signed_frame. destruct (debug && _); eauto.
  - destruct (Hs idx) as (id & key & Hp & Hk). unfold create_attack_frame. munfold. rewrite Hp, Hk.
    unfold create_valid_frame, room_manager.signed_frame. rewrite Opcode.from_to_u16. cbn -[Opcode.to_u16].
    rewrite andb_false_r. destruct attack; eauto.
Qed.

Lemma handle_input_outcome c input v :
  blank v →
  if debug && trips input then fst (handle_input c input v) = Panic ∧ blank (snd (handle_input c input v))
  else ∃ v', handle_input c input v = (Ok tt, v') ∧ blank v'.
Proof.
  intros Hv. pose proof (input_frame c input) as Hi. unfold handle_input, on_world. munfold.
  destruct (debug && trips input); [by rewrite Hi|]. destruct Hi as [[f|] ->]; [|by eauto].
  destruct Hv as [Hw Hf]. pose proof (process_frame_total f (w v) Hw) as Ht.
  pose proof (Tasks.rm_process_frame_ordered f (w v) Hw) as (Hw' & _). pose proof (processing_writes_nothing f (w v)) as Hn.
  unfold same_frames in Hn. destruct (process_frame f (w v)) as [r w']. cbn in Hw', Hn, Ht.
  assert (blank (set_w w' v)) as Hb by (split; [done|cbn; congruence]).
  destruct r as [acts|e|]; [|by eauto|done]. eexists. split; [done|].
  clear Ht. revert Hb. generalize (set_w w' v). induction acts as [|a acts IH]; intros x Hx; [done|]. cbn [foldl]. apply IH.
  destruct a as [| ? i ? ? | | |]; cbn [count_action]; try done. destruct (i =? _); [|done]. by destruct Hx.
Qed.

Lemma inputs_outcome c inputs v :
  blank v →
  if debug && existsb trips inputs
  then fst (m_iter (handle_input c) inputs v) = Panic ∧ blank (snd (m_iter (handle_input c) inputs v))
  else ∃ v', m_iter (handle_input c) inputs v = (Ok tt, v') ∧ blank v'.
Proof.
  revert v. induction inputs as [|a inputs IH]; intros v Hv; cbn [existsb m_iter]; [rewrite andb_false_r; by exists v|].
  pose proof (handle_input_outcome c a v Hv) as Hh. rewrite andb_orb_distrib_r. munfold.
  destruct (debug && trips a); cbn [orb].
  - destruct (handle_input c a v) as [[[]|[]|] v']; [by destruct Hh..|done].
  - destruct Hh as (v1 & -> & Hv1). exact (IH v1 Hv1).
Qed.

Lemma e2e_set_up_blank c e v : set_up c e = Ok (Some v) → blank v.
Proof.
  unfold set_up. match goal with |- context [create_room ?r ?who ?x] => set (x0 := x);
    pose proof (create_room_same r who x0) as [Hst Hsq]; destruct (create_room r who x0) as [[[]|err|] w1] end; [|done..].
  cbn. intros [= <-]. cbn in Hst, Hsq. split; cbn; [|by rewrite Hst]. unfold winv; cbn. rewrite Hsq.
  apply Sequencer.empty_inv. intros room. cbn. by rewrite Hst.
Qed.

(** The end-to-end target does not reach the storage either.  Raw bytes, valid
    frames and attacks go through decoding, validation and sequencing without a
    panic, apart from the Welcome opcode under debug assertions; but nothing is
    stored, so the final check of stored frames runs over no frame. *)
Theorem e2e_target_vacuous c e v :
  set_up c e = Ok (Some v) →
  fst (run c v) = (if debug && existsb trips (frames c) then Panic else Ok tt)
  ∧ MemoryStorage.frames (store (w (snd (run c v)))) = ∅.
Proof.
  intros Hv%e2e_set_up_blank. pose proof (inputs_outcome c (frames c) v Hv) as Hl. unfold run. munfold.
  destruct (debug && existsb trips (frames c)).
  - destruct (m_iter _ (frames c) v) as [[[]|[]|] v']; [by destruct Hl..|]. split; [done|apply Hl].
  - destruct Hl as (v' & -> & Hv'). unfold verify_stored, on_world. munfold. cbn.
    unfold MemoryStorage.load_frames. rewrite (blank_frames _ Hv'), lookup_empty. cbn. split; [done|]. apply Hv'.
Qed.
End target.
End e2e_pipeline.

(** ** Witnesses *)
Section fuzz_witnesses.
#[local] Existing Instances ToyMls.ops ToyEd25519.ed.

Lemma toy_room_total : RoomManager.RoomTotal (T := ToyEnv.T).
Proof. split; [apply ToyMls.process_total|by intros []|done|done]. Qed.
#[local] Existing Instance toy_room_total.

(** Frames of both kinds and a full round of reads at a failure rate of 30%. *)
Definition demo_chaos : storage_chaos.ChaosScenario :=
  {| storage_chaos.seed := replicate 32 Byte.x05; storage_chaos.chaos_seed := 42; storage_chaos.failure_rate_tenth := 3;
     storage_chaos.s_room_id := 8; storage_chaos.member_count := 2;
     storage_chaos.operations :=
       [storage_chaos.SendValidFrame 0; storage_chaos.SendValidFrame 1; storage_chaos.SendCorruptedFrame 2;
        storage_chaos.LoadFrames 0 5; storage_chaos.RoundTripMlsState; storage_chaos.SendValidFrame 4;
        storage_chaos.QueryLatestIndex] |}.
Lemma storage_chaos_target_passes_witness :
  storage_chaos.target demo_chaos ((0, 0) : ToyEnv.T) = Ok tt.
Proof.
  apply (storage_chaos.storage_chaos_target_passes demo_chaos). split; [done|].
  repeat (constructor; [done|]). constructor.
Defined.

(** A valid frame, one with the Welcome opcode and one with a corrupted signature. *)
Definition demo_room : room_manager.RoomScenario :=
  {| room_manager.seed := replicate 32 Byte.x05; room_manager.s_room_id := room_manager.RValid 9; room_manager.count := 2;
     room_manager.frame_sequence :=
       [room_manager.ValidFromMember 0; room_manager.InvalidOpcode 1 (Opcode.to_u16 Opcode.Welcome);
        room_manager.CorruptedSignature 2 7] |}.
Lemma room_manager_target_vacuous_witness :
  ∃ v, room_manager.set_up demo_room ((0, 0) : ToyEnv.T) = Ok (Some v)
    ∧ fst (room_manager.run true demo_room v) = Panic ∧ fst (room_manager.run false demo_room v) = Ok tt.
Proof.
  destruct (room_manager.set_up demo_room ((0, 0) : ToyEnv.T)) as [[v|]|[]|] eqn:E; [|by vm_compute in E..].
  exists v. split; [done|]. split.
  - exact (proj1 (room_manager.room_manager_target_vacuous true demo_room ((0, 0) : ToyEnv.T) v E)).
  - exact (proj1 (room_manager.room_manager_target_vacuous false demo_room ((0, 0) : ToyEnv.T) v E)).
Defined.

Definition demo_e2e : e2e_pipeline.E2EScenario :=
  {| e2e_pipeline.seed := replicate 32 Byte.x05; e2e_pipeline.setup_room_id := 0; e2e_pipeline.setup_member_count := 3;
     e2e_pipeline.setup_epoch := 0;
     e2e_pipeline.frames :=
       [e2e_pipeline.ValidFrame 1 (Opcode.to_u16 Opcode.AppMessage); e2e_pipeline.RawBytes [];
        e2e_pipeline.AttackFrame e2e_pipeline.NonMember 0] |}.
Lemma e2e_target_vacuous_witness :
  ∃ v, e2e_pipeline.set_up demo_e2e ((0, 0) : ToyEnv.T) = Ok (Some v) ∧ fst (e2e_pipeline.run true demo_e2e v) = Ok tt.
Proof.
  destruct (e2e_pipeline.set_up demo_e2e ((0, 0) : ToyEnv.T)) as [[v|]|[]|] eqn:E; [|by vm_compute in E..].
  exists v. split; [done|].
  exact (proj1 (e2e_pipeline.e2e_target_vacuous true demo_e2e ((0, 0) : ToyEnv.T) v E)).
Defined.
End fuzz_witnesses.
