(* ===== verification/FuzzCrypto.v ===== *)
(** * The fuzz targets of the cryptographic layer

    [fuzz/fuzz_targets/mls_signature_fuzzer.rs] and
    [fuzz/fuzz_targets/sender_key_fuzzer.rs].  Their assertions include facts that
    only hold for a secure scheme; the theorems are reductions: a run that crashes
    exhibits a forged signature, a collision of the key derivation or a forged
    ciphertext. *)

From Stdlib Require Import ZArith Lia.
From S2P Require Import Prelude Opcodes Header Frame SenderKeys MlsState Storage Validator FuzzProto FuzzServer.

(** ** [mls_signature_fuzzer.rs] *)
Module mls_signature.
Import room_setup.

Inductive TamperedField : Type := TRoomId (v : Z) | TSenderId (v : Z) | TEpoch (v : Z).
Inductive MalformedType : Type := AllZeros | PatternFill (seed : Z) | HighEntropyGarbage.
Inductive SigningKeyChoice : Type := First | Second.
Inductive SignatureAttack : Type :=
| CorruptedSignature (byte_offset bit_offset : Z)
| WrongKey (signing_key : SigningKeyChoice)
| TamperedData (field : TamperedField)
| MalformedSignature (malformed : MalformedType).
Record FuzzInput : Type := { seed : bytes; attack : SignatureAttack }.

Definition derive_key_bytes (seed : bytes) (index : nat) : bytes := key_bytes seed index.

Section target.
Context `{Ed25519}.
Definition room_id : Z := 100.
Definition sender_id : Z := 1.
Definition epoch : Z := 5.

Definition signed (key : bytes) : Frame := create_signed_frame key sender_id epoch room_id Opcode.AppMessage.
Definition create_group_state (room_id epoch : Z) (members : list Z) (verifying_key : bytes) : MlsGroupState :=
  MlsGroupState.with_keys room_id epoch (replicate 32 Byte.x00) members
    (list_to_map (map (λ id, (id, verifying_key)) members)) [].
Definition state_for (key : bytes) : MlsGroupState := create_group_state room_id epoch [sender_id] (ed_public key).

(** [assert!(result.is_ok())] and the match on what it holds. *)
Definition expect (accept : bool) (frame : Frame) (state : MlsGroupState) : M unit Empty_set unit :=
  match MlsValidator.validate_signature frame state with
  | Ok Accept => assert_ accept
  | Ok (Reject _) => assert_ (negb accept)
  | _ => m_lift Panic
  end.

Definition tamper (field : TamperedField) (f : Frame) : option Frame :=
  let with_header h := Some {| Frame.header := h; Frame.payload := Frame.payload f |} in
  match field with
  | TRoomId v => if v =? FrameHeader.room_id (Frame.header f) then None
                 else with_header (FrameHeader.set_room_id v (Frame.header f))
  | TSenderId v => if v =? FrameHeader.sender_id (Frame.header f) then None
                   else with_header (FrameHeader.set_sender_id v (Frame.header f))
  | TEpoch v => if v =? FrameHeader.epoch (Frame.header f) then None
                else with_header (FrameHeader.set_epoch v (Frame.header f))
  end.

Definition malformed_sig (m : MalformedType) : bytes :=
  match m with
  | AllZeros => replicate 64 Byte.x00
  | PatternFill seed => map (λ i, byte_of_Z (seed * 7 + Z.of_nat i)) (seq 0 64)
  | HighEntropyGarbage => map (λ i, byte_of_Z (Z.of_nat i * 7 + 13)) (seq 0 64)
  end.
Definition malformed_frame (m : MalformedType) : Frame :=
  let header := FrameHeader.new Opcode.AppMessage in
  let header := FrameHeader.set_sender_id sender_id header in
  let header := FrameHeader.set_epoch epoch header in
  let header := FrameHeader.set_room_id room_id header in
  Frame.new (FrameHeader.set_signature (malformed_sig m) header) [].

(** The target; [Panic] is a crash. *)
Definition target (input : FuzzInput) : M unit Empty_set unit :=
  let key1 := derive_key_bytes (seed input) 0 in
  let key2 := derive_key_bytes (seed input) 1 in
  match attack input with
  | CorruptedSignature byte_offset bit_offset =>
      let frame := signed key1 in
      expect true frame (state_for key1);;
      expect false (corrupt (Z.to_nat (byte_offset mod 64)) (Z.shiftl 1 (bit_offset mod 8)) frame) (state_for key1)
  | WrongKey First => expect false (signed key1) (state_for key2)
  | WrongKey Second => expect false (signed key2) (state_for key1)
  | TamperedData field =>
      let frame := signed key1 in
      expect true frame (state_for key1);;
      match tamper field frame with
      | None => mret tt
      | Some tampered => expect false tampered (state_for key1)
      end
  | MalformedSignature m => expect false (malformed_frame m) (state_for key1)
  end.

(** *** The reduction *)
Record typed (input : FuzzInput) : Prop := {
  typed_seed : length (seed input) = 32%nat;
  typed_field : match attack input with
                | TamperedData (TRoomId v) => 0 ≤ v < 2 ^ 128
                | TamperedData (TSenderId v) | TamperedData (TEpoch v) => 0 ≤ v < U64_MOD
                | _ => True
                end;
}.

(** What every frame of the target has signed. *)
Definition unsigned : FrameHeader :=
  FrameHeader.set_log_index 0 (FrameHeader.set_room_id room_id (FrameHeader.set_epoch epoch
    (FrameHeader.set_sender_id sender_id (FrameHeader.new Opcode.AppMessage)))).
Definition data : bytes := FrameHeader.signing_data unsigned.

(** The signatures made in a run, with key and message. *)
Definition made (input : FuzzInput) : list (bytes * bytes * bytes) :=
  let by_key key := [(key, data, ed_sign key data)] in
  match attack input with
  | CorruptedSignature _ _ | TamperedData _ | WrongKey First => by_key (derive_key_bytes (seed input) 0)
  | WrongKey Second => by_key (derive_key_bytes (seed input) 1)
  | MalformedSignature _ => []
  end.
(** The one signature that the run wants refused, with the key under which and the
    message for which it is presented.  There is none if nothing was tampered with,
    or if the frame claims a sender for whom no key is on record. *)
Definition presented (input : FuzzInput) : option (bytes * bytes * bytes) :=
  let key1 := derive_key_bytes (seed input) 0 in
  let key2 := derive_key_bytes (seed input) 1 in
  match attack input with
  | CorruptedSignature byte bit =>
      Some (key1, data, flip (Z.to_nat (byte mod 64)) (Z.shiftl 1 (bit mod 8)) (ed_sign key1 data))
  | WrongKey First => Some (key2, data, ed_sign key1 data)
  | WrongKey Second => Some (key1, data, ed_sign key2 data)
  | TamperedData (TRoomId v) =>
      if v =? room_id then None
      else Some (key1, FrameHeader.signing_data (FrameHeader.set_room_id v unsigned), ed_sign key1 data)
  | TamperedData (TSenderId v) => None
  | TamperedData (TEpoch v) =>
      if v =? epoch then None
      else Some (key1, FrameHeader.signing_data (FrameHeader.set_epoch v unsigned), ed_sign key1 data)
  | MalformedSignature m => Some (key1, data, malformed_sig m)
  end.

Context `{!Ed25519Ok}.

Lemma unsigned_wf : FrameHeader.wf unsigned.
Proof.
  apply FrameHeader.set_log_index_wf, FrameHeader.set_room_id_wf, FrameHeader.set_epoch_wf, FrameHeader.set_sender_id_wf,
    FrameHeader.new_wf.
Qed.
Lemma new_empty h : FrameHeader.h_payload_size h = to_be_bytes 4 0 → Frame.header (Frame.new h []) = h.
Proof. destruct h. intros Hs. cbn in Hs. subst. reflexivity. Qed.
Lemma signed_spec key :
  Frame.header (signed key) = FrameHeader.set_signature (ed_sign key data) unsigned.
Proof.
  unfold signed, create_signed_frame. fold unsigned. cbv zeta. fold data. apply new_empty. by vm_compute.
Qed.
Lemma data_of sig : length sig = 64%nat → FrameHeader.signing_data (FrameHeader.set_signature sig unsigned) = data.
Proof. intros Hs. apply FrameHeader.set_signature_signing_data; [done|]. apply unsigned_wf. Qed.

Lemma key_on_record who key :
  MlsGroupState.member_key who (state_for key) = if who =? sender_id then Some (ed_public key) else None.
Proof.
  unfold MlsGroupState.member_key. cbn [state_for create_group_state MlsGroupState.with_keys MlsGroupState.member_keys map list_to_map].
  destruct (who =? sender_id) eqn:E; bool_to_prop.
  - subst who. unfold list_to_map. cbn. rewrite lookup_insert_eq. cbn. by rewrite ed_public_valid.
  - unfold list_to_map. cbn. rewrite lookup_insert_ne by done. by rewrite lookup_empty.
Qed.

Lemma signed_accepted key : expect true (signed key) (state_for key) tt = (Ok tt, tt).
Proof.
  unfold expect, MlsValidator.validate_signature. rewrite signed_spec, key_on_record.
  change (FrameHeader.sender_id (FrameHeader.set_signature (ed_sign key data) unsigned)) with sender_id.
  rewrite Z.eqb_refl, data_of by apply ed_sign_length. cbn [FrameHeader.signature FrameHeader.set_signature FrameHeader.h_signature].
  by rewrite ed_sign_verify.
Qed.

(** A frame that should be refused is, exactly if it names another sender or its
    signature does not verify. *)
Lemma expect_false f key :
  fst (expect false f (state_for key) tt) = Ok tt
  ↔ (FrameHeader.sender_id (Frame.header f) = sender_id →
     ed_verify (ed_public key) (FrameHeader.signing_data (Frame.header f)) (FrameHeader.signature (Frame.header f)) = false).
Proof.
  unfold expect, MlsValidator.validate_signature. rewrite key_on_record.
  destruct (_ =? sender_id) eqn:E; bool_to_prop; [|by split].
  destruct (ed_verify _ _ _); cbn; (split; [try done|]); intros Hv; [by specialize (Hv E)|done].
Qed.
Lemma expect_false_mine f key : FrameHeader.sender_id (Frame.header f) = sender_id →
  fst (expect false f (state_for key) tt) = Ok tt
  ↔ ed_verify (ed_public key) (FrameHeader.signing_data (Frame.header f)) (FrameHeader.signature (Frame.header f)) = false.
Proof. intros Hs. rewrite expect_false. naive_solver. Qed.

Lemma flip_ne i mask sig : (i < length sig)%nat → 0 < mask < U8_MOD → flip i mask sig ≠ sig.
Proof.
  intros Hi Hm Heq. destruct (lookup_lt_is_Some_2 sig i Hi) as [b Hb].
  assert (flip i mask sig !! i = Some (byte_of_Z (Z.lxor (byte_to_Z b) mask))) as Hf
    by (unfold flip; by rewrite list_lookup_alter, decide_True, Hb).
  rewrite Heq, Hb in Hf. injection Hf as Hf. apply (f_equal byte_to_Z) in Hf. rewrite byte_to_of_Z in Hf.
  pose proof (byte_to_Z_range b) as Hr.
  assert (0 ≤ Z.lxor (byte_to_Z b) mask < U8_MOD) as Hx.
  { split; [apply Z.lxor_nonneg; lia|]. destruct (decide (Z.lxor (byte_to_Z b) mask = 0)) as [->|]; [lia|].
    apply (Z.log2_lt_pow2 _ 8); [|].
    - pose proof (proj2 (Z.lxor_nonneg (byte_to_Z b) mask) ltac:(lia)). lia.
    - assert (byte_to_Z b = 0 ∨ Z.log2 (byte_to_Z b) < 8) as Hb8 by (destruct (decide (byte_to_Z b = 0)); [by left|right; apply Z.log2_lt_pow2; lia]).
      assert (Z.log2 mask < 8) as Hm8 by (apply Z.log2_lt_pow2; lia).
      pose proof (Z.log2_lxor (byte_to_Z b) mask ltac:(lia) ltac:(lia)).
      destruct Hb8 as [->|]; [|lia]. rewrite Z.lxor_0_l. lia. }
  rewrite Z.mod_small in Hf by done.
  assert (mask = 0) as ->; [|lia].
  transitivity (Z.lxor (byte_to_Z b) (Z.lxor (byte_to_Z b) mask)).
  - by rewrite <-Z.lxor_assoc, Z.lxor_nilpotent, Z.lxor_0_l.
  - by rewrite <-Hf, Z.lxor_nilpotent.
Qed.

Lemma keys_differ s : length s = 32%nat → derive_key_bytes s 0 ≠ derive_key_bytes s 1.
Proof.
  intros Hl Heq. destruct s as [|b s]; [done|]. apply (f_equal head) in Heq. cbn in Heq. injection Heq as Heq. by destruct b.
Qed.

Lemma made_alone (key msg sig : bytes) k m s : (k, m, s) ∉ [(key, msg, sig)] ↔ k ≠ key ∨ m ≠ msg ∨ s ≠ sig.
Proof.
  rewrite list_elem_of_singleton. split; [|naive_solver]. intros Hn.
  destruct (decide (k = key)) as [->|]; [|by left]. destruct (decide (m = msg)) as [->|]; [|by right; left].
  right. right. congruence.
Qed.

(** Another value in a signed field gives other signed bytes. *)
Lemma room_data v : 0 ≤ v < 2 ^ 128 → v ≠ room_id → FrameHeader.signing_data (FrameHeader.set_room_id v unsigned) ≠ data.
Proof.
  intros Hv Hne Heq. apply FrameHeader.signing_data_inj in Heq; [|apply FrameHeader.set_room_id_wf|]; [|apply unsigned_wf..].
  apply FrameHeader.ssf_room_id, (f_equal from_be_bytes) in Heq. cbn -[to_be_bytes from_be_bytes] in Heq.
  rewrite !from_to_be_bytes in Heq by (cbn; lia). done.
Qed.
Lemma epoch_data v : 0 ≤ v < U64_MOD → v ≠ epoch → FrameHeader.signing_data (FrameHeader.set_epoch v unsigned) ≠ data.
Proof.
  intros Hv Hne Heq. apply FrameHeader.signing_data_inj in Heq; [|apply FrameHeader.set_epoch_wf|]; [|apply unsigned_wf..].
  apply FrameHeader.ssf_epoch, (f_equal from_be_bytes) in Heq. cbn -[to_be_bytes from_be_bytes] in Heq.
  rewrite !from_to_be_bytes in Heq by (cbn; lia). done.
Qed.

(** What is presented was not made in the run. *)
Lemma presented_not_made input t : typed input → presented input = Some t → t ∉ made input.
Proof.
  intros [Hseed Hfield]. pose proof (keys_differ _ Hseed) as Hk. unfold presented, made.
  destruct (attack input) as [byte bit|[]|[v|v|v]|m]; cbv zeta; [..|intros _; apply not_elem_of_nil].
  - intros [= <-]. apply made_alone. right. right.
    pose proof (Z.mod_pos_bound byte 64 ltac:(lia)). pose proof (Z.mod_pos_bound bit 8 ltac:(lia)).
    apply flip_ne; [rewrite ed_sign_length; lia|]. rewrite Z.shiftl_1_l. split; [apply Z.pow_pos_nonneg; lia|].
    apply (Z.pow_lt_mono_r 2 _ 8); lia.
  - intros [= <-]. apply made_alone. left. congruence.
  - intros [= <-]. apply made_alone. left. congruence.
  - destruct (v =? room_id) eqn:E; [done|]. bool_to_prop. intros [= <-]. apply made_alone. right. left. by apply room_data.
  - done.
  - destruct (v =? epoch) eqn:E; [done|]. bool_to_prop. intros [= <-]. apply made_alone. right. left. by apply epoch_data.
Qed.

(** A frame with a header field set after it was signed. *)
Lemma resigned key (set : FrameHeader → FrameHeader) :
  (∀ sig h, set (FrameHeader.set_signature sig h) = FrameHeader.set_signature sig (set h)) → FrameHeader.wf (set unsigned) →
  let h := set (Frame.header (signed key)) in
  FrameHeader.signing_data h = FrameHeader.signing_data (set unsigned) ∧ FrameHeader.signature h = ed_sign key data.
Proof.
  intros Hset Hwf. cbn zeta. rewrite signed_spec, Hset. split; [|done].
  apply FrameHeader.set_signature_signing_data; [apply ed_sign_length|done].
Qed.

(** C34: the signature target asks exactly for the security of the scheme.  Genuine
    frames are always accepted; the target passes on an input exactly if the one
    signature that the input presents (a corrupted one, one made with the other key,
    one whose frame got another room or epoch afterwards, a malformed one) does not
    verify under the key on record for the bytes of the presented frame; and this
    signature was not made for that key and message in the run, so that a crash is a
    forgery.  A frame that claims another sender is refused without a condition. *)
Theorem signature_target_exact input :
  typed input →
  (fst (target input tt) = Ok tt
   ↔ ∀ key msg sig, presented input = Some (key, msg, sig) → ed_verify (ed_public key) msg sig = false)
  ∧ ∀ t, presented input = Some t → t ∉ made input.
Proof.
  intros Ht. split; [|by intros t; apply presented_not_made]. destruct Ht as [_ Hfield].
  assert (∀ k m s : bytes, ed_verify (ed_public k) m s = false
    ↔ ∀ key msg sig, Some (k, m, s) = Some (key, msg, sig) → ed_verify (ed_public key) msg sig = false) as Hone by naive_solver.
  assert (∀ key, FrameHeader.signature (Frame.header (signed key)) = ed_sign key data) as Hsig by (intros key; by rewrite signed_spec).
  assert (∀ key, FrameHeader.signing_data (Frame.header (signed key)) = data) as Hdata
    by (intros key; rewrite signed_spec; apply data_of, ed_sign_length).
  assert (∀ key, FrameHeader.sender_id (Frame.header (signed key)) = sender_id) as Hwho by (intros key; by rewrite signed_spec).
  assert (∀ i x f, FrameHeader.sender_id (Frame.header (corrupt i x f)) = FrameHeader.sender_id (Frame.header f)) as Hw1 by done.
  assert (∀ v h, FrameHeader.sender_id (FrameHeader.set_room_id v h) = FrameHeader.sender_id h) as Hw2 by done.
  assert (∀ v h, FrameHeader.sender_id (FrameHeader.set_epoch v h) = FrameHeader.sender_id h) as Hw3 by done.
  unfold target, presented. cbv zeta. set (k1 := derive_key_bytes (seed input) 0). set (k2 := derive_key_bytes (seed input) 1).
  destruct (attack input) as [byte bit|[]|[v|v|v]|m].
  - munfold. rewrite signed_accepted. etransitivity; [apply expect_false_mine; rewrite Hw1; apply Hwho|]. etransitivity; [|apply Hone].
    cbn [corrupt Frame.header]. rewrite Hsig, signed_spec, FrameHeader.set_signature_signing_data; [|unfold flip; rewrite length_alter; apply ed_sign_length|].
    2: { apply FrameHeader.set_signature_wf; [apply ed_sign_length|apply unsigned_wf]. }
    by rewrite data_of by apply ed_sign_length.
  - etransitivity; [apply expect_false_mine, Hwho|]. rewrite Hsig, Hdata. apply Hone.
  - etransitivity; [apply expect_false_mine, Hwho|]. rewrite Hsig, Hdata. apply Hone.
  - munfold. rewrite signed_accepted. unfold tamper.
    replace (FrameHeader.room_id (Frame.header (signed k1))) with room_id by (by rewrite signed_spec; vm_compute).
    destruct (v =? room_id); [by split|]. etransitivity; [apply expect_false_mine; cbn [Frame.header]; rewrite Hw2; apply Hwho|]. etransitivity; [|apply Hone].
    cbn [Frame.header]. destruct (resigned k1 (FrameHeader.set_room_id v)) as [-> ->]; [done|apply FrameHeader.set_room_id_wf, unsigned_wf|done].
  - munfold. rewrite signed_accepted. unfold tamper. rewrite Hwho. destruct (v =? sender_id) eqn:E; [by split|]. bool_to_prop.
    split; [by intros _|intros _]. apply expect_false. cbn [Frame.header]. intros Hs. exfalso. apply E.
    rewrite <-Hs. unfold FrameHeader.sender_id. cbn -[to_be_bytes from_be_bytes]. symmetry. apply from_to_be_bytes. cbn. lia.
  - munfold. rewrite signed_accepted. unfold tamper.
    replace (FrameHeader.epoch (Frame.header (signed k1))) with epoch by (by rewrite signed_spec; vm_compute).
    destruct (v =? epoch); [by split|]. etransitivity; [apply expect_false_mine; cbn [Frame.header]; rewrite Hw3; apply Hwho|]. etransitivity; [|apply Hone].
    cbn [Frame.header]. destruct (resigned k1 (FrameHeader.set_epoch v)) as [-> ->]; [done|apply FrameHeader.set_epoch_wf, unsigned_wf|done].
  - etransitivity; [by apply expect_false_mine|]. etransitivity; [|apply Hone].
    assert (length (malformed_sig m) = 64%nat) as Hl by (by destruct m). unfold malformed_frame. cbv zeta.
    rewrite new_empty by done.
    rewrite FrameHeader.set_signature_signing_data; [done|done|].
    apply FrameHeader.set_room_id_wf, FrameHeader.set_epoch_wf, FrameHeader.set_sender_id_wf, FrameHeader.new_wf.
Qed.
End target.
End mls_signature.

(** ** [sender_key_fuzzer.rs] *)
Module sender_key.
Import SymmetricRatchet encryption.

Inductive EpochSecret : Type :=
| Empty | Small (bs : bytes) | Normal (bs : bytes) | Large (bs : bytes) | Arbitrary (bs : bytes).
Definition as_bytes (s : EpochSecret) : bytes :=
  match s with Empty => [] | Small b | Normal b | Large b | Arbitrary b => b end.
Inductive RatchetOperation : Type :=
| Advance
| AdvanceTo (target : Z)
| Encrypt (message : bytes)
| VerifyDeterminism.
Record SenderKeyScenario : Type := {
  epoch_secret : EpochSecret;
  epoch : Z;
  sender_index : Z;
  operations : list RatchetOperation;
  random_bytes : bytes;
}.

Section target.
Context `{Primitives}.

(** The local variables of the loop. *)
Record Vars : Type := { ratchet : SymmetricRatchet; last_key : option MessageKey }.
Definition set_ratchet (r : SymmetricRatchet) (v : Vars) : Vars := {| ratchet := r; last_key := last_key v |}.
Definition set_key (k : option MessageKey) (v : Vars) : Vars := {| ratchet := ratchet v; last_key := k |}.
Abbreviation Fuzz := (M Vars Empty_set).
Definition on_ratchet {A} (op : M SymmetricRatchet SenderKeyError A) : Fuzz (outcome SenderKeyError A) :=
  m_try (m_zoom ratchet set_ratchet op).

(** [for expected_gen in 0..n { if let Ok(key) = verify_ratchet.advance() { .. } }]. *)
Fixpoint verify_from (n : nat) (expected_gen : Z) (r : SymmetricRatchet) : outcome Empty_set unit :=
  match n with
  | O => Ok tt
  | S n =>
      match advance r with
      | (Ok key, r) => if MessageKey.generation key =? expected_gen then verify_from n (expected_gen + 1) r else Panic
      | (Err _, r) => verify_from n (expected_gen + 1) r
      | (Panic, _) => Panic
      end
  end.

Definition encrypt_checks (c : SenderKeyScenario) (message : bytes) (key : MessageKey) : Fuzz unit :=
  match encrypt_message message key (epoch c) (sender_index c) (random_bytes c) with
  | Ok encrypted =>
      assert_ (zlen message <=? zlen (EncryptedMessage.ciphertext encrypted));;
      match decrypt_message encrypted key with
      | Ok plain => assert_ (bool_decide (plain = message))
      | _ => m_lift Panic
      end;;
      if bool_decide (EncryptedMessage.ciphertext encrypted = []) then mret tt
      else
        let corrupted :=
          {| EncryptedMessage.epoch := EncryptedMessage.epoch encrypted;
             EncryptedMessage.sender_index := EncryptedMessage.sender_index encrypted;
             EncryptedMessage.generation := EncryptedMessage.generation encrypted;
             EncryptedMessage.nonce := EncryptedMessage.nonce encrypted;
             EncryptedMessage.ciphertext := room_setup.flip 0 0xFF (EncryptedMessage.ciphertext encrypted) |} in
        assert_ (is_err (decrypt_message corrupted key))
  | _ => m_lift Panic
  end.

Definition handle_op (c : SenderKeyScenario) (seed : bytes) (op : RatchetOperation) : Fuzz unit :=
  match op with
  | Advance =>
      r ← on_ratchet advance;
      match r with
      | Ok key => assert_ (zlen (MessageKey.key key) =? 32);; m_modify (set_key (Some key))
      | _ => mret tt
      end
  | AdvanceTo target =>
      r ← on_ratchet (advance_to target);
      match r with
      | Ok key => assert_ (MessageKey.generation key =? target);; m_modify (set_key (Some key))
      | _ => mret tt
      end
  | Encrypt message =>
      v ← m_get;
      match last_key v with
      | Some key => encrypt_checks c message key
      | None => mret tt
      end
  | VerifyDeterminism =>
      v ← m_get;
      m_lift (verify_from (Z.to_nat (Z.min (generation (ratchet v)) 10)) 0 (new seed))
  end.

(** The target; [Panic] is a crash. *)
Definition target (c : SenderKeyScenario) : outcome Empty_set unit :=
  let secret := as_bytes (epoch_secret c) in
  let seed := derive_sender_key_seed secret (epoch c) (sender_index c) in
  let seed2 := derive_sender_key_seed secret (epoch c) (sender_index c) in
  fst ((assert_ (zlen seed =? 32);;
        assert_ (bool_decide (seed = seed2));;
        (if epoch c <? U64_MAX then
           assert_ (negb (bool_decide (seed = derive_sender_key_seed secret (epoch c + 1) (sender_index c))))
         else mret tt);;
        (if sender_index c <? U32_MAX then
           assert_ (negb (bool_decide (seed = derive_sender_key_seed secret (epoch c) (sender_index c + 1))))
         else mret tt);;
        v ← m_get;
        assert_ (generation (ratchet v) =? 0);;
        m_iter (handle_op c seed) (operations c)) {| ratchet := new seed; last_key := None |}).

(** *** The reduction *)

(** The output sizes that the crates document; the cipher takes every message up to
    its limit, with a key of 32 and a nonce of 24 bytes, and appends a tag. *)
Class Sized : Prop := {
  hkdf_length : ∀ s i, length (hkdf_sha256 s i) = 32%nat;
  hmac_length : ∀ k m, length (hmac_sha256 k m) = 32%nat;
  aead_accepts : ∀ k n p, length k = 32%nat → length n = 24%nat → zlen p ≤ 64 * (2 ^ 32 - 1) → is_Some (aead_encrypt k n p);
  aead_length : ∀ k n p c, aead_encrypt k n p = Some c → length c = (length p + 16)%nat;
}.
(** Of the inputs of the key derivation that the target uses, two that differ with
    one output. *)
Definition infos (c : SenderKeyScenario) : list bytes :=
  [seed_info (epoch c) (sender_index c); seed_info (epoch c + 1) (sender_index c); seed_info (epoch c) (sender_index c + 1)].
Definition collision (c : SenderKeyScenario) : Prop :=
  let secret := as_bytes (epoch_secret c) in
  ∃ i1 i2, i1 ∈ infos c ∧ i2 ∈ infos c ∧ i1 ≠ i2 ∧ hkdf_sha256 secret i1 = hkdf_sha256 secret i2.
(** The ciphertext of a message under a key still decrypts after its first byte was
    inverted. *)
Definition opens (c : SenderKeyScenario) (message : bytes) (key : MessageKey) : Prop :=
  let nonce := build_nonce (epoch c) (sender_index c) (MessageKey.generation key) (random_bytes c) in
  ∃ ct, aead_encrypt (MessageKey.key key) nonce message = Some ct ∧ ct ≠ []
    ∧ is_Some (aead_decrypt (MessageKey.key key) nonce (room_setup.flip 0 0xFF ct)).
(** It does so for a message of the input and a key of the target's ratchet. *)
Definition forgery (c : SenderKeyScenario) : Prop :=
  let seed := derive_sender_key_seed (as_bytes (epoch_secret c)) (epoch c) (sender_index c) in
  ∃ message g, Encrypt message ∈ operations c ∧ opens c message (key_at seed g).

Record typed (c : SenderKeyScenario) : Prop := {
  typed_epoch : 0 ≤ epoch c < U64_MOD;
  typed_index : 0 ≤ sender_index c < U32_MOD;
  typed_random : length (random_bytes c) = 8%nat;
  typed_ops : Forall (λ op, match op with
    | AdvanceTo t => 0 ≤ t < U16_MOD | Encrypt m => zlen m ≤ 64 * (2 ^ 32 - 1) | _ => True end) (operations c);
}.

Context `{!PrimitivesOk} `{!Sized}.

Record kinv (seed : bytes) (v : Vars) : Prop := {
  kinv_ratchet : ∃ g, ratchet v = at_gen seed g ∧ 0 ≤ g ≤ U32_MAX;
  kinv_key : ∀ k, last_key v = Some k → ∃ g, k = key_at seed g;
}.

Lemma verify_from_passes seed n g : 0 ≤ g → g + Z.of_nat n ≤ U32_MAX → verify_from n g (at_gen seed g) = Ok tt.
Proof.
  revert g. induction n as [|n IH]; intros g Hg Hn; [done|]. cbn [verify_from]. rewrite advance_at by lia.
  cbn [MessageKey.generation key_at]. rewrite Z.eqb_refl. apply IH; lia.
Qed.

Lemma encrypt_checks_pass c message key v :
  length (random_bytes c) = 8%nat → length (MessageKey.key key) = 32%nat → zlen message ≤ 64 * (2 ^ 32 - 1) →
  encrypt_checks c message key v = (Ok tt, v) ∨ opens c message key.
Proof.
  intros Hr Hk Hm. unfold encrypt_checks, encrypt_message.
  set (nonce := build_nonce _ _ _ _).
  assert (length nonce = 24%nat) as Hn.
  { unfold nonce. rewrite build_nonce_eq by done. rewrite !length_app, !length_to_be_bytes, Hr. done. }
  destruct (aead_accepts (MessageKey.key key) nonce message Hk Hn Hm) as [ct Hct]. rewrite Hct.
  pose proof (aead_length _ _ _ _ Hct) as Hl. unfold decrypt_message, assert_. munfold.
  cbn [EncryptedMessage.ciphertext EncryptedMessage.generation EncryptedMessage.nonce].
  rewrite Z.eqb_refl, (aead_roundtrip _ _ _ _ Hct), (proj2 (Z.leb_le _ _)) by (unfold zlen; lia). cbn [negb].
  rewrite bool_decide_true by done. assert (ct ≠ []) as Hne by (destruct ct; [cbn in Hl; lia|done]).
  rewrite (bool_decide_false (ct = [])) by done.
  destruct (aead_decrypt (MessageKey.key key) nonce (room_setup.flip 0 255 ct)) as [p|] eqn:Hd; [right|by left].
  exists ct. cbv zeta. fold nonce. by rewrite Hd.
Qed.

Lemma key_op_passes c seed op v :
  typed c → op ∈ operations c → kinv seed v →
  (∃ v', handle_op c seed op v = (Ok tt, v') ∧ kinv seed v') ∨ ∃ m g, op = Encrypt m ∧ opens c m (key_at seed g).
Proof.
  intros Hc Hin Hv. pose proof (typed_ops _ Hc) as Ho. rewrite list.Forall_forall in Ho. specialize (Ho _ Hin).
  destruct Hv as [(g & Hg & Hb) Hkey].
  assert (∀ t, length (MessageKey.key (key_at seed t)) = 32%nat) as Hlen by (intros t; apply hmac_length).
  destruct op as [|t|m|]; cbn [handle_op]; unfold on_ratchet, assert_; munfold.
  - left. rewrite Hg. destruct (decide (g = U32_MAX)) as [->|Hne].
    + rewrite advance_at_max. eexists. split; [done|]. split; cbn; [by exists U32_MAX|done].
    + rewrite advance_at by lia. unfold zlen. rewrite Hlen. eexists. split; [done|].
      split; cbn; [exists (g + 1); split; [done|lia]|]. intros k [= <-]. by exists g.
  - left. rewrite Hg, advance_to_at by lia. unfold advance_to_ref. destruct (_ || _).
    { eexists. split; [done|]. split; cbn; [by exists g|done]. }
    destruct (t =? U32_MAX) eqn:E; bool_to_prop; [lia|]. cbn [MessageKey.generation key_at]. rewrite Z.eqb_refl.
    eexists. split; [done|]. split; cbn; [exists (t + 1); split; [done|lia]|]. intros k [= <-]. by exists t.
  - destruct (last_key v) as [key|] eqn:Hk; [|left; exists v; split; [done|by split; [exists g|rewrite Hk]]].
    destruct (Hkey _ eq_refl) as [g' ->].
    destruct (encrypt_checks_pass c m (key_at seed g') v (typed_random _ Hc) (Hlen g') Ho) as [->|]; [left|by right; exists m, g'].
    exists v. split; [done|]. split; [by exists g|by rewrite Hk].
  - left. rewrite Hg. cbn [generation at_gen]. change (new seed) with (at_gen seed 0).
    rewrite verify_from_passes by lia. exists v. split; [done|]. split; [by exists g|done].
Qed.

Lemma loop_passes c seed ops v :
  typed c → (∀ op, op ∈ ops → op ∈ operations c) → kinv seed v →
  fst (m_iter (handle_op c seed) ops v) = Ok tt ∨ ∃ m g, Encrypt m ∈ operations c ∧ opens c m (key_at seed g).
Proof.
  intros Hc. revert v. induction ops as [|op ops IH]; intros v Hin Hv; [by left|]. cbn [m_iter]. munfold.
  assert (op ∈ operations c) as Hop by (apply Hin; set_solver).
  destruct (key_op_passes c seed op v Hc Hop Hv) as [(v1 & -> & Hv1)|(m & g & -> & Hm)]; [|right; by exists m, g].
  apply IH; [set_solver|done].
Qed.

(** The sender key target reduces to the security of the primitives.  On every
    input the target passes, with seeds of 32 bytes, ratchet keys at the requested
    generations and messages that decrypt to themselves, unless two of the inputs
    that it gives to the key derivation collide or one of its ciphertexts still
    decrypts with a byte changed. *)
Theorem sender_key_target_reduces c :
  typed c → target c = Ok tt ∨ collision c ∨ forgery c.
Proof.
  intros Hc. destruct (typed_epoch _ Hc) as [He0 He]. destruct (typed_index _ Hc) as [Hi0 Hi].
  unfold target. cbv zeta. set (secret := as_bytes (epoch_secret c)).
  set (seed := derive_sender_key_seed secret (epoch c) (sender_index c)).
  assert (zlen seed =? 32 = true) as Hlen by (unfold zlen, seed, derive_sender_key_seed; by rewrite hkdf_length).
  unfold assert_. munfold. rewrite Hlen, bool_decide_true by done.
  destruct (loop_passes c seed (operations c) {| ratchet := new seed; last_key := None |} Hc) as [Hrun|]; [done| |
    |by right; right]; [split; [by exists 0|done]|].
  assert (epoch c < U64_MAX → seed ≠ derive_sender_key_seed secret (epoch c + 1) (sender_index c) ∨ collision c) as Hq1.
  { intros Hlt. destruct (decide (seed = derive_sender_key_seed secret (epoch c + 1) (sender_index c))) as [Heq|]; [right|by left].
    eexists _, _. split_and!; [..|exact Heq]; [unfold infos; set_solver..|]. intros [? _]%seed_info_inj; lia. }
  assert (sender_index c < U32_MAX → seed ≠ derive_sender_key_seed secret (epoch c) (sender_index c + 1) ∨ collision c) as Hq2.
  { intros Hlt. destruct (decide (seed = derive_sender_key_seed secret (epoch c) (sender_index c + 1))) as [Heq|]; [right|by left].
    eexists _, _. split_and!; [..|exact Heq]; [unfold infos; set_solver..|]. intros [_ ?]%seed_info_inj; lia. }
  destruct (epoch c <? U64_MAX) eqn:E1; bool_to_prop; [destruct (Hq1 E1) as [N1|]; [|by right; left]; rewrite (bool_decide_false _ N1)|];
  (destruct (sender_index c <? U32_MAX) eqn:E2; bool_to_prop; [destruct (Hq2 E2) as [N2|]; [|by right; left]; rewrite (bool_decide_false _ N2)|]);
    left; exact Hrun.
Qed.
End target.
End sender_key.

(** ** Witnesses *)
Section crypto_witnesses.
#[local] Existing Instances ToyEd25519.ed ToyEd25519.ed_ok.

Definition demo_signature : mls_signature.FuzzInput :=
  {| mls_signature.seed := replicate 32 Byte.x05; mls_signature.attack := mls_signature.TamperedData (mls_signature.TRoomId 6) |}.
(** The toy scheme verifies only its own signatures; the frame with another room is
    refused. *)
Lemma signature_target_exact_witness :
  mls_signature.typed demo_signature ∧ fst (mls_signature.target demo_signature tt) = Ok tt.
Proof.
  assert (mls_signature.typed demo_signature) as Hd by (split; [done|cbn; lia]).
  split; [exact Hd|]. apply (mls_signature.signature_target_exact demo_signature Hd).
  intros key msg sig [= <- <- <-]. vm_compute. reflexivity.
Defined.
End crypto_witnesses.

(** Primitives with outputs of the documented sizes: keyed functions that cut or pad
    their inputs to 32 bytes, and a cipher that appends a tag of the plaintext. *)
Module SizedPrimitives.
Definition pad (n : nat) (bs : bytes) : bytes := take n (bs ++ replicate n Byte.x00).
Lemma length_pad n bs : length (pad n bs) = n.
Proof. unfold pad. rewrite length_take, length_app, length_replicate. lia. Qed.
Definition prims : Primitives := {|
  hmac_sha256 k m := pad 32 (k ++ m);
  hkdf_sha256 s i := pad 32 (drop 17 i ++ s);
  aead_encrypt k n p := Some (p ++ pad 16 (rev p));
  aead_decrypt k n c :=
    let p := take (length c - 16) c in if bool_decide (c = p ++ pad 16 (rev p)) then Some p else None;
|}.
Lemma sized_prims_ok : PrimitivesOk (H := prims).
Proof.
  intros k n p c [= <-]. cbn. rewrite length_app, length_pad. replace (length p + 16 - 16)%nat with (length p) by lia.
  rewrite take_app_length, bool_decide_true; done.
Qed.
Lemma prims_sized : sender_key.Sized (H := prims).
Proof.
  split; cbn; intros; rewrite ?length_pad; [done|done|by eexists|]. simplify_eq. by rewrite length_app, length_pad.
Qed.
End SizedPrimitives.

Definition demo_sender : sender_key.SenderKeyScenario :=
  {| sender_key.epoch_secret := sender_key.Empty; sender_key.epoch := 3; sender_key.sender_index := 1;
     sender_key.operations := [sender_key.Advance; sender_key.AdvanceTo 5; sender_key.Encrypt [Byte.x01; Byte.x02];
                               sender_key.VerifyDeterminism];
     sender_key.random_bytes := replicate 8 Byte.x09 |}.
Lemma sender_key_target_reduces_witness :
  let P := SizedPrimitives.prims in
  sender_key.typed demo_sender
  ∧ (sender_key.target (H := P) demo_sender = Ok tt ∨ sender_key.collision (H := P) demo_sender ∨ sender_key.forgery (H := P) demo_sender).
Proof.
  intros P. assert (sender_key.typed demo_sender) as Hd.
  { split; [cbn; lia|cbn; lia|done|]. cbn [demo_sender sender_key.operations].
    apply Forall_cons; [done|]. apply Forall_cons; [lia|]. apply Forall_cons; [by vm_compute|]. by apply Forall_cons. }
  split; [exact Hd|].
  exact (sender_key.sender_key_target_reduces (H := P) (H0 := SizedPrimitives.sized_prims_ok) (H1 := SizedPrimitives.prims_sized) demo_sender Hd).
Defined.
